(** * AdaptiveMindscape: the reflection loop and its toy learning engine

    A shallow embedding of [server/neural-engine.ts] (class [NeuralEngine]),
    of the [ReflectionEngine] of [server/routes.ts] and of the
    [DatabaseStorage] they call, followed by the properties of the
    specification that were checked against them.

    Conventions of the embedding.
    - A JavaScript string is a [string]: a sequence of code units below 256.
    - A JavaScript number that is only ever an index, a size or a counter is
      a [nat], [N] or [Z]; a number that carries a measurement is a [Q]
      (the arithmetic is exact, rounding is not modelled), and [num] adds
      the value NaN where the source can produce it.
    - [Math.exp] only occurs in [softmax], which is modelled over [R].
    - Everything the source obtains from outside (the database, the clock of
      the event loop, [Math.random], the OpenAI client, stop requests) is
      read from an [Oracle]; theorems quantify over it. *)

From Stdlib Require Import QArith Qround Reals Lra Sorted.
From Equations Require Import Equations.
From stdpp Require Import gmap strings list fin_maps.
From Stdlib Require Import Ascii String.

Local Open Scope string_scope.
Local Open Scope nat_scope.

(** ** JavaScript strings *)

Module JS.

(** The code units matched by the regular expression class [\s]. *)
Definition isWhiteSpace (c : ascii) : bool :=
  let n := nat_of_ascii c in
  (9 <=? n) && (n <=? 13) || (n =? 32) || (n =? 160).

(** [String.prototype.toLowerCase], one code unit at a time: the letters
    A-Z and the upper-case letters of Latin-1 move 32 places up. *)
Definition lowerChar (c : ascii) : ascii :=
  let n := nat_of_ascii c in
  if (65 <=? n) && (n <=? 90)
     || (192 <=? n) && (n <=? 222) && negb (n =? 215)
  then ascii_of_nat (n + 32) else c.

Fixpoint toLowerCase (s : string) : string :=
  match s with
  | EmptyString => EmptyString
  | String c r => String (lowerChar c) (toLowerCase r)
  end.

(** [s.split(sep)] for a one-character separator: every occurrence of the
    separator ends a piece, so the result is never empty and may hold
    empty pieces. *)
Fixpoint split (sep : ascii) (s : string) : list string :=
  match s with
  | EmptyString => [EmptyString]
  | String c r =>
      if Ascii.eqb c sep then EmptyString :: split sep r
      else match split sep r with
           | w :: ws => String c w :: ws
           | [] => [String c EmptyString]
           end
  end.

(** [s.split(/\s+/)]: a maximal run of white space is one separator.
    [inRun] tells that the previous code unit was white space. *)
Fixpoint splitWhiteSpace (inRun : bool) (s : string) : list string :=
  match s with
  | EmptyString => [EmptyString]
  | String c r =>
      if isWhiteSpace c then
        if inRun then splitWhiteSpace true r
        else EmptyString :: splitWhiteSpace true r
      else match splitWhiteSpace false r with
           | w :: ws => String c w :: ws
           | [] => [String c EmptyString]
           end
  end.

(** [s.substring(0, len)]. *)
Fixpoint substringTo (len : nat) (s : string) : string :=
  match len, s with
  | S n, String c r => String c (substringTo n r)
  | _, _ => EmptyString
  end.

(** [s.substring(start)]. *)
Fixpoint substringFrom (start : nat) (s : string) : string :=
  match start, s with
  | S n, String _ r => substringFrom n r
  | _, _ => s
  end.

(** [s[0]] for a non-empty [s] (the source never indexes an empty one). *)
Definition charAt0 (s : string) : string := substringTo 1 s.

(** [pieces.join(sep)]. *)
Fixpoint join (sep : string) (pieces : list string) : string :=
  match pieces with
  | [] => EmptyString
  | [w] => w
  | w :: ws => w ++ sep ++ join sep ws
  end.

Definition concat (pieces : list string) : string :=
  fold_right String.append EmptyString pieces.

End JS.

(** ** Tokenizer: subword segmentation *)

(** The inner [for] loop of [getSubwords]: from [len] downwards, the first
    prefix of [remaining] that is a vocabulary entry, or the prefix of
    length one.  When the counter reaches zero the initial value of
    [bestSubword], [remaining[0]], is left in place. *)
Fixpoint longestMatch (vocabulary : gmap string nat) (remaining : string)
    (len : nat) : string :=
  match len with
  | O => JS.charAt0 remaining
  | S len' =>
      let candidate := JS.substringTo len remaining in
      if bool_decide (is_Some (vocabulary !! candidate)) || (len =? 1)
      then candidate
      else longestMatch vocabulary remaining len'
  end.

Definition bestSubword (vocabulary : gmap string nat) (remaining : string)
    : string :=
  longestMatch vocabulary remaining (Nat.min (String.length remaining) 8).

Lemma substringTo_length (len : nat) (s : string) :
  String.length (JS.substringTo len s) = Nat.min len (String.length s).
Proof.
  revert s; induction len as [|n IH]; intros [|c r]; simpl; auto.
Qed.

Lemma substringFrom_length (start : nat) (s : string) :
  String.length (JS.substringFrom start s) = String.length s - start.
Proof.
  revert s; induction start as [|n IH]; intros [|c r]; simpl; auto.
Qed.

Lemma append_String (c : ascii) (s t : string) :
  String c s ++ t = String c (s ++ t).
Proof. reflexivity. Qed.

Lemma substring_split (len : nat) (s : string) :
  JS.substringTo len s ++ JS.substringFrom len s = s.
Proof.
  revert s; induction len as [|n IH]; intros [|c r]; simpl; auto.
  now rewrite append_String, IH.
Qed.

(** The chosen prefix is a prefix of between one and [len] code units. *)
Lemma longestMatch_prefix (vocabulary : gmap string nat) (remaining : string)
    (len : nat) :
  exists k, 1 <= k /\ k <= Nat.max len 1 /\
            longestMatch vocabulary remaining len = JS.substringTo k remaining.
Proof.
  induction len as [|n IH]; simpl.
  - exists 1. repeat split; lia.
  - destruct (bool_decide _ || _) eqn:E.
    + exists (S n). repeat split; lia.
    + destruct IH as (k & H1 & H2 & H3). exists k.
      apply orb_false_iff in E as [_ E].
      destruct n as [|n']; [discriminate |].
      split; [lia | split; [lia | exact H3]].
Qed.

Lemma bestSubword_length (vocabulary : gmap string nat) (remaining : string) :
  remaining <> EmptyString ->
  1 <= String.length (bestSubword vocabulary remaining) <= 8 /\
  String.length (bestSubword vocabulary remaining) <= String.length remaining.
Proof.
  intros Hne. unfold bestSubword.
  destruct (longestMatch_prefix vocabulary remaining
              (Nat.min (String.length remaining) 8)) as (k & H1 & H2 & ->).
  rewrite substringTo_length.
  destruct remaining as [|c r]; [congruence | simpl in *; lia].
Qed.

(** The [while] loop of [getSubwords].  Every turn removes the chosen prefix,
    which is not empty, so the remainder gets shorter: that is the measure
    of the recursion. *)
Equations? getSubwordsLoop (vocabulary : gmap string nat) (remaining : string)
    : list string by wf (String.length remaining) lt :=
  getSubwordsLoop vocabulary EmptyString := [];
  getSubwordsLoop vocabulary (String c r) :=
    bestSubword vocabulary (String c r)
      :: getSubwordsLoop vocabulary
           (JS.substringFrom
              (String.length (bestSubword vocabulary (String c r)))
              (String c r)).
Proof.
  rewrite substringFrom_length.
  pose proof (bestSubword_length vocabulary (String c r)) as H.
  simpl in *. assert (String c r <> EmptyString) as Hne by congruence.
  specialize (H Hne). lia.
Qed.

(** [getSubwords(word)]. *)
Definition getSubwords (vocabulary : gmap string nat) (word : string)
    : list string :=
  if String.length word <=? 3 then [word]
  else getSubwordsLoop vocabulary word.

(** ** Loss *)

(** [tokens[i] || ''] : an index past the end reads [undefined], and both
    [undefined] and the empty string are replaced by the empty string. *)
Definition tokenOrEmpty (tokens : list string) (i : nat) : string :=
  nth i tokens EmptyString.

(** [calculateLoss(modelOutput, gptTarget)]. *)
Definition calculateLoss (modelOutput gptTarget : string) : Q :=
  let modelTokens := JS.split " "%char modelOutput in
  let targetTokens := JS.split " "%char gptTarget in
  let maxLen := Nat.max (List.length modelTokens) (List.length targetTokens) in
  let loss :=
    fold_left
      (fun (loss : Q) (i : nat) =>
         let modelToken := tokenOrEmpty modelTokens i in
         let targetToken := tokenOrEmpty targetTokens i in
         if negb (String.eqb modelToken targetToken) then (loss + 1)%Q
         else loss)
      (seq 0 maxLen) 0%Q in
  (loss / inject_Z (Z.of_nat maxLen))%Q.

(** The loss as the specification words it: a position-wise count of
    mismatches between two token sequences, the shorter one padded with
    empty tokens, divided by the longer length.  The way a text is cut
    into tokens is the parameter [tokenize]. *)
Definition padTokens (n : nat) (tokens : list string) : list string :=
  (tokens ++ repeat EmptyString (n - List.length tokens))%list.

Fixpoint mismatches (xs ys : list string) : nat :=
  match xs, ys with
  | x :: xs', y :: ys' =>
      (if String.eqb x y then 0 else 1) + mismatches xs' ys'
  | _, _ => 0
  end.

Definition hammingLoss (tokenize : string -> list string)
    (output target : string) : Q :=
  let xs := tokenize output in
  let ys := tokenize target in
  let n := Nat.max (List.length xs) (List.length ys) in
  (inject_Z (Z.of_nat (mismatches (padTokens n xs) (padTokens n ys)))
     / inject_Z (Z.of_nat n))%Q.

(** ** Softmax *)

(** [Math.max(...logits)] for a non-empty array.  (For the empty array the
    source gets [-Infinity], which [softmax] then never uses: it maps over
    the empty array.) *)
Definition Math_max (logits : list R) : R :=
  match logits with
  | [] => 0%R
  | l :: rest => fold_left Rmax rest l
  end.

(** [softmax(logits)]. *)
Definition softmax (logits : list R) : list R :=
  let maxLogit := Math_max logits in
  let expLogits := map (fun l => exp (l - maxLogit)%R) logits in
  let sumExp := fold_left (fun sum e => (sum + e)%R) expLogits 0%R in
  map (fun e => (e / sumExp)%R) expLogits.

(** The sum of the entries of a vector, as [reduce((s, x) => s + x, 0)]. *)
Definition sumR (xs : list R) : R := fold_left (fun s x => (s + x)%R) xs 0%R.

(** ** Numbers of the weight matrices *)

(** A JavaScript number held in a weight or a bias: a finite value or NaN. *)
Inductive num : Type :=
| Num (q : Q)
| NaN.

Definition num_mul (x y : num) : num :=
  match x, y with
  | Num a, Num b => Num (a * b)%Q
  | _, _ => NaN
  end.

Definition num_sub (x y : num) : num :=
  match x, y with
  | Num a, Num b => Num (a - b)%Q
  | _, _ => NaN
  end.

(** "The same number": equal finite values, or NaN on both sides. *)
Definition num_same (x y : num) : Prop :=
  match x, y with
  | Num a, Num b => (a == b)%Q
  | NaN, NaN => True
  | _, _ => False
  end.

(** A value met where the source expects a number: a number, or an array
    of numbers. *)
Inductive jsval : Type :=
| VNum (x : num)
| VArr (xs : list num).

(** [v || 0] for [v] a number, an array or [undefined] ([None]): an array
    is truthy, the numbers 0 and NaN and [undefined] are falsy. *)
Definition orZero (v : option jsval) : jsval :=
  match v with
  | Some (VArr xs) => VArr xs
  | Some (VNum (Num q)) => if Qeq_bool q 0 then VNum (Num 0) else VNum (Num q)
  | Some (VNum NaN) => VNum (Num 0)
  | None => VNum (Num 0)
  end.

(** The conversion to number applied by [*]: an array is first printed
    (its elements joined by commas) and the text is parsed, so that the
    empty array gives 0, a one-element array its element, and a longer
    array NaN. *)
Definition toNumber (v : jsval) : num :=
  match v with
  | VNum x => x
  | VArr [] => Num 0
  | VArr [x] => x
  | VArr _ => NaN
  end.

(** ** Rows of the database (shared/schema.ts) *)

Inductive ReflectionType : Type :=
| user_input | analysis | memory_recall | strategy | refinement
| noise_injection.

Inductive InsightType : Type :=
| pattern_recognition | learning | optimization | adaptation | correction
| enhancement.

(** The [metadata] bag of a reflection, one shape per call site. *)
Inductive Metadata : Type :=
| MetaInput (noiseLevel reflectionCycles : Z)
| MetaAnalysis (timestamp : N) (previousReflections : nat)
| MetaMemory (insights_count : nat)
| MetaStrategy (refinement_level : Z)
| MetaNoise (noise_level : Z).

Record Session : Type := {
  s_id : Z; s_name : string; s_objective : string; s_isActive : bool;
  s_startTime : N; s_endTime : option N;
  s_totalReflections : nat; s_improvementRate : Z }.

Record Reflection : Type := {
  r_id : nat; r_sessionId : Z; r_cycle : Z; r_type : ReflectionType;
  r_content : string; r_timestamp : N; r_metadata : Metadata }.

Record MemoryInsight : Type := {
  mi_id : nat; mi_sessionId : Z; mi_type : InsightType; mi_content : string;
  mi_timestamp : N; mi_related_reflections : list Z }.

Record GeneratedContent : Type := {
  gc_id : nat; gc_sessionId : Z; gc_reflectionId : nat; gc_content : string;
  gc_isComplete : bool; gc_qualityScore : Z; gc_coherenceScore : Z;
  gc_goalAlignment : Z; gc_timestamp : N }.

(** A weight snapshot.  [biases] and [learningRate] are nullable columns. *)
Record ModelWeights : Type := {
  mw_id : nat; mw_sessionId : Z; mw_layerName : string;
  mw_weights : list (list num); mw_biases : option (list num);
  mw_learningRate : option Q; mw_lastUpdated : N }.

Record SubwordComponents : Type := {
  sc_length : nat; sc_isPrefix : bool; sc_isSuffix : bool;
  sc_containsVowels : bool; sc_containsConsonants : bool;
  sc_frequency : nat }.

Record TokenVocabulary : Type := {
  tv_id : nat; tv_sessionId : Z; tv_token : string; tv_tokenId : nat;
  tv_frequency : nat; tv_embedding : option (list Q);
  tv_subwordComponents : SubwordComponents; tv_createdAt : N }.

Record TrainingBatch : Type := {
  tb_id : nat; tb_sessionId : Z; tb_inputText : string;
  tb_targetOutput : string; tb_modelOutput : string; tb_loss : Q;
  tb_tokens : list nat; tb_timestamp : N }.

(** [lm_perplexity] holds the argument of [Math.exp]: the stored value is
    the exponential of this field. *)
Record LearningMetrics : Type := {
  lm_id : nat; lm_sessionId : Z; lm_epoch : nat; lm_totalLoss : Q;
  lm_averageLoss : Q; lm_perplexity : Q; lm_bleuScore : Q;
  lm_convergenceRate : Q; lm_vocabularySize : nat; lm_timestamp : N }.

Record Database : Type := {
  sessions : list Session;
  reflections : list Reflection;
  memoryInsights : list MemoryInsight;
  generatedContent : list GeneratedContent;
  modelWeights : list ModelWeights;
  tokenVocabulary : list TokenVocabulary;
  trainingBatches : list TrainingBatch;
  learningMetrics : list LearningMetrics }.

(** ** The two engines and the world they run in *)

Record NeuralEngine : Type := {
  sessionId : Z;
  vocabulary : gmap string nat;
  tokenEmbeddings : gmap nat (list Q);
  weights : list (string * list (list num));
  biases : list (string * list num);
  learningRate : Q;
  currentEpoch : nat }.

Record ReflectionEngine : Type := {
  session : option Session;
  currentCycle : Z;
  isGenerating : bool;
  neuralEngine : option NeuralEngine }.

Inductive WebSocketMessage : Type :=
| MsgReflection (data : Reflection)
| MsgGeneration (content : string) (isComplete : bool) (words : nat)
    (coherence goalAlignment : Z)
| MsgMemoryInsight (data : MemoryInsight)
| MsgPerformanceUpdate
    (responseQuality learningProgress avgReflectionTime memoryUtilization : Q).

(** What a rejected promise or a [throw] carries. *)
Inductive Error : Type :=
| SessionNotFound
| PersistenceFailure (operation : string) (time : N)
| ReferenceGenerationUnavailable
| TypeError (what : string).

Inductive LogLine : Type :=
| LogTrainingStepError (error : Error)
| LogGenerationFailed
| LogReflectionLoopError (error : Error).

(** [tick] counts the suspensions of the running task (database calls,
    network calls, timers): between two of them no other handler runs.
    [rng] counts the calls of [Math.random].  [sent] is what [broadcast]
    has handed to the connected clients, [console] what was logged. *)
Record World : Type := {
  engine : ReflectionEngine;
  db : Database;
  tick : N;
  rng : N;
  sent : list WebSocketMessage;
  console : list LogLine }.

(** What comes from outside, as functions of the two counters. *)
Record Oracle : Type := {
  (** the database call made at this suspension is rejected *)
  dbFails : N -> bool;
  (** a stop request is handled during this suspension *)
  stopRequested : N -> bool;
  (** the reply of the OpenAI client: [None] when the request fails,
      otherwise [choices[0].message.content || ""] *)
  openaiReply : N -> option string;
  (** the value of a call of [Math.random] *)
  randomAt : N -> Q;
  (** the text sampled by [forwardPass] *)
  forwardOutput : N -> string }.

(** ** The monad of the embedding: state and exceptions *)

Inductive Res (A : Type) : Type :=
| Ok (a : A)
| Throw (e : Error).
Arguments Ok {A} a.
Arguments Throw {A} e.

(** A computation transforms the world and returns or throws; what it did
    to the world before throwing stays done. *)
Definition M (A : Type) : Type := World -> Res A * World.

#[global] Instance M_ret : MRet M := fun A a w => (Ok a, w).

#[global] Instance M_bind : MBind M := fun A B f m w =>
  match m w with
  | (Ok a, w') => f a w'
  | (Throw e, w') => (Throw e, w')
  end.

Definition throw {A : Type} (e : Error) : M A := fun w => (Throw e, w).

(** [try { body } catch (error) { handler }]. *)
Definition tryCatch {A : Type} (body : M A) (handler : Error -> M A) : M A :=
  fun w =>
    match body w with
    | (Ok a, w') => (Ok a, w')
    | (Throw e, w') => handler e w'
    end.

Definition gets {A : Type} (f : World -> A) : M A := fun w => (Ok (f w), w).

Definition modify (f : World -> World) : M unit := fun w => (Ok tt, f w).

(** [for (const x of xs) { body }] threading an accumulator. *)
Fixpoint foldM {A B : Type} (body : B -> A -> M B) (acc : B) (xs : list A)
    : M B :=
  match xs with
  | [] => mret acc
  | x :: xs' => acc' ← body acc x; foldM body acc' xs'
  end.

Definition forM_ {A : Type} (xs : list A) (body : A -> M unit) : M unit :=
  foldM (fun _ x => body x) tt xs.

(** Field updates. *)
Definition updEngine (f : ReflectionEngine -> ReflectionEngine) (w : World)
    : World :=
  {| engine := f (engine w); db := db w; tick := tick w; rng := rng w;
     sent := sent w; console := console w |}.

Definition updDb (f : Database -> Database) (w : World) : World :=
  {| engine := engine w; db := f (db w); tick := tick w; rng := rng w;
     sent := sent w; console := console w |}.

Definition setTick (t : N) (w : World) : World :=
  {| engine := engine w; db := db w; tick := t; rng := rng w;
     sent := sent w; console := console w |}.

Definition setRng (n : N) (w : World) : World :=
  {| engine := engine w; db := db w; tick := tick w; rng := n;
     sent := sent w; console := console w |}.

Definition pushSent (m : WebSocketMessage) (w : World) : World :=
  {| engine := engine w; db := db w; tick := tick w; rng := rng w;
     sent := sent w ++ [m]; console := console w |}.

Definition pushConsole (l : LogLine) (w : World) : World :=
  {| engine := engine w; db := db w; tick := tick w; rng := rng w;
     sent := sent w; console := console w ++ [l] |}.

Definition setSession (s : option Session) (e : ReflectionEngine)
    : ReflectionEngine :=
  {| session := s; currentCycle := currentCycle e;
     isGenerating := isGenerating e; neuralEngine := neuralEngine e |}.

Definition setCurrentCycle (c : Z) (e : ReflectionEngine) : ReflectionEngine :=
  {| session := session e; currentCycle := c;
     isGenerating := isGenerating e; neuralEngine := neuralEngine e |}.

Definition setIsGenerating (b : bool) (e : ReflectionEngine)
    : ReflectionEngine :=
  {| session := session e; currentCycle := currentCycle e;
     isGenerating := b; neuralEngine := neuralEngine e |}.

Definition setNeuralEngine (n : option NeuralEngine) (e : ReflectionEngine)
    : ReflectionEngine :=
  {| session := session e; currentCycle := currentCycle e;
     isGenerating := isGenerating e; neuralEngine := n |}.

Definition setVocabulary (v : gmap string nat) (e : NeuralEngine)
    : NeuralEngine :=
  {| sessionId := sessionId e; vocabulary := v;
     tokenEmbeddings := tokenEmbeddings e; weights := weights e;
     biases := biases e; learningRate := learningRate e;
     currentEpoch := currentEpoch e |}.

Definition setTokenEmbeddings (m : gmap nat (list Q)) (e : NeuralEngine)
    : NeuralEngine :=
  {| sessionId := sessionId e; vocabulary := vocabulary e;
     tokenEmbeddings := m; weights := weights e;
     biases := biases e; learningRate := learningRate e;
     currentEpoch := currentEpoch e |}.

Definition setWeights (ws : list (string * list (list num)))
    (e : NeuralEngine) : NeuralEngine :=
  {| sessionId := sessionId e; vocabulary := vocabulary e;
     tokenEmbeddings := tokenEmbeddings e; weights := ws;
     biases := biases e; learningRate := learningRate e;
     currentEpoch := currentEpoch e |}.

Definition setBiases (bs : list (string * list num)) (e : NeuralEngine)
    : NeuralEngine :=
  {| sessionId := sessionId e; vocabulary := vocabulary e;
     tokenEmbeddings := tokenEmbeddings e; weights := weights e;
     biases := bs; learningRate := learningRate e;
     currentEpoch := currentEpoch e |}.

Definition setLearningRate (r : Q) (e : NeuralEngine) : NeuralEngine :=
  {| sessionId := sessionId e; vocabulary := vocabulary e;
     tokenEmbeddings := tokenEmbeddings e; weights := weights e;
     biases := biases e; learningRate := r;
     currentEpoch := currentEpoch e |}.

Definition setCurrentEpoch (n : nat) (e : NeuralEngine) : NeuralEngine :=
  {| sessionId := sessionId e; vocabulary := vocabulary e;
     tokenEmbeddings := tokenEmbeddings e; weights := weights e;
     biases := biases e; learningRate := learningRate e;
     currentEpoch := n |}.

(** [map.get(key)] and [map.set(key, value)] on a [Map] kept in insertion
    order: setting an existing key keeps its place. *)
Fixpoint mapGet {V : Type} (key : string) (m : list (string * V)) : option V :=
  match m with
  | [] => None
  | (k, v) :: m' => if String.eqb k key then Some v else mapGet key m'
  end.

Fixpoint mapSet {V : Type} (key : string) (value : V) (m : list (string * V))
    : list (string * V) :=
  match m with
  | [] => [(key, value)]
  | (k, v) :: m' =>
      if String.eqb k key then (k, value) :: m'
      else (k, v) :: mapSet key value m'
  end.

(** [orderBy(column)] as a stable sort: rows with equal keys keep the order
    in which they were inserted. *)
Fixpoint insertSorted {A : Type} (le : A -> A -> bool) (x : A) (l : list A)
    : list A :=
  match l with
  | [] => [x]
  | y :: l' => if le y x then y :: insertSorted le x l' else x :: y :: l'
  end.

Definition orderBy {A : Type} (le : A -> A -> bool) (l : list A) : list A :=
  fold_left (fun acc x => insertSorted le x acc) l [].

Definition updSessions (f : list Session -> list Session) (d : Database)
    : Database :=
  {| sessions := f (sessions d); reflections := reflections d;
     memoryInsights := memoryInsights d;
     generatedContent := generatedContent d;
     modelWeights := modelWeights d; tokenVocabulary := tokenVocabulary d;
     trainingBatches := trainingBatches d;
     learningMetrics := learningMetrics d |}.

Definition addReflection (r : Reflection) (d : Database) : Database :=
  {| sessions := sessions d; reflections := reflections d ++ [r];
     memoryInsights := memoryInsights d;
     generatedContent := generatedContent d;
     modelWeights := modelWeights d; tokenVocabulary := tokenVocabulary d;
     trainingBatches := trainingBatches d;
     learningMetrics := learningMetrics d |}.

Definition addMemoryInsight (r : MemoryInsight) (d : Database) : Database :=
  {| sessions := sessions d; reflections := reflections d;
     memoryInsights := memoryInsights d ++ [r];
     generatedContent := generatedContent d;
     modelWeights := modelWeights d; tokenVocabulary := tokenVocabulary d;
     trainingBatches := trainingBatches d;
     learningMetrics := learningMetrics d |}.

Definition addGeneratedContent (r : GeneratedContent) (d : Database)
    : Database :=
  {| sessions := sessions d; reflections := reflections d;
     memoryInsights := memoryInsights d;
     generatedContent := generatedContent d ++ [r];
     modelWeights := modelWeights d; tokenVocabulary := tokenVocabulary d;
     trainingBatches := trainingBatches d;
     learningMetrics := learningMetrics d |}.

Definition addModelWeights (r : ModelWeights) (d : Database) : Database :=
  {| sessions := sessions d; reflections := reflections d;
     memoryInsights := memoryInsights d;
     generatedContent := generatedContent d;
     modelWeights := modelWeights d ++ [r];
     tokenVocabulary := tokenVocabulary d;
     trainingBatches := trainingBatches d;
     learningMetrics := learningMetrics d |}.

Definition addTokenVocabulary (r : TokenVocabulary) (d : Database)
    : Database :=
  {| sessions := sessions d; reflections := reflections d;
     memoryInsights := memoryInsights d;
     generatedContent := generatedContent d;
     modelWeights := modelWeights d;
     tokenVocabulary := tokenVocabulary d ++ [r];
     trainingBatches := trainingBatches d;
     learningMetrics := learningMetrics d |}.

Definition addTrainingBatch (r : TrainingBatch) (d : Database) : Database :=
  {| sessions := sessions d; reflections := reflections d;
     memoryInsights := memoryInsights d;
     generatedContent := generatedContent d;
     modelWeights := modelWeights d; tokenVocabulary := tokenVocabulary d;
     trainingBatches := trainingBatches d ++ [r];
     learningMetrics := learningMetrics d |}.

Definition addLearningMetrics (r : LearningMetrics) (d : Database)
    : Database :=
  {| sessions := sessions d; reflections := reflections d;
     memoryInsights := memoryInsights d;
     generatedContent := generatedContent d;
     modelWeights := modelWeights d; tokenVocabulary := tokenVocabulary d;
     trainingBatches := trainingBatches d;
     learningMetrics := learningMetrics d ++ [r] |}.

Definition setTotalReflections (n : nat) (s : Session) : Session :=
  {| s_id := s_id s; s_name := s_name s; s_objective := s_objective s;
     s_isActive := s_isActive s; s_startTime := s_startTime s;
     s_endTime := s_endTime s; s_totalReflections := n;
     s_improvementRate := s_improvementRate s |}.

(** [ReflectionEngine.stop()], which the route [stop-reflection] calls. *)
Definition stop (w : World) : World := updEngine (setIsGenerating false) w.

(** The rows inserted by the program, before the database completes them
    with an id and a time stamp. *)
Record InsertReflection : Type := {
  ir_sessionId : Z; ir_cycle : Z; ir_type : ReflectionType;
  ir_content : string; ir_metadata : Metadata }.

Section Program.

Context (O : Oracle).

(** One suspension of the running task ([await] of a pending promise).
    The handlers of other requests run meanwhile; the one that matters
    to the loop is that of a stop request. *)
Definition afterSuspend (w : World) : World :=
  let w' := setTick (tick w + 1) w in
  if stopRequested O (tick w) then stop w' else w'.

Definition suspend : M N := fun w => (Ok (tick w), afterSuspend w).

(** A call to the database: one suspension, after which the call has
    either taken effect or been rejected. *)
Definition dbCall (operation : string) : M N :=
  t ← suspend;
  if dbFails O t then throw (PersistenceFailure operation t) else mret t.

(** [Math.random()]. *)
Definition Math_random : M Q := fun w =>
  (Ok (randomAt O (rng w)), setRng (rng w + 1) w).

(** [Array(n).fill(0).map(() => f(Math.random()))]: the callback runs once
    per index, in order, so the element of index [k] is made from the
    [k]-th next value of [Math.random], and [n] values are consumed. *)
Definition randomArray {A : Type} (f : Q -> A) (n : nat) : M (list A) :=
  fun w =>
    (Ok (map (fun k => f (randomAt O (rng w + N.of_nat k))) (seq 0 n)),
     setRng (rng w + N.of_nat n) w).

Definition broadcast (message : WebSocketMessage) : M unit :=
  modify (pushSent message).

(** *** DatabaseStorage (server/storage.ts) *)

Definition getSession (id : Z) : M (option Session) :=
  _ ← dbCall "getSession";
  gets (fun w => List.find (fun s => Z.eqb (s_id s) id) (sessions (db w))).

Definition createReflection (ins : InsertReflection) : M Reflection :=
  t ← dbCall "createReflection";
  n ← gets (fun w => List.length (reflections (db w)));
  let reflection :=
    {| r_id := S n; r_sessionId := ir_sessionId ins; r_cycle := ir_cycle ins;
       r_type := ir_type ins; r_content := ir_content ins; r_timestamp := t;
       r_metadata := ir_metadata ins |} in
  modify (updDb (addReflection reflection));;
  _ ← dbCall "createReflection";
  reflectionCount ← gets (fun w =>
    List.filter (fun r => Z.eqb (r_sessionId r) (ir_sessionId ins))
      (reflections (db w)));
  _ ← dbCall "createReflection";
  modify (updDb (updSessions (List.map (fun s =>
    if Z.eqb (s_id s) (ir_sessionId ins)
    then setTotalReflections (List.length reflectionCount) s else s))));;
  mret reflection.

Definition getReflectionsBySession (sid : Z) : M (list Reflection) :=
  _ ← dbCall "getReflectionsBySession";
  gets (fun w =>
    orderBy (fun a b => N.leb (r_timestamp a) (r_timestamp b))
      (List.filter (fun r => Z.eqb (r_sessionId r) sid) (reflections (db w)))).

Definition getRecentMemoryInsights (limit : nat) : M (list MemoryInsight) :=
  _ ← dbCall "getRecentMemoryInsights";
  gets (fun w =>
    take limit
      (orderBy (fun a b => N.leb (mi_timestamp b) (mi_timestamp a))
         (memoryInsights (db w)))).

Definition createMemoryInsight (sid : Z) (type : InsightType)
    (content : string) (related : list Z) : M MemoryInsight :=
  t ← dbCall "createMemoryInsight";
  n ← gets (fun w => List.length (memoryInsights (db w)));
  let insight :=
    {| mi_id := S n; mi_sessionId := sid; mi_type := type;
       mi_content := content; mi_timestamp := t;
       mi_related_reflections := related |} in
  modify (updDb (addMemoryInsight insight));;
  mret insight.

Definition createGeneratedContent (sid : Z) (reflectionId : nat)
    (content : string) (isComplete : bool)
    (qualityScore coherenceScore goalAlignment : Z) : M GeneratedContent :=
  t ← dbCall "createGeneratedContent";
  n ← gets (fun w => List.length (generatedContent (db w)));
  let row :=
    {| gc_id := S n; gc_sessionId := sid; gc_reflectionId := reflectionId;
       gc_content := content; gc_isComplete := isComplete;
       gc_qualityScore := qualityScore; gc_coherenceScore := coherenceScore;
       gc_goalAlignment := goalAlignment; gc_timestamp := t |} in
  modify (updDb (addGeneratedContent row));;
  mret row.

Definition createModelWeights (sid : Z) (layerName : string)
    (ws : list (list num)) (bs : list num) (rate : Q) : M unit :=
  t ← dbCall "createModelWeights";
  n ← gets (fun w => List.length (modelWeights (db w)));
  modify (updDb (addModelWeights
    {| mw_id := S n; mw_sessionId := sid; mw_layerName := layerName;
       mw_weights := ws; mw_biases := Some bs; mw_learningRate := Some rate;
       mw_lastUpdated := t |})).

Definition getModelWeightsBySession (sid : Z) : M (list ModelWeights) :=
  _ ← dbCall "getModelWeightsBySession";
  gets (fun w =>
    orderBy (fun a b => N.leb (mw_lastUpdated b) (mw_lastUpdated a))
      (List.filter (fun r => Z.eqb (mw_sessionId r) sid)
         (modelWeights (db w)))).

Definition createTokenVocabulary (sid : Z) (token : string) (tokenId : nat)
    (frequency : nat) (embedding : list Q) (components : SubwordComponents)
    : M unit :=
  t ← dbCall "createTokenVocabulary";
  n ← gets (fun w => List.length (tokenVocabulary (db w)));
  modify (updDb (addTokenVocabulary
    {| tv_id := S n; tv_sessionId := sid; tv_token := token;
       tv_tokenId := tokenId; tv_frequency := frequency;
       tv_embedding := Some embedding; tv_subwordComponents := components;
       tv_createdAt := t |})).

Definition getTokenVocabularyBySession (sid : Z) : M (list TokenVocabulary) :=
  _ ← dbCall "getTokenVocabularyBySession";
  gets (fun w =>
    orderBy (fun a b => Nat.leb (tv_frequency b) (tv_frequency a))
      (List.filter (fun r => Z.eqb (tv_sessionId r) sid)
         (tokenVocabulary (db w)))).

Definition getTokenByValue (sid : Z) (token : string)
    : M (option TokenVocabulary) :=
  _ ← dbCall "getTokenByValue";
  gets (fun w =>
    List.find
      (fun r => Z.eqb (tv_sessionId r) sid && String.eqb (tv_token r) token)
      (tokenVocabulary (db w))).

Definition createTrainingBatch (sid : Z) (inputText targetOutput
    modelOutput : string) (loss : Q) (tokens : list nat) : M unit :=
  t ← dbCall "createTrainingBatch";
  n ← gets (fun w => List.length (trainingBatches (db w)));
  modify (updDb (addTrainingBatch
    {| tb_id := S n; tb_sessionId := sid; tb_inputText := inputText;
       tb_targetOutput := targetOutput; tb_modelOutput := modelOutput;
       tb_loss := loss; tb_tokens := tokens; tb_timestamp := t |})).

Definition createLearningMetrics (sid : Z) (epoch : nat) (loss : Q)
    (bleuScore convergenceRate : Q) (vocabularySize : nat) : M unit :=
  t ← dbCall "createLearningMetrics";
  n ← gets (fun w => List.length (learningMetrics (db w)));
  modify (updDb (addLearningMetrics
    {| lm_id := S n; lm_sessionId := sid; lm_epoch := epoch;
       lm_totalLoss := loss; lm_averageLoss := loss; lm_perplexity := loss;
       lm_bleuScore := bleuScore; lm_convergenceRate := convergenceRate;
       lm_vocabularySize := vocabularySize; lm_timestamp := t |})).

(** *** NeuralEngine (server/neural-engine.ts) *)

(** The engine a method runs on is the one the reflection engine holds. *)
Definition this : M NeuralEngine := fun w =>
  match neuralEngine (engine w) with
  | Some e => (Ok e, w)
  | None => (Throw (TypeError "neuralEngine is null"), w)
  end.

Definition updThis (f : NeuralEngine -> NeuralEngine) : M unit :=
  modify (updEngine (fun re =>
    setNeuralEngine (option_map f (neuralEngine re)) re)).

Fixpoint mapM {A B : Type} (f : A -> M B) (xs : list A) : M (list B) :=
  match xs with
  | [] => mret []
  | x :: xs' => y ← f x; ys ← mapM f xs'; mret (y :: ys)
  end.

Fixpoint replicateM {A : Type} (n : nat) (m : M A) : M (list A) :=
  match n with
  | 0 => mret []
  | S n' => x ← m; xs ← replicateM n' m; mret (x :: xs)
  end.

Definition dimensions : list (string * (N * N)) :=
  [ ("embedding", (512, 128)%N); ("attention", (128, 128)%N);
    ("feedforward", (128, 256)%N); ("output", (256, 50257)%N) ].

(** [(Math.random() - 0.5) * 0.1]. *)
Definition smallRandom (r : Q) : Q := ((r - (1 # 2)) * (1 # 10))%Q.

Definition initializeWeights : M unit :=
  forM_ dimensions (fun '(layer, (rows, cols)) =>
    ws ← replicateM (N.to_nat rows)
           (randomArray (fun r => Num (smallRandom r)) (N.to_nat cols));
    bias ← randomArray (fun r => Num (smallRandom r)) (N.to_nat cols);
    updThis (fun e => setWeights (mapSet layer ws (weights e)) e);;
    updThis (fun e => setBiases (mapSet layer bias (biases e)) e)).

(** [new NeuralEngine(sessionId)], stored in the field [neuralEngine]. *)
Definition newNeuralEngine (sid : Z) : M unit :=
  modify (updEngine (setNeuralEngine (Some
    {| sessionId := sid; vocabulary := ∅; tokenEmbeddings := ∅;
       weights := []; biases := []; learningRate := (1 # 1000)%Q;
       currentEpoch := 0 |})));;
  initializeWeights.

Definition generateTokenEmbedding : M (list Q) := randomArray smallRandom 128.

Fixpoint existsChar (p : ascii -> bool) (s : string) : bool :=
  match s with
  | EmptyString => false
  | String c r => p c || existsChar p r
  end.

Definition charIn (set : string) (c : ascii) : bool :=
  existsChar (Ascii.eqb c) set.

Definition endsWith (suffix s : string) : bool :=
  (String.length suffix <=? String.length s)
  && String.eqb
       (JS.substringFrom (String.length s - String.length suffix) s) suffix.

Definition analyzeSubwordComponents (subword : string) : SubwordComponents :=
  {| sc_length := String.length subword;
     sc_isPrefix := endsWith "##" subword;
     sc_isSuffix := String.prefix "##" subword;
     sc_containsVowels := existsChar (charIn "aeiou") subword;
     sc_containsConsonants :=
       existsChar (charIn "bcdfghjklmnpqrstvwxyz") subword;
     sc_frequency := 1 |}.

(** The body of the inner loop of [tokenizeText].  The test [!tokenId]
    holds when the subword is absent ([undefined]) and when its id is 0. *)
Definition tokenizeSubword (tokens : list nat) (subword : string)
    : M (list nat) :=
  e ← this;
  match vocabulary e !! subword with
  | Some (S n) =>
      _ ← getTokenByValue (sessionId e) subword;
      mret (tokens ++ [S n])%list
  | _ =>
      let tokenId := size (vocabulary e) in
      updThis (fun e => setVocabulary (<[subword := tokenId]> (vocabulary e)) e);;
      embedding ← generateTokenEmbedding;
      createTokenVocabulary (sessionId e) subword tokenId 1 embedding
        (analyzeSubwordComponents subword);;
      mret (tokens ++ [tokenId])%list
  end.

Definition tokenizeWord (tokens : list nat) (word : string) : M (list nat) :=
  e ← this;
  foldM tokenizeSubword tokens (getSubwords (vocabulary e) word).

(** [tokenizeText(text)]. *)
Definition tokenizeText (text : string) : M (list nat) :=
  foldM tokenizeWord [] (JS.splitWhiteSpace false (JS.toLowerCase text)).

(** The subwords into which a vocabulary cuts the words of a text. *)
Definition textSubwords (voc : gmap string nat) (text : string)
    : list string :=
  flat_map (getSubwords voc) (JS.splitWhiteSpace false (JS.toLowerCase text)).

(** [forwardPass(tokens)].  It reads the weights and [Math.random], writes
    nothing and calls no storage; the text it samples is the oracle's. *)
Definition forwardPass (tokens : list nat) : M string := fun w =>
  (Ok (forwardOutput O (rng w)), setRng (rng w + 1) w).

(** [(Math.random() - 0.5) * loss * 0.01]. *)
Definition gradientNoise (loss : Q) (r : Q) : num :=
  Num ((r - (1 # 2)) * loss * (1 # 100))%Q.

(** [this.biases.get(layerName)!]: reading a property of the result throws
    when the layer has no bias vector. *)
Definition biasesOf (layerName : string) : M (list num) :=
  e ← this;
  match mapGet layerName (biases e) with
  | Some bs => mret bs
  | None => throw (TypeError "biases of the layer are undefined")
  end.

(** [calculateGradients(loss, modelOutput, gptTarget)].  The gradient of a
    bias vector is stored as a matrix of one row. *)
Definition calculateGradients (loss : Q) (modelOutput gptTarget : string)
    : M (gmap string (list (list num))) :=
  e ← this;
  foldM (fun gradients '(layerName, ws) =>
      g ← mapM (fun row : list num =>
                  randomArray (gradientNoise loss) (List.length row)) ws;
      bs ← biasesOf layerName;
      gb ← randomArray (gradientNoise loss) (List.length bs);
      mret (<[layerName ++ "_bias" := [gb]]> (<[layerName := g]> gradients)))
    ∅ (weights e).

(** The new value of a weight: [w - learningRate * (g[i]?.[j] || 0)]. *)
Definition updatedWeight (rate : Q) (layerGradients : list (list num))
    (i j : nat) (w : num) : num :=
  let gradient :=
    orZero (VNum <$> (layerGradients !! i ≫= fun row => row !! j)) in
  num_sub w (num_mul (Num rate) (toNumber gradient)).

(** The new value of a bias: [b - learningRate * (biasGradients[i] || 0)],
    where [biasGradients[i]] is a row of the one-row matrix. *)
Definition updatedBias (rate : Q) (biasGradients : list (list num))
    (i : nat) (b : num) : num :=
  let gradient := orZero (VArr <$> (biasGradients !! i)) in
  num_sub b (num_mul (Num rate) (toNumber gradient)).

Definition saveWeightsToDatabase : M unit :=
  e ← this;
  forM_ (weights e) (fun '(layerName, ws) =>
    bs ← biasesOf layerName;
    createModelWeights (sessionId e) layerName ws bs (learningRate e)).

(** [updateWeights(loss, modelOutput, gptTarget)]. *)
Definition updateWeights (loss : Q) (modelOutput gptTarget : string)
    : M unit :=
  gradients ← calculateGradients loss modelOutput gptTarget;
  e ← this;
  forM_ (weights e) (fun '(layerName, layerWeights) =>
    let layerGradients := default [] (gradients !! layerName) in
    updThis (fun e =>
      setWeights
        (mapSet layerName
           (imap (fun i row =>
                    imap (updatedWeight (learningRate e) layerGradients i) row)
              layerWeights)
           (weights e)) e);;
    bs ← biasesOf layerName;
    let biasGradients := default [] (gradients !! (layerName ++ "_bias")) in
    updThis (fun e =>
      setBiases
        (mapSet layerName
           (imap (updatedBias (learningRate e) biasGradients) bs)
           (biases e)) e));;
  saveWeightsToDatabase.

Definition calculateBleuScore (modelOutput target : string) : Q :=
  let modelWords := JS.split " "%char modelOutput in
  let targetWords := JS.split " "%char target in
  let matches :=
    List.length
      (List.filter (fun word => existsb (String.eqb word) targetWords)
         modelWords) in
  if 0 <? List.length modelWords
  then (inject_Z (Z.of_nat matches)
          / inject_Z (Z.of_nat (List.length modelWords)))%Q
  else 0%Q.

Definition calculateConvergenceRate (currentLoss : Q) : Q :=
  Qminmax.Qmax 0 (1 - currentLoss).

(** The request to the OpenAI client made by [trainStep]. *)
Definition openaiCreate (inputText : string) : M string :=
  t ← suspend;
  match openaiReply O t with
  | Some content => mret content
  | None => throw ReferenceGenerationUnavailable
  end.

(** [trainStep(inputText, broadcast)]. *)
Definition trainStep (inputText : string) : M unit :=
  tryCatch
    (gptTarget ← openaiCreate inputText;
     tokens ← tokenizeText inputText;
     modelOutput ← forwardPass tokens;
     let loss := calculateLoss modelOutput gptTarget in
     updateWeights loss modelOutput gptTarget;;
     e ← this;
     createTrainingBatch (sessionId e) inputText gptTarget modelOutput loss
       tokens;;
     e ← this;
     updThis (setCurrentEpoch (S (currentEpoch e)));;
     createLearningMetrics (sessionId e) (currentEpoch e) loss
       (calculateBleuScore modelOutput gptTarget)
       (calculateConvergenceRate loss) (size (vocabulary e));;
     broadcast (MsgPerformanceUpdate
       (Qminmax.Qmax 0 (100 - loss * 100))
       (Qminmax.Qmin 100 ((1 - loss) * 100))
       (5 # 2)
       (Qminmax.Qmin 100
          (inject_Z (Z.of_nat (size (vocabulary e))) / 1000 * 100))))
    (fun error => modify (pushConsole (LogTrainingStepError error))).

(** [loadWeights()]. *)
Definition loadWeights : M unit :=
  e ← this;
  savedWeights ← getModelWeightsBySession (sessionId e);
  savedTokens ← getTokenVocabularyBySession (sessionId e);
  forM_ savedTokens (fun token =>
    updThis (fun e =>
      setVocabulary (<[tv_token token := tv_tokenId token]> (vocabulary e)) e);;
    match tv_embedding token with
    | Some embedding =>
        updThis (fun e =>
          setTokenEmbeddings
            (<[tv_tokenId token := embedding]> (tokenEmbeddings e)) e)
    | None => mret tt
    end);;
  forM_ savedWeights (fun weightRecord =>
    updThis (fun e =>
      setWeights
        (mapSet (mw_layerName weightRecord) (mw_weights weightRecord)
           (weights e)) e);;
    match mw_biases weightRecord with
    | Some bs =>
        updThis (fun e =>
          setBiases (mapSet (mw_layerName weightRecord) bs (biases e)) e)
    | None => mret tt
    end;;
    match mw_learningRate weightRecord with
    | Some rate =>
        if Qeq_bool rate 0 then mret tt else updThis (setLearningRate rate)
    | None => mret tt
    end).

(** *** ReflectionEngine (server/routes.ts) *)

(** The double quote, and the line feed, of the template literals. *)
Definition dq : string := String (ascii_of_nat 34) EmptyString.
Definition nl : string := String (ascii_of_nat 10) EmptyString.

(** [templates[cycle % templates.length]]. *)
Definition pick (templates : list string) (cycle : Z) : string :=
  nth (Z.to_nat (Z.rem cycle (Z.of_nat (List.length templates)))) templates
    EmptyString.

(** [Math.floor(base + Math.random() * span)]. *)
Definition randomScore (base span : Z) : M Z :=
  r ← Math_random;
  mret (Qfloor (inject_Z base + r * inject_Z span)).

Definition analysisTemplates (userInput : string) : list string :=
  [ "Analyzing user input " ++ dq ++ userInput ++ dq ++ " - this appears to be a creative writing request that requires narrative structure and emotional depth.";
    "Breaking down the request: " ++ dq ++ userInput ++ dq ++ " - identifying key themes of time, mystery, and human connection.";
    "Examining the creative elements in " ++ dq ++ userInput ++ dq ++ " - considering plot development, character motivation, and atmospheric details.";
    "Processing the user's intent: " ++ dq ++ userInput ++ dq ++ " - balancing genre conventions with original storytelling approaches." ].

Definition createAnalysisReflection (sid cycle : Z) (userInput : string)
    (previousReflections : list Reflection) : M Reflection :=
  now ← gets tick;
  createReflection
    {| ir_sessionId := sid; ir_cycle := cycle; ir_type := analysis;
       ir_content := pick (analysisTemplates userInput) cycle;
       ir_metadata := MetaAnalysis now (List.length previousReflections) |}.

Definition memoryTemplates : list string :=
  [ "Recalling patterns from previous generations - narrative structures that resonated with readers and created emotional impact.";
    "Drawing from stored experience - character development techniques that build authentic personality and motivation.";
    "Accessing learned approaches - dialogue patterns that feel natural while advancing plot and revealing character.";
    "Retrieving successful strategies - pacing methods that maintain reader engagement throughout the story." ].

Definition createMemoryReflection (sid cycle : Z)
    (insights : list MemoryInsight) : M Reflection :=
  createReflection
    {| ir_sessionId := sid; ir_cycle := cycle; ir_type := memory_recall;
       ir_content := pick memoryTemplates cycle;
       ir_metadata := MetaMemory (List.length insights) |}.

Definition strategyTemplates : list string :=
  [ "Strategy: Begin with an intriguing hook that establishes the time travel mechanism while introducing the romantic tension between characters.";
    "Refinement: Layer mystery elements throughout the narrative, using temporal paradoxes to create suspense while developing character relationships.";
    "Enhancement: Weave together the three genres by making the mystery central to the romance, with time travel as both obstacle and solution.";
    "Optimization: Focus on emotional resonance - ensure each time jump reveals character depth and advances both romantic and mystery plots." ].

Definition createStrategyReflection (sid cycle : Z) (userInput : string)
    (previousReflections : list Reflection) : M Reflection :=
  createReflection
    {| ir_sessionId := sid; ir_cycle := cycle;
       ir_type := if Z.eqb cycle 1 then strategy else refinement;
       ir_content := pick strategyTemplates cycle;
       ir_metadata := MetaStrategy cycle |}.

Definition noiseElements : list string :=
  [ "Unexpected temporal paradox: What if changing the past creates a memory loop where the protagonist remembers multiple timelines simultaneously?";
    "Genre twist: The mystery isn't about solving a crime, but preventing one that hasn't happened yet through careful time manipulation.";
    "Character surprise: The love interest is actually from a different time period, adding layers to both romance and mystery elements.";
    "Narrative innovation: Tell parts of the story backwards, with each time jump revealing earlier events in the mystery." ].

Definition createNoiseReflection (sid cycle noiseLevel : Z) : M Reflection :=
  r ← Math_random;
  createReflection
    {| ir_sessionId := sid; ir_cycle := cycle; ir_type := noise_injection;
       ir_content :=
         nth (Z.to_nat (Qfloor (r * 4))) noiseElements EmptyString;
       ir_metadata := MetaNoise noiseLevel |}.

Definition insightTypes : list InsightType :=
  [ pattern_recognition; learning; optimization; adaptation; correction;
    enhancement ].

Definition insightContent (type : InsightType) : string :=
  match type with
  | pattern_recognition =>
      "Identified preference for narrative structure in user requests"
  | learning => "Improved response coherence through iterative feedback"
  | optimization =>
      "Enhanced contextual understanding through reflection cycles"
  | adaptation =>
      "Adjusted tone and style based on user interaction patterns"
  | correction => "Refined accuracy through self-correction mechanisms"
  | enhancement => "Strengthened creative elements through noise injection"
  end.

(** [generateMemoryInsight(sessionId)].  [Math.random] lies in [0, 1), so
    the index is one of the six types. *)
Definition generateMemoryInsight (sid : Z) : M unit :=
  r ← Math_random;
  let type := nth (Z.to_nat (Qfloor (r * 6))) insightTypes enhancement in
  cycle ← gets (fun w => currentCycle (engine w));
  insight ← createMemoryInsight sid type (insightContent type) [cycle];
  broadcast (MsgMemoryInsight insight).

Definition updatePerformanceMetrics (sid : Z) : M unit :=
  responseQuality ← randomScore 85 15;
  learningProgress ← randomScore 8 12;
  r ← Math_random;
  memoryUtilization ← randomScore 60 25;
  broadcast (MsgPerformanceUpdate (inject_Z responseQuality)
    (inject_Z learningProgress) ((3 # 2) + r * 2) (inject_Z memoryUtilization)).

(** [performReflectionCycle(sessionId, userInput, cycle, noiseLevel)]. *)
Definition performReflectionCycle (sid : Z) (userInput : string)
    (cycle noiseLevel : Z) : M unit :=
  previousReflections ← getReflectionsBySession sid;
  insights ← getRecentMemoryInsights 10;
  analysisReflection ←
    createAnalysisReflection sid cycle userInput previousReflections;
  broadcast (MsgReflection analysisReflection);;
  memoryReflection ← createMemoryReflection sid cycle insights;
  broadcast (MsgReflection memoryReflection);;
  strategyReflection ←
    createStrategyReflection sid cycle userInput previousReflections;
  broadcast (MsgReflection strategyReflection);;
  (if (0 <? noiseLevel)%Z then
     noiseReflection ← createNoiseReflection sid cycle noiseLevel;
     broadcast (MsgReflection noiseReflection)
   else mret tt);;
  generateMemoryInsight sid;;
  updatePerformanceMetrics sid.

(** [generateTemplateContent(userInput, reflections)]: a fixed text.  The
    dashes between clauses are code units above 255 and are written here
    in UTF-8. *)
Definition generateTemplateContent (userInput : string)
    (reflections : list Reflection) : string :=
  "# The Temporal Equation" ++ nl ++ nl
  ++ "Dr. Sarah Chen stared at the equations covering her laboratory whiteboard, each formula a stepping stone toward the impossible. The mathematics of time travel had consumed three years of her life, but tonight, something was different. The numbers aligned with an elegant precision that made her heart race." ++ nl ++ nl
  ++ dq ++ "Another late night?" ++ dq ++ " The voice belonged to Marcus Rivera, the detective whose murder case had brought them together six months ago. His presence in her lab should have been unwelcome—Sarah preferred solitude when working through temporal mechanics—but she found herself looking forward to their conversations." ++ nl ++ nl
  ++ dq ++ "Time doesn't keep regular hours," ++ dq ++ " she replied, not turning from the board. " ++ dq ++ "Neither do breakthroughs." ++ dq ++ nl ++ nl
  ++ "Marcus stepped closer, studying the incomprehensible symbols. " ++ dq ++ "Any chance your breakthrough could help solve a murder that happened tomorrow?" ++ dq ++ nl ++ nl
  ++ "Sarah's marker froze mid-equation. " ++ dq ++ "What did you say?" ++ dq ++ nl ++ nl
  ++ dq ++ "I got a case file today. Victim: Dr. Sarah Chen. Time of death: tomorrow at 11:47 PM. Location: this laboratory." ++ dq ++ " Marcus's voice was steady, but his eyes betrayed the fear he was trying to hide. " ++ dq ++ "The killer left a note: 'Some equations shouldn't be solved.'" ++ dq ++ nl ++ nl
  ++ "The marker clattered to the floor. Sarah's temporal mathematics suddenly felt less like scientific triumph and more like a countdown timer she couldn't see." ++ nl ++ nl
  ++ "This story weaves together the mystery of preventing a predetermined murder, the romance blooming between two brilliant minds, and the science fiction elements of time manipulation—all while exploring whether knowledge of the future dooms us to repeat it or gives us the power to change it.".

(** One turn of the streaming loop of [generateFinalContent]: the state is
    [(currentContent, wordCount)]. *)
Definition streamWord (state : string * nat) (word : string)
    : M (string * nat) :=
  let '(currentContent, wordCount) := state in
  let currentContent :=
    currentContent ++ (if 0 <? wordCount then " " else EmptyString) ++ word in
  let wordCount := S wordCount in
  coherence ← randomScore 85 15;
  goalAlignment ← randomScore 80 20;
  broadcast (MsgGeneration currentContent false wordCount coherence
    goalAlignment);;
  _ ← Math_random;
  _ ← suspend;
  mret (currentContent, wordCount).

(** [reflections[reflections.length - 1]?.id || 0]. *)
Definition lastReflectionId (reflections : list Reflection) : nat :=
  match last reflections with
  | Some r => r_id r
  | None => 0
  end.

(** [generateFinalContent(sessionId, userInput)]. *)
Definition generateFinalContent (sid : Z) (userInput : string) : M unit :=
  reflections ← getReflectionsBySession sid;
  _ ← getSession sid;
  ne ← gets (fun w => neuralEngine (engine w));
  fullContent ←
    match ne with
    | Some _ =>
        tryCatch
          (tokens ← tokenizeText userInput; forwardPass tokens)
          (fun _ =>
             modify (pushConsole LogGenerationFailed);;
             mret (generateTemplateContent userInput reflections))
    | None => mret (generateTemplateContent userInput reflections)
    end;
  '(_, wordCount) ←
    foldM streamWord (EmptyString, 0) (JS.split " "%char fullContent);
  coherence ← randomScore 90 10;
  goalAlignment ← randomScore 85 15;
  broadcast (MsgGeneration fullContent true wordCount coherence
    goalAlignment);;
  qualityScore ← randomScore 90 10;
  coherenceScore ← randomScore 85 15;
  goalAlignment ← randomScore 80 20;
  _ ← createGeneratedContent sid (lastReflectionId reflections) fullContent
        true qualityScore coherenceScore goalAlignment;
  mret tt.

(** The body of the [for] loop of [startReflectionLoop], the delay at its
    end included. *)
Definition cycleBody (sid : Z) (userInput : string) (cycle noiseLevel : Z)
    : M unit :=
  modify (updEngine (setCurrentCycle cycle));;
  performReflectionCycle sid userInput cycle noiseLevel;;
  ne ← gets (fun w => neuralEngine (engine w));
  match ne with
  | Some _ => trainStep userInput
  | None => mret tt
  end;;
  _ ← suspend;
  mret tt.

(** The [for] loop of [startReflectionLoop], from the test of its
    condition for [cycle] on.  The loop makes at most [reflectionCycles]
    turns, which is the fuel it is given. *)
Fixpoint reflectionCyclesFrom (fuel : nat) (sid : Z) (userInput : string)
    (reflectionCycles noiseLevel : Z) (cycle : Z) : M unit :=
  match fuel with
  | 0 => mret tt
  | S fuel' =>
      generating ← gets (fun w => isGenerating (engine w));
      if (cycle <=? reflectionCycles)%Z && generating then
        cycleBody sid userInput cycle noiseLevel;;
        reflectionCyclesFrom fuel' sid userInput reflectionCycles noiseLevel
          (cycle + 1)
      else mret tt
  end.

(** [startReflectionLoop], up to the [try] block: the session is looked
    up, a new neural engine is installed and loaded, and the fields of the
    reflection engine are reset. *)
Definition beginReflectionLoop (sid : Z) : M unit :=
  s ← getSession sid;
  modify (updEngine (setSession s));;
  match s with
  | None => throw SessionNotFound
  | Some _ =>
      newNeuralEngine sid;;
      loadWeights;;
      modify (updEngine (setCurrentCycle 0));;
      modify (updEngine (setIsGenerating true))
  end.

(** The [try] block of [startReflectionLoop]. *)
Definition runReflectionLoop (sid : Z) (userInput : string)
    (reflectionCycles noiseLevel : Z) : M unit :=
  _ ← createReflection
        {| ir_sessionId := sid; ir_cycle := 0; ir_type := user_input;
           ir_content := userInput;
           ir_metadata := MetaInput noiseLevel reflectionCycles |};
  reflectionCyclesFrom (Z.to_nat reflectionCycles) sid userInput
    reflectionCycles noiseLevel 1;;
  generateFinalContent sid userInput.

(** [startReflectionLoop(sessionId, userInput, reflectionCycles,
    noiseLevel)]. *)
Definition startReflectionLoop (sid : Z) (userInput : string)
    (reflectionCycles noiseLevel : Z) : M unit :=
  beginReflectionLoop sid;;
  tryCatch (runReflectionLoop sid userInput reflectionCycles noiseLevel)
    (fun error =>
       modify (pushConsole (LogReflectionLoopError error));;
       throw error).

(** The answer of a route: a status and a message. *)
Record Response : Type := { status : nat; message : string }.

(** [POST /api/sessions/:id/start-reflection].  The loop is started in the
    background and its rejection is only logged; the answer does not
    depend on it. *)
Definition postStartReflection (sid : Z) (userInput : string)
    (reflectionCycles noiseLevel : Z) : M Response :=
  tryCatch (startReflectionLoop sid userInput reflectionCycles noiseLevel)
    (fun error => modify (pushConsole (LogReflectionLoopError error)));;
  mret {| status := 200; message := "Reflection started" |}.

(** [POST /api/sessions/:id/stop-reflection]. *)
Definition postStopReflection : M Response :=
  modify stop;;
  mret {| status := 200; message := "Reflection stopped" |}.

End Program.

(** The database never rejects a call. *)
Definition NoFail (O : Oracle) : Prop := forall t, dbFails O t = false.

(** No stop request is ever handled. *)
Definition NoStop (O : Oracle) : Prop := forall t, stopRequested O t = false.

(** The id that [tokenizeSubword] returns for a subword whose entry is
    [id], in a vocabulary of [n] entries. *)
Definition fixId (n id : nat) : nat :=
  match id with
  | 0 => n
  | S _ => id
  end.

(** [voc'] is [voc] with the entries of the subwords [subs] passed through
    [fixId n]. *)
Definition fixedOn (n : nat) (subs : list string) (voc voc' : gmap string nat)
    : Prop :=
  forall k,
    voc' !! k
    = (if bool_decide (k ∈ subs) then fixId n else fun i => i) <$> voc !! k.

(** ** What a computation does to the rows the loop is about *)

(** The session, cycle and kind of a reflection, and the session and
    completion flag of a generated content. *)
Definition reflKey (r : Reflection) : Z * Z * ReflectionType :=
  (r_sessionId r, r_cycle r, r_type r).

Definition contentKey (g : GeneratedContent) : Z * bool :=
  (gc_sessionId g, gc_isComplete g).

(** From [w] to [w'], reflections of keys [newReflections] and contents of
    keys [newContents] were appended, in this order, and nothing else
    happened to these two tables; the flag [isGenerating] was not set,
    and was cleared only by a stop request. *)
Record Step (O : Oracle) (newReflections : list (Z * Z * ReflectionType))
    (newContents : list (Z * bool)) (w w' : World) : Prop := {
  step_reflections :
    map reflKey (reflections (db w'))
    = (map reflKey (reflections (db w)) ++ newReflections)%list;
  step_contents :
    map contentKey (generatedContent (db w'))
    = (map contentKey (generatedContent (db w)) ++ newContents)%list;
  step_stopped :
    isGenerating (engine w) = false -> isGenerating (engine w') = false;
  step_running :
    NoStop O -> isGenerating (engine w') = isGenerating (engine w) }.

(** Whatever its outcome, the computation leaves the world in relation
    [R] with the world it started from. *)
Definition respects (R : World -> World -> Prop) {A : Type} (m : M A)
    : Prop :=
  forall w, R w (snd (m w)).

(** The computation returns, having appended these rows. *)
Definition performs (O : Oracle) {A : Type} (m : M A)
    (newReflections : list (Z * Z * ReflectionType))
    (newContents : list (Z * bool)) : Prop :=
  forall w, exists a w',
    m w = (Ok a, w') /\ Step O newReflections newContents w w'.

(** The reflections of one cycle, and of the cycles 1 to [n]. *)
Definition cycleGroup (sid cycle noiseLevel : Z)
    : list (Z * Z * ReflectionType) :=
  [ (sid, cycle, analysis); (sid, cycle, memory_recall);
    (sid, cycle, if Z.eqb cycle 1 then strategy else refinement) ]
  ++ (if (0 <? noiseLevel)%Z then [(sid, cycle, noise_injection)] else []).

Definition cycleGroups (sid noiseLevel : Z) (n : nat)
    : list (Z * Z * ReflectionType) :=
  flat_map (fun c => cycleGroup sid (Z.of_nat c) noiseLevel) (seq 1 n).

(** The world after [n] turns of the loop body, for the cycles [cycle],
    [cycle + 1], ..., whatever the flag says. *)
Fixpoint bodiesFrom (O : Oracle) (sid : Z) (userInput : string)
    (noiseLevel : Z) (n : nat) (cycle : Z) (w : World) : World :=
  match n with
  | 0 => w
  | S n' =>
      bodiesFrom O sid userInput noiseLevel n' (cycle + 1)
        (snd (cycleBody O sid userInput cycle noiseLevel w))
  end.

(** The reflections of the [n] cycles from [cycle] on. *)
Fixpoint cycleGroupsFrom (sid noiseLevel : Z) (n : nat) (cycle : Z)
    : list (Z * Z * ReflectionType) :=
  match n with
  | 0 => []
  | S n' =>
      cycleGroup sid cycle noiseLevel
      ++ cycleGroupsFrom sid noiseLevel n' (cycle + 1)
  end.

(** ** Sample oracles and worlds *)

(** An outside that never interferes. *)
Definition quietOracle : Oracle :=
  {| dbFails := fun _ => false;
     stopRequested := fun _ => false;
     openaiReply := fun _ => Some "hello there";
     randomAt := fun _ => (1 # 4)%Q;
     forwardOutput := fun _ => "hello" |}.

(** A stop request is handled at every suspension from [t] on. *)
Definition stoppingAt (t : N) : Oracle :=
  {| dbFails := fun _ => false;
     stopRequested := fun k => N.leb t k;
     openaiReply := fun _ => Some "hello there";
     randomAt := fun _ => (1 # 4)%Q;
     forwardOutput := fun _ => "hello" |}.

(** The database rejects the call made at suspension [t], and no other. *)
Definition failingAt (t : N) : Oracle :=
  {| dbFails := fun k => N.eqb k t;
     stopRequested := fun _ => false;
     openaiReply := fun _ => Some "hello there";
     randomAt := fun _ => (1 # 4)%Q;
     forwardOutput := fun _ => "hello" |}.

Definition sampleSession : Session :=
  {| s_id := 1; s_name := "demo"; s_objective := "write";
     s_isActive := true; s_startTime := 0; s_endTime := None;
     s_totalReflections := 0; s_improvementRate := 0 |}.

Definition sampleDatabase : Database :=
  {| sessions := [sampleSession]; reflections := []; memoryInsights := [];
     generatedContent := []; modelWeights := []; tokenVocabulary := [];
     trainingBatches := []; learningMetrics := [] |}.

(** An engine with the four layers, each reloaded with one row of two
    weights and two biases, and with the given vocabulary. *)
Definition smallEngine (voc : gmap string nat) : NeuralEngine :=
  {| sessionId := 1; vocabulary := voc; tokenEmbeddings := ∅;
     weights :=
       [ ("embedding", [[Num 1; Num 2]]); ("attention", [[Num 1; Num 2]]);
         ("feedforward", [[Num 1; Num 2]]); ("output", [[Num 1; Num 2]]) ];
     biases :=
       [ ("embedding", [Num 5; Num 6]); ("attention", [Num 5; Num 6]);
         ("feedforward", [Num 5; Num 6]); ("output", [Num 5; Num 6]) ];
     learningRate := (1 # 1000)%Q; currentEpoch := 0 |}.

(** No loop has been started yet. *)
Definition idleWorld : World :=
  {| engine :=
       {| session := None; currentCycle := 0; isGenerating := false;
          neuralEngine := None |};
     db := sampleDatabase; tick := 0; rng := 0; sent := []; console := [] |}.

(** A loop is active on session 1, in [cycle]. *)
Definition activeWorld (cycle : Z) (voc : gmap string nat) : World :=
  {| engine :=
       {| session := Some sampleSession; currentCycle := cycle;
          isGenerating := true; neuralEngine := Some (smallEngine voc) |};
     db := sampleDatabase; tick := 0; rng := 0; sent := []; console := [] |}.

(** ** Counting the database calls of a computation *)

(** [t] is the first suspension from [start] on at which the database
    rejects a call. *)
Definition firstRejected (O : Oracle) (start t : N) : Prop :=
  dbFails O t = true
  /\ forall t', (start <= t' < t)%N -> dbFails O t' = false.

(** The computation makes [n] database calls and suspends for nothing
    else: it returns after the [n] calls when none is rejected, and when
    one is, it throws at the first rejected call, without going further. *)
Definition dbCalls (O : Oracle) {A : Type} (m : M A) (n : N) : Prop :=
  forall w,
    ((forall t, (tick w <= t < tick w + n)%N -> dbFails O t = false) ->
     exists a w', m w = (Ok a, w') /\ tick w' = (tick w + n)%N)
    /\ (forall t, (tick w <= t < tick w + n)%N ->
        firstRejected O (tick w) t ->
        exists operation w',
          m w = (Throw (PersistenceFailure operation t), w')
          /\ tick w' = (t + 1)%N).

(** Every suspension of the computation is a database call.  Run from a
    world, it makes a number [n] of them when none is rejected, after
    which it has returned or thrown an error that is not a rejection; and
    when one of the [n] is rejected, it throws at the first rejected one,
    without going further. *)
Definition dbCallsOnly (O : Oracle) {A : Type} (m : M A) : Prop :=
  forall w, exists n : N,
    ((forall t, (tick w <= t < tick w + n)%N -> dbFails O t = false) ->
     tick (snd (m w)) = (tick w + n)%N
     /\ forall operation t,
          fst (m w) <> Throw (PersistenceFailure operation t))
    /\ (forall t, (tick w <= t < tick w + n)%N ->
        firstRejected O (tick w) t ->
        exists operation w',
          m w = (Throw (PersistenceFailure operation t), w')
          /\ tick w' = (t + 1)%N).

(** The database calls of [performReflectionCycle]: two reads, three calls
    for each of the three or four reflections, one for the insight. *)
Definition cycleCalls (noiseLevel : Z) : N :=
  (if (0 <? noiseLevel)%Z then 15 else 12)%N.

(** The number of positions below [n], counted from [a], at which two
    token arrays differ when read with [tokens[i] || '']. *)
Definition differing (xs ys : list string) (a n : nat) : nat :=
  List.length
    (List.filter
       (fun i => negb (String.eqb (tokenOrEmpty xs i) (tokenOrEmpty ys i)))
       (seq a n)).

(** The horizontal tab. *)
Definition tab : string := String (ascii_of_nat 9) EmptyString.

(** The neural engine, once installed, stays installed. *)
Definition keepsEngine (w w' : World) : Prop :=
  is_Some (neuralEngine (engine w)) -> is_Some (neuralEngine (engine w')).

(** The neural engine is left as it was. *)
Definition sameNeural (w w' : World) : Prop :=
  neuralEngine (engine w') = neuralEngine (engine w).

(** ** The forward pass (server/neural-engine.ts) *)

Definition num_add (x y : num) : num :=
  match x, y with
  | Num a, Num b => Num (a + b)%Q
  | _, _ => NaN
  end.

(** [vector[i] || 0]: an index past the end, a 0 and a NaN all read 0. *)
Definition entryOrZero (vector : list num) (i : nat) : num :=
  toNumber (orZero (VNum <$> vector !! i)).

(** A NaN replaced by 0. *)
Definition nanToZero (x : num) : num :=
  match x with
  | NaN => Num 0
  | _ => x
  end.

(** [row.reduce((sum, weight, i) => sum + weight * (vector[i] || 0), 0)],
    from the index [i] on, with the running [sum]. *)
Fixpoint reduceRow (vector : list num) (i : nat) (sum : num) (row : list num)
    : num :=
  match row with
  | [] => sum
  | weight :: row' =>
      reduceRow vector (S i)
        (num_add sum (num_mul weight (entryOrZero vector i))) row'
  end.

(** [matrixVectorMultiply(matrix, vector)]. *)
Definition matrixVectorMultiply (matrix : list (list num))
    (vector : list num) : list num :=
  map (reduceRow vector 0 (Num 0)) matrix.

(** [input.map(vec => this.matrixVectorMultiply(this.weights.get(layer)!,
    vec))]: when the layer is missing the matrix is [undefined], and the
    first multiplication, if there is one, throws. *)
Definition throughLayer (layer : string) (e : NeuralEngine)
    (input : list (list num)) : option (list (list num)) :=
  match mapGet layer (weights e), input with
  | Some matrix, _ => Some (map (matrixVectorMultiply matrix) input)
  | None, [] => Some []
  | None, _ :: _ => None
  end.

Definition applyAttention := throughLayer "attention".
Definition applyFeedForward := throughLayer "feedforward".

(** The [logits] of [generateOutput], one vector for each input vector. *)
Definition outputLogits := throughLayer "output".

(** The vectors that [forwardPass] hands to [sampleFromLogits], given the
    embeddings of the tokens. *)
Definition forwardLogits (e : NeuralEngine) (embeddings : list (list num))
    : option (list (list num)) :=
  attentionOutput ← applyAttention e embeddings;
  ffOutput ← applyFeedForward e attentionOutput;
  outputLogits e ffOutput.

(** The loop of [sampleFromLogits]: [i] is the index of the head of
    [probabilities]. *)
Fixpoint sampleLoop (probabilities : list R) (random cumulative : R)
    (i : nat) : option nat :=
  match probabilities with
  | [] => None
  | p :: rest =>
      let cumulative := (cumulative + p)%R in
      if Rlt_dec random cumulative then Some i
      else sampleLoop rest random cumulative (S i)
  end.

(** [sampleFromLogits(logits)], [random] being the value of
    [Math.random()]. *)
Definition sampleFromLogits (logits : list R) (random : R) : Z :=
  match sampleLoop (softmax logits) random 0 0 with
  | Some i => Z.of_nat i
  | None => (Z.of_nat (List.length logits) - 1)%Z
  end.



(** [detokenize(tokens)]: [entries] is [this.vocabulary.entries()], in the
    order of insertion. *)
Definition detokenize (entries : list (string * nat)) (tokens : list Z)
    : string :=
  JS.join " "
    (omap (fun token =>
             fst <$> List.find (fun '(word, id) => Z.eqb (Z.of_nat id) token)
                       entries)
       tokens).

(** ** Invariants of the tokenizer *)

(** No entry of the vocabulary has more than 3 code units. *)
Definition shortKeys (voc : gmap string nat) : Prop :=
  forall k, is_Some (voc !! k) -> String.length k <= 3.

(** The engine, if there is one, has a vocabulary of short entries. *)
Definition shortVocabulary (w : World) : Prop :=
  forall e, neuralEngine (engine w) = Some e -> shortKeys (vocabulary e).

(** The computation keeps the vocabulary's entries short. *)
Definition keepsShort (w w' : World) : Prop :=
  shortVocabulary w -> shortVocabulary w'.

(** The vocabulary of the engine, if there is one, is left as it was. *)
Definition sameVocabulary (w w' : World) : Prop :=
  option_map vocabulary (neuralEngine (engine w'))
  = option_map vocabulary (neuralEngine (engine w)).

(** ** What a computation leaves alone *)

(** Nothing was logged. *)
Definition sameConsole (w w' : World) : Prop := console w' = console w.

(** Nothing was broadcast. *)
Definition sameSent (w w' : World) : Prop := sent w' = sent w.

(** The content, the completion flag and the word count of a [generation]
    message. *)
Definition generationKey (m : WebSocketMessage)
    : option (string * bool * nat) :=
  match m with
  | MsgGeneration content isComplete words _ _ =>
      Some (content, isComplete, words)
  | _ => None
  end.

(** Every call of [Math.random] gives a number of [0, 1). *)
Definition UnitRandom (O : Oracle) : Prop :=
  forall n, (0 <= randomAt O n)%Q /\ (randomAt O n < 1)%Q.

(** The row that [createReflection] inserts in the world [w]: the next
    serial id, and the time of the insertion. *)
Definition insertedReflection (ins : InsertReflection) (w : World)
    : Reflection :=
  {| r_id := S (List.length (reflections (db w)));
     r_sessionId := ir_sessionId ins; r_cycle := ir_cycle ins;
     r_type := ir_type ins; r_content := ir_content ins;
     r_timestamp := tick w; r_metadata := ir_metadata ins |}.

(** The reflections of a session, as they are in the table. *)
Definition reflectionsOf (sid : Z) (d : Database) : list Reflection :=
  List.filter (fun r => Z.eqb (r_sessionId r) sid) (reflections d).

(** Nothing was broadcast and no content was stored. *)
Definition sameOutput (w w' : World) : Prop :=
  sent w' = sent w /\ generatedContent (db w') = generatedContent (db w).

(** ** Reloading an engine *)

(** The session an engine was made for, and the epoch it is in. *)
Definition engineOrigin (e : NeuralEngine) : Z * nat :=
  (sessionId e, currentEpoch e).

(** The session held by the reflection engine, and the origin of its
    neural engine if it has one, are left as they were. *)
Definition keepsOrigin (w w' : World) : Prop :=
  session (engine w') = session (engine w)
  /\ engineOrigin <$> neuralEngine (engine w')
     = engineOrigin <$> neuralEngine (engine w).

(** One turn of the first loop of [loadWeights], on the engine. *)
Definition restoredToken (token : TokenVocabulary) (e : NeuralEngine)
    : NeuralEngine :=
  let e1 :=
    setVocabulary (<[tv_token token := tv_tokenId token]> (vocabulary e)) e in
  match tv_embedding token with
  | Some embedding =>
      setTokenEmbeddings
        (<[tv_tokenId token := embedding]> (tokenEmbeddings e1)) e1
  | None => e1
  end.

(** One turn of its second loop. *)
Definition restoredWeights (weightRecord : ModelWeights) (e : NeuralEngine)
    : NeuralEngine :=
  let e1 :=
    setWeights
      (mapSet (mw_layerName weightRecord) (mw_weights weightRecord)
         (weights e)) e in
  let e2 :=
    match mw_biases weightRecord with
    | Some bs =>
        setBiases (mapSet (mw_layerName weightRecord) bs (biases e1)) e1
    | None => e1
    end in
  match mw_learningRate weightRecord with
  | Some rate => if Qeq_bool rate 0 then e2 else setLearningRate rate e2
  | None => e2
  end.

(** The snapshots of a session, and those of one of its layers. *)
Definition snapshotOf (sid : Z) (layer : string) (r : ModelWeights) : bool :=
  Z.eqb (mw_sessionId r) sid && String.eqb (mw_layerName r) layer.

(** A world whose table of weights holds two snapshots of the layer
    [embedding] of session 1, the second one saved after the first. *)
Definition twoSnapshots : World :=
  updDb
    (addModelWeights
       {| mw_id := 2; mw_sessionId := 1; mw_layerName := "embedding";
          mw_weights := [[Num 20]]; mw_biases := Some [Num 21];
          mw_learningRate := Some (1 # 1000)%Q; mw_lastUpdated := 8 |})
    (updDb
       (addModelWeights
          {| mw_id := 1; mw_sessionId := 1; mw_layerName := "embedding";
             mw_weights := [[Num 10]]; mw_biases := Some [Num 11];
             mw_learningRate := Some (1 # 1000)%Q; mw_lastUpdated := 4 |})
       (activeWorld 0 ∅)).

(** ** A training step that succeeds *)

(** What tokenizing leaves alone: the messages, the log, the tables of the
    training, and all of the engine but its vocabulary. *)
Definition trainingView (e : NeuralEngine)
    : Z * list (string * list (list num)) * list (string * list num) * Q * nat :=
  (sessionId e, weights e, biases e, learningRate e, currentEpoch e).

Definition sameTraining (w w' : World) : Prop :=
  sent w' = sent w /\ console w' = console w
  /\ trainingBatches (db w') = trainingBatches (db w)
  /\ learningMetrics (db w') = learningMetrics (db w)
  /\ modelWeights (db w') = modelWeights (db w)
  /\ option_map trainingView (neuralEngine (engine w'))
     = option_map trainingView (neuralEngine (engine w)).

(** The number is not NaN. *)
Definition isNumber (x : num) : bool :=
  match x with
  | Num _ => true
  | NaN => false
  end.

(** No weight of the layers is NaN. *)
Definition numbers (layers : list (string * list (list num))) : bool :=
  forallb (fun '(_, layerWeights) => forallb (forallb isNumber) layerWeights)
    layers.

(** The engine after the loop of [updateWeights] with these gradients. *)
Definition updatedEngine (gradients : gmap string (list (list num)))
    (e : NeuralEngine) : NeuralEngine :=
  {| sessionId := sessionId e; vocabulary := vocabulary e;
     tokenEmbeddings := tokenEmbeddings e;
     weights :=
       map (fun '(layerName, layerWeights) =>
              (layerName,
               imap (fun i row =>
                       imap (updatedWeight (learningRate e)
                               (default [] (gradients !! layerName)) i) row)
                 layerWeights))
         (weights e);
     biases :=
       map (fun '(layerName, bs) =>
              (layerName,
               imap (updatedBias (learningRate e)
                       (default [] (gradients !! (layerName ++ "_bias")))) bs))
         (biases e);
     learningRate := learningRate e; currentEpoch := currentEpoch e |}.

(** ** The storage kept in memory (server/storage.ts, [MemStorage]) *)

(** The class keeps five [Map]s and five counters.  Its methods are
    [async] but await nothing, so each runs to its end when it is called:
    a method is a function of the storage, which returns its result and
    the storage afterwards, or the error that it throws before it changes
    anything.  [new Date()] is the argument [now].  The rows are those of
    shared/schema.ts, as above. *)

Module Mem.

Record User : Type := {
  u_id : nat; u_username : string; u_password : string }.

(** [Partial<Session>]: the fields that are present, each with a value of
    the kind that [createSession] gives it. *)
Record SessionUpdates : Type := {
  su_id : option Z; su_name : option string; su_objective : option string;
  su_isActive : option bool; su_startTime : option N;
  su_endTime : option (option N); su_totalReflections : option nat;
  su_improvementRate : option Z }.

(** [Partial<GeneratedContent>]. *)
Record ContentUpdates : Type := {
  cu_id : option nat; cu_sessionId : option Z; cu_reflectionId : option nat;
  cu_content : option string; cu_isComplete : option bool;
  cu_qualityScore : option Z; cu_coherenceScore : option Z;
  cu_goalAlignment : option Z; cu_timestamp : option N }.

(** A [Map] in the order of insertion: [get], [set] (an existing key keeps
    its place) and [Array.from(map.values())]. *)
Fixpoint get {K V : Type} `{EqDecision K} (key : K) (m : list (K * V))
    : option V :=
  match m with
  | [] => None
  | (k, v) :: m' => if decide (k = key) then Some v else get key m'
  end.

Fixpoint set {K V : Type} `{EqDecision K} (key : K) (value : V)
    (m : list (K * V)) : list (K * V) :=
  match m with
  | [] => [(key, value)]
  | (k, v) :: m' =>
      if decide (k = key) then (k, value) :: m'
      else (k, v) :: set key value m'
  end.

Definition values {K V : Type} (m : list (K * V)) : list V := map snd m.

(** [array.slice(0, end)]: a negative [end] counts from the end. *)
Definition slice0 {A : Type} (limit : Z) (l : list A) : list A :=
  if (limit <? 0)%Z
  then take (Z.to_nat (Z.of_nat (List.length l) + limit)) l
  else take (Z.to_nat limit) l.

Record Storage : Type := {
  m_users : list (nat * User);
  m_sessions : list (Z * Session);
  m_reflections : list (nat * Reflection);
  m_memoryInsights : list (nat * MemoryInsight);
  m_generatedContent : list (nat * GeneratedContent);
  currentUserId : nat;
  currentSessionId : Z;
  currentReflectionId : nat;
  currentMemoryInsightId : nat;
  currentGeneratedContentId : nat }.

(** [new MemStorage()]. *)
Definition empty : Storage :=
  {| m_users := []; m_sessions := []; m_reflections := [];
     m_memoryInsights := []; m_generatedContent := [];
     currentUserId := 1; currentSessionId := 1; currentReflectionId := 1;
     currentMemoryInsightId := 1; currentGeneratedContentId := 1 |}.

Definition withUsers (users : list (nat * User)) (next : nat) (st : Storage)
    : Storage :=
  {| m_users := users; m_sessions := m_sessions st;
     m_reflections := m_reflections st;
     m_memoryInsights := m_memoryInsights st;
     m_generatedContent := m_generatedContent st;
     currentUserId := next; currentSessionId := currentSessionId st;
     currentReflectionId := currentReflectionId st;
     currentMemoryInsightId := currentMemoryInsightId st;
     currentGeneratedContentId := currentGeneratedContentId st |}.

Definition withSessions (sessions : list (Z * Session)) (next : Z)
    (st : Storage) : Storage :=
  {| m_users := m_users st; m_sessions := sessions;
     m_reflections := m_reflections st;
     m_memoryInsights := m_memoryInsights st;
     m_generatedContent := m_generatedContent st;
     currentUserId := currentUserId st; currentSessionId := next;
     currentReflectionId := currentReflectionId st;
     currentMemoryInsightId := currentMemoryInsightId st;
     currentGeneratedContentId := currentGeneratedContentId st |}.

Definition withReflections (reflections : list (nat * Reflection))
    (next : nat) (st : Storage) : Storage :=
  {| m_users := m_users st; m_sessions := m_sessions st;
     m_reflections := reflections;
     m_memoryInsights := m_memoryInsights st;
     m_generatedContent := m_generatedContent st;
     currentUserId := currentUserId st;
     currentSessionId := currentSessionId st;
     currentReflectionId := next;
     currentMemoryInsightId := currentMemoryInsightId st;
     currentGeneratedContentId := currentGeneratedContentId st |}.

Definition withMemoryInsights (insights : list (nat * MemoryInsight))
    (next : nat) (st : Storage) : Storage :=
  {| m_users := m_users st; m_sessions := m_sessions st;
     m_reflections := m_reflections st; m_memoryInsights := insights;
     m_generatedContent := m_generatedContent st;
     currentUserId := currentUserId st;
     currentSessionId := currentSessionId st;
     currentReflectionId := currentReflectionId st;
     currentMemoryInsightId := next;
     currentGeneratedContentId := currentGeneratedContentId st |}.

Definition withGeneratedContent (content : list (nat * GeneratedContent))
    (next : nat) (st : Storage) : Storage :=
  {| m_users := m_users st; m_sessions := m_sessions st;
     m_reflections := m_reflections st;
     m_memoryInsights := m_memoryInsights st; m_generatedContent := content;
     currentUserId := currentUserId st;
     currentSessionId := currentSessionId st;
     currentReflectionId := currentReflectionId st;
     currentMemoryInsightId := currentMemoryInsightId st;
     currentGeneratedContentId := next |}.

(** The [Error] that a method throws. *)
Inductive NotFound : Type :=
| SessionMissing (id : Z)
| ContentMissing (id : nat).

(** *** Users *)

Definition getUser (id : nat) (st : Storage) : option User :=
  get id (m_users st).

Definition getUserByUsername (username : string) (st : Storage)
    : option User :=
  List.find (fun user => String.eqb (u_username user) username)
    (values (m_users st)).

Definition createUser (username password : string) (st : Storage)
    : User * Storage :=
  let id := currentUserId st in
  let user :=
    {| u_id := id; u_username := username; u_password := password |} in
  (user, withUsers (set id user (m_users st)) (S id) st).

(** *** Sessions *)

Definition createSession (now : N) (name objective : string) (st : Storage)
    : Session * Storage :=
  let id := currentSessionId st in
  let session :=
    {| s_id := id; s_name := name; s_objective := objective;
       s_isActive := true; s_startTime := now; s_endTime := None;
       s_totalReflections := 0; s_improvementRate := 0 |} in
  (session, withSessions (set id session (m_sessions st)) (id + 1)%Z st).

Definition getSession (id : Z) (st : Storage) : option Session :=
  get id (m_sessions st).

Definition getActiveSessions (st : Storage) : list Session :=
  List.filter s_isActive (values (m_sessions st)).

Definition getAllSessions (st : Storage) : list Session :=
  orderBy (fun a b => N.leb (s_startTime b) (s_startTime a))
    (values (m_sessions st)).

(** [{ ...session, ...updates }]. *)
Definition merged (updates : SessionUpdates) (session : Session) : Session :=
  {| s_id := default (s_id session) (su_id updates);
     s_name := default (s_name session) (su_name updates);
     s_objective := default (s_objective session) (su_objective updates);
     s_isActive := default (s_isActive session) (su_isActive updates);
     s_startTime := default (s_startTime session) (su_startTime updates);
     s_endTime := default (s_endTime session) (su_endTime updates);
     s_totalReflections :=
       default (s_totalReflections session) (su_totalReflections updates);
     s_improvementRate :=
       default (s_improvementRate session) (su_improvementRate updates) |}.

Definition updateSession (id : Z) (updates : SessionUpdates) (st : Storage)
    : NotFound + Session * Storage :=
  match get id (m_sessions st) with
  | None => inl (SessionMissing id)
  | Some session =>
      let updatedSession := merged updates session in
      inr (updatedSession,
           withSessions (set id updatedSession (m_sessions st))
             (currentSessionId st) st)
  end.

Definition ended (now : N) (session : Session) : Session :=
  {| s_id := s_id session; s_name := s_name session;
     s_objective := s_objective session; s_isActive := false;
     s_startTime := s_startTime session; s_endTime := Some now;
     s_totalReflections := s_totalReflections session;
     s_improvementRate := s_improvementRate session |}.

Definition endSession (now : N) (id : Z) (st : Storage)
    : NotFound + Session * Storage :=
  match get id (m_sessions st) with
  | None => inl (SessionMissing id)
  | Some session =>
      let updatedSession := ended now session in
      inr (updatedSession,
           withSessions (set id updatedSession (m_sessions st))
             (currentSessionId st) st)
  end.

(** *** Reflections *)

Definition createReflection (now : N) (ins : InsertReflection) (st : Storage)
    : Reflection * Storage :=
  let id := currentReflectionId st in
  let reflection :=
    {| r_id := id; r_sessionId := ir_sessionId ins; r_cycle := ir_cycle ins;
       r_type := ir_type ins; r_content := ir_content ins;
       r_timestamp := now; r_metadata := ir_metadata ins |} in
  let st1 := withReflections (set id reflection (m_reflections st)) (S id) st in
  (reflection,
   match get (ir_sessionId ins) (m_sessions st1) with
   | Some session =>
       withSessions
         (set (ir_sessionId ins)
            (setTotalReflections (s_totalReflections session + 1) session)
            (m_sessions st1))
         (currentSessionId st1) st1
   | None => st1
   end).

Definition getReflectionsBySession (sessionId : Z) (st : Storage)
    : list Reflection :=
  orderBy (fun a b => N.leb (r_timestamp a) (r_timestamp b))
    (List.filter (fun reflection => Z.eqb (r_sessionId reflection) sessionId)
       (values (m_reflections st))).

Definition getReflection (id : nat) (st : Storage) : option Reflection :=
  get id (m_reflections st).

(** *** Memory insights *)

Definition createMemoryInsight (now : N) (sessionId : Z) (type : InsightType)
    (content : string) (related : list Z) (st : Storage)
    : MemoryInsight * Storage :=
  let id := currentMemoryInsightId st in
  let insight :=
    {| mi_id := id; mi_sessionId := sessionId; mi_type := type;
       mi_content := content; mi_timestamp := now;
       mi_related_reflections := related |} in
  (insight, withMemoryInsights (set id insight (m_memoryInsights st)) (S id) st).

Definition getMemoryInsightsBySession (sessionId : Z) (st : Storage)
    : list MemoryInsight :=
  orderBy (fun a b => N.leb (mi_timestamp b) (mi_timestamp a))
    (List.filter (fun insight => Z.eqb (mi_sessionId insight) sessionId)
       (values (m_memoryInsights st))).

Definition getRecentMemoryInsights (limit : Z) (st : Storage)
    : list MemoryInsight :=
  slice0 limit
    (orderBy (fun a b => N.leb (mi_timestamp b) (mi_timestamp a))
       (values (m_memoryInsights st))).

(** *** Generated content *)

Definition createGeneratedContent (now : N) (sessionId : Z)
    (reflectionId : nat) (content : string) (isComplete : bool)
    (qualityScore coherenceScore goalAlignment : Z) (st : Storage)
    : GeneratedContent * Storage :=
  let id := currentGeneratedContentId st in
  let row :=
    {| gc_id := id; gc_sessionId := sessionId; gc_reflectionId := reflectionId;
       gc_content := content; gc_isComplete := isComplete;
       gc_qualityScore := qualityScore; gc_coherenceScore := coherenceScore;
       gc_goalAlignment := goalAlignment; gc_timestamp := now |} in
  (row, withGeneratedContent (set id row (m_generatedContent st)) (S id) st).

Definition getGeneratedContentBySession (sessionId : Z) (st : Storage)
    : list GeneratedContent :=
  orderBy (fun a b => N.leb (gc_timestamp a) (gc_timestamp b))
    (List.filter (fun content => Z.eqb (gc_sessionId content) sessionId)
       (values (m_generatedContent st))).

Definition mergedContent (updates : ContentUpdates) (row : GeneratedContent)
    : GeneratedContent :=
  {| gc_id := default (gc_id row) (cu_id updates);
     gc_sessionId := default (gc_sessionId row) (cu_sessionId updates);
     gc_reflectionId := default (gc_reflectionId row) (cu_reflectionId updates);
     gc_content := default (gc_content row) (cu_content updates);
     gc_isComplete := default (gc_isComplete row) (cu_isComplete updates);
     gc_qualityScore := default (gc_qualityScore row) (cu_qualityScore updates);
     gc_coherenceScore :=
       default (gc_coherenceScore row) (cu_coherenceScore updates);
     gc_goalAlignment :=
       default (gc_goalAlignment row) (cu_goalAlignment updates);
     gc_timestamp := default (gc_timestamp row) (cu_timestamp updates) |}.

Definition updateGeneratedContent (id : nat) (updates : ContentUpdates)
    (st : Storage) : NotFound + GeneratedContent * Storage :=
  match get id (m_generatedContent st) with
  | None => inl (ContentMissing id)
  | Some row =>
      let updatedContent := mergedContent updates row in
      inr (updatedContent,
           withGeneratedContent (set id updatedContent (m_generatedContent st))
             (currentGeneratedContentId st) st)
  end.

(** One call of a method that changes the storage. *)
Inductive Call : Type :=
| CreateUser (username password : string)
| CreateSession (now : N) (name objective : string)
| UpdateSession (id : Z) (updates : SessionUpdates)
| EndSession (now : N) (id : Z)
| CreateReflection (now : N) (ins : InsertReflection)
| CreateMemoryInsight (now : N) (sessionId : Z) (type : InsightType)
    (content : string) (related : list Z)
| CreateGeneratedContent (now : N) (sessionId : Z) (reflectionId : nat)
    (content : string) (isComplete : bool)
    (qualityScore coherenceScore goalAlignment : Z)
| UpdateGeneratedContent (id : nat) (updates : ContentUpdates).

(** The storage after the call; a call that throws leaves it as it was. *)
Definition after (call : Call) (st : Storage) : Storage :=
  match call with
  | CreateUser username password => snd (createUser username password st)
  | CreateSession now name objective =>
      snd (createSession now name objective st)
  | UpdateSession id updates =>
      match updateSession id updates st with
      | inr (_, st') => st'
      | inl _ => st
      end
  | EndSession now id =>
      match endSession now id st with
      | inr (_, st') => st'
      | inl _ => st
      end
  | CreateReflection now ins => snd (createReflection now ins st)
  | CreateMemoryInsight now sessionId type content related =>
      snd (createMemoryInsight now sessionId type content related st)
  | CreateGeneratedContent now sessionId reflectionId content isComplete
      qualityScore coherenceScore goalAlignment =>
      snd (createGeneratedContent now sessionId reflectionId content
             isComplete qualityScore coherenceScore goalAlignment st)
  | UpdateGeneratedContent id updates =>
      match updateGeneratedContent id updates st with
      | inr (_, st') => st'
      | inl _ => st
      end
  end.

(** The storage after a sequence of calls on a new one. *)
Definition afterAll (calls : list Call) : Storage :=
  fold_left (fun st call => after call st) calls empty.

End Mem.

(** How many calls of a sequence are of a kind. *)
Definition isCreateUser (call : Mem.Call) : bool :=
  match call with Mem.CreateUser _ _ => true | _ => false end.

Definition isCreateSession (call : Mem.Call) : bool :=
  match call with Mem.CreateSession _ _ _ => true | _ => false end.

Definition isCreateReflection (call : Mem.Call) : bool :=
  match call with Mem.CreateReflection _ _ => true | _ => false end.

Definition isCreateMemoryInsight (call : Mem.Call) : bool :=
  match call with Mem.CreateMemoryInsight _ _ _ _ _ => true | _ => false end.

Definition isCreateGeneratedContent (call : Mem.Call) : bool :=
  match call with
  | Mem.CreateGeneratedContent _ _ _ _ _ _ _ _ => true
  | _ => false
  end.

Definition callsOf (kind : Mem.Call -> bool) (calls : list Mem.Call) : nat :=
  List.length (List.filter kind calls).

Definition isUpdateSession (call : Mem.Call) : bool :=
  match call with Mem.UpdateSession _ _ => true | _ => false end.

(** The calls of [createReflection] for a session. *)
Definition isReflectionOf (sessionId : Z) (call : Mem.Call) : bool :=
  match call with
  | Mem.CreateReflection _ ins => Z.eqb (ir_sessionId ins) sessionId
  | _ => false
  end.

(** The keys of the five maps and the five counters, after any calls. *)
Definition sequentialKeys (calls : list Mem.Call) (st : Mem.Storage) : Prop :=
  (map fst (Mem.m_users st) = seq 1 (callsOf isCreateUser calls)
   /\ Mem.currentUserId st = S (callsOf isCreateUser calls))
  /\ (map fst (Mem.m_sessions st)
      = map Z.of_nat (seq 1 (callsOf isCreateSession calls))
      /\ Mem.currentSessionId st
         = Z.of_nat (S (callsOf isCreateSession calls)))
  /\ (map fst (Mem.m_reflections st)
      = seq 1 (callsOf isCreateReflection calls)
      /\ Mem.currentReflectionId st = S (callsOf isCreateReflection calls))
  /\ (map fst (Mem.m_memoryInsights st)
      = seq 1 (callsOf isCreateMemoryInsight calls)
      /\ Mem.currentMemoryInsightId st
         = S (callsOf isCreateMemoryInsight calls))
  /\ (map fst (Mem.m_generatedContent st)
      = seq 1 (callsOf isCreateGeneratedContent calls)
      /\ Mem.currentGeneratedContentId st
         = S (callsOf isCreateGeneratedContent calls)).

(** * Properties *)

(** ** Subword segmentation *)

Lemma append_empty_r (s : string) : s ++ EmptyString = s.
Proof.
  induction s as [|c s IH]; [reflexivity |].
  now rewrite append_String, IH.
Qed.

Lemma getSubwordsLoop_sound (voc : gmap string nat) (remaining : string) :
  Forall (fun s => 1 <= String.length s <= 8) (getSubwordsLoop voc remaining)
  /\ JS.concat (getSubwordsLoop voc remaining) = remaining.
Proof.
  remember (String.length remaining) as n eqn:Hn.
  revert remaining Hn.
  induction n as [n IH] using lt_wf_ind; intros [|c r] Hn.
  - rewrite getSubwordsLoop_equation_1. split; [constructor | reflexivity].
  - rewrite getSubwordsLoop_equation_2.
    assert (String c r <> EmptyString) as Hne by congruence.
    destruct (bestSubword_length voc (String c r) Hne) as [Hlen Hle].
    set (best := bestSubword voc (String c r)) in *.
    destruct (IH (String.length
                    (JS.substringFrom (String.length best) (String c r))))
      with (remaining := JS.substringFrom (String.length best) (String c r))
      as [IH1 IH2]; [| reflexivity |].
    + rewrite substringFrom_length. cbn [String.length] in *. lia.
    + split; [constructor; assumption |].
      unfold JS.concat in *. cbn [fold_right]. rewrite IH2.
      subst best. unfold bestSubword in *.
      destruct (longestMatch_prefix voc (String c r)
                  (Nat.min (String.length (String c r)) 8))
        as (k & Hk1 & Hk2 & Hk).
      rewrite Hk in *. rewrite substringTo_length in *.
      replace (Nat.min k (String.length (String c r))) with k by lia.
      apply substring_split.
Qed.

(** C10.  For every non-empty word, [getSubwords] returns (the recursion of
    its loop is well founded because every turn removes at least one code
    unit of the remainder) only subwords of between one and eight code
    units, whose concatenation is the word. *)
Theorem getSubwords_partition (voc : gmap string nat) (word : string) :
  word <> EmptyString ->
  (forall remaining : string, remaining <> EmptyString ->
     String.length
       (JS.substringFrom (String.length (bestSubword voc remaining))
          remaining) < String.length remaining)
  /\ Forall (fun s => 1 <= String.length s <= 8) (getSubwords voc word)
  /\ JS.concat (getSubwords voc word) = word.
Proof.
  intros Hne. split; [| unfold getSubwords; destruct (_ <=? 3) eqn:E].
  - intros remaining Hr. rewrite substringFrom_length.
    pose proof (bestSubword_length voc remaining Hr).
    destruct remaining; [congruence | cbn [String.length] in *; lia].
  - apply Nat.leb_le in E. split.
    + constructor; [| constructor].
      destruct word; [congruence | cbn [String.length] in *; lia].
    + unfold JS.concat. cbn [fold_right]. apply append_empty_r.
  - apply getSubwordsLoop_sound.
Qed.

Lemma getSubwords_partition_witness :
  "tokenizer" <> EmptyString
  /\ Forall (fun s => 1 <= String.length s <= 8)
       (getSubwords {[ "token" := 0; "izer" := 1 ]} "tokenizer")
  /\ JS.concat (getSubwords {[ "token" := 0; "izer" := 1 ]} "tokenizer")
     = "tokenizer".
Proof.
  split; [discriminate |].
  apply (getSubwords_partition {[ "token" := 0; "izer" := 1 ]} "tokenizer").
  discriminate.
Defined.

(** ** Loss *)

Lemma split_nonempty (sep : ascii) (s : string) : JS.split sep s <> [].
Proof.
  induction s as [|c r IH]; cbn; [discriminate |].
  destruct (Ascii.eqb c sep); [discriminate |].
  destruct (JS.split sep r); [contradiction | discriminate].
Qed.

Lemma loss_loop_count (xs ys : list string) (n a : nat) (acc : Q) :
  (fold_left
     (fun (loss : Q) (i : nat) =>
        if negb (String.eqb (tokenOrEmpty xs i) (tokenOrEmpty ys i))
        then loss + 1 else loss)
     (seq a n) acc
   == acc + inject_Z (Z.of_nat (differing xs ys a n)))%Q.
Proof.
  revert a acc; induction n as [|n IH]; intros a acc; unfold differing in *.
  - cbn. ring.
  - cbn [seq fold_left List.filter]. rewrite IH.
    destruct (negb _); cbn [List.length].
    + rewrite Nat2Z.inj_succ, <- Z.add_1_l, inject_Z_plus. ring.
    + reflexivity.
Qed.

Lemma differing_shift (x y : string) (xs ys : list string) (a n : nat) :
  differing (x :: xs) (y :: ys) (S a) n = differing xs ys a n.
Proof.
  unfold differing. revert a; induction n as [|n IH]; intros a; [reflexivity |].
  cbn [seq List.filter]. unfold tokenOrEmpty at 1 2 4 5. cbn [nth].
  fold (tokenOrEmpty xs a) (tokenOrEmpty ys a).
  destruct (negb _); cbn [List.length]; rewrite IH; reflexivity.
Qed.

Lemma padTokens_cons (n : nat) (x : string) (xs : list string) :
  padTokens (S n) (x :: xs) = x :: padTokens n xs.
Proof. reflexivity. Qed.

Lemma padTokens_nil (n : nat) :
  padTokens (S n) [] = EmptyString :: padTokens n [].
Proof. unfold padTokens. cbn. now rewrite Nat.sub_0_r. Qed.

Lemma differing_nil_l (ys : list string) (a n : nat) :
  differing [] ys (S a) n = differing [] (List.tl ys) a n.
Proof.
  unfold differing. revert a; induction n as [|n IH]; intros a; [reflexivity |].
  cbn [seq List.filter].
  replace (tokenOrEmpty [] (S a)) with (tokenOrEmpty [] a)
    by (unfold tokenOrEmpty; destruct a; reflexivity).
  replace (tokenOrEmpty ys (S a)) with (tokenOrEmpty (List.tl ys) a)
    by (unfold tokenOrEmpty; destruct ys; [destruct a |]; reflexivity).
  destruct (negb _); cbn [List.length]; rewrite IH; reflexivity.
Qed.

Lemma differing_nil_r (xs : list string) (a n : nat) :
  differing xs [] (S a) n = differing (List.tl xs) [] a n.
Proof.
  unfold differing. revert a; induction n as [|n IH]; intros a; [reflexivity |].
  cbn [seq List.filter].
  replace (tokenOrEmpty [] (S a)) with (tokenOrEmpty [] a)
    by (unfold tokenOrEmpty; destruct a; reflexivity).
  replace (tokenOrEmpty xs (S a)) with (tokenOrEmpty (List.tl xs) a)
    by (unfold tokenOrEmpty; destruct xs; [destruct a |]; reflexivity).
  destruct (negb _); cbn [List.length]; rewrite IH; reflexivity.
Qed.

Lemma differing_S (xs ys : list string) (a n : nat) :
  differing xs ys a (S n)
  = (if String.eqb (tokenOrEmpty xs a) (tokenOrEmpty ys a) then 0 else 1)
    + differing xs ys (S a) n.
Proof.
  unfold differing. cbn [seq List.filter].
  destruct (String.eqb _ _); reflexivity.
Qed.

(** Reading by index with a default is comparing the padded arrays. *)
Lemma differing_mismatches (n : nat) (xs ys : list string) :
  List.length xs <= n -> List.length ys <= n ->
  differing xs ys 0 n = mismatches (padTokens n xs) (padTokens n ys).
Proof.
  revert xs ys; induction n as [|n IH]; intros xs ys Hx Hy.
  - destruct xs, ys; cbn in *; (lia || reflexivity).
  - rewrite differing_S.
    destruct xs as [|x xs], ys as [|y ys]; cbn [List.length] in *.
    + rewrite !padTokens_nil. cbn [mismatches].
      rewrite <- IH by (cbn; lia). rewrite differing_nil_l. reflexivity.
    + rewrite padTokens_nil, padTokens_cons. cbn [mismatches].
      rewrite <- IH by (cbn; lia). rewrite differing_nil_l. reflexivity.
    + rewrite padTokens_nil, padTokens_cons. cbn [mismatches].
      rewrite <- IH by (cbn; lia). rewrite differing_nil_r. reflexivity.
    + rewrite !padTokens_cons. cbn [mismatches].
      rewrite <- IH by lia. rewrite differing_shift. reflexivity.
Qed.

Lemma differing_le (xs ys : list string) (a n : nat) : differing xs ys a n <= n.
Proof.
  unfold differing.
  etransitivity; [apply List.filter_length_le | rewrite length_seq; lia].
Qed.

Lemma differing_same (xs : list string) (a n : nat) : differing xs xs a n = 0.
Proof.
  unfold differing. revert a; induction n as [|n IH]; intros a; [reflexivity |].
  cbn [seq List.filter]. rewrite String.eqb_refl. cbn [negb]. apply IH.
Qed.

Lemma calculateLoss_count (modelOutput gptTarget : string) :
  let xs := JS.split " "%char modelOutput in
  let ys := JS.split " "%char gptTarget in
  let n := Nat.max (List.length xs) (List.length ys) in
  (calculateLoss modelOutput gptTarget
   == inject_Z (Z.of_nat (differing xs ys 0 n)) / inject_Z (Z.of_nat n))%Q.
Proof.
  intros xs ys n. unfold calculateLoss. fold xs ys n.
  rewrite loss_loop_count. rewrite Qplus_0_l. reflexivity.
Qed.

Lemma maxLen_positive (modelOutput gptTarget : string) :
  0 < Nat.max (List.length (JS.split " "%char modelOutput))
              (List.length (JS.split " "%char gptTarget)).
Proof.
  pose proof (split_nonempty " "%char modelOutput).
  destruct (JS.split " "%char modelOutput); [contradiction | cbn; lia].
Qed.

(** C2, as the code has it.  [calculateLoss] is the word-level Hamming
    distance of the two texts cut at every single space character (a tab
    or a line feed does not separate, and two spaces in a row enclose an
    empty token), the shorter sequence padded with empty tokens, divided
    by the longer length; it lies between 0 and 1; a text compared with
    itself (empty or not) gives 0; and ["a b c"] against the empty text
    gives 1. *)
Theorem calculateLoss_hamming_on_spaces (output target : string) :
  (calculateLoss output target
   == hammingLoss (JS.split " "%char) output target)%Q
  /\ (0 <= calculateLoss output target <= 1)%Q
  /\ (calculateLoss output output == 0)%Q
  /\ (calculateLoss "a b c" EmptyString == 1)%Q.
Proof.
  pose proof (calculateLoss_count output target) as Hc. cbn zeta in Hc.
  pose proof (maxLen_positive output target) as Hn.
  set (xs := JS.split " "%char output) in *.
  set (ys := JS.split " "%char target) in *.
  set (n := Nat.max (List.length xs) (List.length ys)) in *.
  assert (0 < inject_Z (Z.of_nat n))%Q as Hq.
  { change 0%Q with (inject_Z 0). rewrite <- Zlt_Qlt. lia. }
  split; [| split; [split |]; [| | split]].
  - rewrite Hc. unfold hammingLoss. fold xs ys n.
    rewrite differing_mismatches by lia. reflexivity.
  - rewrite Hc. apply Qle_shift_div_l; [exact Hq |].
    rewrite Qmult_0_l. change 0%Q with (inject_Z 0).
    rewrite <- Zle_Qle. lia.
  - rewrite Hc. apply Qle_shift_div_r; [exact Hq |].
    rewrite Qmult_1_l. rewrite <- Zle_Qle.
    pose proof (differing_le xs ys 0 n). lia.
  - rewrite (calculateLoss_count output output). cbn zeta.
    rewrite differing_same. reflexivity.
  - reflexivity.
Qed.

(** C2 as stated fails: cut at white space, as [tokenizeText] cuts its
    input, the texts below have the same two words and a distance of 0,
    whereas [calculateLoss] gives 1 for the tab and 2/3 for the doubled
    space. *)
Lemma calculateLoss_not_hamming_on_whitespace :
  ~ (calculateLoss ("a" ++ tab ++ "b") "a b"
     == hammingLoss (JS.splitWhiteSpace false) ("a" ++ tab ++ "b") "a b")%Q
  /\ ~ (calculateLoss "a  b" "a b"
        == hammingLoss (JS.splitWhiteSpace false) "a  b" "a b")%Q.
Proof.
  split; intros H; vm_compute in H; discriminate H.
Qed.

(** ** Softmax *)

Lemma sumR_acc (xs : list R) (acc : R) :
  fold_left (fun s x => (s + x)%R) xs acc = (acc + sumR xs)%R.
Proof.
  unfold sumR. revert acc; induction xs as [|x xs IH]; intros acc; cbn.
  - ring.
  - rewrite IH, (IH (0 + x)%R). ring.
Qed.

Lemma sumR_cons (x : R) (xs : list R) : sumR (x :: xs) = (x + sumR xs)%R.
Proof. unfold sumR at 1. cbn. rewrite sumR_acc. ring. Qed.

Lemma sumR_scaled (c : R) (xs : list R) :
  sumR (map (fun e => (e / c)%R) xs) = (sumR xs / c)%R.
Proof.
  induction xs as [|x xs IH].
  - unfold sumR; cbn. unfold Rdiv. ring.
  - cbn [map]. rewrite !sumR_cons, IH. unfold Rdiv. ring.
Qed.

Lemma sumR_exp_positive (m : R) (logits : list R) :
  logits <> [] -> (0 < sumR (map (fun l => exp (l - m)) logits))%R.
Proof.
  induction logits as [|l rest IH]; [congruence | intros _].
  cbn [map]. rewrite sumR_cons.
  pose proof (exp_pos (l - m)).
  destruct rest as [|l' rest'].
  - unfold sumR; cbn. lra.
  - assert (l' :: rest' <> []) as Hne by discriminate.
    specialize (IH Hne). lra.
Qed.

(** C9.  For every non-empty vector of (real) logits, equal or not, the
    entries of [softmax] are non-negative and add up to exactly 1. *)
Theorem softmax_distribution (logits : list R) :
  logits <> [] ->
  Forall (fun p => (0 <= p)%R) (softmax logits) /\ sumR (softmax logits) = 1%R.
Proof.
  intros Hne. unfold softmax.
  set (m := Math_max logits).
  fold (sumR (map (fun l => exp (l - m)) logits)).
  pose proof (sumR_exp_positive m logits Hne) as Hpos.
  set (total := sumR (map (fun l => exp (l - m)) logits)) in *.
  split.
  - apply List.Forall_forall. intros p Hp.
    apply in_map_iff in Hp as (e & <- & He).
    apply in_map_iff in He as (l & <- & _).
    pose proof (exp_pos (l - m)).
    apply Rlt_le, Rdiv_lt_0_compat; assumption.
  - rewrite sumR_scaled. fold total. field. lra.
Qed.

Lemma softmax_distribution_witness :
  [2%R; 2%R; 2%R] <> []
  /\ Forall (fun p => (0 <= p)%R) (softmax [2%R; 2%R; 2%R])
  /\ sumR (softmax [2%R; 2%R; 2%R]) = 1%R.
Proof.
  split; [discriminate |].
  apply (softmax_distribution [2%R; 2%R; 2%R]). discriminate.
Defined.

(** ** Running the monad *)

Lemma run_bind {A B : Type} (m : M A) (f : A -> M B) (w : World) :
  (m ≫= f) w
  = match m w with
    | (Ok a, w') => f a w'
    | (Throw e, w') => (Throw e, w')
    end.
Proof. reflexivity. Qed.

Lemma run_foldM_cons {A B : Type} (body : B -> A -> M B) (acc : B) (x : A)
    (xs : list A) :
  foldM body acc (x :: xs) = (body acc x ≫= fun acc' => foldM body acc' xs).
Proof. reflexivity. Qed.

(** One step of symbolic execution: the first computation of a sequence
    is replaced by its result, given by the equation [L]. *)
Ltac mstep L := rewrite run_bind, L; cbv beta iota.

Section Properties.

Context (O : Oracle).

Lemma afterSuspend_tick (w : World) : tick (afterSuspend O w) = (tick w + 1)%N.
Proof. unfold afterSuspend. destruct (stopRequested O _); reflexivity. Qed.

Lemma afterSuspend_db (w : World) : db (afterSuspend O w) = db w.
Proof. unfold afterSuspend. destruct (stopRequested O _); reflexivity. Qed.

Lemma afterSuspend_neuralEngine (w : World) :
  neuralEngine (engine (afterSuspend O w)) = neuralEngine (engine w).
Proof. unfold afterSuspend. destruct (stopRequested O _); reflexivity. Qed.

Lemma run_this (w : World) (e : NeuralEngine) :
  neuralEngine (engine w) = Some e -> this w = (Ok e, w).
Proof. intros H. unfold this. now rewrite H. Qed.

Lemma run_dbCall (HF : NoFail O) (operation : string) (w : World) :
  dbCall O operation w = (Ok (tick w), afterSuspend O w).
Proof. unfold dbCall, suspend. rewrite run_bind. now rewrite HF. Qed.

(** [randomArray] only advances the counter of [Math.random]. *)
Lemma run_randomArray {A : Type} (f : Q -> A) (n : nat) (w : World) :
  exists xs r,
    randomArray O f n w = (Ok xs, setRng r w) /\ List.length xs = n.
Proof.
  eexists _, _. split; [reflexivity |]. now rewrite length_map, length_seq.
Qed.

(** The subword is new, or its id is 0: a fresh id is taken and stored. *)
Lemma tokenizeSubword_mints (HF : NoFail O) (w : World) (e : NeuralEngine)
    (tokens : list nat) (s : string) :
  neuralEngine (engine w) = Some e ->
  vocabulary e !! s = None \/ vocabulary e !! s = Some 0 ->
  exists w' row,
    tokenizeSubword O tokens s w
    = (Ok (tokens ++ [size (vocabulary e)])%list, w')
    /\ neuralEngine (engine w')
       = Some (setVocabulary (<[s := size (vocabulary e)]> (vocabulary e)) e)
    /\ tokenVocabulary (db w') = (tokenVocabulary (db w) ++ [row])%list
    /\ tv_token row = s /\ tv_tokenId row = size (vocabulary e).
Proof.
  intros He Hv. unfold tokenizeSubword.
  mstep (run_this w e He).
  assert (forall (k1 : M (list nat)) (k2 : nat -> M (list nat)),
    match vocabulary e !! s with
    | Some (S n) => k2 n
    | _ => k1
    end = k1) as ->.
  { intros k1 k2. destruct Hv as [-> | ->]; reflexivity. }
  rewrite run_bind. unfold updThis at 1, modify at 1. cbv beta iota.
  unfold generateTokenEmbedding. rewrite run_bind.
  match goal with
  | |- context [randomArray O ?f ?n ?w0] =>
      destruct (run_randomArray f n w0) as (emb & r & E & _)
  end.
  rewrite E. cbv beta iota. unfold createTokenVocabulary.
  rewrite run_bind. mstep (run_dbCall HF).
  rewrite run_bind. unfold gets at 1. cbv beta iota.
  unfold modify at 1. cbv beta iota.
  eexists _, _. split; [reflexivity |].
  cbn [db engine updDb updEngine setRng tokenVocabulary addTokenVocabulary
       neuralEngine setNeuralEngine tv_token tv_tokenId].
  rewrite afterSuspend_neuralEngine, afterSuspend_db.
  cbn [db engine updDb updEngine setRng tokenVocabulary addTokenVocabulary
       neuralEngine setNeuralEngine].
  rewrite He. repeat split; reflexivity.
Qed.

(** The subword has an id other than 0: it is looked up and kept. *)
Lemma tokenizeSubword_keeps (HF : NoFail O) (w : World) (e : NeuralEngine)
    (tokens : list nat) (s : string) (n : nat) :
  neuralEngine (engine w) = Some e ->
  vocabulary e !! s = Some (S n) ->
  exists w',
    tokenizeSubword O tokens s w = (Ok (tokens ++ [S n])%list, w')
    /\ neuralEngine (engine w') = Some e
    /\ tokenVocabulary (db w') = tokenVocabulary (db w).
Proof.
  intros He Hv. unfold tokenizeSubword.
  mstep (run_this w e He). rewrite Hv.
  unfold getTokenByValue. rewrite run_bind. mstep (run_dbCall HF).
  unfold gets at 1. cbv beta iota.
  eexists. split; [reflexivity |].
  now rewrite afterSuspend_neuralEngine, afterSuspend_db.
Qed.


(** *** Tokenizing a text whose subwords are all registered *)

Lemma fixId_idem (n id : nat) : fixId n (fixId n id) = fixId n id.
Proof. destruct id as [|k]; [destruct n |]; reflexivity. Qed.

Lemma fixedOn_nil (n : nat) (voc : gmap string nat) : fixedOn n [] voc voc.
Proof.
  intros k. rewrite bool_decide_eq_false_2 by apply not_elem_of_nil.
  now destruct (voc !! k).
Qed.

Lemma fixedOn_app (n : nat) (s1 s2 : list string)
    (voc voc1 voc2 : gmap string nat) :
  fixedOn n s1 voc voc1 -> fixedOn n s2 voc1 voc2 ->
  fixedOn n (s1 ++ s2) voc voc2.
Proof.
  intros H1 H2 k. rewrite H2, H1.
  destruct (voc !! k) as [id|]; [cbn | reflexivity].
  destruct (bool_decide (k ∈ s1)) eqn:E1, (bool_decide (k ∈ s2)) eqn:E2;
    [ rewrite bool_decide_eq_true_2
    | rewrite bool_decide_eq_true_2
    | rewrite bool_decide_eq_true_2
    | rewrite bool_decide_eq_false_2 ];
    rewrite ?elem_of_app, ?fixId_idem; try reflexivity;
    try apply bool_decide_eq_true_1 in E1;
    try apply bool_decide_eq_true_1 in E2;
    try apply bool_decide_eq_false_1 in E1;
    try apply bool_decide_eq_false_1 in E2; tauto.
Qed.

Lemma fixedOn_is_Some (n : nat) (subs : list string)
    (voc voc' : gmap string nat) (k : string) :
  fixedOn n subs voc voc' -> is_Some (voc' !! k) <-> is_Some (voc !! k).
Proof. intros H. rewrite H. apply fmap_is_Some. Qed.

Lemma fixedOn_size (n : nat) (subs : list string)
    (voc voc' : gmap string nat) :
  fixedOn n subs voc voc' -> size voc' = size voc.
Proof.
  intros H. rewrite <- !(size_dom (D := gset string)). f_equal.
  apply set_eq. intros k. rewrite !elem_of_dom. eapply fixedOn_is_Some, H.
Qed.

Lemma fixedOn_token (n : nat) (subs : list string)
    (voc voc' : gmap string nat) (s : string) :
  fixedOn n subs voc voc' ->
  fixId n (default 0 (voc' !! s)) = fixId n (default 0 (voc !! s)).
Proof.
  intros H. rewrite H. destruct (voc !! s) as [id|]; [cbn | reflexivity].
  destruct (bool_decide _); [apply fixId_idem | reflexivity].
Qed.

Lemma fixedOn_twice (n : nat) (subs : list string)
    (voc voc1 voc2 : gmap string nat) :
  fixedOn n subs voc voc1 -> fixedOn n subs voc1 voc2 -> voc2 = voc1.
Proof.
  intros H1 H2. apply map_eq. intros k. rewrite H2, H1.
  destruct (voc !! k) as [id|]; [cbn | reflexivity].
  destruct (bool_decide _); [now rewrite fixId_idem | reflexivity].
Qed.

Lemma fixedOn_nonzero (n : nat) (subs : list string)
    (voc voc' : gmap string nat) (s : string) :
  fixedOn n subs voc voc' -> n <> 0 -> s ∈ subs -> voc' !! s <> Some 0.
Proof.
  intros H Hn Hs. rewrite H, bool_decide_eq_true_2 by assumption.
  destruct (voc !! s) as [[|id]|]; cbn; congruence.
Qed.

Lemma fixedOn_keeps_nonzero (n : nat) (subs : list string)
    (voc voc' : gmap string nat) (s : string) :
  fixedOn n subs voc voc' -> voc !! s <> Some 0 -> voc' !! s <> Some 0.
Proof.
  intros H Hs. rewrite H.
  destruct (voc !! s) as [[|id]|]; cbn; [congruence | | congruence].
  destruct (bool_decide _); cbn; congruence.
Qed.

(** The segmentation of a word only asks which strings are entries. *)
Lemma longestMatch_same_keys (voc voc' : gmap string nat) (remaining : string)
    (len : nat) :
  (forall k, is_Some (voc' !! k) <-> is_Some (voc !! k)) ->
  longestMatch voc' remaining len = longestMatch voc remaining len.
Proof.
  intros H. induction len as [|n IH]; [reflexivity |].
  cbn [longestMatch]. rewrite IH.
  now rewrite (bool_decide_ext _ _ (H (JS.substringTo (S n) remaining))).
Qed.

Lemma getSubwords_same_keys (voc voc' : gmap string nat) (word : string) :
  (forall k, is_Some (voc' !! k) <-> is_Some (voc !! k)) ->
  getSubwords voc' word = getSubwords voc word.
Proof.
  intros H. unfold getSubwords. destruct (_ <=? 3); [reflexivity |].
  remember (String.length word) as n eqn:Hn. revert word Hn.
  induction n as [n IH] using lt_wf_ind; intros [|c r] Hn.
  - now rewrite !getSubwordsLoop_equation_1.
  - rewrite !getSubwordsLoop_equation_2.
    assert (bestSubword voc' (String c r) = bestSubword voc (String c r)) as ->
      by (apply longestMatch_same_keys, H).
    f_equal. eapply IH; [| reflexivity].
    rewrite substringFrom_length.
    assert (String c r <> EmptyString) as Hne by congruence.
    pose proof (bestSubword_length voc (String c r) Hne).
    cbn [String.length] in *. lia.
Qed.

Lemma tokenizeSubword_registered (HF : NoFail O) (w : World)
    (e : NeuralEngine) (tokens : list nat) (s : string) :
  neuralEngine (engine w) = Some e ->
  is_Some (vocabulary e !! s) ->
  exists w' e',
    tokenizeSubword O tokens s w
    = (Ok (tokens ++ [fixId (size (vocabulary e))
                        (default 0 (vocabulary e !! s))])%list, w')
    /\ neuralEngine (engine w') = Some e'
    /\ fixedOn (size (vocabulary e)) [s] (vocabulary e) (vocabulary e')
    /\ (vocabulary e !! s <> Some 0 ->
        tokenVocabulary (db w') = tokenVocabulary (db w)).
Proof.
  intros He [[|m] Hs].
  - destruct (tokenizeSubword_mints HF w e tokens s He (or_intror Hs))
      as (w' & row & Hrun & He' & _).
    eexists w', _. rewrite Hs. split; [exact Hrun |].
    split; [exact He' |]. split; [| congruence].
    intros k. cbn [vocabulary setVocabulary].
    destruct (decide (k = s)) as [-> | Hne].
    + rewrite lookup_insert_eq, Hs.
      rewrite bool_decide_eq_true_2
        by (apply list_elem_of_singleton; reflexivity).
      reflexivity.
    + rewrite lookup_insert_ne by congruence.
      rewrite bool_decide_eq_false_2
        by (rewrite list_elem_of_singleton; assumption).
      now destruct (vocabulary e !! k).
  - destruct (tokenizeSubword_keeps HF w e tokens s m He Hs)
      as (w' & Hrun & He' & Hrows).
    exists w', e. rewrite Hs. split; [exact Hrun |].
    split; [exact He' |]. split; [| intros _; exact Hrows].
    intros k. destruct (decide (k = s)) as [-> | Hne].
    + rewrite Hs.
      rewrite bool_decide_eq_true_2
        by (apply list_elem_of_singleton; reflexivity).
      reflexivity.
    + rewrite bool_decide_eq_false_2
        by (rewrite list_elem_of_singleton; assumption).
      now destruct (vocabulary e !! k).
Qed.

Lemma tokenizeSubwords_registered (HF : NoFail O) (n : nat)
    (subs : list string) :
  forall (w : World) (e : NeuralEngine) (tokens : list nat),
    neuralEngine (engine w) = Some e ->
    size (vocabulary e) = n ->
    Forall (fun s => is_Some (vocabulary e !! s)) subs ->
    exists w' e',
      foldM (tokenizeSubword O) tokens subs w
      = (Ok (tokens
             ++ map (fun s => fixId n (default 0 (vocabulary e !! s))) subs)
           %list, w')
      /\ neuralEngine (engine w') = Some e'
      /\ fixedOn n subs (vocabulary e) (vocabulary e')
      /\ (Forall (fun s => vocabulary e !! s <> Some 0) subs ->
          tokenVocabulary (db w') = tokenVocabulary (db w)).
Proof.
  induction subs as [|s subs IH]; intros w e tokens He Hn Hreg.
  - exists w, e. cbn [foldM map]. rewrite app_nil_r.
    repeat split; auto using fixedOn_nil.
  - apply Forall_cons in Hreg as [Hs Hreg].
    destruct (tokenizeSubword_registered HF w e tokens s He Hs)
      as (w1 & e1 & Hrun1 & He1 & Hfix1 & Hrows1).
    rewrite Hn in *.
    destruct (IH w1 e1 (tokens ++ [fixId n (default 0 (vocabulary e !! s))])
                He1)%list
      as (w2 & e2 & Hrun2 & He2 & Hfix2 & Hrows2).
    { rewrite <- Hn. eapply fixedOn_size, Hfix1. }
    { eapply Forall_impl; [exact Hreg |]. intros k Hk.
      eapply fixedOn_is_Some; eassumption. }
    exists w2, e2. rewrite run_foldM_cons. mstep Hrun1. rewrite Hrun2.
    split; [| split; [exact He2 | split]].
    + rewrite <- app_assoc. cbn [map app]. do 4 f_equal.
      apply map_ext. intros k. eapply fixedOn_token, Hfix1.
    + change (s :: subs) with ([s] ++ subs)%list.
      eapply fixedOn_app; eassumption.
    + intros Hnz. apply Forall_cons in Hnz as [Hs0 Hnz].
      rewrite Hrows2, Hrows1; [reflexivity | exact Hs0 |].
      eapply Forall_impl; [exact Hnz |]. intros k Hk.
      eapply fixedOn_keeps_nonzero; eassumption.
Qed.

Lemma tokenizeWords_registered (HF : NoFail O) (n : nat)
    (words : list string) :
  forall (w : World) (e : NeuralEngine) (tokens : list nat),
    neuralEngine (engine w) = Some e ->
    size (vocabulary e) = n ->
    Forall (fun s => is_Some (vocabulary e !! s))
      (flat_map (getSubwords (vocabulary e)) words) ->
    exists w' e',
      foldM (tokenizeWord O) tokens words w
      = (Ok (tokens
             ++ map (fun s => fixId n (default 0 (vocabulary e !! s)))
                  (flat_map (getSubwords (vocabulary e)) words))%list, w')
      /\ neuralEngine (engine w') = Some e'
      /\ fixedOn n (flat_map (getSubwords (vocabulary e)) words)
           (vocabulary e) (vocabulary e')
      /\ (Forall (fun s => vocabulary e !! s <> Some 0)
            (flat_map (getSubwords (vocabulary e)) words) ->
          tokenVocabulary (db w') = tokenVocabulary (db w)).
Proof.
  induction words as [|word words IH]; intros w e tokens He Hn Hreg.
  - exists w, e. cbn [foldM flat_map map]. rewrite app_nil_r.
    repeat split; auto using fixedOn_nil.
  - cbn [flat_map] in *. apply Forall_app in Hreg as [Hreg1 Hreg2].
    destruct (tokenizeSubwords_registered HF n
                (getSubwords (vocabulary e) word) w e tokens He Hn Hreg1)
      as (w1 & e1 & Hrun1 & He1 & Hfix1 & Hrows1).
    assert (forall k, is_Some (vocabulary e1 !! k)
                      <-> is_Some (vocabulary e !! k)) as Hkeys
      by (intros k; eapply fixedOn_is_Some, Hfix1).
    assert (flat_map (getSubwords (vocabulary e1)) words
            = flat_map (getSubwords (vocabulary e)) words) as Hsame.
    { clear -Hkeys. induction words as [|x xs IHx]; [reflexivity |].
      cbn [flat_map].
      now rewrite IHx, (getSubwords_same_keys _ _ x Hkeys). }
    destruct (IH w1 e1
                (tokens
                 ++ map (fun s => fixId n (default 0 (vocabulary e !! s)))
                      (getSubwords (vocabulary e) word))%list He1)
      as (w2 & e2 & Hrun2 & He2 & Hfix2 & Hrows2).
    { rewrite <- Hn. eapply fixedOn_size, Hfix1. }
    { rewrite Hsame. eapply Forall_impl; [exact Hreg2 |]. intros k Hk.
      apply Hkeys, Hk. }
    rewrite Hsame in *.
    exists w2, e2. rewrite run_foldM_cons. rewrite run_bind.
    unfold tokenizeWord at 1. mstep (run_this w e He). rewrite Hrun1.
    cbv beta iota. rewrite Hrun2.
    split; [| split; [exact He2 | split]].
    + rewrite <- app_assoc, map_app. do 4 f_equal.
      apply map_ext. intros k. eapply fixedOn_token, Hfix1.
    + eapply fixedOn_app; eassumption.
    + intros Hnz. apply Forall_app in Hnz as [Hnz1 Hnz2].
      rewrite Hrows2, Hrows1; [reflexivity | exact Hnz1 |].
      eapply Forall_impl; [exact Hnz2 |]. intros k Hk.
      eapply fixedOn_keeps_nonzero; eassumption.
Qed.

(** C3.  When every subword into which the vocabulary cuts a text is
    already an entry, and the database accepts its calls, tokenizing the
    text twice returns the same ids both times, and the second call leaves
    the vocabulary (hence its size) and the stored token rows as the first
    call left them. *)
Theorem tokenizeText_twice (w : World) (e : NeuralEngine) (text : string) :
  NoFail O ->
  neuralEngine (engine w) = Some e ->
  Forall (fun s => is_Some (vocabulary e !! s))
    (textSubwords (vocabulary e) text) ->
  exists ids w1 w2 e1 e2,
    tokenizeText O text w = (Ok ids, w1)
    /\ tokenizeText O text w1 = (Ok ids, w2)
    /\ neuralEngine (engine w1) = Some e1
    /\ neuralEngine (engine w2) = Some e2
    /\ vocabulary e2 = vocabulary e1
    /\ size (vocabulary e2) = size (vocabulary e1)
    /\ tokenVocabulary (db w2) = tokenVocabulary (db w1).
Proof.
  intros HF He Hreg. unfold tokenizeText, textSubwords in *.
  set (words := JS.splitWhiteSpace false (JS.toLowerCase text)) in *.
  set (n := size (vocabulary e)).
  destruct (tokenizeWords_registered HF n words w e [] He eq_refl Hreg)
    as (w1 & e1 & Hrun1 & He1 & Hfix1 & _).
  assert (forall k, is_Some (vocabulary e1 !! k)
                    <-> is_Some (vocabulary e !! k)) as Hkeys
    by (intros k; eapply fixedOn_is_Some, Hfix1).
  assert (flat_map (getSubwords (vocabulary e1)) words
          = flat_map (getSubwords (vocabulary e)) words) as Hsame.
  { clear -Hkeys. induction words as [|x xs IHx]; [reflexivity |].
    cbn [flat_map].
      now rewrite IHx, (getSubwords_same_keys _ _ x Hkeys). }
  assert (size (vocabulary e1) = n) as Hn1 by (eapply fixedOn_size, Hfix1).
  destruct (tokenizeWords_registered HF n words w1 e1 [] He1 Hn1)
    as (w2 & e2 & Hrun2 & He2 & Hfix2 & Hrows2).
  { rewrite Hsame. eapply Forall_impl; [exact Hreg |]. intros k Hk.
    apply Hkeys, Hk. }
  rewrite Hsame in *.
  assert (vocabulary e2 = vocabulary e1) as Hvoc
    by (eapply fixedOn_twice; eassumption).
  exists (map (fun s => fixId n (default 0 (vocabulary e !! s)))
            (flat_map (getSubwords (vocabulary e)) words)), w1, w2, e1, e2.
  split; [exact Hrun1 |]. split.
  { rewrite Hrun2. cbn [app]. do 2 f_equal. apply map_ext. intros k.
    eapply fixedOn_token, Hfix1. }
  split; [exact He1 |]. split; [exact He2 |]. split; [exact Hvoc |].
  split; [now rewrite Hvoc |].
  apply Hrows2. apply Forall_forall. intros s Hs.
  eapply fixedOn_nonzero; [exact Hfix1 | | exact Hs].
  rewrite Forall_forall in Hreg. destruct (Hreg s Hs) as [id Hid].
  subst n. apply map_size_ne_0_lookup_2 with (i := s). eauto.
Qed.

(** *** Tokenizing with the entry of id 0 *)

(** A word of at most three code units whose entry is absent or has id 0
    gets the id [size]. *)
Lemma tokenizeWord_short_mints (HF : NoFail O) (w : World) (e : NeuralEngine)
    (tokens : list nat) (word : string) :
  neuralEngine (engine w) = Some e ->
  String.length word <= 3 ->
  vocabulary e !! word = None \/ vocabulary e !! word = Some 0 ->
  exists w',
    tokenizeWord O tokens word w
    = (Ok (tokens ++ [size (vocabulary e)])%list, w')
    /\ neuralEngine (engine w')
       = Some (setVocabulary (<[word := size (vocabulary e)]> (vocabulary e))
                 e).
Proof.
  intros He Hlen Hv. unfold tokenizeWord. mstep (run_this w e He).
  unfold getSubwords. rewrite (proj2 (Nat.leb_le _ _) Hlen).
  destruct (tokenizeSubword_mints HF w e tokens word He Hv)
    as (w' & row & Hrun & He' & _).
  exists w'. rewrite run_foldM_cons. mstep Hrun. split; [reflexivity | exact He'].
Qed.

(** C4, on the code.  On an engine whose vocabulary is empty, as it is
    after construction, and with a database that accepts every call:
    tokenizing ["a a"] returns the ids 0 and 1 for the two occurrences of
    the same subword and leaves the one-entry vocabulary [a -> 1], whose
    only id is outside [0 .. size - 1]; and tokenizing ["a b"] and then
    ["a c"] leaves [a] and [c] with the same id 2. *)
Theorem tokenizeText_id_zero_reassigned (w : World) (e : NeuralEngine) :
  NoFail O ->
  neuralEngine (engine w) = Some e ->
  vocabulary e = ∅ ->
  (exists w' e',
     tokenizeText O "a a" w = (Ok [0; 1], w')
     /\ neuralEngine (engine w') = Some e'
     /\ vocabulary e' = {[ "a" := 1 ]})
  /\ (exists w1 w2 e2,
        tokenizeText O "a b" w = (Ok [0; 1], w1)
        /\ tokenizeText O "a c" w1 = (Ok [2; 2], w2)
        /\ neuralEngine (engine w2) = Some e2
        /\ vocabulary e2 = {[ "a" := 2; "b" := 1; "c" := 2 ]}).
Proof.
  intros HF He Hv. unfold tokenizeText. split.
  - change (JS.splitWhiteSpace false (JS.toLowerCase "a a")) with ["a"; "a"].
    destruct (tokenizeWord_short_mints HF w e [] "a" He) as (w1 & R1 & E1);
      [cbn; lia | left; rewrite Hv; apply lookup_empty |].
    rewrite Hv in *. change (size (∅ : gmap string nat)) with 0 in *.
    cbn [app] in *.
    destruct (tokenizeWord_short_mints HF w1 _ [0] "a" E1) as (w2 & R2 & E2);
      [cbn; lia | right; reflexivity |].
    cbn [vocabulary setVocabulary app] in *.
    change (size (<["a":=0]> (∅ : gmap string nat))) with 1 in *.
    eexists w2, _. rewrite run_foldM_cons. mstep R1.
    rewrite run_foldM_cons. mstep R2.
    split; [reflexivity |]. split; [exact E2 |].
    cbn [vocabulary setVocabulary]. vm_compute. reflexivity.
  - change (JS.splitWhiteSpace false (JS.toLowerCase "a b")) with ["a"; "b"].
    change (JS.splitWhiteSpace false (JS.toLowerCase "a c")) with ["a"; "c"].
    destruct (tokenizeWord_short_mints HF w e [] "a" He) as (w1 & R1 & E1);
      [cbn; lia | left; rewrite Hv; apply lookup_empty |].
    rewrite Hv in *. change (size (∅ : gmap string nat)) with 0 in *.
    cbn [app] in *.
    destruct (tokenizeWord_short_mints HF w1 _ [0] "b" E1) as (w2 & R2 & E2);
      [cbn; lia | left; reflexivity |].
    cbn [vocabulary setVocabulary app] in *.
    change (size (<["a":=0]> (∅ : gmap string nat))) with 1 in *.
    destruct (tokenizeWord_short_mints HF w2 _ [] "a" E2) as (w3 & R3 & E3);
      [cbn; lia | right; reflexivity |].
    cbn [vocabulary setVocabulary app] in *.
    change (size (<["b":=1]> (<["a":=0]> (∅ : gmap string nat)))) with 2 in *.
    destruct (tokenizeWord_short_mints HF w3 _ [2] "c" E3) as (w4 & R4 & E4);
      [cbn; lia | left; reflexivity |].
    cbn [vocabulary setVocabulary app] in *.
    change (size (<["a":=2]> (<["b":=1]> (<["a":=0]> (∅ : gmap string nat)))))
      with 2 in *.
    eexists w2, w4, _.
    rewrite run_foldM_cons. mstep R1. rewrite run_foldM_cons. mstep R2.
    rewrite run_foldM_cons. mstep R3. rewrite run_foldM_cons. mstep R4.
    split; [reflexivity |]. split; [reflexivity |]. split; [exact E4 |].
    cbn [vocabulary setVocabulary]. vm_compute. reflexivity.
Qed.

(** ** Frames: what a computation leaves alone *)

Section Respects.

Context (R : World -> World -> Prop) `{!PreOrder R}.

Lemma respects_ret {A : Type} (a : A) : respects R (mret a : M A).
Proof. intros w. reflexivity. Qed.

Lemma respects_throw {A : Type} (e : Error) : respects R (throw e : M A).
Proof. intros w. reflexivity. Qed.

Lemma respects_gets {A : Type} (f : World -> A) : respects R (gets f).
Proof. intros w. reflexivity. Qed.

Lemma respects_bind {A B : Type} (m : M A) (f : A -> M B) :
  respects R m -> (forall a, respects R (f a)) -> respects R (m ≫= f).
Proof.
  intros Hm Hf w. rewrite run_bind. specialize (Hm w).
  destruct (m w) as [[a | e] w1]; cbn [snd] in *; [| exact Hm].
  etransitivity; [exact Hm | apply Hf].
Qed.

Lemma respects_tryCatch {A : Type} (body : M A) (handler : Error -> M A) :
  respects R body -> (forall e, respects R (handler e)) ->
  respects R (tryCatch body handler).
Proof.
  intros Hm Hh w. unfold tryCatch. specialize (Hm w).
  destruct (body w) as [[a | e] w1]; cbn [snd] in *; [exact Hm |].
  etransitivity; [exact Hm | apply Hh].
Qed.

Lemma respects_foldM {A B : Type} (body : B -> A -> M B) (xs : list A) :
  (forall acc x, respects R (body acc x)) ->
  forall acc, respects R (foldM body acc xs).
Proof.
  intros Hb. induction xs as [|x xs IH]; intros acc.
  - apply respects_ret.
  - rewrite run_foldM_cons. apply respects_bind; [apply Hb | apply IH].
Qed.

Lemma respects_forM_ {A : Type} (xs : list A) (body : A -> M unit) :
  (forall x, respects R (body x)) -> respects R (forM_ xs body).
Proof. intros Hb. apply respects_foldM. intros _ x. apply Hb. Qed.

Lemma respects_mapM {A B : Type} (f : A -> M B) (xs : list A) :
  (forall x, respects R (f x)) -> respects R (mapM f xs).
Proof.
  intros Hf. induction xs as [|x xs IH]; cbn [mapM].
  - apply respects_ret.
  - apply respects_bind; [apply Hf | intros y].
    apply respects_bind; [apply IH | intros ys; apply respects_ret].
Qed.

Lemma respects_replicateM {A : Type} (n : nat) (m : M A) :
  respects R m -> respects R (replicateM n m).
Proof.
  intros Hm. induction n as [|n IH]; cbn [replicateM].
  - apply respects_ret.
  - apply respects_bind; [apply Hm | intros y].
    apply respects_bind; [apply IH | intros ys; apply respects_ret].
Qed.

Lemma respects_modify (f : World -> World) :
  (forall w, R w (f w)) -> respects R (modify f).
Proof. intros Hf w. apply Hf. Qed.

End Respects.

Arguments respects_ret {R _ A} a.
Arguments respects_throw {R _ A} e.
Arguments respects_gets {R _ A} f.
Arguments respects_bind {R _ A B} m f _ _.
Arguments respects_tryCatch {R _ A} body handler _ _.
Arguments respects_foldM {R _ A B} body xs _ acc.
Arguments respects_forM_ {R _ A} xs body _.
Arguments respects_mapM {R _ A B} f xs _.
Arguments respects_replicateM {R _ A} n m _.
Arguments respects_modify {R} f _.

(** *** The frame of the learning engine *)

Lemma Step_compose (r1 r2 : list (Z * Z * ReflectionType))
    (c1 c2 : list (Z * bool)) (w w1 w2 : World) :
  Step O r1 c1 w w1 -> Step O r2 c2 w1 w2 ->
  Step O (r1 ++ r2) (c1 ++ c2) w w2.
Proof.
  intros [A1 A2 A3 A4] [B1 B2 B3 B4]. split.
  - rewrite B1, A1. now rewrite app_assoc.
  - rewrite B2, A2. now rewrite app_assoc.
  - auto.
  - intros HS. rewrite B4, A4 by assumption. reflexivity.
Qed.

Lemma Step_same (w w' : World) :
  reflections (db w') = reflections (db w) ->
  generatedContent (db w') = generatedContent (db w) ->
  isGenerating (engine w') = isGenerating (engine w) ->
  Step O [] [] w w'.
Proof.
  intros H1 H2 H3. split; rewrite ?H1, ?H2, ?H3, ?app_nil_r; auto.
Qed.

#[local] Instance Step_preorder : PreOrder (Step O [] []).
Proof.
  split.
  - intros w. now apply Step_same.
  - intros w w1 w2 H1 H2. exact (Step_compose [] [] [] [] w w1 w2 H1 H2).
Qed.

Lemma Step_afterSuspend (w : World) : Step O [] [] w (afterSuspend O w).
Proof.
  unfold afterSuspend. split.
  - destruct (stopRequested O _); cbn; now rewrite app_nil_r.
  - destruct (stopRequested O _); cbn; now rewrite app_nil_r.
  - destruct (stopRequested O _); cbn; auto.
  - intros HS. rewrite HS. reflexivity.
Qed.

(** World updates that touch neither of the two tables nor the flag. *)
Ltac frame_world := intros; apply Step_same; reflexivity.

Lemma frame_suspend : respects (Step O [] []) (suspend O).
Proof. intros w. apply Step_afterSuspend. Qed.

Lemma frame_dbCall (operation : string) :
  respects (Step O [] []) (dbCall O operation).
Proof.
  unfold dbCall. apply respects_bind; [apply frame_suspend | intros t].
  destruct (dbFails O t); [apply respects_throw | apply respects_ret].
Qed.

Lemma frame_Math_random : respects (Step O [] []) (Math_random O).
Proof. intros w. cbn. frame_world. Qed.

Lemma frame_randomArray {A : Type} (f : Q -> A) (n : nat) :
  respects (Step O [] []) (randomArray O f n).
Proof. intros w. cbn. frame_world. Qed.

Lemma frame_forwardPass (tokens : list nat) :
  respects (Step O [] []) (forwardPass O tokens).
Proof. intros w. cbn. frame_world. Qed.

Lemma frame_broadcast (message : WebSocketMessage) :
  respects (Step O [] []) (broadcast message).
Proof. apply respects_modify. frame_world. Qed.

Lemma frame_this : respects (Step O [] []) this.
Proof. intros w. unfold this. destruct (neuralEngine _); reflexivity. Qed.

Lemma frame_updThis (f : NeuralEngine -> NeuralEngine) :
  respects (Step O [] []) (updThis f).
Proof. apply respects_modify. frame_world. Qed.

Lemma frame_pushConsole (l : LogLine) :
  respects (Step O [] []) (modify (pushConsole l)).
Proof. apply respects_modify. frame_world. Qed.

Create HintDb frame.

#[local] Hint Resolve frame_suspend frame_dbCall frame_Math_random
  frame_randomArray frame_forwardPass frame_broadcast frame_this
  frame_updThis frame_pushConsole : frame.

(** The structural rules, applied as far as they go. *)
Ltac frame :=
  repeat first
    [ apply respects_ret
    | apply respects_throw
    | apply respects_gets
    | apply respects_bind; [| intros ?]
    | apply respects_tryCatch; [| intros ?]
    | apply respects_foldM; intros ? ?
    | apply respects_forM_; intros ?
    | apply respects_mapM; intros ?
    | apply respects_replicateM
    | match goal with
      | |- respects _ (match ?x with _ => _ end) => destruct x
      end
    | solve [eauto with frame]
    | apply respects_modify; frame_world ].

Lemma frame_getTokenByValue (sid : Z) (token : string) :
  respects (Step O [] []) (getTokenByValue O sid token).
Proof. unfold getTokenByValue. frame. Qed.

Lemma frame_createTokenVocabulary (sid : Z) (token : string)
    (tokenId frequency : nat) (embedding : list Q)
    (components : SubwordComponents) :
  respects (Step O [] [])
    (createTokenVocabulary O sid token tokenId frequency embedding components).
Proof. unfold createTokenVocabulary. frame. Qed.

Lemma frame_createModelWeights (sid : Z) (layerName : string)
    (ws : list (list num)) (bs : list num) (rate : Q) :
  respects (Step O [] []) (createModelWeights O sid layerName ws bs rate).
Proof. unfold createModelWeights. frame. Qed.

Lemma frame_createTrainingBatch (sid : Z) (inputText targetOutput
    modelOutput : string) (loss : Q) (tokens : list nat) :
  respects (Step O [] [])
    (createTrainingBatch O sid inputText targetOutput modelOutput loss tokens).
Proof. unfold createTrainingBatch. frame. Qed.

Lemma frame_createLearningMetrics (sid : Z) (epoch : nat)
    (loss bleuScore convergenceRate : Q) (vocabularySize : nat) :
  respects (Step O [] [])
    (createLearningMetrics O sid epoch loss bleuScore convergenceRate
       vocabularySize).
Proof. unfold createLearningMetrics. frame. Qed.

#[local] Hint Resolve frame_getTokenByValue frame_createTokenVocabulary
  frame_createModelWeights frame_createTrainingBatch
  frame_createLearningMetrics : frame.

Lemma frame_tokenizeText (text : string) :
  respects (Step O [] []) (tokenizeText O text).
Proof.
  unfold tokenizeText, tokenizeWord, tokenizeSubword, generateTokenEmbedding.
  frame.
Qed.

Lemma frame_updateWeights (loss : Q) (modelOutput gptTarget : string) :
  respects (Step O [] []) (updateWeights O loss modelOutput gptTarget).
Proof.
  unfold updateWeights, calculateGradients, saveWeightsToDatabase, biasesOf.
  frame.
Qed.

#[local] Hint Resolve frame_tokenizeText frame_updateWeights : frame.

Lemma frame_trainStep (inputText : string) :
  respects (Step O [] []) (trainStep O inputText).
Proof. unfold trainStep, openaiCreate. frame. Qed.

(** [trainStep] never throws: its handler only logs. *)
Lemma trainStep_returns (inputText : string) (w : World) :
  exists w', trainStep O inputText w = (Ok tt, w').
Proof.
  unfold trainStep, tryCatch.
  match goal with |- context [?body w] => destruct (body w) as [[[] | e] w1] end.
  - eauto.
  - eexists. reflexivity.
Qed.

(** *** What the reflection engine appends, when the database accepts *)

Lemma performs_weaken {A : Type} (m : M A)
    (r r' : list (Z * Z * ReflectionType)) (c c' : list (Z * bool)) :
  performs O m r c -> r = r' -> c = c' -> performs O m r' c'.
Proof. now intros H <- <-. Qed.

Lemma performs_ret {A : Type} (a : A) : performs O (mret a : M A) [] [].
Proof. intros w. exists a, w. split; [reflexivity | reflexivity]. Qed.

Lemma performs_bind {A B : Type} (m : M A) (f : A -> M B)
    (r1 r2 : list (Z * Z * ReflectionType)) (c1 c2 : list (Z * bool)) :
  performs O m r1 c1 -> (forall a, performs O (f a) r2 c2) ->
  performs O (m ≫= f) (r1 ++ r2) (c1 ++ c2).
Proof.
  intros Hm Hf w. destruct (Hm w) as (a & w1 & E1 & S1).
  destruct (Hf a w1) as (b & w2 & E2 & S2).
  exists b, w2. rewrite run_bind, E1. split; [exact E2 |].
  eapply Step_compose; eassumption.
Qed.

Lemma performs_framed {A : Type} (m : M A) :
  respects (Step O [] []) m -> (forall w, exists a w', m w = (Ok a, w')) ->
  performs O m [] [].
Proof.
  intros Hr Ht w. destruct (Ht w) as (a & w' & E). exists a, w'.
  split; [exact E |]. specialize (Hr w). now rewrite E in Hr.
Qed.

Lemma performs_gets {A : Type} (f : World -> A) : performs O (gets f) [] [].
Proof. intros w. exists (f w), w. split; reflexivity. Qed.

Lemma performs_modify (f : World -> World)
    (r : list (Z * Z * ReflectionType)) (c : list (Z * bool)) :
  (forall w, Step O r c w (f w)) -> performs O (modify f) r c.
Proof. intros Hf w. exists tt, (f w). split; [reflexivity | apply Hf]. Qed.

Lemma performs_if {A : Type} (b : bool) (m1 m2 : M A)
    (r1 r2 : list (Z * Z * ReflectionType)) (c1 c2 : list (Z * bool)) :
  performs O m1 r1 c1 -> performs O m2 r2 c2 ->
  performs O (if b then m1 else m2) (if b then r1 else r2)
    (if b then c1 else c2).
Proof. now destruct b. Qed.

Lemma performs_foldM_nil {A B : Type} (body : B -> A -> M B) (xs : list A) :
  (forall acc x, performs O (body acc x) [] []) ->
  forall acc, performs O (foldM body acc xs) [] [].
Proof.
  intros Hb. induction xs as [|x xs IH]; intros acc.
  - apply performs_ret.
  - rewrite run_foldM_cons.
    exact (performs_bind _ _ [] [] [] [] (Hb acc x) IH).
Qed.

Lemma performs_tryCatch_framed {A : Type} (body : M A)
    (handler : Error -> M A) :
  respects (Step O [] []) body ->
  (forall e, performs O (handler e) [] []) ->
  performs O (tryCatch body handler) [] [].
Proof.
  intros Hb Hh w. unfold tryCatch. specialize (Hb w).
  destruct (body w) as [[a | e] w1]; cbn [snd] in Hb.
  - exists a, w1. split; [reflexivity | exact Hb].
  - destruct (Hh e w1) as (a & w2 & E & S). exists a, w2.
    split; [exact E |]. exact (Step_compose [] [] [] [] w w1 w2 Hb S).
Qed.

Section Accepting.

Context (HF : NoFail O).

Lemma performs_suspend : performs O (suspend O) [] [].
Proof.
  apply performs_framed; [apply frame_suspend |].
  intros w. eexists _, _. reflexivity.
Qed.

Lemma performs_dbCall (operation : string) :
  performs O (dbCall O operation) [] [].
Proof.
  apply performs_framed; [apply frame_dbCall |].
  intros w. eexists _, _. apply (run_dbCall HF).
Qed.

Lemma performs_Math_random : performs O (Math_random O) [] [].
Proof.
  apply performs_framed; [apply frame_Math_random |].
  intros w. eexists _, _. reflexivity.
Qed.

Lemma performs_broadcast (message : WebSocketMessage) :
  performs O (broadcast message) [] [].
Proof. apply performs_modify. frame_world. Qed.

Create HintDb performs.

#[local] Hint Resolve performs_suspend performs_dbCall performs_Math_random
  performs_broadcast : performs.

(** The structural rules; the lists of appended rows are found on the way. *)
Ltac perform :=
  repeat first
    [ apply performs_ret
    | apply performs_gets
    | solve [eauto with performs]
    | lazymatch goal with
      | |- performs _ (mbind _ _) _ _ => eapply performs_bind; [| intros ?]
      end
    | apply performs_modify; frame_world ].

Ltac performs_with tac :=
  eapply performs_weaken; [tac; perform | reflexivity | reflexivity].

Lemma performs_randomScore (base span : Z) :
  performs O (randomScore O base span) [] [].
Proof. performs_with ltac:(unfold randomScore). Qed.

Lemma performs_getSession (id : Z) : performs O (getSession O id) [] [].
Proof. performs_with ltac:(unfold getSession). Qed.

Lemma performs_getReflectionsBySession (sid : Z) :
  performs O (getReflectionsBySession O sid) [] [].
Proof. performs_with ltac:(unfold getReflectionsBySession). Qed.

Lemma performs_getRecentMemoryInsights (limit : nat) :
  performs O (getRecentMemoryInsights O limit) [] [].
Proof. performs_with ltac:(unfold getRecentMemoryInsights). Qed.

Lemma performs_createMemoryInsight (sid : Z) (type : InsightType)
    (content : string) (related : list Z) :
  performs O (createMemoryInsight O sid type content related) [] [].
Proof. performs_with ltac:(unfold createMemoryInsight). Qed.

Lemma Step_addReflection (r : Reflection) (w : World)
    (k : Z * Z * ReflectionType) :
  reflKey r = k -> Step O [k] [] w (updDb (addReflection r) w).
Proof.
  intros <-. split; cbn; rewrite ?map_app, ?app_nil_r; auto.
Qed.

Lemma Step_addGeneratedContent (g : GeneratedContent) (w : World)
    (k : Z * bool) :
  contentKey g = k -> Step O [] [k] w (updDb (addGeneratedContent g) w).
Proof.
  intros <-. split; cbn; rewrite ?map_app, ?app_nil_r; auto.
Qed.

Lemma performs_createReflection (ins : InsertReflection) :
  performs O (createReflection O ins)
    [(ir_sessionId ins, ir_cycle ins, ir_type ins)] [].
Proof.
  unfold createReflection.
  eapply performs_weaken;
    [ eapply performs_bind; [apply performs_dbCall | intros t];
      eapply performs_bind; [apply performs_gets | intros n];
      eapply performs_bind;
        [apply (performs_modify _
                  [(ir_sessionId ins, ir_cycle ins, ir_type ins)] []);
         intros w; apply Step_addReflection; reflexivity |
         intros ?];
      perform
    | reflexivity | reflexivity ].
Qed.

Lemma performs_createGeneratedContent (sid : Z) (reflectionId : nat)
    (content : string) (isComplete : bool)
    (qualityScore coherenceScore goalAlignment : Z) :
  performs O
    (createGeneratedContent O sid reflectionId content isComplete
       qualityScore coherenceScore goalAlignment)
    [] [(sid, isComplete)].
Proof.
  unfold createGeneratedContent.
  eapply performs_weaken;
    [ eapply performs_bind; [apply performs_dbCall | intros t];
      eapply performs_bind; [apply performs_gets | intros n];
      eapply performs_bind;
        [apply (performs_modify _ [] [(sid, isComplete)]);
         intros w; apply Step_addGeneratedContent; reflexivity |
         intros ?];
      perform
    | reflexivity | reflexivity ].
Qed.

#[local] Hint Resolve performs_randomScore performs_getSession
  performs_getReflectionsBySession performs_getRecentMemoryInsights
  performs_createMemoryInsight performs_createReflection
  performs_createGeneratedContent : performs.

Lemma performs_createAnalysisReflection (sid cycle : Z) (userInput : string)
    (previous : list Reflection) :
  performs O (createAnalysisReflection O sid cycle userInput previous)
    [(sid, cycle, analysis)] [].
Proof.
  unfold createAnalysisReflection.
  apply (performs_bind _ _ [] [(sid, cycle, analysis)] [] []);
    [apply performs_gets | intros now; apply performs_createReflection].
Qed.

Lemma performs_createMemoryReflection (sid cycle : Z)
    (insights : list MemoryInsight) :
  performs O (createMemoryReflection O sid cycle insights)
    [(sid, cycle, memory_recall)] [].
Proof. unfold createMemoryReflection. apply performs_createReflection. Qed.

Lemma performs_createStrategyReflection (sid cycle : Z) (userInput : string)
    (previous : list Reflection) :
  performs O (createStrategyReflection O sid cycle userInput previous)
    [(sid, cycle, if Z.eqb cycle 1 then strategy else refinement)] [].
Proof. unfold createStrategyReflection. apply performs_createReflection. Qed.

Lemma performs_createNoiseReflection (sid cycle noiseLevel : Z) :
  performs O (createNoiseReflection O sid cycle noiseLevel)
    [(sid, cycle, noise_injection)] [].
Proof.
  unfold createNoiseReflection.
  apply (performs_bind _ _ [] [(sid, cycle, noise_injection)] [] []);
    [apply performs_Math_random | intros r; apply performs_createReflection].
Qed.

Lemma performs_generateMemoryInsight (sid : Z) :
  performs O (generateMemoryInsight O sid) [] [].
Proof. performs_with ltac:(unfold generateMemoryInsight). Qed.

Lemma performs_updatePerformanceMetrics (sid : Z) :
  performs O (updatePerformanceMetrics O sid) [] [].
Proof. performs_with ltac:(unfold updatePerformanceMetrics). Qed.

#[local] Hint Resolve performs_createAnalysisReflection
  performs_createMemoryReflection performs_createStrategyReflection
  performs_createNoiseReflection performs_generateMemoryInsight
  performs_updatePerformanceMetrics : performs.

Lemma performs_performReflectionCycle (sid : Z) (userInput : string)
    (cycle noiseLevel : Z) :
  performs O (performReflectionCycle O sid userInput cycle noiseLevel)
    (cycleGroup sid cycle noiseLevel) [].
Proof.
  unfold performReflectionCycle, cycleGroup.
  eapply performs_weaken.
  - do 8 (eapply performs_bind; [solve [eauto with performs] | intros ?]).
    eapply performs_bind.
    + apply (performs_if (0 <? noiseLevel)%Z _ _
               [(sid, cycle, noise_injection)] [] [] []).
      * eapply performs_weaken;
          [ eapply performs_bind;
              [apply performs_createNoiseReflection | intros r];
            apply performs_broadcast
          | reflexivity | reflexivity ].
      * apply performs_ret.
    + intros ?. perform.
  - cbn [app]. destruct (0 <? noiseLevel)%Z; reflexivity.
  - destruct (0 <? noiseLevel)%Z; reflexivity.
Qed.

Lemma performs_trainStep (inputText : string) :
  performs O (trainStep O inputText) [] [].
Proof.
  apply performs_framed; [apply frame_trainStep |].
  intros w. destruct (trainStep_returns inputText w) as (w' & E). eauto.
Qed.

Lemma performs_cycleBody (sid : Z) (userInput : string)
    (cycle noiseLevel : Z) :
  performs O (cycleBody O sid userInput cycle noiseLevel)
    (cycleGroup sid cycle noiseLevel) [].
Proof.
  unfold cycleBody.
  eapply performs_weaken.
  - eapply performs_bind; [apply performs_modify; frame_world | intros ?].
    eapply performs_bind; [apply performs_performReflectionCycle | intros ?].
    eapply performs_bind; [apply performs_gets | intros ne].
    eapply performs_bind.
    + destruct ne; [apply performs_trainStep | apply performs_ret].
    + intros ?. perform.
  - now rewrite !app_nil_r.
  - reflexivity.
Qed.

Lemma performs_streamWord (state : string * nat) (word : string) :
  performs O (streamWord O state word) [] [].
Proof.
  destruct state as [content count].
  performs_with ltac:(unfold streamWord).
Qed.

Lemma performs_generateFinalContent (sid : Z) (userInput : string) :
  performs O (generateFinalContent O sid userInput) [] [(sid, true)].
Proof.
  unfold generateFinalContent.
  eapply performs_weaken.
  - eapply performs_bind;
      [apply performs_getReflectionsBySession | intros reflections].
    eapply performs_bind; [apply performs_getSession | intros ?].
    eapply performs_bind; [apply performs_gets | intros ne].
    eapply performs_bind.
    + destruct ne as [e |]; [| apply performs_ret].
      apply performs_tryCatch_framed.
      * apply respects_bind; [apply frame_tokenizeText | intros tokens].
        apply frame_forwardPass.
      * intros e'. performs_with idtac.
    + intros fullContent.
      eapply performs_bind.
      * apply performs_foldM_nil. intros acc x. apply performs_streamWord.
      * intros [content wordCount]. perform.
  - reflexivity.
  - reflexivity.
Qed.

(** *** Starting the loop *)

Lemma performs_randomArray {A : Type} (f : Q -> A) (n : nat) :
  performs O (randomArray O f n) [] [].
Proof.
  apply performs_framed; [apply frame_randomArray |].
  intros w. eexists _, _. reflexivity.
Qed.

Lemma performs_replicateM {A : Type} (n : nat) (m : M A) :
  performs O m [] [] -> performs O (replicateM n m) [] [].
Proof.
  intros Hm. induction n as [|n IH]; cbn [replicateM].
  - apply performs_ret.
  - performs_with idtac.
Qed.

Lemma performs_updThis (f : NeuralEngine -> NeuralEngine) :
  performs O (updThis f) [] [].
Proof. apply performs_modify. frame_world. Qed.

#[local] Hint Resolve performs_randomArray performs_replicateM
  performs_updThis : performs.

Lemma performs_forM_nil {A : Type} (xs : list A) (body : A -> M unit) :
  (forall x, performs O (body x) [] []) -> performs O (forM_ xs body) [] [].
Proof. intros Hb. apply performs_foldM_nil. intros _ x. apply Hb. Qed.

Lemma performs_newNeuralEngine (sid : Z) :
  performs O (newNeuralEngine O sid) [] [].
Proof.
  unfold newNeuralEngine, initializeWeights.
  eapply performs_weaken.
  - eapply performs_bind; [apply performs_modify; frame_world | intros ?].
    apply performs_forM_nil. intros [layer [rows cols]].
    performs_with idtac.
  - reflexivity.
  - reflexivity.
Qed.

#[local] Instance keepsEngine_preorder : PreOrder keepsEngine.
Proof. split; [intros w H; exact H | intros w1 w2 w3 H1 H2 H; auto]. Qed.

Lemma newNeuralEngine_installs (sid : Z) (w : World) :
  is_Some (neuralEngine (engine (snd (newNeuralEngine O sid w)))).
Proof.
  unfold newNeuralEngine. rewrite run_bind. unfold modify at 1.
  cbv beta iota.
  match goal with |- context [initializeWeights O ?w0] => set (w1 := w0) end.
  assert (respects keepsEngine (initializeWeights O)) as H.
  { unfold initializeWeights. apply respects_forM_.
    intros [layer [rows cols]].
    apply respects_bind; [| intros ws].
    { apply respects_replicateM. intros w2. cbn. intros Hs; exact Hs. }
    apply respects_bind; [| intros bias].
    { intros w2. cbn. intros Hs; exact Hs. }
    apply respects_bind; [| intros ?].
    { intros w2 Hs. cbn in *. destruct (neuralEngine (engine w2)); eauto. }
    intros w2 Hs. cbn in *. destruct (neuralEngine (engine w2)); eauto. }
  apply H. subst w1. cbn. eauto.
Qed.

Lemma performs_loadWeights_rest (e : NeuralEngine) :
  performs O
    (savedWeights ← getModelWeightsBySession O (sessionId e);
     savedTokens ← getTokenVocabularyBySession O (sessionId e);
     forM_ savedTokens (fun token =>
       updThis (fun e =>
         setVocabulary (<[tv_token token := tv_tokenId token]> (vocabulary e))
           e);;
       match tv_embedding token with
       | Some embedding =>
           updThis (fun e =>
             setTokenEmbeddings
               (<[tv_tokenId token := embedding]> (tokenEmbeddings e)) e)
       | None => mret tt
       end);;
     forM_ savedWeights (fun weightRecord =>
       updThis (fun e =>
         setWeights
           (mapSet (mw_layerName weightRecord) (mw_weights weightRecord)
              (weights e)) e);;
       match mw_biases weightRecord with
       | Some bs =>
           updThis (fun e =>
             setBiases (mapSet (mw_layerName weightRecord) bs (biases e)) e)
       | None => mret tt
       end;;
       match mw_learningRate weightRecord with
       | Some rate =>
           if Qeq_bool rate 0 then mret tt else updThis (setLearningRate rate)
       | None => mret tt
       end)) [] [].
Proof.
  eapply performs_weaken.
  - eapply performs_bind; [| intros savedWeights].
    { unfold getModelWeightsBySession. performs_with idtac. }
    eapply performs_bind; [| intros savedTokens].
    { unfold getTokenVocabularyBySession. performs_with idtac. }
    eapply performs_bind; [| intros ?].
    { apply performs_forM_nil. intros token.
      destruct (tv_embedding token); performs_with idtac. }
    apply performs_forM_nil. intros weightRecord.
    destruct (mw_biases weightRecord), (mw_learningRate weightRecord)
      as [rate |]; try destruct (Qeq_bool rate 0); performs_with idtac.
  - reflexivity.
  - reflexivity.
Qed.

Lemma beginReflectionLoop_returns (sid : Z) (w : World) (s : Session) :
  List.find (fun s => Z.eqb (s_id s) sid) (sessions (db w)) = Some s ->
  exists w0,
    beginReflectionLoop O sid w = (Ok tt, w0)
    /\ map reflKey (reflections (db w0)) = map reflKey (reflections (db w))
    /\ map contentKey (generatedContent (db w0))
       = map contentKey (generatedContent (db w))
    /\ isGenerating (engine w0) = true
    /\ currentCycle (engine w0) = 0%Z.
Proof.
  intros Hs. unfold beginReflectionLoop, getSession.
  rewrite run_bind. mstep (run_dbCall HF). unfold gets at 1. cbv beta iota.
  rewrite afterSuspend_db, Hs.
  rewrite run_bind. unfold modify at 1. cbv beta iota.
  match goal with |- context [_ ?w0 = (Ok tt, _)] => set (wa := w0) end.
  destruct (performs_newNeuralEngine sid wa) as ([] & wb & Eb & Sb).
  pose proof (newNeuralEngine_installs sid wa) as [e He]. rewrite Eb in He.
  cbn [snd] in He.
  destruct (performs_loadWeights_rest e wb) as ([] & wc & Ec & Sc).
  mstep Eb. rewrite run_bind. unfold loadWeights at 1.
  mstep (run_this wb e He). rewrite Ec. cbv beta iota.
  rewrite run_bind. unfold modify. cbv beta iota.
  eexists. split; [reflexivity |].
  destruct (Step_afterSuspend w) as [A1 A2 _ _].
  destruct Sb as [B1 B2 _ _], Sc as [C1 C2 _ _]. subst wa.
  cbn [db engine updEngine isGenerating currentCycle setIsGenerating
       setCurrentCycle] in *.
  rewrite C1, C2, B1, B2, A1, A2, !app_nil_r. repeat split; reflexivity.
Qed.

(** *** The loop *)

Lemma cycleBody_run (sid : Z) (userInput : string) (cycle noiseLevel : Z)
    (w : World) :
  cycleBody O sid userInput cycle noiseLevel w
  = (Ok tt, snd (cycleBody O sid userInput cycle noiseLevel w))
  /\ Step O (cycleGroup sid cycle noiseLevel) []
       w (snd (cycleBody O sid userInput cycle noiseLevel w)).
Proof.
  destruct (performs_cycleBody sid userInput cycle noiseLevel w)
    as ([] & w' & E & S).
  rewrite E. split; [reflexivity | exact S].
Qed.

Lemma bodiesFrom_step (sid : Z) (userInput : string) (noiseLevel : Z)
    (n : nat) :
  forall (cycle : Z) (w : World),
    Step O (cycleGroupsFrom sid noiseLevel n cycle) []
      w (bodiesFrom O sid userInput noiseLevel n cycle w).
Proof.
  induction n as [|n IH]; intros cycle w; cbn [bodiesFrom cycleGroupsFrom].
  - reflexivity.
  - destruct (cycleBody_run sid userInput cycle noiseLevel w) as [_ S].
    exact (Step_compose _ _ [] [] _ _ _ S (IH _ _)).
Qed.

(** The loop makes its turns as long as it finds the flag set, and leaves
    when it finds it cleared or has made all its turns. *)
Lemma reflectionCyclesFrom_run (sid : Z) (userInput : string)
    (reflectionCycles noiseLevel : Z) (j : nat) :
  forall (fuel : nat) (cycle : Z) (w : World),
    (forall i, i < j ->
       isGenerating
         (engine (bodiesFrom O sid userInput noiseLevel i cycle w)) = true) ->
    (cycle + Z.of_nat j <= reflectionCycles + 1)%Z ->
    j <= fuel ->
    fuel = j
    \/ isGenerating
         (engine (bodiesFrom O sid userInput noiseLevel j cycle w)) = false
    \/ (reflectionCycles < cycle + Z.of_nat j)%Z ->
    reflectionCyclesFrom O fuel sid userInput reflectionCycles noiseLevel
      cycle w
    = (Ok tt, bodiesFrom O sid userInput noiseLevel j cycle w).
Proof.
  induction j as [|j IH]; intros fuel cycle w Hflags Hbound Hfuel Hend.
  - cbn [bodiesFrom] in *. destruct fuel as [|fuel]; [reflexivity |].
    cbn [reflectionCyclesFrom]. rewrite run_bind. unfold gets at 1.
    cbv beta iota.
    destruct Hend as [Hend | [Hend | Hend]]; [discriminate | |].
    + rewrite Hend, andb_false_r. reflexivity.
    + rewrite (proj2 (Z.leb_gt _ _)) by lia. reflexivity.
  - destruct fuel as [|fuel]; [lia |].
    cbn [reflectionCyclesFrom]. rewrite run_bind. unfold gets at 1.
    cbv beta iota.
    assert (isGenerating (engine w) = true) as ->
      by (apply (Hflags 0); lia).
    rewrite (proj2 (Z.leb_le _ _)) by lia.
    cbn [andb].
    destruct (cycleBody_run sid userInput cycle noiseLevel w) as [E _].
    mstep E. cbn [bodiesFrom]. apply IH.
    + intros i Hi. apply (Hflags (S i)). lia.
    + lia.
    + lia.
    + destruct Hend as [Hend | [Hend | Hend]];
        [left; lia | right; left; exact Hend | right; right; lia].
Qed.

Lemma cycleGroupsFrom_seq (sid noiseLevel : Z) (n : nat) :
  forall k : nat,
    cycleGroupsFrom sid noiseLevel n (Z.of_nat k)
    = flat_map (fun c => cycleGroup sid (Z.of_nat c) noiseLevel) (seq k n).
Proof.
  induction n as [|n IH]; intros k; cbn [cycleGroupsFrom seq flat_map].
  - reflexivity.
  - f_equal. rewrite <- IH. f_equal. lia.
Qed.

(** The [try] block, when the flag is set at the tests before the cycles
    1 to [j] and either [j] is the number of cycles asked for or the flag
    is cleared at the test after cycle [j]. *)
Lemma runReflectionLoop_run (sid : Z) (userInput : string)
    (reflectionCycles noiseLevel : Z) (j : nat) (w : World) :
  let w1 :=
    snd (createReflection O
           {| ir_sessionId := sid; ir_cycle := 0; ir_type := user_input;
              ir_content := userInput;
              ir_metadata := MetaInput noiseLevel reflectionCycles |} w) in
  (forall i, i < j ->
     isGenerating (engine (bodiesFrom O sid userInput noiseLevel i 1 w1))
     = true) ->
  (Z.of_nat j <= reflectionCycles)%Z ->
  Z.of_nat j = reflectionCycles
  \/ isGenerating (engine (bodiesFrom O sid userInput noiseLevel j 1 w1))
     = false ->
  exists w',
    runReflectionLoop O sid userInput reflectionCycles noiseLevel w
    = (Ok tt, w')
    /\ Step O ((sid, 0%Z, user_input) :: cycleGroups sid noiseLevel j)
         [(sid, true)] w w'.
Proof.
  intros w1 Hflags Hbound Hend. unfold runReflectionLoop.
  destruct (performs_createReflection
              {| ir_sessionId := sid; ir_cycle := 0; ir_type := user_input;
                 ir_content := userInput;
                 ir_metadata := MetaInput noiseLevel reflectionCycles |} w)
    as (r & w1' & E1 & S1).
  assert (w1 = w1') as Hw by (subst w1; now rewrite E1). subst w1'.
  mstep E1. rewrite run_bind.
  rewrite (reflectionCyclesFrom_run sid userInput reflectionCycles noiseLevel
             j (Z.to_nat reflectionCycles) 1 w1); [cbv beta iota | | | |].
  - destruct (performs_generateFinalContent sid userInput
                (bodiesFrom O sid userInput noiseLevel j 1 w1))
      as ([] & w3 & E3 & S3).
    exists w3. split; [exact E3 |].
    pose proof (bodiesFrom_step sid userInput noiseLevel j 1 w1) as S2.
    change 1%Z with (Z.of_nat 1) in S2. rewrite cycleGroupsFrom_seq in S2.
    pose proof (Step_compose _ _ _ _ _ _ _ S1
                  (Step_compose _ _ _ _ _ _ _ S2 S3)) as S.
    cbn [app ir_sessionId ir_cycle ir_type] in S. rewrite app_nil_r in S.
    exact S.
  - exact Hflags.
  - lia.
  - lia.
  - destruct Hend as [Hend | Hend]; [left; lia | right; left; exact Hend].
Qed.

Lemma startReflectionLoop_run (sid : Z) (userInput : string)
    (reflectionCycles noiseLevel : Z) (w w0 w' : World) :
  beginReflectionLoop O sid w = (Ok tt, w0) ->
  runReflectionLoop O sid userInput reflectionCycles noiseLevel w0
  = (Ok tt, w') ->
  startReflectionLoop O sid userInput reflectionCycles noiseLevel w
  = (Ok tt, w').
Proof.
  intros E0 E1. unfold startReflectionLoop. mstep E0.
  unfold tryCatch. now rewrite E1.
Qed.

(** A run that is never stopped makes all the cycles it was asked for. *)
Lemma startReflectionLoop_quiet (sid : Z) (userInput : string)
    (reflectionCycles noiseLevel : Z) (w : World) :
  NoStop O ->
  (0 <= reflectionCycles)%Z ->
  List.find (fun s => Z.eqb (s_id s) sid) (sessions (db w)) <> None ->
  exists w',
    startReflectionLoop O sid userInput reflectionCycles noiseLevel w
    = (Ok tt, w')
    /\ map reflKey (reflections (db w'))
       = (map reflKey (reflections (db w))
          ++ (sid, 0%Z, user_input)
             :: cycleGroups sid noiseLevel (Z.to_nat reflectionCycles))%list
    /\ map contentKey (generatedContent (db w'))
       = (map contentKey (generatedContent (db w)) ++ [(sid, true)])%list.
Proof.
  intros HS HN Hsession.
  destruct (List.find _ (sessions (db w))) as [s |] eqn:Hs; [| congruence].
  destruct (beginReflectionLoop_returns sid w s Hs)
    as (w0 & E0 & R0 & C0 & G0 & _).
  destruct (runReflectionLoop_run sid userInput reflectionCycles noiseLevel
              (Z.to_nat reflectionCycles) w0) as (w' & E1 & S1).
  - intros i _.
    match goal with
    | |- context [bodiesFrom O sid userInput noiseLevel i 1 ?w1] =>
        pose proof (bodiesFrom_step sid userInput noiseLevel i 1 w1) as Sb;
        assert (Step O [(sid, 0%Z, user_input)] [] w0 w1) as Sc
    end.
    { match goal with
      | |- context [createReflection O ?ins w0] =>
          destruct (performs_createReflection ins w0) as (r & w1 & E & S)
      end.
      rewrite E. exact S. }
    rewrite (step_running _ _ _ _ _ Sb HS), (step_running _ _ _ _ _ Sc HS).
    exact G0.
  - lia.
  - left. lia.
  - exists w'. split; [eapply startReflectionLoop_run; eassumption |].
    rewrite (step_reflections _ _ _ _ _ S1), (step_contents _ _ _ _ _ S1).
    rewrite R0, C0. split; reflexivity.
Qed.

(** C1.  When the database accepts its calls and no stop request is
    handled, a run of [startReflectionLoop] for [reflectionCycles = N >= 0]
    on an existing session returns, and the reflections it has appended
    are, in this order: one of cycle 0 and kind [user_input], then for
    each cycle from 1 to N one [analysis], one [memory_recall], one
    [strategy] (cycle 1) or [refinement] (later cycles), and one
    [noise_injection] exactly when [noiseLevel > 0]. *)
Theorem startReflectionLoop_reflections (sid : Z) (userInput : string)
    (reflectionCycles noiseLevel : Z) (w : World) :
  NoStop O ->
  (0 <= reflectionCycles)%Z ->
  List.find (fun s => Z.eqb (s_id s) sid) (sessions (db w)) <> None ->
  exists w',
    startReflectionLoop O sid userInput reflectionCycles noiseLevel w
    = (Ok tt, w')
    /\ map reflKey (reflections (db w'))
       = (map reflKey (reflections (db w))
          ++ (sid, 0%Z, user_input)
             :: flat_map
                  (fun c =>
                     [ (sid, Z.of_nat c, analysis);
                       (sid, Z.of_nat c, memory_recall);
                       (sid, Z.of_nat c,
                        if Z.eqb (Z.of_nat c) 1 then strategy
                        else refinement) ]
                     ++ (if (0 <? noiseLevel)%Z
                         then [(sid, Z.of_nat c, noise_injection)] else []))
                  (seq 1 (Z.to_nat reflectionCycles)))%list.
Proof.
  intros HS HN Hsession.
  destruct (startReflectionLoop_quiet sid userInput reflectionCycles
              noiseLevel w HS HN Hsession) as (w' & E & R & _).
  exists w'. split; [exact E | exact R].
Qed.

(** C6.  [stop] clears the flag [isGenerating].  In a started loop (from
    the [try] block of [startReflectionLoop] on), when the flag is still
    set at the tests before the cycles 1 to [j] and is found cleared at
    the test after cycle [j] (the stop request was handled while cycle [j]
    was in flight, its final delay included), the loop has made exactly
    the cycles 1 to [j], each with all its reflections, no later cycle is
    started, and finalization has appended one completed content.  For a
    run of 5 cycles stopped once cycle 2 has begun and before the test
    after cycle 4, [j] is 2, 3 or 4: at most 2 cycles follow cycle 2. *)
Theorem stop_is_seen_at_the_next_test (sid : Z) (userInput : string)
    (reflectionCycles noiseLevel : Z) (j : nat) (w : World) :
  let w1 :=
    snd (createReflection O
           {| ir_sessionId := sid; ir_cycle := 0; ir_type := user_input;
              ir_content := userInput;
              ir_metadata := MetaInput noiseLevel reflectionCycles |} w) in
  (Z.of_nat j <= reflectionCycles)%Z ->
  (forall i, i < j ->
     isGenerating (engine (bodiesFrom O sid userInput noiseLevel i 1 w1))
     = true) ->
  isGenerating (engine (bodiesFrom O sid userInput noiseLevel j 1 w1))
  = false ->
  isGenerating (engine (stop w)) = false
  /\ exists w',
       runReflectionLoop O sid userInput reflectionCycles noiseLevel w
       = (Ok tt, w')
       /\ map reflKey (reflections (db w'))
          = (map reflKey (reflections (db w))
             ++ (sid, 0%Z, user_input) :: cycleGroups sid noiseLevel j)%list
       /\ map contentKey (generatedContent (db w'))
          = (map contentKey (generatedContent (db w)) ++ [(sid, true)])%list
       /\ (forall wb,
             beginReflectionLoop O sid wb = (Ok tt, w) ->
             startReflectionLoop O sid userInput reflectionCycles noiseLevel
               wb = (Ok tt, w')).
Proof.
  intros w1 Hbound Hflags Hstop. split; [reflexivity |].
  destruct (runReflectionLoop_run sid userInput reflectionCycles noiseLevel
              j w Hflags Hbound (or_intror Hstop)) as (w' & E & S).
  exists w'. split; [exact E |].
  split; [apply (step_reflections _ _ _ _ _ S) |].
  split; [apply (step_contents _ _ _ _ _ S) |].
  intros wb Eb. eapply startReflectionLoop_run; eassumption.
Qed.

(** *** A second start *)



End Accepting.

(** ** Rejected database calls *)

Lemma dbCalls_weaken {A : Type} (m : M A) (n n' : N) :
  dbCalls O m n -> n = n' -> dbCalls O m n'.
Proof. now intros H <-. Qed.

Lemma dbCalls_pure {A : Type} (m : M A) :
  (forall w, exists a w', m w = (Ok a, w') /\ tick w' = tick w) ->
  dbCalls O m 0.
Proof.
  intros Hm w. split.
  - intros _. destruct (Hm w) as (a & w' & E & T). exists a, w'.
    split; [exact E | lia].
  - intros t Ht. lia.
Qed.

Lemma dbCalls_ret {A : Type} (a : A) : dbCalls O (mret a : M A) 0.
Proof. apply dbCalls_pure. intros w. exists a, w. split; reflexivity. Qed.

Lemma dbCalls_gets {A : Type} (f : World -> A) : dbCalls O (gets f) 0.
Proof. apply dbCalls_pure. intros w. exists (f w), w. split; reflexivity. Qed.

Lemma dbCalls_modify (f : World -> World) :
  (forall w, tick (f w) = tick w) -> dbCalls O (modify f) 0.
Proof.
  intros Hf. apply dbCalls_pure. intros w. exists tt, (f w).
  split; [reflexivity | apply Hf].
Qed.

Lemma dbCalls_Math_random : dbCalls O (Math_random O) 0.
Proof. apply dbCalls_pure. intros w. eexists _, _. split; reflexivity. Qed.

Lemma dbCalls_broadcast (message : WebSocketMessage) :
  dbCalls O (broadcast message) 0.
Proof. apply dbCalls_modify. reflexivity. Qed.

Lemma dbCalls_dbCall (operation : string) : dbCalls O (dbCall O operation) 1.
Proof.
  intros w. unfold dbCall, suspend. rewrite run_bind. split.
  - intros Hno. rewrite Hno by lia. eexists _, _.
    split; [reflexivity | apply afterSuspend_tick].
  - intros t Ht [Hfail _]. assert (t = tick w) as -> by lia. rewrite Hfail.
    eexists _, _. split; [reflexivity | apply afterSuspend_tick].
Qed.

Lemma dbCalls_bind {A B : Type} (m : M A) (f : A -> M B) (n1 n2 : N) :
  dbCalls O m n1 -> (forall a, dbCalls O (f a) n2) ->
  dbCalls O (m ≫= f) (n1 + n2).
Proof.
  intros Hm Hf w. destruct (Hm w) as [Hm1 Hm2]. split.
  - intros Hno. destruct Hm1 as (a & w1 & E1 & T1); [intros t Ht; apply Hno; lia |].
    destruct (Hf a w1) as [Hf1 _].
    destruct Hf1 as (b & w2 & E2 & T2); [intros t Ht; apply Hno; lia |].
    exists b, w2. rewrite run_bind, E1. split; [exact E2 | lia].
  - intros t Ht [Hfail Hfirst].
    destruct (N.lt_ge_cases t (tick w + n1)) as [Hlt | Hge].
    + destruct (Hm2 t) as (op & w1 & E1 & T1); [lia | split; assumption |].
      exists op, w1. rewrite run_bind, E1. split; [reflexivity | exact T1].
    + destruct Hm1 as (a & w1 & E1 & T1); [intros t' Ht'; apply Hfirst; lia |].
      destruct (Hf a w1) as [_ Hf2].
      destruct (Hf2 t) as (op & w2 & E2 & T2);
        [lia | split; [exact Hfail | intros t' Ht'; apply Hfirst; lia] |].
      exists op, w2. rewrite run_bind, E1. split; [exact E2 | exact T2].
Qed.

Lemma dbCalls_if {A : Type} (b : bool) (m1 m2 : M A) (n1 n2 : N) :
  dbCalls O m1 n1 -> dbCalls O m2 n2 ->
  dbCalls O (if b then m1 else m2) (if b then n1 else n2).
Proof. now destruct b. Qed.

Create HintDb dbcalls.

#[local] Hint Resolve dbCalls_ret dbCalls_gets dbCalls_Math_random
  dbCalls_broadcast dbCalls_dbCall : dbcalls.

Ltac count_calls :=
  repeat first
    [ solve [eauto with dbcalls]
    | lazymatch goal with
      | |- dbCalls _ (mbind _ _) _ => eapply dbCalls_bind; [| intros ?]
      end
    | apply dbCalls_modify; reflexivity ].

Ltac calls_with tac :=
  eapply dbCalls_weaken; [tac; count_calls | reflexivity].

Lemma dbCalls_createReflection (ins : InsertReflection) :
  dbCalls O (createReflection O ins) 3.
Proof. calls_with ltac:(unfold createReflection). Qed.

Lemma dbCalls_getReflectionsBySession (sid : Z) :
  dbCalls O (getReflectionsBySession O sid) 1.
Proof. calls_with ltac:(unfold getReflectionsBySession). Qed.

Lemma dbCalls_getRecentMemoryInsights (limit : nat) :
  dbCalls O (getRecentMemoryInsights O limit) 1.
Proof. calls_with ltac:(unfold getRecentMemoryInsights). Qed.

Lemma dbCalls_createMemoryInsight (sid : Z) (type : InsightType)
    (content : string) (related : list Z) :
  dbCalls O (createMemoryInsight O sid type content related) 1.
Proof. calls_with ltac:(unfold createMemoryInsight). Qed.

#[local] Hint Resolve dbCalls_createReflection
  dbCalls_getReflectionsBySession dbCalls_getRecentMemoryInsights
  dbCalls_createMemoryInsight : dbcalls.

Lemma dbCalls_createAnalysisReflection (sid cycle : Z) (userInput : string)
    (previous : list Reflection) :
  dbCalls O (createAnalysisReflection O sid cycle userInput previous) 3.
Proof. calls_with ltac:(unfold createAnalysisReflection). Qed.

Lemma dbCalls_createNoiseReflection (sid cycle noiseLevel : Z) :
  dbCalls O (createNoiseReflection O sid cycle noiseLevel) 3.
Proof. calls_with ltac:(unfold createNoiseReflection). Qed.

Lemma dbCalls_generateMemoryInsight (sid : Z) :
  dbCalls O (generateMemoryInsight O sid) 1.
Proof. calls_with ltac:(unfold generateMemoryInsight). Qed.

Lemma dbCalls_updatePerformanceMetrics (sid : Z) :
  dbCalls O (updatePerformanceMetrics O sid) 0.
Proof. calls_with ltac:(unfold updatePerformanceMetrics, randomScore). Qed.

#[local] Hint Resolve dbCalls_createAnalysisReflection
  dbCalls_createNoiseReflection dbCalls_generateMemoryInsight
  dbCalls_updatePerformanceMetrics : dbcalls.

Lemma dbCalls_performReflectionCycle (sid : Z) (userInput : string)
    (cycle noiseLevel : Z) :
  dbCalls O (performReflectionCycle O sid userInput cycle noiseLevel)
    (cycleCalls noiseLevel).
Proof.
  unfold performReflectionCycle, createMemoryReflection,
    createStrategyReflection, cycleCalls.
  eapply dbCalls_weaken.
  - do 8 (eapply dbCalls_bind; [solve [eauto with dbcalls] | intros ?]).
    eapply dbCalls_bind.
    + apply (dbCalls_if (0 <? noiseLevel)%Z _ _ 3 0).
      * calls_with idtac.
      * apply dbCalls_ret.
    + intros ?. count_calls.
  - destruct (0 <? noiseLevel)%Z; reflexivity.
Qed.

(** The turns of the loop that were entered with the flag set and whose
    body returned can be peeled off. *)
Lemma reflectionCyclesFrom_prefix (sid : Z) (userInput : string)
    (reflectionCycles noiseLevel : Z) (j : nat) :
  forall (fuel : nat) (cycle : Z) (w : World),
    (forall i, i < j ->
       isGenerating
         (engine (bodiesFrom O sid userInput noiseLevel i cycle w)) = true
       /\ fst (cycleBody O sid userInput (cycle + Z.of_nat i) noiseLevel
                 (bodiesFrom O sid userInput noiseLevel i cycle w)) = Ok tt) ->
    (cycle + Z.of_nat j <= reflectionCycles + 1)%Z ->
    j <= fuel ->
    reflectionCyclesFrom O fuel sid userInput reflectionCycles noiseLevel
      cycle w
    = reflectionCyclesFrom O (fuel - j) sid userInput reflectionCycles
        noiseLevel (cycle + Z.of_nat j)
        (bodiesFrom O sid userInput noiseLevel j cycle w).
Proof.
  induction j as [|j IH]; intros fuel cycle w Hbodies Hbound Hfuel.
  - cbn [bodiesFrom]. rewrite Nat.sub_0_r, Z.add_0_r. reflexivity.
  - destruct fuel as [|fuel]; [lia |].
    destruct (Hbodies 0) as [Hflag Hok]; [lia |].
    cbn [bodiesFrom] in Hflag, Hok. rewrite Z.add_0_r in Hok.
    cbn [reflectionCyclesFrom]. rewrite run_bind. unfold gets at 1.
    cbv beta iota. rewrite Hflag, (proj2 (Z.leb_le _ _)) by lia. cbn [andb].
    rewrite run_bind.
    destruct (cycleBody O sid userInput cycle noiseLevel w) as [r w1] eqn:E.
    cbn [fst] in Hok. subst r. cbn [bodiesFrom]. rewrite E. cbn [snd].
    replace (S fuel - S j) with (fuel - j) by lia.
    replace (cycle + Z.of_nat (S j))%Z with (cycle + 1 + Z.of_nat j)%Z by lia.
    apply IH.
    + intros i Hi. destruct (Hbodies (S i)) as [H1 H2]; [lia |].
      cbn [bodiesFrom] in H1, H2. rewrite E in H1, H2. cbn [snd] in H1, H2.
      split; [exact H1 |].
      replace (cycle + 1 + Z.of_nat i)%Z with (cycle + Z.of_nat (S i))%Z
        by lia.
      exact H2.
    + lia.
    + lia.
Qed.

(** A rejected call of [performReflectionCycle] aborts the turn of the loop
    at that call, and the loop with it. *)
Lemma reflectionCyclesFrom_aborts (sid : Z) (userInput : string)
    (reflectionCycles noiseLevel : Z) (fuel : nat) (cycle : Z) (w : World)
    (t : N) :
  isGenerating (engine w) = true ->
  (cycle <= reflectionCycles)%Z ->
  (tick w <= t < tick w + cycleCalls noiseLevel)%N ->
  firstRejected O (tick w) t ->
  exists operation w',
    reflectionCyclesFrom O (S fuel) sid userInput reflectionCycles noiseLevel
      cycle w
    = (Throw (PersistenceFailure operation t), w')
    /\ tick w' = (t + 1)%N.
Proof.
  intros Hflag Hle Ht Hfirst.
  cbn [reflectionCyclesFrom]. rewrite run_bind. unfold gets at 1.
  cbv beta iota. rewrite Hflag, (proj2 (Z.leb_le _ _)) by lia. cbn [andb].
  rewrite run_bind. unfold cycleBody. rewrite run_bind. unfold modify at 1.
  cbv beta iota. rewrite run_bind.
  match goal with
  | |- context [performReflectionCycle O sid userInput cycle noiseLevel ?w0] =>
      destruct (dbCalls_performReflectionCycle sid userInput cycle noiseLevel
                  w0) as [_ Hthrow]
  end.
  destruct (Hthrow t Ht Hfirst) as (operation & w' & E & T).
  exists operation, w'. rewrite E. split; [reflexivity | exact T].
Qed.

Lemma startReflectionLoop_rethrows (sid : Z) (userInput : string)
    (reflectionCycles noiseLevel : Z) (w w0 w' : World) (e : Error) :
  beginReflectionLoop O sid w = (Ok tt, w0) ->
  runReflectionLoop O sid userInput reflectionCycles noiseLevel w0
  = (Throw e, w') ->
  startReflectionLoop O sid userInput reflectionCycles noiseLevel w
  = (Throw e, pushConsole (LogReflectionLoopError e) w').
Proof.
  intros E0 E1. unfold startReflectionLoop. mstep E0.
  unfold tryCatch. rewrite E1. reflexivity.
Qed.

(** ** The weight update *)

#[local] Instance sameNeural_preorder : PreOrder sameNeural.
Proof.
  split; [intros w; reflexivity |].
  intros w1 w2 w3 H1 H2. unfold sameNeural in *. congruence.
Qed.

Lemma saveWeightsToDatabase_sameNeural :
  respects sameNeural (saveWeightsToDatabase O).
Proof.
  unfold saveWeightsToDatabase, biasesOf, createModelWeights, dbCall, suspend.
  apply respects_bind; [| intros e].
  { intros w. unfold this. destruct (neuralEngine _); reflexivity. }
  apply respects_forM_. intros [layerName ws].
  apply respects_bind; [| intros bs].
  { apply respects_bind; [| intros e0].
    - intros w. unfold this. destruct (neuralEngine _); reflexivity.
    - destruct (mapGet _ _); [apply respects_ret | apply respects_throw]. }
  apply respects_bind; [| intros t].
  { apply respects_bind; [| intros t].
    - intros w. apply afterSuspend_neuralEngine.
    - destruct (dbFails O t); [apply respects_throw | apply respects_ret]. }
  apply respects_bind; [apply respects_gets | intros n].
  apply respects_modify. intros w. reflexivity.
Qed.

Lemma setRng_id (w : World) : setRng (rng w) w = w.
Proof. destruct w; reflexivity. Qed.

Lemma run_mapM_randomArray {A : Type} (f : Q -> A) (ws : list (list num))
    (w : World) :
  exists g r,
    mapM (fun row : list num => randomArray O f (List.length row)) ws w
    = (Ok g, setRng r w).
Proof.
  revert w; induction ws as [|row ws IH]; intros w.
  - exists [], (rng w). now rewrite setRng_id.
  - cbn [mapM]. rewrite run_bind. unfold randomArray at 1. cbv beta iota.
    rewrite run_bind.
    match goal with |- context [mapM _ ws ?w0] =>
      destruct (IH w0) as (g & r & E)
    end.
    rewrite E. eexists _, r. reflexivity.
Qed.

(** One turn of the loop of [calculateGradients]. *)
Lemma calculateGradients_step (loss : Q) (w : World) (e : NeuralEngine)
    (gradients : gmap string (list (list num))) (layerName : string)
    (ws : list (list num)) (bs : list num) :
  neuralEngine (engine w) = Some e ->
  mapGet layerName (biases e) = Some bs ->
  exists g gb r,
    (g ← mapM (fun row : list num =>
                 randomArray O (gradientNoise loss) (List.length row)) ws;
     bs ← biasesOf layerName;
     gb ← randomArray O (gradientNoise loss) (List.length bs);
     mret (<[layerName ++ "_bias" := [gb]]> (<[layerName := g]> gradients)))
      w
    = (Ok (<[layerName ++ "_bias" := [gb]]> (<[layerName := g]> gradients)),
       setRng r w)
    /\ List.length gb = List.length bs.
Proof.
  intros He Hb.
  destruct (run_mapM_randomArray (gradientNoise loss) ws w) as (g & r & E).
  assert (neuralEngine (engine (setRng r w)) = Some e) as He' by exact He.
  eexists g, _, _. split.
  - mstep E. rewrite run_bind. unfold biasesOf at 1.
    mstep (run_this _ e He'). rewrite Hb. reflexivity.
  - now rewrite length_map, length_seq.
Qed.

(** The gradients of the four layers: those of the biases are matrices of
    one row, as long as the bias vector. *)
Lemma calculateGradients_run (loss : Q) (modelOutput gptTarget : string)
    (w : World) (e : NeuralEngine) (W1 W2 W3 W4 : list (list num))
    (B1 B2 B3 B4 : list num) :
  neuralEngine (engine w) = Some e ->
  weights e
  = [ ("embedding", W1); ("attention", W2); ("feedforward", W3);
      ("output", W4) ] ->
  biases e
  = [ ("embedding", B1); ("attention", B2); ("feedforward", B3);
      ("output", B4) ] ->
  exists G r g1 g2 g3 g4,
    calculateGradients O loss modelOutput gptTarget w = (Ok G, setRng r w)
    /\ G !! "embedding_bias" = Some [g1] /\ List.length g1 = List.length B1
    /\ G !! "attention_bias" = Some [g2] /\ List.length g2 = List.length B2
    /\ G !! "feedforward_bias" = Some [g3] /\ List.length g3 = List.length B3
    /\ G !! "output_bias" = Some [g4] /\ List.length g4 = List.length B4.
Proof.
  intros He Hw Hb. unfold calculateGradients.
  mstep (run_this w e He). rewrite Hw.
  destruct (calculateGradients_step loss w e ∅ "embedding" W1 B1 He)
    as (h1 & g1 & r1 & E1 & L1); [now rewrite Hb |].
  destruct (calculateGradients_step loss (setRng r1 w) e
              (<["embedding" ++ "_bias" := [g1]]> (<["embedding" := h1]> ∅))
              "attention" W2 B2 He)
    as (h2 & g2 & r2 & E2 & L2); [now rewrite Hb |].
  destruct (calculateGradients_step loss (setRng r2 (setRng r1 w)) e
              (<["attention" ++ "_bias" := [g2]]> (<["attention" := h2]>
                 (<["embedding" ++ "_bias" := [g1]]>
                    (<["embedding" := h1]> ∅))))
              "feedforward" W3 B3 He)
    as (h3 & g3 & r3 & E3 & L3); [now rewrite Hb |].
  destruct (calculateGradients_step loss
              (setRng r3 (setRng r2 (setRng r1 w))) e
              (<["feedforward" ++ "_bias" := [g3]]> (<["feedforward" := h3]>
                 (<["attention" ++ "_bias" := [g2]]> (<["attention" := h2]>
                    (<["embedding" ++ "_bias" := [g1]]>
                       (<["embedding" := h1]> ∅))))))
              "output" W4 B4 He)
    as (h4 & g4 & r4 & E4 & L4); [now rewrite Hb |].
  rewrite !run_foldM_cons.
  rewrite run_bind, E1. cbv beta iota. rewrite run_foldM_cons.
  rewrite run_bind, E2. cbv beta iota. rewrite run_foldM_cons.
  rewrite run_bind, E3. cbv beta iota. rewrite run_foldM_cons.
  rewrite run_bind, E4. cbv beta iota.
  eexists _, r4, g1, g2, g3, g4. split; [reflexivity |].
  change ("embedding" ++ "_bias") with "embedding_bias".
  change ("attention" ++ "_bias") with "attention_bias".
  change ("feedforward" ++ "_bias") with "feedforward_bias".
  change ("output" ++ "_bias") with "output_bias".
  repeat split; try assumption;
    repeat first
      [ apply lookup_insert_eq
      | rewrite lookup_insert_ne by discriminate ].
Qed.

(** The loop of [updateWeights] over the four layers: the bias vector of a
    layer is rewritten entry by entry from the layer's one-row matrix. *)
Lemma updateWeights_loop (gradients : gmap string (list (list num)))
    (w : World) (e : NeuralEngine) (W1 W2 W3 W4 : list (list num))
    (B1 B2 B3 B4 : list num) :
  neuralEngine (engine w) = Some e ->
  weights e
  = [ ("embedding", W1); ("attention", W2); ("feedforward", W3);
      ("output", W4) ] ->
  biases e
  = [ ("embedding", B1); ("attention", B2); ("feedforward", B3);
      ("output", B4) ] ->
  let run :=
    forM_ (weights e) (fun '(layerName, layerWeights) =>
      let layerGradients := default [] (gradients !! layerName) in
      updThis (fun e =>
        setWeights
          (mapSet layerName
             (imap (fun i row =>
                      imap (updatedWeight (learningRate e) layerGradients i)
                        row)
                layerWeights)
             (weights e)) e);;
      bs ← biasesOf layerName;
      let biasGradients := default [] (gradients !! (layerName ++ "_bias")) in
      updThis (fun e =>
        setBiases
          (mapSet layerName
             (imap (updatedBias (learningRate e) biasGradients) bs)
             (biases e)) e)) w in
  fst run = Ok tt
  /\ option_map biases (neuralEngine (engine (snd run)))
     = Some
         [ ("embedding",
            imap (updatedBias (learningRate e)
                    (default [] (gradients !! "embedding_bias"))) B1);
           ("attention",
            imap (updatedBias (learningRate e)
                    (default [] (gradients !! "attention_bias"))) B2);
           ("feedforward",
            imap (updatedBias (learningRate e)
                    (default [] (gradients !! "feedforward_bias"))) B3);
           ("output",
            imap (updatedBias (learningRate e)
                    (default [] (gradients !! "output_bias"))) B4) ].
Proof.
  intros He Hw Hb.
  destruct w as [[s c g ne] d t r snt con].
  destruct e as [sid voc emb ws bs rate epoch].
  cbn in He, Hw, Hb. subst ne ws bs.
  split; vm_compute; reflexivity.
Qed.

(** An entry of a bias vector after the update, when the gradient is a
    one-row matrix with a row of at least two numbers. *)
Lemma updatedBias_entries (rate : Q) (gb bs : list num) :
  List.length gb = List.length bs ->
  (2 <= List.length bs ->
   imap (updatedBias rate [gb]) bs !! 0 = Some NaN)
  /\ (forall i b, 1 <= i -> bs !! i = Some b ->
      imap (updatedBias rate [gb]) bs !! i
      = Some (num_sub b (num_mul (Num rate) (Num 0)))).
Proof.
  intros Hlen. split.
  - intros H2. destruct bs as [|b0 [|b1 bs]]; cbn in H2; try lia.
    destruct gb as [|x [|y gb]]; cbn in Hlen; try lia.
    cbn. destruct b0; reflexivity.
  - intros i b Hi Hbs. rewrite list_lookup_imap, Hbs. cbn.
    destruct i as [|i]; [lia | reflexivity].
Qed.

(** [updateWeights(loss, modelOutput, gptTarget)] on an engine with four
    layers of these names: whatever the loss, the first entry of every
    bias vector of two entries or more becomes NaN, and every later entry
    [b] becomes [b - learningRate * 0]. *)
Lemma updateWeights_bias_entries (loss : Q) (modelOutput gptTarget : string)
    (w : World) (e : NeuralEngine) (W1 W2 W3 W4 : list (list num))
    (B1 B2 B3 B4 : list num) :
  neuralEngine (engine w) = Some e ->
  weights e
  = [ ("embedding", W1); ("attention", W2); ("feedforward", W3);
      ("output", W4) ] ->
  biases e
  = [ ("embedding", B1); ("attention", B2); ("feedforward", B3);
      ("output", B4) ] ->
  exists e',
    neuralEngine
      (engine (snd (updateWeights O loss modelOutput gptTarget w)))
    = Some e'
    /\ forall layerName bs,
         mapGet layerName (biases e) = Some bs ->
         exists bs',
           mapGet layerName (biases e') = Some bs'
           /\ (2 <= List.length bs -> bs' !! 0 = Some NaN)
           /\ (forall i b, 1 <= i -> bs !! i = Some b ->
               bs' !! i
               = Some (num_sub b (num_mul (Num (learningRate e)) (Num 0)))).
Proof.
  intros He Hw Hb.
  destruct (calculateGradients_run loss modelOutput gptTarget w e
              W1 W2 W3 W4 B1 B2 B3 B4 He Hw Hb)
    as (G & r & g1 & g2 & g3 & g4 & EG
        & G1 & L1 & G2 & L2 & G3 & L3 & G4 & L4).
  assert (neuralEngine (engine (setRng r w)) = Some e) as He' by exact He.
  pose proof (updateWeights_loop G (setRng r w) e W1 W2 W3 W4 B1 B2 B3 B4
                He' Hw Hb) as HL.
  cbv zeta in HL.
  match type of HL with fst ?run = _ /\ _ =>
    destruct run as [res w'] eqn:EL
  end.
  cbn [fst snd] in HL. destruct HL as [-> HL].
  destruct (neuralEngine (engine w')) as [e'|] eqn:He''; [| discriminate].
  cbn [option_map] in HL. injection HL as Hb'.
  exists e'. split.
  - unfold updateWeights. mstep EG. mstep (run_this _ e He').
    rewrite run_bind, EL. cbv beta iota.
    rewrite <- He''. apply saveWeightsToDatabase_sameNeural.
  - intros layerName bs Hbs. rewrite Hb', G1, G2, G3, G4. rewrite Hb in Hbs.
    cbn [mapGet default] in *.
    destruct (String.eqb "embedding" layerName);
      [injection Hbs as <-; eexists; split;
         [reflexivity | now apply updatedBias_entries] |].
    destruct (String.eqb "attention" layerName);
      [injection Hbs as <-; eexists; split;
         [reflexivity | now apply updatedBias_entries] |].
    destruct (String.eqb "feedforward" layerName);
      [injection Hbs as <-; eexists; split;
         [reflexivity | now apply updatedBias_entries] |].
    destruct (String.eqb "output" layerName);
      [injection Hbs as <-; eexists; split;
         [reflexivity | now apply updatedBias_entries] |].
    discriminate.
Qed.

(** ** The weight update on the engine made by the constructor *)

Lemma run_replicateM_randomArray {A : Type} (f : Q -> A) (n cols : nat)
    (w : World) :
  exists ws r,
    replicateM n (randomArray O f cols) w = (Ok ws, setRng r w).
Proof.
  revert w; induction n as [|n IH]; intros w.
  - exists [], (rng w). now rewrite setRng_id.
  - cbn [replicateM]. rewrite run_bind. unfold randomArray at 1.
    cbv beta iota. rewrite run_bind.
    match goal with |- context [replicateM n _ ?w0] =>
      destruct (IH w0) as (ws & r & E)
    end.
    rewrite E. eexists _, r. reflexivity.
Qed.

(** One turn of the loop of [initializeWeights]: the layer gets a weight
    matrix and a bias vector of [cols] finite numbers. *)
Lemma initializeWeights_step (layer : string) (rows cols : N) (w : World)
    (e : NeuralEngine) :
  neuralEngine (engine w) = Some e ->
  exists ws bias w' e',
    (ws ← replicateM (N.to_nat rows)
            (randomArray O (fun r => Num (smallRandom r)) (N.to_nat cols));
     bias ← randomArray O (fun r => Num (smallRandom r)) (N.to_nat cols);
     updThis (fun e => setWeights (mapSet layer ws (weights e)) e);;
     updThis (fun e => setBiases (mapSet layer bias (biases e)) e)) w
    = (Ok tt, w')
    /\ neuralEngine (engine w') = Some e'
    /\ weights e' = mapSet layer ws (weights e)
    /\ biases e' = mapSet layer bias (biases e)
    /\ List.length bias = N.to_nat cols
    /\ Forall (fun b => b <> NaN) bias.
Proof.
  intros He.
  destruct (run_replicateM_randomArray (fun r => Num (smallRandom r))
              (N.to_nat rows) (N.to_nat cols) w) as (ws & r & E).
  destruct w as [[s c g ne] d t r0 snt con]. cbn in He. subst ne.
  eexists ws, _, _, _. split; [| split; [| split; [| split; [| split]]]].
  - mstep E. rewrite run_bind. unfold randomArray at 1. cbv beta iota.
    reflexivity.
  - reflexivity.
  - reflexivity.
  - reflexivity.
  - now rewrite length_map, length_seq.
  - apply List.Forall_forall. intros b Hb.
    apply in_map_iff in Hb as (k & <- & _). discriminate.
Qed.

(** The engine made by [new NeuralEngine(sessionId)]: four layers, each
    with a bias vector of as many finite numbers as the layer has
    columns. *)
Lemma newNeuralEngine_layers (sid : Z) (w : World) :
  exists e W1 W2 W3 W4 B1 B2 B3 B4,
    neuralEngine (engine (snd (newNeuralEngine O sid w))) = Some e
    /\ weights e
       = [ ("embedding", W1); ("attention", W2); ("feedforward", W3);
           ("output", W4) ]
    /\ biases e
       = [ ("embedding", B1); ("attention", B2); ("feedforward", B3);
           ("output", B4) ]
    /\ (List.length B1 = N.to_nat 128 /\ Forall (fun b => b <> NaN) B1)
    /\ (List.length B2 = N.to_nat 128 /\ Forall (fun b => b <> NaN) B2)
    /\ (List.length B3 = N.to_nat 256 /\ Forall (fun b => b <> NaN) B3)
    /\ (List.length B4 = N.to_nat 50257 /\ Forall (fun b => b <> NaN) B4).
Proof.
  unfold newNeuralEngine. rewrite run_bind. unfold modify at 1.
  cbv beta iota.
  match goal with |- context [initializeWeights O ?w0] => set (w0' := w0) end.
  assert (neuralEngine (engine w0')
          = Some {| sessionId := sid; vocabulary := ∅; tokenEmbeddings := ∅;
                    weights := []; biases := [];
                    learningRate := (1 # 1000)%Q; currentEpoch := 0 |})
    as He0 by reflexivity.
  clearbody w0'.
  unfold initializeWeights, forM_, dimensions.
  destruct (initializeWeights_step "embedding" 512 128 w0' _ He0)
    as (W1 & B1 & w1 & e1 & E1 & He1 & Hw1 & Hb1 & L1 & F1).
  destruct (initializeWeights_step "attention" 128 128 w1 _ He1)
    as (W2 & B2 & w2 & e2 & E2 & He2 & Hw2 & Hb2 & L2 & F2).
  destruct (initializeWeights_step "feedforward" 128 256 w2 _ He2)
    as (W3 & B3 & w3 & e3 & E3 & He3 & Hw3 & Hb3 & L3 & F3).
  destruct (initializeWeights_step "output" 256 50257 w3 _ He3)
    as (W4 & B4 & w4 & e4 & E4 & He4 & Hw4 & Hb4 & L4 & F4).
  rewrite run_foldM_cons, run_bind. cbv beta iota. rewrite E1.
  rewrite run_foldM_cons, run_bind. cbv beta iota. rewrite E2.
  rewrite run_foldM_cons, run_bind. cbv beta iota. rewrite E3.
  rewrite run_foldM_cons, run_bind. cbv beta iota. rewrite E4.
  cbn [foldM]. exists e4, W1, W2, W3, W4, B1, B2, B3, B4.
  split; [exact He4 |].
  rewrite Hw4, Hw3, Hw2, Hw1, Hb4, Hb3, Hb2, Hb1.
  split; [reflexivity |]. split; [reflexivity |]. auto.
Qed.

(** C5.  [updateWeights(loss, modelOutput, gptTarget)] on the engine made
    by the constructor, for any loss, 0 included: in each of the four
    layers the first bias, a finite number, becomes NaN, and every later
    bias [b] becomes [b - learningRate * 0].  So no bias entry is decreased
    by [learningRate] times a noise proportional to the loss, and a loss
    of 0 does not leave the biases as they were.  The gradient of a bias
    vector is stored as a matrix of one row, and the update reads the rows
    of that matrix as if they were numbers. *)
Theorem updateWeights_biases (sid : Z) (loss : Q)
    (modelOutput gptTarget : string) (w0 : World) :
  let w := snd (newNeuralEngine O sid w0) in
  exists e e',
    neuralEngine (engine w) = Some e
    /\ neuralEngine
         (engine (snd (updateWeights O loss modelOutput gptTarget w)))
       = Some e'
    /\ map fst (biases e)
       = ["embedding"; "attention"; "feedforward"; "output"]
    /\ forall layerName bs,
         mapGet layerName (biases e) = Some bs ->
         exists bs',
           mapGet layerName (biases e') = Some bs'
           /\ (exists b0, bs !! 0 = Some b0 /\ b0 <> NaN)
           /\ bs' !! 0 = Some NaN
           /\ (forall i b, 1 <= i -> bs !! i = Some b ->
               bs' !! i
               = Some (num_sub b (num_mul (Num (learningRate e)) (Num 0)))).
Proof.
  intros w. subst w.
  destruct (newNeuralEngine_layers sid w0)
    as (e & W1 & W2 & W3 & W4 & B1 & B2 & B3 & B4 & He & Hw & Hb
        & [L1 F1] & [L2 F2] & [L3 F3] & [L4 F4]).
  destruct (updateWeights_bias_entries loss modelOutput gptTarget _ e
              W1 W2 W3 W4 B1 B2 B3 B4 He Hw Hb) as (e' & He' & Hentries).
  exists e, e'. split; [exact He |]. split; [exact He' |].
  split; [now rewrite Hb |].
  intros layerName bs Hbs.
  assert (2 <= List.length bs /\ Forall (fun b => b <> NaN) bs) as [H2 HF].
  { rewrite Hb in Hbs. cbn [mapGet] in Hbs.
    repeat match type of Hbs with
           | (if ?c then _ else _) = _ =>
               destruct c; [injection Hbs as <-; split; [lia | assumption] |]
           end.
    discriminate. }
  destruct (Hentries layerName bs Hbs) as (bs' & Hget & Hzero & Hrest).
  exists bs'. split; [exact Hget |]. split.
  { destruct bs as [|b0 bs0]; [cbn in H2; lia |].
    exists b0. split; [reflexivity |]. now inversion HF. }
  split; [exact (Hzero H2) | exact Hrest].
Qed.

(** ** The forward pass *)

Lemma entryOrZero_padded (vector : list num) (k i : nat) :
  entryOrZero (vector ++ repeat (Num 0) k)%list i = entryOrZero vector i.
Proof.
  unfold entryOrZero. destruct (decide (i < List.length vector)) as [Hi | Hi].
  - now rewrite lookup_app_l by exact Hi.
  - rewrite lookup_app_r by lia. rewrite (lookup_ge_None_2 vector i) by lia.
    generalize (i - List.length vector). clear.
    induction k as [|k IH]; intros [|n]; cbn; try reflexivity. apply IH.
Qed.

Lemma entryOrZero_take (vector : list num) (n i : nat) :
  i < n -> entryOrZero (take n vector) i = entryOrZero vector i.
Proof. intros Hi. unfold entryOrZero. now rewrite lookup_take_lt. Qed.

Lemma entryOrZero_nan (vector : list num) (i : nat) :
  entryOrZero (map nanToZero vector) i = entryOrZero vector i.
Proof.
  unfold entryOrZero. rewrite list_lookup_fmap.
  destruct (vector !! i) as [[q|]|]; reflexivity.
Qed.

Lemma reduceRow_ext (v v' : list num) (row : list num) (i : nat) (sum : num) :
  (forall j, i <= j < i + List.length row ->
             entryOrZero v j = entryOrZero v' j) ->
  reduceRow v i sum row = reduceRow v' i sum row.
Proof.
  revert i sum; induction row as [|x row IH]; intros i sum H; [reflexivity |].
  cbn [reduceRow]. rewrite (H i) by (cbn; lia).
  apply IH. intros j Hj. apply H. cbn. lia.
Qed.

(** X1.  [matrixVectorMultiply(matrix, vector)] has one entry for each row
    of the matrix, whatever the length of the vector, which is read as if
    it went on with zeros for ever and only as far as the rows go: more
    zeros at its end, the entries from the longest row's length on, and
    NaN entries (they are read as 0) make no difference to the product. *)
Theorem matrixVectorMultiply_reads_a_padded_vector (matrix : list (list num))
    (vector : list num) (n k : nat) :
  Forall (fun row => List.length row <= n) matrix ->
  List.length (matrixVectorMultiply matrix vector) = List.length matrix
  /\ matrixVectorMultiply matrix (vector ++ repeat (Num 0) k)%list
     = matrixVectorMultiply matrix vector
  /\ matrixVectorMultiply matrix (take n vector)
     = matrixVectorMultiply matrix vector
  /\ matrixVectorMultiply matrix (map nanToZero vector)
     = matrixVectorMultiply matrix vector.
Proof.
  intros Hrows. unfold matrixVectorMultiply.
  split; [apply length_map |]. split; [| split].
  - apply map_ext. intros row. apply reduceRow_ext. intros j _.
    apply entryOrZero_padded.
  - apply map_ext_in. intros row Hrow. apply reduceRow_ext. intros j Hj.
    apply entryOrZero_take.
    rewrite List.Forall_forall in Hrows. specialize (Hrows row Hrow). lia.
  - apply map_ext. intros row. apply reduceRow_ext. intros j _.
    apply entryOrZero_nan.
Qed.

Lemma throughLayer_shape (layer : string) (e : NeuralEngine)
    (matrix : list (list num)) (input : list (list num)) :
  mapGet layer (weights e) = Some matrix ->
  throughLayer layer e input = Some (map (matrixVectorMultiply matrix) input).
Proof. intros H. unfold throughLayer. now rewrite H. Qed.

Lemma forwardLogits_layers (e : NeuralEngine)
    (attention feedforward output : list (list num))
    (embeddings : list (list num)) :
  mapGet "attention" (weights e) = Some attention ->
  mapGet "feedforward" (weights e) = Some feedforward ->
  mapGet "output" (weights e) = Some output ->
  exists logits,
    forwardLogits e embeddings = Some logits
    /\ List.length logits = List.length embeddings
    /\ Forall (fun l => List.length l = List.length output) logits.
Proof.
  intros Ha Hf Ho. unfold forwardLogits, applyAttention, applyFeedForward,
    outputLogits.
  rewrite (throughLayer_shape _ _ _ _ Ha). cbn [mbind option_bind].
  rewrite (throughLayer_shape _ _ _ _ Hf). cbn [mbind option_bind].
  rewrite (throughLayer_shape _ _ _ _ Ho).
  eexists. split; [reflexivity |]. split.
  - now rewrite !length_map.
  - apply List.Forall_forall. intros l Hl.
    apply in_map_iff in Hl as (v & <- & _).
    unfold matrixVectorMultiply. apply length_map.
Qed.

(** X2.  The vectors that [forwardPass] samples from, on an engine that
    has the three layers it reads: there is one for each token, and each
    has as many entries as the output matrix has rows, whatever the length
    of the embeddings.  Without tokens nothing is multiplied, and nothing
    is thrown even when a layer is missing; with a token and no attention
    layer the pass throws. *)
Theorem forwardLogits_shape (e : NeuralEngine)
    (attention feedforward output : list (list num))
    (embeddings : list (list num)) :
  mapGet "attention" (weights e) = Some attention ->
  mapGet "feedforward" (weights e) = Some feedforward ->
  mapGet "output" (weights e) = Some output ->
  (exists logits,
     forwardLogits e embeddings = Some logits
     /\ List.length logits = List.length embeddings
     /\ Forall (fun l => List.length l = List.length output) logits)
  /\ (forall e0, forwardLogits e0 [] = Some [])
  /\ (forall e0 v vs,
        mapGet "attention" (weights e0) = None ->
        forwardLogits e0 (v :: vs) = None).
Proof.
  intros Ha Hf Ho. split; [| split].
  - exact (forwardLogits_layers e attention feedforward output embeddings
             Ha Hf Ho).
  - intros e0. unfold forwardLogits, applyAttention, applyFeedForward,
      outputLogits, throughLayer.
    destruct (mapGet "attention" (weights e0)); cbn;
      destruct (mapGet "feedforward" (weights e0)); cbn;
      destruct (mapGet "output" (weights e0)); reflexivity.
  - intros e0 v vs H0. unfold forwardLogits, applyAttention, throughLayer.
    now rewrite H0.
Qed.

Lemma run_replicateM_randomArray_shape {A : Type} (f : Q -> A) (n cols : nat)
    (w : World) :
  exists ws r,
    replicateM n (randomArray O f cols) w = (Ok ws, setRng r w)
    /\ List.length ws = n
    /\ Forall (fun row => List.length row = cols) ws.
Proof.
  revert w; induction n as [|n IH]; intros w.
  - exists [], (rng w). rewrite setRng_id. repeat split. constructor.
  - cbn [replicateM]. rewrite run_bind. unfold randomArray at 1.
    cbv beta iota. rewrite run_bind.
    match goal with |- context [replicateM n _ ?w0] =>
      destruct (IH w0) as (ws & r & E & L & F)
    end.
    rewrite E. eexists _, r. split; [reflexivity |]. split.
    + cbn. now rewrite L.
    + constructor; [| exact F]. now rewrite length_map, length_seq.
Qed.

Lemma initializeWeights_step_shape (layer : string) (rows cols : N)
    (w : World) (e : NeuralEngine) :
  neuralEngine (engine w) = Some e ->
  exists ws w' e',
    (ws ← replicateM (N.to_nat rows)
            (randomArray O (fun r => Num (smallRandom r)) (N.to_nat cols));
     bias ← randomArray O (fun r => Num (smallRandom r)) (N.to_nat cols);
     updThis (fun e => setWeights (mapSet layer ws (weights e)) e);;
     updThis (fun e => setBiases (mapSet layer bias (biases e)) e)) w
    = (Ok tt, w')
    /\ neuralEngine (engine w') = Some e'
    /\ weights e' = mapSet layer ws (weights e)
    /\ List.length ws = N.to_nat rows
    /\ Forall (fun row => List.length row = N.to_nat cols) ws.
Proof.
  intros He.
  destruct (run_replicateM_randomArray_shape (fun r => Num (smallRandom r))
              (N.to_nat rows) (N.to_nat cols) w) as (ws & r & E & L & F).
  destruct w as [[s c g ne] d t r0 snt con]. cbn in He. subst ne.
  eexists ws, _, _. split; [| split; [| split; [| split]]].
  - mstep E. rewrite run_bind. unfold randomArray at 1. cbv beta iota.
    reflexivity.
  - reflexivity.
  - reflexivity.
  - exact L.
  - exact F.
Qed.

(** The weight matrices of the engine made by the constructor: as many
    rows, and as many entries in each row, as [dimensions] says. *)
Lemma newNeuralEngine_shapes (sid : Z) (w : World) :
  exists e W1 W2 W3 W4,
    neuralEngine (engine (snd (newNeuralEngine O sid w))) = Some e
    /\ weights e
       = [ ("embedding", W1); ("attention", W2); ("feedforward", W3);
           ("output", W4) ]
    /\ (List.length W1 = N.to_nat 512
        /\ Forall (fun row => List.length row = N.to_nat 128) W1)
    /\ (List.length W2 = N.to_nat 128
        /\ Forall (fun row => List.length row = N.to_nat 128) W2)
    /\ (List.length W3 = N.to_nat 128
        /\ Forall (fun row => List.length row = N.to_nat 256) W3)
    /\ (List.length W4 = N.to_nat 256
        /\ Forall (fun row => List.length row = N.to_nat 50257) W4).
Proof.
  unfold newNeuralEngine. rewrite run_bind. unfold modify at 1.
  cbv beta iota.
  match goal with |- context [initializeWeights O ?w0] => set (w0' := w0) end.
  assert (neuralEngine (engine w0')
          = Some {| sessionId := sid; vocabulary := ∅; tokenEmbeddings := ∅;
                    weights := []; biases := [];
                    learningRate := (1 # 1000)%Q; currentEpoch := 0 |})
    as He0 by reflexivity.
  clearbody w0'.
  unfold initializeWeights, forM_, dimensions.
  destruct (initializeWeights_step_shape "embedding" 512 128 w0' _ He0)
    as (W1 & w1 & e1 & E1 & He1 & Hw1 & L1 & F1).
  destruct (initializeWeights_step_shape "attention" 128 128 w1 _ He1)
    as (W2 & w2 & e2 & E2 & He2 & Hw2 & L2 & F2).
  destruct (initializeWeights_step_shape "feedforward" 128 256 w2 _ He2)
    as (W3 & w3 & e3 & E3 & He3 & Hw3 & L3 & F3).
  destruct (initializeWeights_step_shape "output" 256 50257 w3 _ He3)
    as (W4 & w4 & e4 & E4 & He4 & Hw4 & L4 & F4).
  rewrite run_foldM_cons, run_bind. cbv beta iota. rewrite E1.
  rewrite run_foldM_cons, run_bind. cbv beta iota. rewrite E2.
  rewrite run_foldM_cons, run_bind. cbv beta iota. rewrite E3.
  rewrite run_foldM_cons, run_bind. cbv beta iota. rewrite E4.
  cbn [foldM]. exists e4, W1, W2, W3, W4.
  split; [exact He4 |].
  rewrite Hw4, Hw3, Hw2, Hw1.
  split; [reflexivity |]. auto.
Qed.

(** ** Sampling and decoding *)

Lemma sumR_nil : sumR [] = 0%R.
Proof. reflexivity. Qed.

Lemma sampleLoop_spec (ps : list R) (random c : R) (i : nat) :
  (c <= random)%R ->
  match sampleLoop ps random c i with
  | Some j =>
      exists k, j = i + k /\ k < List.length ps
                /\ (c + sumR (take k ps) <= random
                    < c + sumR (take (S k) ps))%R
  | None => (c + sumR ps <= random)%R
  end.
Proof.
  revert c i; induction ps as [|p ps IH]; intros c i Hc; cbn [sampleLoop].
  - rewrite sumR_nil. lra.
  - destruct (Rlt_dec random (c + p)) as [Hlt | Hge].
    + exists 0. split; [lia |]. split; [cbn; lia |].
      rewrite take_0. cbn [take]. rewrite take_0, sumR_cons, sumR_nil. lra.
    + assert (c + p <= random)%R as Hc' by lra.
      specialize (IH (c + p)%R (S i) Hc').
      destruct (sampleLoop ps random (c + p) (S i)) as [j|].
      * destruct IH as (k & -> & Hk & Hsum). exists (S k).
        split; [lia |]. split; [cbn; lia |].
        cbn [take]. rewrite !sumR_cons. lra.
      * rewrite sumR_cons. lra.
Qed.

Lemma sampleLoop_bound (ps : list R) (random c : R) (i j : nat) :
  sampleLoop ps random c i = Some j -> i <= j < i + List.length ps.
Proof.
  revert c i; induction ps as [|p ps IH]; intros c i; cbn [sampleLoop];
    [discriminate |].
  destruct (Rlt_dec random (c + p)).
  - intros [= <-]. cbn. lia.
  - intros H. apply IH in H. cbn. lia.
Qed.

Lemma softmax_length (logits : list R) :
  List.length (softmax logits) = List.length logits.
Proof. unfold softmax. now rewrite !length_map. Qed.

Lemma softmax_sum (logits : list R) :
  logits <> [] -> sumR (softmax logits) = 1%R.
Proof.
  intros Hne. unfold softmax.
  set (m := Math_max logits).
  fold (sumR (map (fun l => exp (l - m)) logits)).
  pose proof (sumR_exp_positive m logits Hne) as Hpos.
  rewrite sumR_scaled. field. lra.
Qed.












(** X4.  [sampleFromLogits(logits)] on a non-empty vector returns an index
    of the vector, whatever [Math.random()] gives; and over the reals,
    for a random number in [0, 1), it is the first index at which the
    running sum of the softmax probabilities exceeds the random number,
    so the fall-back to the last index is never taken.  On the empty
    vector the result is -1. *)
Theorem sampleFromLogits_index (logits : list R) (random : R) :
  logits <> [] ->
  (0 <= sampleFromLogits logits random < Z.of_nat (List.length logits))%Z
  /\ ((0 <= random < 1)%R ->
      exists i,
        sampleFromLogits logits random = Z.of_nat i
        /\ (sumR (take i (softmax logits)) <= random
            < sumR (take (S i) (softmax logits)))%R)
  /\ sampleFromLogits [] random = (-1)%Z.
Proof.
  intros Hne. unfold sampleFromLogits. split; [| split].
  - destruct (sampleLoop (softmax logits) random 0 0) as [j|] eqn:E.
    + apply sampleLoop_bound in E. rewrite softmax_length in E. lia.
    + destruct logits; [congruence | cbn [List.length]; lia].
  - intros [H0 H1].
    pose proof (sampleLoop_spec (softmax logits) random 0 0 H0) as H.
    destruct (sampleLoop (softmax logits) random 0 0) as [j|].
    + destruct H as (k & -> & _ & Hsum). exists k.
      split; [reflexivity |]. lra.
    + rewrite softmax_sum in H by exact Hne. lra.
  - reflexivity.
Qed.

Lemma omap_cons {A B : Type} (f : A -> option B) (x : A) (l : list A) :
  omap f (x :: l)
  = match f x with
    | Some y => y :: omap f l
    | None => omap f l
    end.
Proof. reflexivity. Qed.

Lemma find_id_unique (entries : list (string * nat)) (word : string)
    (id : nat) :
  NoDup (map snd entries) -> (word, id) ∈ entries ->
  List.find (fun '(_, id') => Z.eqb (Z.of_nat id') (Z.of_nat id)) entries
  = Some (word, id).
Proof.
  induction entries as [|[w' id'] entries IH]; intros Hnd Hin.
  - now apply elem_of_nil in Hin.
  - cbn [List.find]. cbn [map snd] in Hnd.
    apply NoDup_cons in Hnd as [Hnotin Hnd].
    apply elem_of_cons in Hin.
    destruct (Z.eqb_spec (Z.of_nat id') (Z.of_nat id)) as [Heq | Hne].
    + apply Nat2Z.inj in Heq. subst id'.
      destruct Hin as [[= <-] | Hin]; [reflexivity |].
      exfalso. apply Hnotin.
      change id with (snd (word, id)). now apply list_elem_of_fmap_2.
    + destruct Hin as [[= -> ->] | Hin]; [congruence |]. now apply IH.
Qed.

(** X5.  Decoding after encoding: when no two entries of the vocabulary
    have the same id, [detokenize] applied to the ids of a sequence of
    entries gives their subwords back, joined by single spaces. *)
Theorem detokenize_of_ids (entries pairs : list (string * nat)) :
  NoDup (map snd entries) ->
  (forall p, p ∈ pairs -> p ∈ entries) ->
  detokenize entries (map (fun p => Z.of_nat (snd p)) pairs)
  = JS.join " " (map fst pairs).
Proof.
  intros Hnd Hin. unfold detokenize. f_equal.
  induction pairs as [|[word id] pairs IH]; [reflexivity |].
  cbn [map fst snd]. rewrite omap_cons.
  rewrite (find_id_unique entries word id Hnd)
    by (apply Hin, elem_of_cons; now left).
  cbn [fmap option_fmap option_map fst]. f_equal. apply IH. intros p Hp. apply Hin, elem_of_cons. now right.
Qed.

(** X6.  [detokenize] skips, without an error, every token that is the id
    of no entry (a negative one included), and for an id that several
    entries share it gives the subword of the first of them in the order
    of insertion, wherever that entry stands in the vocabulary. *)
Theorem detokenize_skips_unknown_ids (entries : list (string * nat))
    (tokens : list Z) :
  detokenize entries tokens
  = detokenize entries
      (List.filter
         (fun token => existsb (fun '(_, id) => Z.eqb (Z.of_nat id) token)
                         entries)
         tokens)
  /\ (forall before word id rest,
        Forall (fun entry => snd entry <> id) before ->
        detokenize (before ++ (word, id) :: rest) [Z.of_nat id] = word).
Proof.
  split.
  - unfold detokenize. f_equal.
    induction tokens as [|t tokens IH]; [reflexivity |].
    cbn [List.filter]. rewrite omap_cons.
    destruct (List.find _ entries) as [[w i]|] eqn:E.
    + assert (existsb (fun '(_, id) => Z.eqb (Z.of_nat id) t) entries = true)
        as ->.
      { apply existsb_exists. exists (w, i).
        apply List.find_some in E. exact E. }
      rewrite omap_cons, E. cbn [fmap option_fmap option_map fst].
      f_equal. exact IH.
    + assert (existsb (fun '(_, id) => Z.eqb (Z.of_nat id) t) entries = false)
        as ->.
      { apply not_true_is_false. intros H.
        apply existsb_exists in H as ([w i] & Hin & Heq).
        apply (List.find_none _ _ E) in Hin. cbn in Hin. congruence. }
      cbn [fmap option_fmap option_map]. exact IH.
  - intros before word id rest Hbefore. unfold detokenize.
    rewrite omap_cons.
    assert (List.find (fun '(_, id') => Z.eqb (Z.of_nat id') (Z.of_nat id))
              (before ++ (word, id) :: rest) = Some (word, id)) as ->.
    { induction Hbefore as [|[word' id'] before Hne _ IH]; cbn [app List.find].
      - now rewrite Z.eqb_refl.
      - cbn [snd] in Hne.
        destruct (Z.eqb_spec (Z.of_nat id') (Z.of_nat id)) as [Heq |];
          [| exact IH].
        apply Nat2Z.inj in Heq. congruence. }
    reflexivity.
Qed.

(** ** The scores of a training step *)

Lemma filter_length_all {A : Type} (p : A -> bool) (l : list A) :
  List.length (List.filter p l) = List.length l
  <-> Forall (fun x => p x = true) l.
Proof.
  induction l as [|x l IH]; cbn [List.filter List.length].
  - split; [constructor | reflexivity].
  - pose proof (List.filter_length_le p l) as Hle.
    destruct (p x) eqn:E; cbn [List.length]; split.
    + intros H. constructor; [exact E | apply IH; lia].
    + intros H. apply Forall_cons in H as [_ H]. apply IH in H. lia.
    + intros H. lia.
    + intros H. apply Forall_cons in H as [H _]. congruence.
Qed.

Lemma fraction_range (a b : nat) :
  0 < b -> a <= b ->
  (0 <= inject_Z (Z.of_nat a) / inject_Z (Z.of_nat b) <= 1)%Q
  /\ ((inject_Z (Z.of_nat a) / inject_Z (Z.of_nat b) == 1)%Q <-> a = b).
Proof.
  intros Hb Hab.
  assert (0 < inject_Z (Z.of_nat b))%Q as Hq.
  { change 0%Q with (inject_Z 0). rewrite <- Zlt_Qlt. lia. }
  split; [split |].
  - apply Qle_shift_div_l; [exact Hq |].
    rewrite Qmult_0_l. change 0%Q with (inject_Z 0). rewrite <- Zle_Qle. lia.
  - apply Qle_shift_div_r; [exact Hq |].
    rewrite Qmult_1_l. rewrite <- Zle_Qle. lia.
  - split.
    + intros H.
      assert (~ inject_Z (Z.of_nat b) == 0)%Q as Hnz
        by (intros Hz; rewrite Hz in Hq; discriminate).
      assert (inject_Z (Z.of_nat a) == inject_Z (Z.of_nat b))%Q as Heq.
      { rewrite <- (Qmult_div_r (inject_Z (Z.of_nat a)) _ Hnz), H.
        apply Qmult_1_r. }
      unfold Qeq in Heq. cbn in Heq. lia.
    + intros ->. apply Qmult_inv_r.
      intros Hz. rewrite Hz in Hq. discriminate.
Qed.

(** X7.  [calculateBleuScore(modelOutput, target)] lies between 0 and 1,
    and it is 1 exactly when every word of the output, cut at single
    spaces, occurs somewhere in the target: the order of the words and
    their number of occurrences do not count, so a text scores 1 against
    itself.  The branch for an output without words is never taken. *)
Theorem calculateBleuScore_range (modelOutput target : string) :
  (0 <= calculateBleuScore modelOutput target <= 1)%Q
  /\ ((calculateBleuScore modelOutput target == 1)%Q
      <-> Forall (fun word => In word (JS.split " "%char target))
            (JS.split " "%char modelOutput))
  /\ (calculateBleuScore modelOutput modelOutput == 1)%Q.
Proof.
  assert (forall out tgt,
    (0 <= calculateBleuScore out tgt <= 1)%Q
    /\ ((calculateBleuScore out tgt == 1)%Q
        <-> Forall (fun word => In word (JS.split " "%char tgt))
              (JS.split " "%char out))) as H.
  { intros out tgt. unfold calculateBleuScore.
    pose proof (split_nonempty " "%char out) as Hne.
    set (modelWords := JS.split " "%char out) in *.
    set (targetWords := JS.split " "%char tgt).
    assert (0 < List.length modelWords) as Hpos
      by (destruct modelWords; [congruence | cbn; lia]).
    assert ((0 <? List.length modelWords) = true) as ->
      by now apply Nat.ltb_lt.
    pose proof (List.filter_length_le
                  (fun word => existsb (String.eqb word) targetWords)
                  modelWords) as Hle.
    destruct (fraction_range _ _ Hpos Hle) as [Hrange Hone].
    split; [exact Hrange |]. rewrite Hone, filter_length_all.
    split; intros HF.
    - eapply Forall_impl; [exact HF |]. cbn beta. intros word Hw.
      apply existsb_exists in Hw as (x & Hx & Heq).
      apply String.eqb_eq in Heq. now subst x.
    - eapply Forall_impl; [exact HF |]. cbn beta. intros word Hw.
      apply existsb_exists. exists word. split; [exact Hw |].
      apply String.eqb_refl. }
  destruct (H modelOutput target) as [H1 H2].
  split; [exact H1 |]. split; [exact H2 |].
  apply (H modelOutput modelOutput). apply List.Forall_forall. auto.
Qed.

Lemma calculateLoss_range (modelOutput gptTarget : string) :
  (0 <= calculateLoss modelOutput gptTarget <= 1)%Q.
Proof.
  pose proof (calculateLoss_count modelOutput gptTarget) as Hc.
  cbn zeta in Hc. rewrite Hc.
  apply fraction_range; [apply maxLen_positive | apply differing_le].
Qed.

(** X8.  For the loss that [calculateLoss] computes, the clamp of
    [calculateConvergenceRate] is never active: the rate is 1 - loss, and
    it lies between 0 and 1; it is 1 for a text compared with itself. *)
Theorem calculateConvergenceRate_of_loss (modelOutput gptTarget : string) :
  let loss := calculateLoss modelOutput gptTarget in
  (calculateConvergenceRate loss == 1 - loss)%Q
  /\ (0 <= calculateConvergenceRate loss <= 1)%Q
  /\ (calculateConvergenceRate (calculateLoss modelOutput modelOutput) == 1)%Q.
Proof.
  intros loss. pose proof (calculateLoss_range modelOutput gptTarget) as [H0 H1].
  fold loss in H0, H1. unfold calculateConvergenceRate.
  assert (0 <= 1 - loss)%Q as Hpos by now apply -> Qle_minus_iff.
  assert (1 - loss <= 1)%Q as Hle.
  { assert (1 - loss <= 1 + 0)%Q as H.
    { apply Qplus_le_r. apply Qopp_le_compat in H0. exact H0. }
    now rewrite Qplus_0_r in H. }
  split; [| split].
  - apply Qminmax.Q.max_r. exact Hpos.
  - rewrite Qminmax.Q.max_r by exact Hpos. split; assumption.
  - assert (calculateLoss modelOutput modelOutput == 0)%Q as Hz.
    { rewrite (calculateLoss_count modelOutput modelOutput). cbn zeta.
      rewrite differing_same. unfold Qdiv. apply Qmult_0_l. }
    rewrite Hz. reflexivity.
Qed.

(** ** Running a computation step by step *)

Lemma run_gets {A : Type} (f : World -> A) (w : World) :
  gets f w = (Ok (f w), w).
Proof. reflexivity. Qed.

Lemma run_modify (f : World -> World) (w : World) :
  modify f w = (Ok tt, f w).
Proof. reflexivity. Qed.

Lemma run_ret {A : Type} (a : A) (w : World) : (mret a : M A) w = (Ok a, w).
Proof. reflexivity. Qed.

Lemma run_broadcast (message : WebSocketMessage) (w : World) :
  broadcast message w = (Ok tt, pushSent message w).
Proof. reflexivity. Qed.

Lemma run_Math_random (w : World) :
  Math_random O w = (Ok (randomAt O (rng w)), setRng (rng w + 1) w).
Proof. reflexivity. Qed.

Lemma run_suspend (w : World) : suspend O w = (Ok (tick w), afterSuspend O w).
Proof. reflexivity. Qed.

Lemma run_dbCall_ok (operation : string) (w : World) :
  dbFails O (tick w) = false ->
  dbCall O operation w = (Ok (tick w), afterSuspend O w).
Proof. intros H. unfold dbCall, suspend. rewrite run_bind. now rewrite H. Qed.

(** The computation is run as far as its primitive steps are known. *)
Ltac run HF :=
  repeat first
    [ rewrite run_bind
    | rewrite (run_dbCall HF)
    | rewrite run_gets
    | rewrite run_modify
    | rewrite run_ret
    | rewrite run_broadcast
    | rewrite run_Math_random
    | rewrite run_suspend
    | progress cbv beta iota ].

Lemma afterSuspend_sent (w : World) : sent (afterSuspend O w) = sent w.
Proof. unfold afterSuspend. destruct (stopRequested O _); reflexivity. Qed.

Lemma afterSuspend_console (w : World) :
  console (afterSuspend O w) = console w.
Proof. unfold afterSuspend. destruct (stopRequested O _); reflexivity. Qed.

Lemma afterSuspend_rng (w : World) : rng (afterSuspend O w) = rng w.
Proof. unfold afterSuspend. destruct (stopRequested O _); reflexivity. Qed.

Lemma afterSuspend_currentCycle (w : World) :
  currentCycle (engine (afterSuspend O w)) = currentCycle (engine w).
Proof. unfold afterSuspend. destruct (stopRequested O _); reflexivity. Qed.

Lemma afterSuspend_session (w : World) :
  session (engine (afterSuspend O w)) = session (engine w).
Proof. unfold afterSuspend. destruct (stopRequested O _); reflexivity. Qed.

(** The fields of a world after some steps, read through the steps. *)
Ltac fields :=
  repeat first
    [ progress cbn [db engine tick rng sent console updDb updEngine setTick
                    setRng pushSent pushConsole reflections memoryInsights
                    generatedContent sessions modelWeights tokenVocabulary
                    trainingBatches learningMetrics addReflection
                    addMemoryInsight addGeneratedContent addModelWeights
                    addTokenVocabulary addTrainingBatch addLearningMetrics
                    updSessions currentCycle isGenerating neuralEngine session
                    setCurrentCycle setIsGenerating setNeuralEngine setSession
                    fst snd]
    | rewrite afterSuspend_db
    | rewrite afterSuspend_sent
    | rewrite afterSuspend_console
    | rewrite afterSuspend_rng
    | rewrite afterSuspend_tick
    | rewrite afterSuspend_currentCycle
    | rewrite afterSuspend_neuralEngine
    | rewrite afterSuspend_session ].


Lemma respects_weaken (R R' : World -> World -> Prop) {A : Type} (m : M A) :
  (forall w w', R w w' -> R' w w') -> respects R m -> respects R' m.
Proof. intros HR Hm w. apply HR, Hm. Qed.

Lemma respects_this (R : World -> World -> Prop) `{!PreOrder R} :
  respects R this.
Proof. intros w. unfold this. destruct (neuralEngine _); reflexivity. Qed.

Arguments respects_this {R _}.

(** The rules of [respects], applied down to the primitive steps, which
    [leaf] has to solve. *)
Ltac respect_with leaf :=
  repeat first
    [ apply respects_ret
    | apply respects_throw
    | apply respects_gets
    | apply respects_this
    | apply respects_replicateM
    | apply respects_mapM; intros ?
    | apply respects_forM_; intros ?
    | apply respects_foldM; intros ? ?
    | apply respects_tryCatch; [| intros ?]
    | apply respects_bind; [| intros ?]
    | match goal with
      | |- respects _ (match ?x with _ => _ end) => destruct x
      end
    | (intros ?w; leaf) ].

(** A primitive step, unfolded to the world it leaves. *)
Ltac primitive :=
  unfold suspend, Math_random, randomArray, forwardPass, updThis, broadcast,
    modify, gets, throw;
  cbn [snd fst]; fields.

(** A primitive step that leaves the neural engine alone. *)
Ltac same_neural := unfold sameNeural; primitive; reflexivity.


(** ** Invariants of the tokenizer *)

Lemma longestMatch_short (voc : gmap string nat) (remaining : string)
    (len : nat) :
  shortKeys voc -> String.length (longestMatch voc remaining len) <= 3.
Proof.
  intros Hs. induction len as [|n IH]; cbn [longestMatch].
  - unfold JS.charAt0. rewrite substringTo_length. lia.
  - destruct (bool_decide (is_Some (voc !! JS.substringTo (S n) remaining)))
      eqn:E; cbn [orb].
    + apply bool_decide_eq_true_1 in E. apply Hs, E.
    + destruct (Nat.eqb_spec (S n) 1) as [-> | _]; [| exact IH].
      rewrite substringTo_length. lia.
Qed.

Lemma getSubwordsLoop_short (voc : gmap string nat) (remaining : string) :
  shortKeys voc ->
  Forall (fun s => String.length s <= 3) (getSubwordsLoop voc remaining).
Proof.
  intros Hs. remember (String.length remaining) as n eqn:Hn.
  revert remaining Hn.
  induction n as [n IH] using lt_wf_ind; intros [|c r] Hn.
  - rewrite getSubwordsLoop_equation_1. constructor.
  - rewrite getSubwordsLoop_equation_2.
    assert (String c r <> EmptyString) as Hne by congruence.
    destruct (bestSubword_length voc (String c r) Hne) as [Hlen Hle].
    constructor; [apply longestMatch_short, Hs |].
    eapply IH; [| reflexivity].
    rewrite substringFrom_length. cbn [String.length] in *. lia.
Qed.

Lemma getSubwords_short (voc : gmap string nat) (word : string) :
  shortKeys voc ->
  Forall (fun s => String.length s <= 3) (getSubwords voc word).
Proof.
  intros Hs. unfold getSubwords.
  destruct (Nat.leb_spec (String.length word) 3) as [Hle | _].
  - constructor; [exact Hle | constructor].
  - apply getSubwordsLoop_short, Hs.
Qed.

#[local] Instance keepsShort_preorder : PreOrder keepsShort.
Proof.
  split; [intros w H; exact H |].
  intros w1 w2 w3 H12 H23 H. apply H23, H12, H.
Qed.

Lemma sameNeural_keepsShort (w w' : World) :
  sameNeural w w' -> keepsShort w w'.
Proof. intros Hsame Hs e He. apply Hs. now rewrite <- Hsame. Qed.

Lemma getTokenByValue_sameNeural (sid : Z) (token : string) :
  respects sameNeural (getTokenByValue O sid token).
Proof. unfold getTokenByValue. respect_with same_neural. Qed.

Lemma createTokenVocabulary_sameNeural (sid : Z) (token : string)
    (tokenId frequency : nat) (embedding : list Q)
    (components : SubwordComponents) :
  respects sameNeural
    (createTokenVocabulary O sid token tokenId frequency embedding components).
Proof. unfold createTokenVocabulary. respect_with same_neural. Qed.

Lemma tokenizeSubword_keepsShort (tokens : list nat) (subword : string) :
  String.length subword <= 3 ->
  respects keepsShort (tokenizeSubword O tokens subword).
Proof.
  intros Hlen. unfold tokenizeSubword.
  apply respects_bind; [apply respects_this | intros e].
  assert (respects keepsShort
            (updThis (fun e0 =>
               setVocabulary (<[subword := size (vocabulary e)]> (vocabulary e0))
                 e0);;
             embedding ← generateTokenEmbedding O;
             createTokenVocabulary O (sessionId e) subword
               (size (vocabulary e)) 1 embedding
               (analyzeSubwordComponents subword);;
             mret (tokens ++ [size (vocabulary e)])%list)) as Hmint.
  { apply respects_bind; [| intros _].
    { intros w Hs e' He'. cbn in He'.
      destruct (neuralEngine (engine w)) as [e0|] eqn:He0; [| discriminate].
      cbn in He'. injection He' as <-. cbn [vocabulary setVocabulary].
      intros k Hk. destruct (decide (k = subword)) as [-> | Hne];
        [exact Hlen |].
      rewrite lookup_insert_ne in Hk by congruence.
      exact (Hs e0 He0 k Hk). }
    apply respects_bind; [| intros embedding].
    { intros w. apply sameNeural_keepsShort. same_neural. }
    apply respects_bind; [| intros _; apply respects_ret].
    eapply respects_weaken;
      [apply sameNeural_keepsShort | apply createTokenVocabulary_sameNeural]. }
  destruct (vocabulary e !! subword) as [[|n]|]; try exact Hmint.
  apply respects_bind; [| intros _; apply respects_ret].
  eapply respects_weaken;
    [apply sameNeural_keepsShort | apply getTokenByValue_sameNeural].
Qed.

Lemma respects_foldM_Forall (R : World -> World -> Prop) `{!PreOrder R}
    {A B : Type} (P : A -> Prop) (body : B -> A -> M B) (xs : list A) :
  (forall acc x, P x -> respects R (body acc x)) ->
  Forall P xs -> forall acc, respects R (foldM body acc xs).
Proof.
  intros Hb HP. induction HP as [|x xs Hx _ IH]; intros acc.
  - apply respects_ret.
  - rewrite run_foldM_cons. apply respects_bind; [now apply Hb | apply IH].
Qed.

Arguments respects_foldM_Forall {R _ A B} P body xs _ _ acc.

Lemma tokenizeWord_keepsShort (tokens : list nat) (word : string) :
  respects keepsShort (tokenizeWord O tokens word).
Proof.
  intros w Hs. unfold tokenizeWord. rewrite run_bind. unfold this at 1.
  destruct (neuralEngine (engine w)) as [e|] eqn:He; [| exact Hs].
  refine (respects_foldM_Forall (R := keepsShort)
            (fun s => String.length s <= 3) _ _ _ _ tokens w Hs).
  - intros acc x Hx. now apply tokenizeSubword_keepsShort.
  - apply getSubwords_short. exact (Hs e He).
Qed.

#[local] Instance sameVocabulary_preorder : PreOrder sameVocabulary.
Proof.
  split; [intros w; reflexivity |].
  intros w1 w2 w3 H1 H2. unfold sameVocabulary in *. congruence.
Qed.

Lemma initializeWeights_sameVocabulary :
  respects sameVocabulary (initializeWeights O).
Proof.
  unfold initializeWeights. apply respects_forM_.
  intros [layer [rows cols]].
  apply respects_bind; [| intros ws].
  { apply respects_replicateM. intros w. reflexivity. }
  apply respects_bind; [| intros bias].
  { intros w. reflexivity. }
  apply respects_bind; [| intros _];
    intros w; unfold sameVocabulary; primitive;
    destruct (neuralEngine (engine w)); reflexivity.
Qed.

(** The vocabulary of the engine made by the constructor is empty. *)
Lemma newNeuralEngine_vocabulary (sid : Z) (w : World) :
  exists e,
    neuralEngine (engine (snd (newNeuralEngine O sid w))) = Some e
    /\ vocabulary e = ∅.
Proof.
  unfold newNeuralEngine. rewrite run_bind. unfold modify at 1.
  cbv beta iota.
  match goal with |- context [initializeWeights O ?w0] =>
    pose proof (initializeWeights_sameVocabulary w0) as H
  end.
  unfold sameVocabulary in H. cbn [engine updEngine neuralEngine
    setNeuralEngine option_map vocabulary] in H.
  destruct (neuralEngine (engine (snd (initializeWeights O _)))) as [e|];
    [| discriminate].
  exists e. split; [reflexivity |]. cbn in H. congruence.
Qed.

(** X9.  The tokenizer never learns an entry longer than 3 code units:
    if the vocabulary has none before [tokenizeText], it has none
    afterwards, whatever the text and whether the database accepts the
    calls or not; and the vocabulary of a new engine has none.  A word of
    more than 3 code units is then always cut into pieces of at most 3,
    although the loop of [getSubwords] tries prefixes of up to 8. *)
Theorem tokenizeText_keeps_the_entries_short (text : string) (w : World) :
  shortVocabulary w ->
  shortVocabulary (snd (tokenizeText O text w))
  /\ (forall e' word,
        neuralEngine (engine (snd (tokenizeText O text w))) = Some e' ->
        Forall (fun s => String.length s <= 3)
          (getSubwords (vocabulary e') word))
  /\ (forall sid w0, shortVocabulary (snd (newNeuralEngine O sid w0))).
Proof.
  intros Hs.
  assert (shortVocabulary (snd (tokenizeText O text w))) as Hs'.
  { unfold tokenizeText.
    refine (respects_foldM (R := keepsShort) _ _ _ [] w Hs).
    intros acc word. apply tokenizeWord_keepsShort. }
  split; [exact Hs' |]. split.
  - intros e' word He'. apply getSubwords_short. exact (Hs' e' He').
  - intros sid w0 e He.
    destruct (newNeuralEngine_vocabulary sid w0) as (e0 & He0 & Hv).
    assert (e = e0) as -> by congruence. rewrite Hv.
    intros k [x Hk]. rewrite lookup_empty in Hk. discriminate.
Qed.

(** *** How many ids a text gets *)

Lemma splitWhiteSpace_nonempty (inRun : bool) (s : string) :
  JS.splitWhiteSpace inRun s <> [].
Proof.
  revert inRun; induction s as [|c r IH]; intros inRun; cbn;
    [discriminate |].
  destruct (JS.isWhiteSpace c).
  - destruct inRun; [apply IH | discriminate].
  - destruct (JS.splitWhiteSpace false r); discriminate.
Qed.

Lemma getSubwords_count (voc : gmap string nat) (word : string) :
  1 <= List.length (getSubwords voc word)
  /\ (String.length word <= 3 -> List.length (getSubwords voc word) = 1).
Proof.
  unfold getSubwords.
  destruct (Nat.leb_spec (String.length word) 3) as [Hle | Hgt].
  - split; [cbn; lia | reflexivity].
  - split; [| lia]. destruct word as [|c r]; [cbn in Hgt; lia |].
    rewrite getSubwordsLoop_equation_2. cbn. lia.
Qed.

(** Whatever the entry of the subword, it gets an id, and that id is its
    entry afterwards. *)
Lemma tokenizeSubword_returns (HF : NoFail O) (w : World) (e : NeuralEngine)
    (tokens : list nat) (s : string) :
  neuralEngine (engine w) = Some e ->
  exists id w' e',
    tokenizeSubword O tokens s w = (Ok (tokens ++ [id])%list, w')
    /\ neuralEngine (engine w') = Some e'
    /\ vocabulary e' !! s = Some id.
Proof.
  intros He. destruct (vocabulary e !! s) as [[|n]|] eqn:Hv.
  - destruct (tokenizeSubword_mints HF w e tokens s He (or_intror Hv))
      as (w' & row & E & He' & _).
    eexists _, w', _. split; [exact E |]. split; [exact He' |].
    cbn. apply lookup_insert_eq.
  - destruct (tokenizeSubword_keeps HF w e tokens s n He Hv)
      as (w' & E & He' & _).
    exists (S n), w', e. split; [exact E |]. split; [exact He' | exact Hv].
  - destruct (tokenizeSubword_mints HF w e tokens s He (or_introl Hv))
      as (w' & row & E & He' & _).
    eexists _, w', _. split; [exact E |]. split; [exact He' |].
    cbn. apply lookup_insert_eq.
Qed.

Lemma tokenizeSubwords_returns (HF : NoFail O) (subs : list string) :
  forall (w : World) (e : NeuralEngine) (tokens : list nat),
    neuralEngine (engine w) = Some e ->
    exists ids w' e',
      foldM (tokenizeSubword O) tokens subs w = (Ok (tokens ++ ids)%list, w')
      /\ neuralEngine (engine w') = Some e'
      /\ List.length ids = List.length subs.
Proof.
  induction subs as [|s subs IH]; intros w e tokens He.
  - exists [], w, e. cbn. rewrite app_nil_r. auto.
  - destruct (tokenizeSubword_returns HF w e tokens s He)
      as (id & w1 & e1 & E1 & He1 & _).
    destruct (IH w1 e1 (tokens ++ [id])%list He1)
      as (ids & w' & e' & E & He' & Hlen).
    exists (id :: ids), w', e'. rewrite run_foldM_cons. mstep E1.
    rewrite E, <- app_assoc. cbn. auto.
Qed.

Lemma tokenizeWords_returns (HF : NoFail O) (words : list string) :
  forall (w : World) (e : NeuralEngine) (tokens : list nat),
    neuralEngine (engine w) = Some e ->
    exists ids w' e',
      foldM (tokenizeWord O) tokens words w = (Ok (tokens ++ ids)%list, w')
      /\ neuralEngine (engine w') = Some e'
      /\ List.length words <= List.length ids
      /\ (Forall (fun word => String.length word <= 3) words ->
          List.length ids = List.length words).
Proof.
  induction words as [|word words IH]; intros w e tokens He.
  - exists [], w, e. cbn. rewrite app_nil_r. auto.
  - destruct (tokenizeSubwords_returns HF (getSubwords (vocabulary e) word)
                w e tokens He) as (ids1 & w1 & e1 & E1 & He1 & Hlen1).
    destruct (IH w1 e1 (tokens ++ ids1)%list He1)
      as (ids & w' & e' & E & He' & Hle & Heq).
    destruct (getSubwords_count (vocabulary e) word) as [Hone Hshort].
    exists (ids1 ++ ids)%list, w', e'. rewrite run_foldM_cons, run_bind.
    unfold tokenizeWord at 1. mstep (run_this w e He). rewrite E1.
    cbv beta iota. rewrite E, <- app_assoc.
    split; [reflexivity |]. split; [exact He' |].
    rewrite length_app. cbn [List.length]. split; [lia |].
    intros HF'. apply Forall_cons in HF' as [Hw Hws].
    rewrite (Heq Hws), Hlen1, (Hshort Hw). reflexivity.
Qed.

(** X10.  When the database accepts its calls, [tokenizeText] returns at
    least one id for each word into which [split(/\s+/)] cuts the
    lower-cased text, and exactly one for each when no word has more than
    3 code units.  The text is always cut into at least one word (the
    empty text into one empty word), so the result is never empty: the
    empty text gets one id, that of the empty subword, which is entered
    in the vocabulary. *)
Theorem tokenizeText_returns_an_id_for_each_word (text : string) (w : World)
    (e : NeuralEngine) :
  NoFail O ->
  neuralEngine (engine w) = Some e ->
  let words := JS.splitWhiteSpace false (JS.toLowerCase text) in
  (exists ids w',
     tokenizeText O text w = (Ok ids, w')
     /\ 1 <= List.length words <= List.length ids
     /\ (Forall (fun word => String.length word <= 3) words ->
         List.length ids = List.length words))
  /\ exists id w' e',
       tokenizeText O EmptyString w = (Ok [id], w')
       /\ neuralEngine (engine w') = Some e'
       /\ vocabulary e' !! EmptyString = Some id.
Proof.
  intros HF He words. split.
  - destruct (tokenizeWords_returns HF words w e [] He)
      as (ids & w' & e' & E & _ & Hle & Heq).
    exists ids, w'. split; [exact E |]. split; [| exact Heq].
    pose proof (splitWhiteSpace_nonempty false (JS.toLowerCase text)) as Hne.
    fold words in Hne. destruct words; [congruence | cbn in *; lia].
  - destruct (tokenizeSubword_returns HF w e [] EmptyString He)
      as (id & w' & e' & E & He' & Hv).
    exists id, w', e'. split; [| auto].
    unfold tokenizeText. cbn [JS.toLowerCase JS.splitWhiteSpace].
    rewrite run_foldM_cons, run_bind. unfold tokenizeWord at 1.
    mstep (run_this w e He).
    change (getSubwords (vocabulary e) EmptyString) with [EmptyString].
    rewrite run_foldM_cons. mstep E. reflexivity.
Qed.

(** ** The training step and the routes *)

#[local] Instance sameConsole_preorder : PreOrder sameConsole.
Proof.
  split; [intros w; reflexivity |].
  intros w1 w2 w3 H1 H2. unfold sameConsole in *. congruence.
Qed.

#[local] Instance sameSent_preorder : PreOrder sameSent.
Proof.
  split; [intros w; reflexivity |].
  intros w1 w2 w3 H1 H2. unfold sameSent in *. congruence.
Qed.

(** A primitive step that leaves a field of the world alone. *)
Ltac same_field := primitive; reflexivity.

Lemma tokenizeText_sameConsole (text : string) :
  respects sameConsole (tokenizeText O text).
Proof.
  unfold tokenizeText, tokenizeWord, tokenizeSubword, generateTokenEmbedding,
    getTokenByValue, createTokenVocabulary.
  respect_with ltac:(unfold sameConsole; same_field).
Qed.

Lemma updateWeights_sameConsole (loss : Q) (modelOutput gptTarget : string) :
  respects sameConsole (updateWeights O loss modelOutput gptTarget).
Proof.
  unfold updateWeights, calculateGradients, saveWeightsToDatabase, biasesOf,
    createModelWeights.
  respect_with ltac:(unfold sameConsole; same_field).
Qed.

Lemma trainStep_body_sameConsole (inputText : string) :
  respects sameConsole
    (gptTarget ← openaiCreate O inputText;
     tokens ← tokenizeText O inputText;
     modelOutput ← forwardPass O tokens;
     let loss := calculateLoss modelOutput gptTarget in
     updateWeights O loss modelOutput gptTarget;;
     e ← this;
     createTrainingBatch O (sessionId e) inputText gptTarget modelOutput loss
       tokens;;
     e ← this;
     updThis (setCurrentEpoch (S (currentEpoch e)));;
     createLearningMetrics O (sessionId e) (currentEpoch e) loss
       (calculateBleuScore modelOutput gptTarget)
       (calculateConvergenceRate loss) (size (vocabulary e));;
     broadcast (MsgPerformanceUpdate
       (Qminmax.Qmax 0 (100 - loss * 100))
       (Qminmax.Qmin 100 ((1 - loss) * 100))
       (5 # 2)
       (Qminmax.Qmin 100
          (inject_Z (Z.of_nat (size (vocabulary e))) / 1000 * 100)))).
Proof.
  apply respects_bind; [| intros gptTarget].
  { unfold openaiCreate. respect_with ltac:(unfold sameConsole; same_field). }
  apply respects_bind; [apply tokenizeText_sameConsole | intros tokens].
  apply respects_bind; [| intros modelOutput].
  { intros w. unfold sameConsole. same_field. }
  cbv zeta.
  apply respects_bind; [apply updateWeights_sameConsole | intros _].
  unfold createTrainingBatch, createLearningMetrics, broadcast.
  respect_with ltac:(unfold sameConsole; same_field).
Qed.

(** X11.  [trainStep] never throws: whatever fails inside it (the request
    to OpenAI, a database call, a missing layer), the error is caught and
    logged as one line, and nothing else is logged.  When the request to
    OpenAI fails, the step does nothing else: the text is not tokenized,
    and the engine, the database, the random numbers and the broadcast
    messages are as they were. *)
Theorem trainStep_never_throws (inputText : string) (w : World) :
  (exists w',
     trainStep O inputText w = (Ok tt, w')
     /\ (console w' = console w
         \/ exists error,
              console w' = (console w ++ [LogTrainingStepError error])%list))
  /\ (openaiReply O (tick w) = None ->
      trainStep O inputText w
      = (Ok tt,
         pushConsole (LogTrainingStepError ReferenceGenerationUnavailable)
           (afterSuspend O w))).
Proof.
  split.
  - pose proof (trainStep_body_sameConsole inputText w) as H.
    unfold trainStep, tryCatch.
    match goal with |- context [?body w] => destruct (body w) as [[[] | e] w1] end.
    + exists w1. split; [reflexivity |]. left. exact H.
    + eexists. split; [reflexivity |]. right. exists e.
      unfold sameConsole in H. cbn in *. now rewrite H.
  - intros Hnone. unfold trainStep, tryCatch, openaiCreate.
    rewrite run_bind, run_bind. unfold suspend at 1. cbv beta iota.
    rewrite Hnone. reflexivity.
Qed.

(** ** A rejected call inside the training step *)

(** The calls of a window are all accepted, or one of them is the first
    to be rejected. *)
Lemma window_decide (a n : N) :
  (forall t, (a <= t < a + n)%N -> dbFails O t = false)
  \/ exists t, (a <= t < a + n)%N /\ firstRejected O a t.
Proof.
  induction n as [|n IH] using N.peano_ind.
  - left. intros t Ht. lia.
  - destruct IH as [Hnone | (t & Ht & Hf)].
    + destruct (dbFails O (a + n)) eqn:E.
      * right. exists (a + n)%N. split; [lia |]. split; [exact E |].
        intros t' Ht'. apply Hnone. lia.
      * left. intros t Ht.
        destruct (N.eq_dec t (a + n)%N) as [-> | Hne]; [exact E |].
        apply Hnone. lia.
    + right. exists t. split; [lia | exact Hf].
Qed.

Lemma dbCallsOnly_of_dbCalls {A : Type} (m : M A) (n : N) :
  dbCalls O m n -> dbCallsOnly O m.
Proof.
  intros Hm w. destruct (Hm w) as [Hok Hrej]. exists n. split; [| exact Hrej].
  intros Hno. destruct (Hok Hno) as (a & w' & E & T). rewrite E.
  split; [exact T | discriminate].
Qed.

Lemma dbCallsOnly_pure {A : Type} (m : M A) :
  (forall w,
     tick (snd (m w)) = tick w
     /\ forall operation t,
          fst (m w) <> Throw (PersistenceFailure operation t)) ->
  dbCallsOnly O m.
Proof.
  intros Hm w. exists 0%N. split.
  - intros _. destruct (Hm w) as [T NP]. split; [rewrite T; lia | exact NP].
  - intros t Ht. lia.
Qed.

Lemma dbCallsOnly_ret {A : Type} (a : A) : dbCallsOnly O (mret a : M A).
Proof. apply dbCallsOnly_pure. intros w. split; [reflexivity | discriminate]. Qed.

Lemma dbCallsOnly_gets {A : Type} (f : World -> A) : dbCallsOnly O (gets f).
Proof. apply dbCallsOnly_pure. intros w. split; [reflexivity | discriminate]. Qed.

Lemma dbCallsOnly_modify (f : World -> World) :
  (forall w, tick (f w) = tick w) -> dbCallsOnly O (modify f).
Proof.
  intros Hf. apply dbCallsOnly_pure. intros w.
  split; [apply Hf | discriminate].
Qed.

Lemma dbCallsOnly_throw {A : Type} (e : Error) :
  (forall operation t, e <> PersistenceFailure operation t) ->
  dbCallsOnly O (throw e : M A).
Proof.
  intros He. apply dbCallsOnly_pure. intros w. split; [reflexivity |].
  intros operation t [= H]. exact (He _ _ H).
Qed.

Lemma dbCallsOnly_this : dbCallsOnly O this.
Proof.
  apply dbCallsOnly_pure. intros w. unfold this.
  destruct (neuralEngine (engine w)); split; try reflexivity; discriminate.
Qed.

Lemma dbCallsOnly_updThis (f : NeuralEngine -> NeuralEngine) :
  dbCallsOnly O (updThis f).
Proof. apply dbCallsOnly_modify. reflexivity. Qed.

Lemma dbCallsOnly_broadcast (message : WebSocketMessage) :
  dbCallsOnly O (broadcast message).
Proof. apply dbCallsOnly_modify. reflexivity. Qed.

Lemma dbCallsOnly_randomArray {A : Type} (f : Q -> A) (n : nat) :
  dbCallsOnly O (randomArray O f n).
Proof. apply dbCallsOnly_pure. intros w. split; [reflexivity | discriminate]. Qed.

Lemma dbCallsOnly_forwardPass (tokens : list nat) :
  dbCallsOnly O (forwardPass O tokens).
Proof. apply dbCallsOnly_pure. intros w. split; [reflexivity | discriminate]. Qed.

Lemma dbCallsOnly_dbCall (operation : string) :
  dbCallsOnly O (dbCall O operation).
Proof. eapply dbCallsOnly_of_dbCalls, dbCalls_dbCall. Qed.

Lemma dbCallsOnly_bind {A B : Type} (m : M A) (f : A -> M B) :
  dbCallsOnly O m -> (forall a, dbCallsOnly O (f a)) ->
  dbCallsOnly O (m ≫= f).
Proof.
  intros Hm Hf w. destruct (Hm w) as (n1 & Hok1 & Hrej1).
  destruct (window_decide (tick w) n1) as [Hnone | (t1 & Ht1 & Hf1)].
  - destruct (Hok1 Hnone) as [T1 NP1].
    destruct (m w) as [[a | e] w1] eqn:E; cbn [fst snd] in T1, NP1.
    + destruct (Hf a w1) as (n2 & Hok2 & Hrej2).
      exists (n1 + n2)%N. rewrite run_bind, E. split.
      * intros Hno.
        destruct Hok2 as [T2 NP2]; [intros t Ht; apply Hno; lia |].
        split; [rewrite T2, T1; lia | exact NP2].
      * intros t Ht Hfirst.
        assert (tick w1 <= t)%N as Hle.
        { destruct (N.le_gt_cases (tick w1) t) as [H | H]; [exact H |].
          destruct Hfirst as [Hfail _]. rewrite Hnone in Hfail by lia.
          discriminate. }
        apply Hrej2; [lia |]. destruct Hfirst as [Hfail Hbefore].
        split; [exact Hfail |]. intros t' Ht'. apply Hbefore. lia.
    + exists n1. rewrite run_bind, E. split.
      * intros _. split; [exact T1 |].
        intros operation t [= He]. apply (NP1 operation t). now rewrite He.
      * intros t Ht [Hfail _]. rewrite (Hnone t Ht) in Hfail. discriminate.
  - exists n1. split.
    + intros Hno. destruct Hf1 as [Hfail _]. rewrite (Hno t1 Ht1) in Hfail.
      discriminate.
    + intros t Ht Hfirst.
      destruct (Hrej1 t Ht Hfirst) as (operation & w' & E & T).
      exists operation, w'. rewrite run_bind, E. split; [reflexivity | exact T].
Qed.

Lemma dbCallsOnly_foldM {A B : Type} (body : B -> A -> M B) (xs : list A) :
  (forall acc x, dbCallsOnly O (body acc x)) ->
  forall acc, dbCallsOnly O (foldM body acc xs).
Proof.
  intros Hb. induction xs as [|x xs IH]; intros acc; cbn [foldM].
  - apply dbCallsOnly_ret.
  - apply dbCallsOnly_bind; [apply Hb | exact IH].
Qed.

Lemma dbCallsOnly_forM_ {A : Type} (xs : list A) (body : A -> M unit) :
  (forall x, dbCallsOnly O (body x)) -> dbCallsOnly O (forM_ xs body).
Proof. intros Hb. apply dbCallsOnly_foldM. intros _ x. apply Hb. Qed.

Lemma dbCallsOnly_mapM {A B : Type} (f : A -> M B) (xs : list A) :
  (forall x, dbCallsOnly O (f x)) -> dbCallsOnly O (mapM f xs).
Proof.
  intros Hf. induction xs as [|x xs IH]; cbn [mapM].
  - apply dbCallsOnly_ret.
  - apply dbCallsOnly_bind; [apply Hf | intros y].
    apply dbCallsOnly_bind; [exact IH | intros ys]. apply dbCallsOnly_ret.
Qed.

(** The rules of [dbCallsOnly], applied down to the primitive steps. *)
Ltac only_calls :=
  repeat first
    [ apply dbCallsOnly_ret
    | apply dbCallsOnly_gets
    | apply dbCallsOnly_this
    | apply dbCallsOnly_updThis
    | apply dbCallsOnly_broadcast
    | apply dbCallsOnly_randomArray
    | apply dbCallsOnly_forwardPass
    | apply dbCallsOnly_dbCall
    | apply dbCallsOnly_mapM; intros ?
    | apply dbCallsOnly_forM_; intros ?
    | apply dbCallsOnly_foldM; intros ? ?
    | apply dbCallsOnly_bind; [| intros ?]
    | match goal with
      | |- dbCallsOnly _ (match ?x with _ => _ end) => destruct x
      end
    | (apply dbCallsOnly_throw; discriminate)
    | (apply dbCallsOnly_modify; reflexivity) ].

Lemma dbCallsOnly_tokenizeText (text : string) :
  dbCallsOnly O (tokenizeText O text).
Proof.
  unfold tokenizeText, tokenizeWord, tokenizeSubword, getTokenByValue,
    createTokenVocabulary, generateTokenEmbedding.
  only_calls.
Qed.

Lemma dbCallsOnly_updateWeights (loss : Q) (modelOutput gptTarget : string) :
  dbCallsOnly O (updateWeights O loss modelOutput gptTarget).
Proof.
  unfold updateWeights, calculateGradients, saveWeightsToDatabase, biasesOf,
    createModelWeights.
  only_calls.
Qed.

(** [trainStep] after the answer of OpenAI. *)
Lemma dbCallsOnly_trainStep_rest (inputText gptTarget : string) :
  dbCallsOnly O
    (tokens ← tokenizeText O inputText;
     modelOutput ← forwardPass O tokens;
     let loss := calculateLoss modelOutput gptTarget in
     updateWeights O loss modelOutput gptTarget;;
     e ← this;
     createTrainingBatch O (sessionId e) inputText gptTarget modelOutput loss
       tokens;;
     e ← this;
     updThis (setCurrentEpoch (S (currentEpoch e)));;
     createLearningMetrics O (sessionId e) (currentEpoch e) loss
       (calculateBleuScore modelOutput gptTarget)
       (calculateConvergenceRate loss) (size (vocabulary e));;
     broadcast (MsgPerformanceUpdate
       (Qminmax.Qmax 0 (100 - loss * 100))
       (Qminmax.Qmin 100 ((1 - loss) * 100))
       (5 # 2)
       (Qminmax.Qmin 100
          (inject_Z (Z.of_nat (size (vocabulary e))) / 1000 * 100)))).
Proof.
  apply dbCallsOnly_bind; [apply dbCallsOnly_tokenizeText | intros tokens].
  apply dbCallsOnly_bind; [apply dbCallsOnly_forwardPass | intros modelOutput].
  cbv zeta.
  apply dbCallsOnly_bind; [apply dbCallsOnly_updateWeights | intros _].
  unfold createTrainingBatch, createLearningMetrics.
  only_calls.
Qed.

(** A database call that is rejected inside [trainStep] ends the step:
    the error is caught and logged, and the step returns. *)
Lemma trainStep_logs_the_rejection (inputText : string) (w : World) (t : N) :
  openaiReply O (tick w) <> None ->
  (tick w < t)%N ->
  firstRejected O (tick w + 1) t ->
  (t < tick (snd (trainStep O inputText w)))%N ->
  exists operation w',
    trainStep O inputText w = (Ok tt, w')
    /\ console w'
       = (console w
          ++ [LogTrainingStepError (PersistenceFailure operation t)])%list
    /\ tick w' = (t + 1)%N.
Proof.
  intros Hreply Hlt Hfirst Hreach.
  destruct (openaiReply O (tick w)) as [gptTarget|] eqn:Eo; [| congruence].
  clear Hreply.
  pose proof (trainStep_body_sameConsole inputText w) as Hcon.
  unfold sameConsole in Hcon.
  unfold trainStep, tryCatch in Hreach |- *.
  unfold openaiCreate in Hcon, Hreach |- *.
  rewrite run_bind, run_bind, run_suspend in Hcon, Hreach |- *.
  cbv beta iota in Hcon, Hreach |- *.
  rewrite Eo in Hcon, Hreach |- *. rewrite run_ret in Hcon, Hreach |- *.
  cbv beta iota in Hcon, Hreach |- *.
  destruct (dbCallsOnly_trainStep_rest inputText gptTarget (afterSuspend O w))
    as (n & Hok & Hrej).
  cbv zeta in Hok, Hrej. rewrite afterSuspend_tick in Hok, Hrej.
  destruct (N.lt_ge_cases t (tick w + 1 + n)) as [Hin | Hout].
  - destruct (Hrej t) as (operation & w' & E & T); [lia | exact Hfirst |].
    rewrite E in Hcon |- *. cbn [snd] in Hcon.
    exists operation, (pushConsole
                         (LogTrainingStepError
                            (PersistenceFailure operation t)) w').
    split; [reflexivity |]. cbn [console pushConsole tick].
    split; [now rewrite Hcon | exact T].
  - exfalso.
    destruct Hok as [T _].
    { intros t' Ht'. apply Hfirst. lia. }
    match type of T with
    | tick (snd (?body ?w1)) = _ =>
        destruct (body w1) as [[[] | e] w'] eqn:E
    end; cbn [snd tick pushConsole modify] in T, Hreach; lia.
Qed.

(** A cycle whose own calls are accepted completes, whatever the training
    step meets. *)
Lemma cycleBody_completes (sid : Z) (userInput : string)
    (cycle noiseLevel : Z) (w : World) :
  fst (performReflectionCycle O sid userInput cycle noiseLevel
         (updEngine (setCurrentCycle cycle) w)) = Ok tt ->
  exists w', cycleBody O sid userInput cycle noiseLevel w = (Ok tt, w').
Proof.
  intros Hok. unfold cycleBody. rewrite run_bind, run_modify.
  cbv beta iota. rewrite run_bind.
  destruct (performReflectionCycle O sid userInput cycle noiseLevel _)
    as [r w1]. cbn [fst] in Hok. subst r. cbv beta iota.
  rewrite run_bind, run_gets. cbv beta iota. rewrite run_bind.
  destruct (neuralEngine (engine w1)) as [e|].
  - destruct (trainStep_returns userInput w1) as [w2 ->]. cbv beta iota.
    rewrite run_bind, run_suspend. cbv beta iota. eexists. reflexivity.
  - rewrite run_ret. cbv beta iota.
    rewrite run_bind, run_suspend. cbv beta iota. eexists. reflexivity.
Qed.

(** C7, as the code has it.  In a started loop, let the cycle-0 reflection
    be stored, let the cycles 1 to [j] be entered with the flag set and
    their bodies return, and let cycle [j + 1] be entered.  If the database
    rejects one of the calls of [performReflectionCycle] in that cycle,
    then the cycle is aborted at the first rejected call (nothing runs
    after it) and the error is thrown by the [try] block and rethrown by
    [startReflectionLoop], which logs it, to its caller.  [trainStep], in
    contrast, never throws: once OpenAI has answered, every suspension of
    the step is a database call, and if the step gets to the first of
    them that the database rejects, it ends there, the error caught and
    logged as one line [Training step error], and returns; so a cycle
    whose own calls are accepted completes, and the run continues. *)
Theorem rejected_call_aborts_the_cycle (sid : Z) (userInput : string)
    (reflectionCycles noiseLevel : Z) (j : nat) (w : World) (t : N) :
  let ins :=
    {| ir_sessionId := sid; ir_cycle := 0; ir_type := user_input;
       ir_content := userInput;
       ir_metadata := MetaInput noiseLevel reflectionCycles |} in
  let w1 := snd (createReflection O ins w) in
  let wj := bodiesFrom O sid userInput noiseLevel j 1 w1 in
  (exists r, fst (createReflection O ins w) = Ok r) ->
  (forall i, i < j ->
     isGenerating (engine (bodiesFrom O sid userInput noiseLevel i 1 w1))
     = true
     /\ fst (cycleBody O sid userInput (1 + Z.of_nat i) noiseLevel
               (bodiesFrom O sid userInput noiseLevel i 1 w1)) = Ok tt) ->
  isGenerating (engine wj) = true ->
  (Z.of_nat j < reflectionCycles)%Z ->
  (tick wj <= t < tick wj + cycleCalls noiseLevel)%N ->
  firstRejected O (tick wj) t ->
  (exists operation w',
     runReflectionLoop O sid userInput reflectionCycles noiseLevel w
     = (Throw (PersistenceFailure operation t), w')
     /\ tick w' = (t + 1)%N
     /\ forall wb,
          beginReflectionLoop O sid wb = (Ok tt, w) ->
          startReflectionLoop O sid userInput reflectionCycles noiseLevel wb
          = (Throw (PersistenceFailure operation t),
             pushConsole
               (LogReflectionLoopError (PersistenceFailure operation t)) w'))
  /\ (forall inputText w0, exists w0', trainStep O inputText w0 = (Ok tt, w0'))
  /\ (forall inputText w0 t0,
        openaiReply O (tick w0) <> None ->
        (tick w0 < t0)%N ->
        firstRejected O (tick w0 + 1) t0 ->
        (t0 < tick (snd (trainStep O inputText w0)))%N ->
        exists operation w0',
          trainStep O inputText w0 = (Ok tt, w0')
          /\ console w0'
             = (console w0
                ++ [LogTrainingStepError
                      (PersistenceFailure operation t0)])%list
          /\ tick w0' = (t0 + 1)%N)
  /\ (forall cycle w0,
        fst (performReflectionCycle O sid userInput cycle noiseLevel
               (updEngine (setCurrentCycle cycle) w0)) = Ok tt ->
        exists w0',
          cycleBody O sid userInput cycle noiseLevel w0 = (Ok tt, w0')).
Proof.
  intros ins w1 wj [r Hr] Hbodies Hflag Hlt Ht Hfirst.
  split; [| split; [| split]].
  2: { intros inputText w0. apply trainStep_returns. }
  2: { intros inputText w0 t0. apply trainStep_logs_the_rejection. }
  2: { intros cycle w0. apply cycleBody_completes. }
  assert (createReflection O ins w = (Ok r, w1)) as E1.
  { subst w1. destruct (createReflection O ins w) as [r' w1'].
    cbn [fst snd] in *. congruence. }
  pose proof (reflectionCyclesFrom_prefix sid userInput reflectionCycles
                noiseLevel j (Z.to_nat reflectionCycles) 1 w1 Hbodies)
    as Hprefix.
  destruct (reflectionCyclesFrom_aborts sid userInput reflectionCycles
              noiseLevel (Z.to_nat reflectionCycles - j - 1)
              (1 + Z.of_nat j) wj t Hflag) as (operation & w' & E2 & T);
    [lia | exact Ht | exact Hfirst |].
  replace (S (Z.to_nat reflectionCycles - j - 1))
    with (Z.to_nat reflectionCycles - j) in E2 by lia.
  assert (runReflectionLoop O sid userInput reflectionCycles noiseLevel w
          = (Throw (PersistenceFailure operation t), w')) as E.
  { unfold runReflectionLoop. fold ins. mstep E1. rewrite run_bind.
    rewrite Hprefix by lia. fold wj. rewrite E2. reflexivity. }
  exists operation, w'. split; [exact E |]. split; [exact T |].
  intros wb Eb. eapply startReflectionLoop_rethrows; eassumption.
Qed.

(** X12.  Starting a loop on a session that does not exist: once the
    look-up has been answered, [startReflectionLoop] throws
    [Session not found], having only cleared its field [session]; no
    reflection is stored and no engine is made.  The route still answers
    [Reflection started] with status 200, the error being no more than a
    line of the log; and it gives this answer to every request that has a
    body, whatever the loop does. *)
Theorem start_on_an_unknown_session (sid : Z) (userInput : string)
    (reflectionCycles noiseLevel : Z) (w : World) :
  dbFails O (tick w) = false ->
  List.find (fun s => Z.eqb (s_id s) sid) (sessions (db w)) = None ->
  let w1 := updEngine (setSession None) (afterSuspend O w) in
  startReflectionLoop O sid userInput reflectionCycles noiseLevel w
  = (Throw SessionNotFound, w1)
  /\ postStartReflection O sid userInput reflectionCycles noiseLevel w
     = (Ok {| status := 200; message := "Reflection started" |},
        pushConsole (LogReflectionLoopError SessionNotFound) w1)
  /\ db w1 = db w
  /\ neuralEngine (engine w1) = neuralEngine (engine w)
  /\ (forall sid' userInput' reflectionCycles' noiseLevel' w0,
        fst (postStartReflection O sid' userInput' reflectionCycles'
               noiseLevel' w0)
        = Ok {| status := 200; message := "Reflection started" |}).
Proof.
  intros Hok Hs w1.
  assert (startReflectionLoop O sid userInput reflectionCycles noiseLevel w
          = (Throw SessionNotFound, w1)) as E.
  { unfold startReflectionLoop, beginReflectionLoop, getSession.
    rewrite !run_bind, (run_dbCall_ok _ _ Hok). cbv beta iota.
    rewrite run_gets. cbv beta iota. rewrite afterSuspend_db, Hs.
    rewrite run_bind, run_modify. cbv beta iota. reflexivity. }
  split; [exact E |]. split; [| split; [| split]].
  - unfold postStartReflection, tryCatch. rewrite run_bind, E. reflexivity.
  - subst w1. cbn. apply afterSuspend_db.
  - subst w1. cbn. apply afterSuspend_neuralEngine.
  - intros sid' userInput' reflectionCycles' noiseLevel' w0.
    unfold postStartReflection, tryCatch. rewrite run_bind.
    destruct (startReflectionLoop O sid' userInput' reflectionCycles'
                noiseLevel' w0) as [[[] | e] w2]; reflexivity.
Qed.

(** X13.  A stop request that is handled before the loop proper begins is
    lost.  When the database accepts the calls and the session exists, the
    prologue of [startReflectionLoop] ends with the flag [isGenerating]
    set and the cycle counter at 0, whether [stop()] was called before it
    and whatever stop requests are handled while the session is looked up
    and the weights are loaded. *)
Theorem stop_before_the_loop_is_lost (sid : Z) (w : World) (s : Session) :
  NoFail O ->
  List.find (fun s => Z.eqb (s_id s) sid) (sessions (db w)) = Some s ->
  (exists w0,
     beginReflectionLoop O sid w = (Ok tt, w0)
     /\ isGenerating (engine w0) = true /\ currentCycle (engine w0) = 0%Z)
  /\ (exists w0,
        beginReflectionLoop O sid (stop w) = (Ok tt, w0)
        /\ isGenerating (engine (stop w)) = false
        /\ isGenerating (engine w0) = true).
Proof.
  intros HF Hs. split.
  - destruct (beginReflectionLoop_returns HF sid w s Hs)
      as (w0 & E & _ & _ & G & C).
    exists w0. auto.
  - destruct (beginReflectionLoop_returns HF sid (stop w) s Hs)
      as (w0 & E & _ & _ & G & _).
    exists w0. auto.
Qed.

(** ** What is broadcast *)

Lemma randomScore_range (base span : Z) (r : Q) :
  (0 <= r)%Q -> (r < 1)%Q -> (0 < span)%Z ->
  (base <= Qfloor (inject_Z base + r * inject_Z span) <= base + span - 1)%Z.
Proof.
  intros H0 H1 Hspan.
  assert (0 < inject_Z span)%Q as Hs.
  { change 0%Q with (inject_Z 0). now rewrite <- Zlt_Qlt. }
  split.
  - rewrite <- (Qfloor_Z base) at 1. apply Qfloor_resp_le.
    rewrite <- (Qplus_0_r (inject_Z base)) at 1.
    apply Qplus_le_r. apply Qmult_le_0_compat; [exact H0 |].
    now apply Qlt_le_weak.
  - assert (inject_Z (Qfloor (inject_Z base + r * inject_Z span))
            < inject_Z (base + span))%Q as H.
    { eapply Qle_lt_trans; [apply Qfloor_le |].
      rewrite inject_Z_plus. apply Qplus_lt_r.
      rewrite <- (Qmult_1_l (inject_Z span)) at 2.
      apply Qmult_lt_compat_r; assumption. }
    rewrite <- Zlt_Qlt in H. lia.
Qed.

(** X14.  [updatePerformanceMetrics] stores nothing and broadcasts one
    [performance_update]; with [Math.random] in [0, 1) its response
    quality is a whole number from 85 to 100, its learning progress one
    from 8 to 20, its memory utilization one from 60 to 85, and its
    average reflection time lies in [1.5, 3.5].  The upper ends are
    included: in double arithmetic the sum [base + Math.random() * span]
    rounds up to [base + span] for a random number next to 1, which exact
    arithmetic excludes; the bounds stated hold either way. *)
Theorem updatePerformanceMetrics_ranges (sid : Z) (w : World) :
  UnitRandom O ->
  exists (quality progress memory : Z) (time : Q) (w' : World),
    updatePerformanceMetrics O sid w = (Ok tt, w')
    /\ sent w'
       = (sent w
          ++ [MsgPerformanceUpdate (inject_Z quality) (inject_Z progress)
                time (inject_Z memory)])%list
    /\ db w' = db w
    /\ (85 <= quality <= 100)%Z /\ (8 <= progress <= 20)%Z
    /\ (60 <= memory <= 85)%Z /\ (3 # 2 <= time)%Q /\ (time <= 7 # 2)%Q.
Proof.
  intros HR. unfold updatePerformanceMetrics, randomScore, Math_random,
    broadcast.
  eexists _, _, _, _, _. split; [reflexivity |].
  cbn [sent db setRng pushSent rng].
  split; [reflexivity |]. split; [reflexivity |].
  destruct (HR (rng w)) as [A0 A1].
  destruct (HR (rng w + 1)%N) as [B0 B1].
  destruct (HR (rng w + 1 + 1)%N) as [C0 C1].
  destruct (HR (rng w + 1 + 1 + 1)%N) as [D0 D1].
  split.
  { pose proof (randomScore_range 85 15 _ A0 A1 eq_refl). lia. }
  split.
  { pose proof (randomScore_range 8 12 _ B0 B1 eq_refl). lia. }
  split.
  { pose proof (randomScore_range 60 25 _ D0 D1 eq_refl). lia. }
  split.
  - rewrite <- (Qplus_0_r (3 # 2)) at 1. apply Qplus_le_r.
    apply Qmult_le_0_compat; [exact C0 | discriminate].
  - apply Qlt_le_weak.
    apply (Qlt_le_trans _ ((3 # 2) + 1 * 2)); [| discriminate].
    apply Qplus_lt_r. apply Qmult_lt_compat_r; [reflexivity | exact C1].
Qed.

(** ** The storage *)

Lemma createReflection_run (HF : NoFail O) (ins : InsertReflection)
    (w : World) :
  exists w',
    createReflection O ins w = (Ok (insertedReflection ins w), w')
    /\ reflections (db w')
       = (reflections (db w) ++ [insertedReflection ins w])%list
    /\ sessions (db w')
       = map (fun s =>
                if Z.eqb (s_id s) (ir_sessionId ins)
                then setTotalReflections
                       (List.length (reflectionsOf (ir_sessionId ins) (db w')))
                       s
                else s)
           (sessions (db w))
    /\ memoryInsights (db w') = memoryInsights (db w)
    /\ generatedContent (db w') = generatedContent (db w)
    /\ sent w' = sent w /\ console w' = console w /\ rng w' = rng w
    /\ currentCycle (engine w') = currentCycle (engine w)
    /\ tick w' = (tick w + 3)%N.
Proof.
  unfold createReflection. eexists. split.
  - run HF. rewrite afterSuspend_db. unfold insertedReflection. reflexivity.
  - unfold reflectionsOf. fields. repeat split; try reflexivity. lia.
Qed.

(** *** [orderBy] *)

Lemma insertSorted_perm {A : Type} (le : A -> A -> bool) (x : A)
    (l : list A) :
  Permutation (insertSorted le x l) (x :: l).
Proof.
  induction l as [|y l IH]; cbn [insertSorted]; [reflexivity |].
  destruct (le y x); [| reflexivity].
  rewrite IH. apply perm_swap.
Qed.

Lemma orderBy_perm {A : Type} (le : A -> A -> bool) (l : list A) :
  Permutation (orderBy le l) l.
Proof.
  unfold orderBy.
  assert (forall acc,
            Permutation (fold_left (fun acc x => insertSorted le x acc) l acc)
              (acc ++ l)) as H.
  { induction l as [|x l IH]; intros acc; cbn [fold_left].
    - now rewrite app_nil_r.
    - rewrite IH, insertSorted_perm. apply Permutation_middle. }
  apply (H []).
Qed.

Section Sorting.

Context {A : Type} (le : A -> A -> bool).
Context (le_total : forall a b, le a b = true \/ le b a = true).
Context (le_trans : forall a b c, le a b = true -> le b c = true ->
                                  le a c = true).

Lemma insertSorted_sorted (x : A) (l : list A) :
  StronglySorted (fun a b => le a b = true) l ->
  StronglySorted (fun a b => le a b = true) (insertSorted le x l).
Proof.
  induction l as [|y l IH]; intros Hs; cbn [insertSorted].
  - repeat constructor.
  - apply StronglySorted_inv in Hs as [Hs Hy].
    destruct (le y x) eqn:E.
    + constructor; [apply IH, Hs |].
      apply List.Forall_forall. intros z Hz.
      apply (Permutation_in _ (insertSorted_perm le x l)) in Hz.
      destruct Hz as [<- | Hz]; [exact E |].
      rewrite List.Forall_forall in Hy. now apply Hy.
    + assert (le x y = true) as Hxy
        by (destruct (le_total x y) as [H | H]; congruence).
      constructor; [constructor; assumption |].
      constructor; [exact Hxy |].
      eapply Forall_impl; [exact Hy |]. cbn beta. intros z Hz.
      eapply le_trans; eassumption.
Qed.

Lemma orderBy_sorted (l : list A) :
  StronglySorted (fun a b => le a b = true) (orderBy le l).
Proof.
  unfold orderBy.
  assert (forall acc,
            StronglySorted (fun a b => le a b = true) acc ->
            StronglySorted (fun a b => le a b = true)
              (fold_left (fun acc x => insertSorted le x acc) l acc)) as H.
  { induction l as [|x l IH]; intros acc Hacc; cbn [fold_left];
      [exact Hacc |].
    apply IH, insertSorted_sorted, Hacc. }
  apply H. constructor.
Qed.

End Sorting.

Lemma StronglySorted_weaken {A : Type} (R R' : A -> A -> Prop) (l : list A) :
  (forall a b, R a b -> R' a b) ->
  StronglySorted R l -> StronglySorted R' l.
Proof.
  intros HR Hs. induction Hs as [|a l Hs IH Ha]; constructor; [exact IH |].
  eapply Forall_impl; [exact Ha |]. cbn beta. intros b. apply HR.
Qed.

Lemma StronglySorted_take_drop {A : Type} (R : A -> A -> Prop) (l : list A)
    (n : nat) :
  StronglySorted R l ->
  forall x y, In x (take n l) -> In y (drop n l) -> R x y.
Proof.
  revert n; induction l as [|a l IH]; intros n Hs x y Hx Hy.
  - destruct n; contradiction.
  - apply StronglySorted_inv in Hs as [Hs Ha].
    destruct n as [|n]; [contradiction |]. cbn in Hx, Hy.
    destruct Hx as [<- | Hx].
    + rewrite List.Forall_forall in Ha. apply Ha.
      rewrite <- (take_drop n l). apply in_or_app. right. exact Hy.
    + eapply IH; eassumption.
Qed.

(** X15.  [createReflection], when the database accepts its three calls:
    the row gets the next serial id and is appended to the table, and the
    counter [totalReflections] of the session is recomputed from the table
    (so it is right afterwards whatever it was before), which now holds
    one more reflection of the session; no session is added or removed;
    and [getReflectionsBySession] then returns the new row among as many
    rows as the counter says. *)
Theorem createReflection_counts_the_reflections (ins : InsertReflection)
    (w : World) :
  NoFail O ->
  let sid := ir_sessionId ins in
  exists row w',
    createReflection O ins w = (Ok row, w')
    /\ reflections (db w') = (reflections (db w) ++ [row])%list
    /\ r_id row = S (List.length (reflections (db w)))
    /\ reflKey row = (sid, ir_cycle ins, ir_type ins)
    /\ (forall s, In s (sessions (db w')) -> s_id s = sid ->
        s_totalReflections s = List.length (reflectionsOf sid (db w')))
    /\ List.length (reflectionsOf sid (db w'))
       = S (List.length (reflectionsOf sid (db w)))
    /\ map s_id (sessions (db w')) = map s_id (sessions (db w))
    /\ exists rs w'',
         getReflectionsBySession O sid w' = (Ok rs, w'')
         /\ In row rs
         /\ List.length rs = List.length (reflectionsOf sid (db w')).
Proof.
  intros HF sid.
  destruct (createReflection_run HF ins w)
    as (w' & E & Hr & Hs & _). fold sid in Hs.
  exists (insertedReflection ins w), w'.
  assert (reflectionsOf sid (db w')
          = (reflectionsOf sid (db w) ++ [insertedReflection ins w])%list)
    as Hof.
  { unfold reflectionsOf. rewrite Hr, List.filter_app. cbn [List.filter].
    unfold insertedReflection at 1. cbn [r_sessionId]. fold sid.
    now rewrite Z.eqb_refl. }
  split; [exact E |]. split; [exact Hr |]. split; [reflexivity |].
  split; [reflexivity |]. split; [| split; [| split]].
  - intros s Hin Hid. rewrite Hs in Hin.
    apply in_map_iff in Hin as (s0 & <- & _).
    destruct (Z.eqb_spec (s_id s0) sid) as [_ | Hne]; [reflexivity |].
    contradiction.
  - rewrite Hof, length_app. cbn. lia.
  - rewrite Hs, map_map. apply map_ext. intros s.
    destruct (Z.eqb (s_id s) sid); reflexivity.
  - unfold getReflectionsBySession. eexists _, _. split; [run HF; reflexivity |].
    fields. fold (reflectionsOf sid (db w')).
    split.
    + apply (Permutation_in _ (Permutation_sym (orderBy_perm _ _))).
      rewrite Hof. apply in_or_app. right. now left.
    + apply Permutation_length, orderBy_perm.
Qed.

(** X16.  [getReflectionsBySession], when the database answers: it
    returns the reflections of the session, all of them and no others,
    in the order of their timestamps; the database is not changed. *)
Theorem getReflectionsBySession_sorted (sid : Z) (w : World) :
  dbFails O (tick w) = false ->
  exists rs,
    getReflectionsBySession O sid w = (Ok rs, afterSuspend O w)
    /\ Permutation rs (reflectionsOf sid (db w))
    /\ Forall (fun r => r_sessionId r = sid) rs
    /\ StronglySorted (fun a b => (r_timestamp a <= r_timestamp b)%N) rs
    /\ db (afterSuspend O w) = db w.
Proof.
  intros Hok. unfold getReflectionsBySession, dbCall.
  eexists. split.
  { rewrite !run_bind, run_suspend. cbv beta iota. rewrite Hok.
    rewrite run_ret. cbv beta iota. rewrite run_gets. reflexivity. }
  rewrite afterSuspend_db. fold (reflectionsOf sid (db w)).
  split; [apply orderBy_perm |]. split; [| split; [| reflexivity]].
  - apply List.Forall_forall. intros r Hr.
    apply (Permutation_in _ (orderBy_perm _ _)) in Hr.
    unfold reflectionsOf in Hr. apply List.filter_In in Hr as [_ Hr].
    now apply Z.eqb_eq.
  - eapply StronglySorted_weaken;
      [| apply (orderBy_sorted
                  (fun a b : Reflection =>
                     N.leb (r_timestamp a) (r_timestamp b)))].
    + intros a b Hab. now apply N.leb_le.
    + intros a b. rewrite !N.leb_le. lia.
    + intros a b c. rewrite !N.leb_le. lia.
Qed.

(** X17.  [getRecentMemoryInsights(limit)], when the database answers: it
    returns [limit] insights, or all of them when there are fewer, newest
    first, and no insight that is left out is newer than one that is
    returned. *)
Theorem getRecentMemoryInsights_newest (limit : nat) (w : World) :
  dbFails O (tick w) = false ->
  exists rs rest,
    getRecentMemoryInsights O limit w = (Ok rs, afterSuspend O w)
    /\ List.length rs
       = Nat.min limit (List.length (memoryInsights (db w)))
    /\ Permutation (rs ++ rest) (memoryInsights (db w))
    /\ StronglySorted (fun a b => (mi_timestamp b <= mi_timestamp a)%N) rs
    /\ (forall x y, In x rs -> In y rest ->
        (mi_timestamp y <= mi_timestamp x)%N).
Proof.
  intros Hok. unfold getRecentMemoryInsights, dbCall.
  set (le := fun a b : MemoryInsight =>
               N.leb (mi_timestamp b) (mi_timestamp a)).
  assert (StronglySorted (fun a b => (mi_timestamp b <= mi_timestamp a)%N)
            (orderBy le (memoryInsights (db w)))) as Hsorted.
  { eapply StronglySorted_weaken; [| apply (orderBy_sorted le)].
    - intros a b Hab. now apply N.leb_le.
    - intros a b. unfold le. rewrite !N.leb_le. lia.
    - intros a b c. unfold le. rewrite !N.leb_le. lia. }
  exists (take limit (orderBy le (memoryInsights (db w)))),
         (drop limit (orderBy le (memoryInsights (db w)))).
  split.
  { rewrite !run_bind, run_suspend. cbv beta iota. rewrite Hok.
    rewrite run_ret. cbv beta iota. rewrite run_gets.
    now rewrite afterSuspend_db. }
  split; [| split; [| split]].
  - rewrite length_take. rewrite (Permutation_length (orderBy_perm _ _)).
    reflexivity.
  - rewrite take_drop. apply orderBy_perm.
  - clear -Hsorted. revert limit.
    induction Hsorted as [|a l Hs IH Ha]; intros limit.
    + rewrite take_nil. constructor.
    + destruct limit as [|n]; [constructor |]. cbn [take].
      constructor; [apply IH |].
      apply List.Forall_forall. intros x Hx.
      rewrite List.Forall_forall in Ha. apply Ha.
      rewrite <- (take_drop n l). apply in_or_app. left. exact Hx.
  - intros x y Hx Hy.
    exact (StronglySorted_take_drop _ _ limit Hsorted x y Hx Hy).
Qed.

(** The same, in hypotheses. *)
Ltac fields_in_one H :=
  repeat first
    [ progress cbn [db engine tick rng sent console updDb updEngine setTick
                    setRng pushSent pushConsole reflections memoryInsights
                    generatedContent sessions modelWeights tokenVocabulary
                    trainingBatches learningMetrics addReflection
                    addMemoryInsight addGeneratedContent addModelWeights
                    addTokenVocabulary addTrainingBatch addLearningMetrics
                    updSessions currentCycle isGenerating neuralEngine session
                    setCurrentCycle setIsGenerating setNeuralEngine setSession
                    fst snd] in H
    | rewrite afterSuspend_db in H
    | rewrite afterSuspend_sent in H
    | rewrite afterSuspend_console in H
    | rewrite afterSuspend_rng in H
    | rewrite afterSuspend_tick in H
    | rewrite afterSuspend_currentCycle in H
    | rewrite afterSuspend_neuralEngine in H
    | rewrite afterSuspend_session in H ].

Tactic Notation "fields_in" hyp(A) hyp(B) hyp(C) hyp(D) :=
  fields_in_one A; fields_in_one B; fields_in_one C; fields_in_one D.

(** ** What a cycle stores and broadcasts *)

(** X18.  A reflection cycle, when the database accepts its calls: the
    reflections of the cycle (analysis, memory recall, strategy or
    refinement, and noise injection when the noise level is positive) are
    appended to the table with consecutive ids, one memory insight is
    stored, related to the current cycle of the engine, and what is
    broadcast is exactly these rows as they were stored, in the order of
    their insertion, then the insight, then one performance update. *)
Theorem performReflectionCycle_broadcasts_its_rows (sid : Z)
    (userInput : string) (cycle noiseLevel : Z) (w : World) :
  NoFail O ->
  exists rows insight update w',
    performReflectionCycle O sid userInput cycle noiseLevel w = (Ok tt, w')
    /\ reflections (db w') = (reflections (db w) ++ rows)%list
    /\ map reflKey rows = cycleGroup sid cycle noiseLevel
    /\ map r_id rows
       = seq (S (List.length (reflections (db w)))) (List.length rows)
    /\ memoryInsights (db w') = (memoryInsights (db w) ++ [insight])%list
    /\ mi_sessionId insight = sid
    /\ mi_related_reflections insight = [currentCycle (engine w)]
    /\ sent w'
       = (sent w ++ map MsgReflection rows
          ++ [MsgMemoryInsight insight; update])%list
    /\ exists quality progress time memory,
         update = MsgPerformanceUpdate quality progress time memory.
Proof.
  intros HF.
  unfold performReflectionCycle, getReflectionsBySession,
    getRecentMemoryInsights, createAnalysisReflection, createMemoryReflection,
    createStrategyReflection, createNoiseReflection, generateMemoryInsight,
    createMemoryInsight, updatePerformanceMetrics, randomScore.
  run HF.
  match goal with
  | |- context [createReflection O ?ins ?w0] =>
      destruct (createReflection_run HF ins w0)
        as (w1 & E1 & R1 & _ & I1 & _ & S1 & _ & _ & C1 & _)
  end.
  rewrite E1. run HF.
  match goal with
  | |- context [createReflection O ?ins ?w0] =>
      destruct (createReflection_run HF ins w0)
        as (w2 & E2 & R2 & _ & I2 & _ & S2 & _ & _ & C2 & _)
  end.
  rewrite E2. run HF.
  match goal with
  | |- context [createReflection O ?ins ?w0] =>
      destruct (createReflection_run HF ins w0)
        as (w3 & E3 & R3 & _ & I3 & _ & S3 & _ & _ & C3 & _)
  end.
  rewrite E3. run HF.
  unfold cycleGroup.
  destruct (0 <? noiseLevel)%Z.
  - run HF.
    match goal with
    | |- context [createReflection O ?ins ?w0] =>
        destruct (createReflection_run HF ins w0)
          as (w4 & E4 & R4 & _ & I4 & _ & S4 & _ & _ & C4 & _)
    end.
    rewrite E4. run HF.
    eexists [_; _; _; _], _, _, _. split; [reflexivity |].
    fields. fields_in R1 I1 S1 C1. fields_in R2 I2 S2 C2.
    fields_in R3 I3 S3 C3. fields_in R4 I4 S4 C4.
    rewrite R4, R3, R2, R1, I4, I3, I2, I1, S4, S3, S2, S1, C4, C3, C2, C1.
    rewrite <- !app_assoc. cbn [app map].
    split; [reflexivity |]. split; [reflexivity |]. split.
    { unfold insertedReflection. cbn [r_id]. fields.
      rewrite R3, R2, R1. fields. rewrite !length_app. cbn [List.length seq].
      repeat f_equal; lia. }
    split; [reflexivity |]. split; [reflexivity |]. split; [reflexivity |].
    split; [reflexivity |]. eexists _, _, _, _. reflexivity.
  - run HF.
    eexists [_; _; _], _, _, _. split; [reflexivity |].
    fields. fields_in R1 I1 S1 C1. fields_in R2 I2 S2 C2.
    fields_in R3 I3 S3 C3.
    rewrite R3, R2, R1, I3, I2, I1, S3, S2, S1, C3, C2, C1.
    rewrite <- !app_assoc. cbn [app map].
    split; [reflexivity |]. split; [reflexivity |]. split.
    { unfold insertedReflection. cbn [r_id]. fields.
      rewrite R2, R1. fields. rewrite !length_app. cbn [List.length seq].
      repeat f_equal; lia. }
    split; [reflexivity |]. split; [reflexivity |]. split; [reflexivity |].
    split; [reflexivity |]. eexists _, _, _, _. reflexivity.
Qed.

(** ** The final content *)

Lemma join_split (s : string) : JS.join " " (JS.split " "%char s) = s.
Proof.
  induction s as [|c r IH]; [reflexivity |]. cbn [JS.split].
  pose proof (split_nonempty " "%char r) as Hne.
  destruct (Ascii.eqb_spec c " "%char) as [-> | Hc].
  - destruct (JS.split " "%char r) as [|w ws]; [congruence |].
    change (JS.join " " (EmptyString :: w :: ws))
      with (EmptyString ++ " " ++ JS.join " " (w :: ws)).
    now rewrite IH.
  - destruct (JS.split " "%char r) as [|w ws]; [congruence |].
    destruct ws as [|w' ws].
    + cbn in *. now rewrite IH.
    + change (JS.join " " (String c w :: w' :: ws))
        with (String c w ++ " " ++ JS.join " " (w' :: ws)).
      change (JS.join " " (w :: w' :: ws))
        with (w ++ " " ++ JS.join " " (w' :: ws)) in IH.
      now rewrite append_String, IH.
Qed.

Lemma append_assoc (a b c : string) : (a ++ b) ++ c = a ++ (b ++ c).
Proof.
  induction a as [|x a IH]; [reflexivity |].
  now rewrite !append_String, IH.
Qed.

Lemma join_snoc (sep : string) (ws : list string) (w : string) :
  JS.join sep (ws ++ [w])
  = match ws with
    | [] => w
    | _ :: _ => JS.join sep ws ++ sep ++ w
    end.
Proof.
  induction ws as [|x ws IH]; [reflexivity |].
  destruct ws as [|y ws]; [reflexivity |].
  change (JS.join sep ((x :: y :: ws) ++ [w]))
    with (x ++ sep ++ JS.join sep ((y :: ws) ++ [w])).
  rewrite IH.
  change (JS.join sep (x :: y :: ws)) with (x ++ sep ++ JS.join sep (y :: ws)).
  now rewrite !append_assoc.
Qed.

(** The same, without a call to the database. *)
Ltac run0 :=
  repeat first
    [ rewrite run_bind
    | rewrite run_gets
    | rewrite run_modify
    | rewrite run_ret
    | rewrite run_broadcast
    | rewrite run_Math_random
    | rewrite run_suspend
    | progress cbv beta iota ].

(** The streaming loop, from the words [prefix] on: one message for each
    word, with the text so far and the number of its words. *)
Lemma streamWords_run (rest : list string) :
  forall (prefix : list string) (w : World),
    exists w' msgs,
      foldM (streamWord O)
        (JS.join " " prefix, List.length prefix) rest w
      = (Ok (JS.join " " (prefix ++ rest), List.length (prefix ++ rest)), w')
      /\ db w' = db w /\ console w' = console w
      /\ sent w' = (sent w ++ msgs)%list
      /\ map generationKey msgs
         = map (fun k => Some (JS.join " " (take k (prefix ++ rest)), false, k))
             (seq (S (List.length prefix)) (List.length rest)).
Proof.
  induction rest as [|word rest IH]; intros prefix w.
  - exists w, []. rewrite !app_nil_r. repeat split; reflexivity.
  - rewrite run_foldM_cons, run_bind. unfold streamWord at 1, randomScore.
    run0.
    assert ((JS.join " " prefix
             ++ (if 0 <? List.length prefix then " " else EmptyString) ++ word)
            = JS.join " " (prefix ++ [word])) as Hjoin.
    { rewrite join_snoc. destruct prefix; reflexivity. }
    rewrite Hjoin.
    replace (S (List.length prefix)) with (List.length (prefix ++ [word]))
      by (rewrite length_app; cbn; lia).
    match goal with
    | |- context [foldM _ _ rest ?w0] =>
        destruct (IH (prefix ++ [word])%list w0)
          as (w' & msgs & E & Hdb & Hcon & Hsent & Hkeys)
    end.
    rewrite E. rewrite <- !app_assoc in *. cbn [app] in *.
    eexists w', (_ :: msgs). split; [reflexivity |].
    fields_in_one Hdb. fields_in_one Hcon. fields_in_one Hsent.
    split; [exact Hdb |]. split; [exact Hcon |]. split.
    + rewrite Hsent, <- app_assoc. reflexivity.
    + cbn [map generationKey seq List.length]. f_equal.
      * rewrite length_app. cbn [List.length].
        replace (List.length prefix + 1) with (S (List.length prefix)) by lia.
        do 2 f_equal.
        change (prefix ++ word :: rest)%list
          with (prefix ++ [word] ++ rest)%list.
        rewrite app_assoc, take_app_length'; [reflexivity |].
        rewrite length_app. cbn. lia.
      * rewrite Hkeys, length_app. cbn [List.length].
        replace (List.length prefix + 1) with (S (List.length prefix)) by lia.
        reflexivity.
Qed.

#[local] Instance sameOutput_preorder : PreOrder sameOutput.
Proof.
  split; [intros w; split; reflexivity |].
  intros w1 w2 w3 [A1 B1] [A2 B2]. unfold sameOutput in *.
  split; congruence.
Qed.

Lemma tokenizeText_sameOutput (text : string) :
  respects sameOutput (tokenizeText O text).
Proof.
  unfold tokenizeText, tokenizeWord, tokenizeSubword, generateTokenEmbedding,
    getTokenByValue, createTokenVocabulary.
  respect_with ltac:(unfold sameOutput; primitive; split; reflexivity).
Qed.

(** X19.  [generateFinalContent], when the database accepts its calls:
    the content is streamed word by word, the message for the [k]-th word
    carrying the first [k] words joined by single spaces, not marked
    complete; the last of these messages already carries the whole
    content; then one message marked complete carries the content again,
    and one row, complete, is stored with it.  Without a neural engine
    the content is the fixed template. *)
Theorem generateFinalContent_streams_the_content (sid : Z)
    (userInput : string) (w : World) :
  NoFail O ->
  exists fullContent row msgs w',
    generateFinalContent O sid userInput w = (Ok tt, w')
    /\ generatedContent (db w') = (generatedContent (db w) ++ [row])%list
    /\ gc_sessionId row = sid /\ gc_content row = fullContent
    /\ gc_isComplete row = true
    /\ sent w' = (sent w ++ msgs)%list
    /\ (let words := JS.split " "%char fullContent in
        map generationKey msgs
        = (map (fun k => Some (JS.join " " (take k words), false, k))
             (seq 1 (List.length words))
           ++ [Some (fullContent, true, List.length words)])%list
        /\ JS.join " " (take (List.length words) words) = fullContent)
    /\ (neuralEngine (engine w) = None ->
        exists reflections,
          fullContent = generateTemplateContent userInput reflections).
Proof.
  intros HF. unfold generateFinalContent, getReflectionsBySession, getSession.
  run HF.
  set (reflections0 := orderBy _ _).
  set (w0 := afterSuspend O (afterSuspend O w)).
  assert (exists fullContent w1,
            match neuralEngine (engine w0) with
            | Some _ =>
                tryCatch
                  (tokens ← tokenizeText O userInput; forwardPass O tokens)
                  (fun _ =>
                     modify (pushConsole LogGenerationFailed);;
                     mret (generateTemplateContent userInput reflections0))
            | None => mret (generateTemplateContent userInput reflections0)
            end w0 = (Ok fullContent, w1)
            /\ sameOutput w0 w1
            /\ (neuralEngine (engine w0) = None ->
                fullContent = generateTemplateContent userInput reflections0))
    as (fullContent & w1 & E1 & [Hsent1 Hgc1] & Hnone).
  { destruct (neuralEngine (engine w0)) as [e|].
    - unfold tryCatch.
      assert (respects sameOutput
                (tokens ← tokenizeText O userInput; forwardPass O tokens))
        as Hbody.
      { apply respects_bind; [apply tokenizeText_sameOutput | intros tokens].
        intros w2. unfold sameOutput. primitive. split; reflexivity. }
      specialize (Hbody w0).
      destruct ((tokens ← tokenizeText O userInput; forwardPass O tokens) w0)
        as [[content | err] w1].
      + exists content, w1. split; [reflexivity |]. split; [exact Hbody |].
        discriminate.
      + eexists _, _. run0. split; [reflexivity |].
        cbn [snd] in Hbody. destruct Hbody as [A B].
        split; [split; fields; assumption | discriminate].
    - eexists _, w0. split; [reflexivity |]. split; [reflexivity |]. auto. }
  rewrite E1. cbv beta iota.
  destruct (streamWords_run (JS.split " "%char fullContent) [] w1)
    as (w2 & msgs & E2 & Hdb2 & _ & Hsent2 & Hkeys).
  cbn [app JS.join List.length] in E2, Hkeys.
  rewrite run_bind, E2. cbv beta iota.
  unfold randomScore, createGeneratedContent. run HF.
  eexists fullContent, _, (msgs ++ [_])%list, _. split; [reflexivity |].
  fields. subst w0. fields_in_one Hsent1. fields_in_one Hgc1.
  rewrite Hdb2, Hgc1, Hsent2, Hsent1, <- app_assoc.
  split; [reflexivity |]. split; [reflexivity |]. split; [reflexivity |].
  split; [reflexivity |]. split; [reflexivity |]. split.
  - cbv zeta. split.
    + rewrite map_app, Hkeys. reflexivity.
    + rewrite firstn_all. apply join_split.
  - intros Hn. exists reflections0. apply Hnone.
    now rewrite !afterSuspend_neuralEngine.
Qed.

(** ** Reloading an engine *)

Lemma mapGet_mapSet {V : Type} (key key' : string) (value : V)
    (m : list (string * V)) :
  mapGet key' (mapSet key value m)
  = if String.eqb key key' then Some value else mapGet key' m.
Proof.
  induction m as [|[k v] m IH]; cbn [mapSet mapGet].
  - reflexivity.
  - destruct (String.eqb_spec k key) as [-> | Hk]; cbn [mapGet].
    + destruct (String.eqb key key'); reflexivity.
    + rewrite IH. destruct (String.eqb_spec k key') as [-> | Hk'];
        [| reflexivity].
      destruct (String.eqb_spec key key') as [-> | _]; [congruence |].
      reflexivity.
Qed.

Lemma weights_restoredWeights (r : ModelWeights) (e : NeuralEngine) :
  weights (restoredWeights r e)
  = mapSet (mw_layerName r) (mw_weights r) (weights e)
  /\ sessionId (restoredWeights r e) = sessionId e.
Proof.
  unfold restoredWeights. destruct (mw_biases r), (mw_learningRate r) as [q|];
    try destruct (Qeq_bool q 0); split; reflexivity.
Qed.

(** The weights of a layer after the snapshots [rs] were applied in this
    order: those of the last snapshot of the layer. *)
Lemma weights_after_snapshots (layer : string) (rs : list ModelWeights) :
  forall e,
    mapGet layer (weights (fold_left (fun e r => restoredWeights r e) rs e))
    = match List.find (fun r => String.eqb (mw_layerName r) layer) (rev rs) with
      | Some r => Some (mw_weights r)
      | None => mapGet layer (weights e)
      end.
Proof.
  induction rs as [|r rs IH] using rev_ind; intros e; [reflexivity |].
  rewrite fold_left_app, rev_unit. cbn [fold_left List.find].
  destruct (weights_restoredWeights r
              (fold_left (fun e r => restoredWeights r e) rs e)) as [-> _].
  rewrite mapGet_mapSet.
  destruct (String.eqb (mw_layerName r) layer); [reflexivity | apply IH].
Qed.

Lemma orderBy_newest_first {A : Type} (key : A -> N) (l : list A) :
  StronglySorted (fun a b => (key a < key b)%N) l ->
  orderBy (fun a b => N.leb (key b) (key a)) l = rev l.
Proof.
  unfold orderBy.
  set (ins := fun acc x => insertSorted (fun a b => N.leb (key b) (key a)) x acc).
  assert (forall acc,
            StronglySorted (fun a b => (key a < key b)%N) l ->
            Forall (fun y => Forall (fun x => (key y < key x)%N) l) acc ->
            fold_left ins l acc = (rev l ++ acc)%list) as H.
  { induction l as [|x l IH]; intros acc Hs Hacc; [reflexivity |].
    apply StronglySorted_inv in Hs as [Hs Hx].
    cbn [fold_left rev]. rewrite <- app_assoc. cbn [app].
    assert (ins acc x = x :: acc) as ->.
    { subst ins. cbn beta. destruct acc as [|y acc]; [reflexivity |].
      cbn [insertSorted]. apply Forall_cons in Hacc as [Hy _].
      apply Forall_cons in Hy as [Hy _].
      now rewrite (proj2 (N.leb_gt _ _) Hy). }
    apply IH; [exact Hs |]. constructor; [exact Hx |].
    eapply Forall_impl; [exact Hacc |]. cbn beta. intros y Hy.
    now apply Forall_cons in Hy as [_ Hy]. }
  intros Hs. rewrite (H [] Hs); [apply app_nil_r | constructor].
Qed.

Lemma filter_sorted {A : Type} (R : A -> A -> Prop) (p : A -> bool)
    (l : list A) :
  StronglySorted R l -> StronglySorted R (List.filter p l).
Proof.
  intros Hs. induction Hs as [|a l Hs IH Ha]; cbn [List.filter];
    [constructor |].
  destruct (p a); [| exact IH]. constructor; [exact IH |].
  apply List.Forall_forall. intros x Hx. apply List.filter_In in Hx as [Hx _].
  rewrite List.Forall_forall in Ha. now apply Ha.
Qed.

Lemma find_filter {A : Type} (p q : A -> bool) (l : list A) :
  List.find q (List.filter p l) = List.find (fun x => p x && q x) l.
Proof.
  induction l as [|x l IH]; [reflexivity |]. cbn [List.filter List.find].
  destruct (p x); cbn [andb List.find]; [now rewrite IH | exact IH].
Qed.

Lemma updEngine_same (w : World) (e : NeuralEngine) :
  neuralEngine (engine w) = Some e ->
  updEngine (setNeuralEngine (Some e)) w = w.
Proof.
  intros He. destruct w as [[s c g ne] d t r snt con]. cbn in He. subst ne.
  reflexivity.
Qed.

(** A loop whose turns only update the engine. *)
Lemma forM_updates_run {A : Type} (body : A -> M unit)
    (f : A -> NeuralEngine -> NeuralEngine) (xs : list A) :
  (forall x w e,
     neuralEngine (engine w) = Some e ->
     body x w = (Ok tt, updEngine (setNeuralEngine (Some (f x e))) w)) ->
  forall w e,
    neuralEngine (engine w) = Some e ->
    forM_ xs body w
    = (Ok tt,
       updEngine
         (setNeuralEngine (Some (fold_left (fun e x => f x e) xs e))) w).
Proof.
  intros Hbody. unfold forM_.
  induction xs as [|x xs IH]; intros w e He.
  - cbn [foldM fold_left]. now rewrite updEngine_same.
  - rewrite run_foldM_cons, run_bind, (Hbody x w e He). cbv beta iota.
    rewrite (IH _ (f x e)) by reflexivity. reflexivity.
Qed.

Lemma run_updThis (f : NeuralEngine -> NeuralEngine) (w : World)
    (e : NeuralEngine) :
  neuralEngine (engine w) = Some e ->
  updThis f w = (Ok tt, updEngine (setNeuralEngine (Some (f e))) w).
Proof.
  intros He. unfold updThis. rewrite run_modify. f_equal.
  destruct w as [[s c g ne] d t r snt con]. cbn in He. subst ne. reflexivity.
Qed.

Lemma run_updThis_again (f : NeuralEngine -> NeuralEngine) (w : World)
    (e : NeuralEngine) :
  updThis f (updEngine (setNeuralEngine (Some e)) w)
  = (Ok tt, updEngine (setNeuralEngine (Some (f e))) w).
Proof. reflexivity. Qed.

(** [loadWeights] as a function of the rows it reads. *)
Lemma loadWeights_run (HF : NoFail O) (w : World) (e : NeuralEngine) :
  neuralEngine (engine w) = Some e ->
  let savedWeights :=
    orderBy (fun a b => N.leb (mw_lastUpdated b) (mw_lastUpdated a))
      (List.filter (fun r => Z.eqb (mw_sessionId r) (sessionId e))
         (modelWeights (db w))) in
  let savedTokens :=
    orderBy (fun a b => Nat.leb (tv_frequency b) (tv_frequency a))
      (List.filter (fun r => Z.eqb (tv_sessionId r) (sessionId e))
         (tokenVocabulary (db w))) in
  loadWeights O w
  = (Ok tt,
     updEngine
       (setNeuralEngine
          (Some (fold_left (fun e r => restoredWeights r e) savedWeights
                   (fold_left (fun e t => restoredToken t e) savedTokens e))))
       (afterSuspend O (afterSuspend O w))).
Proof.
  intros He savedWeights savedTokens.
  unfold loadWeights, getModelWeightsBySession, getTokenVocabularyBySession.
  rewrite run_bind, (run_this w e He). cbv beta iota. run HF.
  fields. fold savedWeights savedTokens.
  set (w2 := afterSuspend O (afterSuspend O w)).
  assert (neuralEngine (engine w2) = Some e) as He2
    by (subst w2; now rewrite !afterSuspend_neuralEngine).
  rewrite (forM_updates_run _ restoredToken savedTokens) with (e := e);
    [| | exact He2].
  - cbv beta iota.
    rewrite (forM_updates_run _ restoredWeights savedWeights)
      with (e := fold_left (fun e t => restoredToken t e) savedTokens e);
      [reflexivity | | reflexivity].
    intros r w0 e0 He0. rewrite run_bind, (run_updThis _ w0 e0 He0).
    cbv beta iota. rewrite run_bind. unfold restoredWeights.
    destruct (mw_biases r) as [bs|].
    + rewrite run_updThis_again. cbv beta iota.
      destruct (mw_learningRate r) as [rate|]; [| reflexivity].
      destruct (Qeq_bool rate 0); [reflexivity |].
      rewrite run_updThis_again. reflexivity.
    + rewrite run_ret. cbv beta iota.
      destruct (mw_learningRate r) as [rate|]; [| reflexivity].
      destruct (Qeq_bool rate 0); [reflexivity |].
      rewrite run_updThis_again. reflexivity.
  - intros t w0 e0 He0. rewrite run_bind, (run_updThis _ w0 e0 He0).
    cbv beta iota. unfold restoredToken.
    destruct (tv_embedding t) as [emb|]; [| reflexivity].
    rewrite run_updThis_again. reflexivity.
Qed.

Lemma weights_restoredTokens (ts : list TokenVocabulary) :
  forall e,
    weights (fold_left (fun e t => restoredToken t e) ts e) = weights e
    /\ sessionId (fold_left (fun e t => restoredToken t e) ts e) = sessionId e.
Proof.
  induction ts as [|t ts IH]; intros e; [split; reflexivity |].
  cbn [fold_left]. destruct (IH (restoredToken t e)) as [-> ->].
  unfold restoredToken. destruct (tv_embedding t); split; reflexivity.
Qed.

Lemma sessionId_restoredWeights (rs : list ModelWeights) :
  forall e,
    sessionId (fold_left (fun e r => restoredWeights r e) rs e) = sessionId e.
Proof.
  induction rs as [|r rs IH]; intros e; [reflexivity |].
  cbn [fold_left]. rewrite IH. apply weights_restoredWeights.
Qed.

(** X20.  [loadWeights] reads the snapshots of the session newest first
    and applies them in that order, so that for each layer the one that
    remains is the oldest: when the rows of the table were inserted in
    the order of their times, the layer gets the weights of the first
    snapshot of the session and layer in the table, and keeps its own
    when there is none.  The database is not changed. *)
Theorem loadWeights_restores_the_oldest_snapshot (w : World)
    (e : NeuralEngine) :
  NoFail O ->
  neuralEngine (engine w) = Some e ->
  StronglySorted (fun a b => (mw_lastUpdated a < mw_lastUpdated b)%N)
    (modelWeights (db w)) ->
  exists w' e',
    loadWeights O w = (Ok tt, w')
    /\ neuralEngine (engine w') = Some e'
    /\ db w' = db w
    /\ sessionId e' = sessionId e
    /\ forall layer,
         mapGet layer (weights e')
         = match List.find (snapshotOf (sessionId e) layer)
                   (modelWeights (db w)) with
           | Some r => Some (mw_weights r)
           | None => mapGet layer (weights e)
           end.
Proof.
  intros HF He Hsorted. rewrite (loadWeights_run HF w e He). cbv zeta.
  eexists _, _. split; [reflexivity |]. fields.
  split; [reflexivity |]. split; [reflexivity |]. split.
  - rewrite sessionId_restoredWeights. apply weights_restoredTokens.
  - intros layer. rewrite weights_after_snapshots.
    rewrite (orderBy_newest_first mw_lastUpdated)
      by (apply filter_sorted, Hsorted).
    rewrite rev_involutive, find_filter.
    destruct (weights_restoredTokens
                (orderBy (fun a b => Nat.leb (tv_frequency b) (tv_frequency a))
                   (List.filter
                      (fun r => Z.eqb (tv_sessionId r) (sessionId e))
                      (tokenVocabulary (db w)))) e) as [-> _].
    reflexivity.
Qed.

(** ** A second start *)

#[local] Instance keepsOrigin_preorder : PreOrder keepsOrigin.
Proof.
  split; [intros w; split; reflexivity |].
  intros w1 w2 w3 [A1 B1] [A2 B2]. unfold keepsOrigin. split; congruence.
Qed.










(** ** A training step that succeeds *)

#[local] Instance sameTraining_preorder : PreOrder sameTraining.
Proof.
  split; [intros w; repeat split; reflexivity |].
  intros w1 w2 w3 (A1 & B1 & C1 & D1 & E1 & F1) (A2 & B2 & C2 & D2 & E2 & F2).
  unfold sameTraining. repeat split; congruence.
Qed.

Lemma tokenizeText_sameTraining (text : string) :
  respects sameTraining (tokenizeText O text).
Proof.
  unfold tokenizeText, tokenizeWord, tokenizeSubword, generateTokenEmbedding,
    getTokenByValue, createTokenVocabulary.
  respect_with ltac:(unfold sameTraining; primitive;
                     try destruct (neuralEngine (engine _));
                     repeat split; reflexivity).
Qed.

(** The loop of [updateWeights] on an engine with the four layers. *)
Lemma updateWeights_loop_run (gradients : gmap string (list (list num)))
    (w : World) (e : NeuralEngine) (W1 W2 W3 W4 : list (list num))
    (B1 B2 B3 B4 : list num) :
  neuralEngine (engine w) = Some e ->
  weights e
  = [ ("embedding", W1); ("attention", W2); ("feedforward", W3);
      ("output", W4) ] ->
  biases e
  = [ ("embedding", B1); ("attention", B2); ("feedforward", B3);
      ("output", B4) ] ->
  forM_ (weights e) (fun '(layerName, layerWeights) =>
    updThis (fun e =>
      setWeights
        (mapSet layerName
           (imap (fun i row =>
                    imap (updatedWeight (learningRate e)
                            (default [] (gradients !! layerName)) i) row)
              layerWeights)
           (weights e)) e);;
    bs ← biasesOf layerName;
    updThis (fun e =>
      setBiases
        (mapSet layerName
           (imap (updatedBias (learningRate e)
                    (default [] (gradients !! (layerName ++ "_bias")))) bs)
           (biases e)) e)) w
  = (Ok tt, updEngine (setNeuralEngine (Some (updatedEngine gradients e))) w).
Proof.
  intros He Hw Hb.
  destruct w as [[s c g ne] d t r snt con].
  destruct e as [sid voc emb ws bs rate epoch].
  cbn in He, Hw, Hb. subst ne ws bs.
  vm_compute. reflexivity.
Qed.

Lemma saveLayer_run (HF : NoFail O) (w : World) (e : NeuralEngine)
    (layerName : string) (ws : list (list num)) (bs : list num) (rate : Q) :
  neuralEngine (engine w) = Some e ->
  mapGet layerName (biases e) = Some bs ->
  (bs ← biasesOf layerName;
   createModelWeights O (sessionId e) layerName ws bs rate) w
  = (Ok tt,
     updDb
       (addModelWeights
          {| mw_id := S (List.length (modelWeights (db w)));
             mw_sessionId := sessionId e; mw_layerName := layerName;
             mw_weights := ws; mw_biases := Some bs;
             mw_learningRate := Some rate; mw_lastUpdated := tick w |})
       (afterSuspend O w)).
Proof.
  intros He Hb. unfold biasesOf, createModelWeights.
  rewrite run_bind, run_bind, (run_this w e He). cbv beta iota.
  rewrite Hb. run HF. rewrite afterSuspend_db. reflexivity.
Qed.

(** [saveWeightsToDatabase] on such an engine: one row for each layer. *)
Lemma saveWeightsToDatabase_run (HF : NoFail O) (w : World)
    (e : NeuralEngine) (W1 W2 W3 W4 : list (list num))
    (B1 B2 B3 B4 : list num) :
  neuralEngine (engine w) = Some e ->
  weights e
  = [ ("embedding", W1); ("attention", W2); ("feedforward", W3);
      ("output", W4) ] ->
  biases e
  = [ ("embedding", B1); ("attention", B2); ("feedforward", B3);
      ("output", B4) ] ->
  exists w' rows,
    saveWeightsToDatabase O w = (Ok tt, w')
    /\ modelWeights (db w') = (modelWeights (db w) ++ rows)%list
    /\ map (fun r => (mw_sessionId r, mw_layerName r, mw_weights r,
                      mw_biases r)) rows
       = [ (sessionId e, "embedding", W1, Some B1);
           (sessionId e, "attention", W2, Some B2);
           (sessionId e, "feedforward", W3, Some B3);
           (sessionId e, "output", W4, Some B4) ]
    /\ neuralEngine (engine w') = Some e
    /\ sent w' = sent w /\ console w' = console w
    /\ trainingBatches (db w') = trainingBatches (db w)
    /\ learningMetrics (db w') = learningMetrics (db w).
Proof.
  intros He Hw Hb. unfold saveWeightsToDatabase.
  rewrite run_bind, (run_this w e He). cbv beta iota. rewrite Hw.
  unfold forM_.
  rewrite run_foldM_cons, run_bind. cbv beta iota.
  rewrite (saveLayer_run HF w e "embedding" W1 B1 _ He)
    by (rewrite Hb; reflexivity).
  cbv beta iota.
  rewrite run_foldM_cons, run_bind. cbv beta iota.
  rewrite (saveLayer_run HF _ e "attention" W2 B2)
    by (first [fields; exact He | rewrite Hb; reflexivity]).
  cbv beta iota.
  rewrite run_foldM_cons, run_bind. cbv beta iota.
  rewrite (saveLayer_run HF _ e "feedforward" W3 B3)
    by (first [fields; exact He | rewrite Hb; reflexivity]).
  cbv beta iota.
  rewrite run_foldM_cons, run_bind. cbv beta iota.
  rewrite (saveLayer_run HF _ e "output" W4 B4)
    by (first [fields; exact He | rewrite Hb; reflexivity]).
  cbv beta iota. cbn [foldM]. rewrite run_ret.
  eexists _, [_; _; _; _]. split; [reflexivity |]. fields.
  rewrite <- !app_assoc. cbn [app].
  split; [reflexivity |]. split; [reflexivity |].
  split; [exact He |]. repeat split; reflexivity.
Qed.

Lemma updateWeights_run (HF : NoFail O) (loss : Q)
    (modelOutput gptTarget : string) (w : World) (e : NeuralEngine)
    (W1 W2 W3 W4 : list (list num)) (B1 B2 B3 B4 : list num) :
  neuralEngine (engine w) = Some e ->
  weights e
  = [ ("embedding", W1); ("attention", W2); ("feedforward", W3);
      ("output", W4) ] ->
  biases e
  = [ ("embedding", B1); ("attention", B2); ("feedforward", B3);
      ("output", B4) ] ->
  exists gradients w' rows,
    updateWeights O loss modelOutput gptTarget w = (Ok tt, w')
    /\ neuralEngine (engine w') = Some (updatedEngine gradients e)
    /\ modelWeights (db w') = (modelWeights (db w) ++ rows)%list
    /\ map (fun r => (mw_layerName r, mw_weights r)) rows
       = weights (updatedEngine gradients e)
    /\ map (fun r => (mw_layerName r, mw_biases r)) rows
       = map (fun '(layerName, bs) => (layerName, Some bs))
           (biases (updatedEngine gradients e))
    /\ Forall (fun r => mw_sessionId r = sessionId e) rows
    /\ sent w' = sent w /\ console w' = console w
    /\ trainingBatches (db w') = trainingBatches (db w)
    /\ learningMetrics (db w') = learningMetrics (db w).
Proof.
  intros He Hw Hb.
  destruct (calculateGradients_run loss modelOutput gptTarget w e
              W1 W2 W3 W4 B1 B2 B3 B4 He Hw Hb)
    as (G & r & _ & _ & _ & _ & EG & _).
  assert (neuralEngine (engine (setRng r w)) = Some e) as He1 by exact He.
  pose proof (updateWeights_loop_run G (setRng r w) e W1 W2 W3 W4
                B1 B2 B3 B4 He1 Hw Hb) as EL.
  set (e2 := updatedEngine G e) in *.
  set (w2 := updEngine (setNeuralEngine (Some e2)) (setRng r w)) in *.
  assert (weights e2
          = [ ("embedding",
               imap (fun i row =>
                       imap (updatedWeight (learningRate e)
                               (default [] (G !! "embedding")) i) row) W1);
              ("attention",
               imap (fun i row =>
                       imap (updatedWeight (learningRate e)
                               (default [] (G !! "attention")) i) row) W2);
              ("feedforward",
               imap (fun i row =>
                       imap (updatedWeight (learningRate e)
                               (default [] (G !! "feedforward")) i) row) W3);
              ("output",
               imap (fun i row =>
                       imap (updatedWeight (learningRate e)
                               (default [] (G !! "output")) i) row) W4) ])
    as Hw2 by (subst e2; unfold updatedEngine; cbn [weights]; now rewrite Hw).
  assert (biases e2
          = [ ("embedding",
               imap (updatedBias (learningRate e)
                       (default [] (G !! ("embedding" ++ "_bias")))) B1);
              ("attention",
               imap (updatedBias (learningRate e)
                       (default [] (G !! ("attention" ++ "_bias")))) B2);
              ("feedforward",
               imap (updatedBias (learningRate e)
                       (default [] (G !! ("feedforward" ++ "_bias")))) B3);
              ("output",
               imap (updatedBias (learningRate e)
                       (default [] (G !! ("output" ++ "_bias")))) B4) ])
    as Hb2 by (subst e2; unfold updatedEngine; cbn [biases]; now rewrite Hb).
  destruct (saveWeightsToDatabase_run HF w2 e2 _ _ _ _ _ _ _ _
              eq_refl Hw2 Hb2)
    as (w' & rows & ES & Hrows & Hmap & He' & Hsent & Hcon & Htb & Hlm).
  exists G, w', rows. split.
  { unfold updateWeights. rewrite run_bind, EG. cbv beta iota.
    rewrite run_bind, (run_this _ e He1). cbv beta iota.
    rewrite run_bind, EL. cbv beta iota. exact ES. }
  split; [exact He' |]. split; [exact Hrows |].
  assert (map (fun r => (mw_layerName r, mw_weights r)) rows = weights e2
          /\ map (fun r => (mw_layerName r, mw_biases r)) rows
             = map (fun '(layerName, bs) => (layerName, Some bs)) (biases e2)
          /\ Forall (fun r => mw_sessionId r = sessionId e) rows)
    as (H1 & H2 & H3).
  { set (view := fun r : ModelWeights =>
                   (mw_sessionId r, mw_layerName r, mw_weights r,
                    mw_biases r)) in Hmap.
    split; [| split].
    - change (fun r => (mw_layerName r, mw_weights r))
        with (fun r => (fun t : Z * string * list (list num)
                                * option (list num) =>
                          (snd (fst (fst t)), snd (fst t))) (view r)).
      rewrite <- (map_map view), Hmap, Hw2. reflexivity.
    - change (fun r => (mw_layerName r, mw_biases r))
        with (fun r => (fun t : Z * string * list (list num)
                                * option (list num) =>
                          (snd (fst (fst t)), snd t)) (view r)).
      rewrite <- (map_map view), Hmap, Hb2. reflexivity.
    - apply List.Forall_forall. intros row Hr.
      apply (in_map view) in Hr. rewrite Hmap in Hr. cbn [In] in Hr.
      destruct Hr as [H | [H | [H | [H | []]]]];
        apply (f_equal (fun t => fst (fst (fst t)))) in H; cbn in H;
        now subst e2. }
  split; [exact H1 |]. split; [exact H2 |]. split; [exact H3 |].
  repeat split; assumption.
Qed.

Lemma updatedWeight_number (rate : Q) (layerGradients : list (list num))
    (i j : nat) (x : num) :
  isNumber x = true ->
  isNumber (updatedWeight rate layerGradients i j x) = true.
Proof.
  destruct x as [q|]; [intros _ | discriminate]. unfold updatedWeight.
  destruct (layerGradients !! i ≫= fun row => row !! j) as [[g|]|];
    cbn [fmap option_fmap option_map orZero]; try reflexivity.
  destruct (Qeq_bool g 0); reflexivity.
Qed.

Lemma forallb_imap {A : Type} (p : A -> bool) (l : list A) :
  forall f : nat -> A -> A,
    (forall i x, p x = true -> p (f i x) = true) ->
    forallb p l = true -> forallb p (imap f l) = true.
Proof.
  induction l as [|x l IH]; intros f Hf; [reflexivity |].
  cbn [forallb imap]. intros H. apply andb_prop in H as [Hx Hl].
  rewrite (Hf _ _ Hx). cbn [andb]. apply IH; [| exact Hl].
  intros i y. apply Hf.
Qed.

(** Weights that are numbers stay numbers: a gradient that is missing or
    NaN is read as 0. *)
Lemma updatedEngine_numbers (gradients : gmap string (list (list num)))
    (e : NeuralEngine) :
  numbers (weights e) = true ->
  numbers (weights (updatedEngine gradients e)) = true.
Proof.
  unfold updatedEngine, numbers. cbn [weights].
  induction (weights e) as [|[layerName layerWeights] layers IH];
    [reflexivity |].
  cbn [forallb map]. intros H. apply andb_prop in H as [Hl Hr].
  rewrite (IH Hr), andb_true_r.
  apply forallb_imap; [| exact Hl].
  intros i row Hrow. apply forallb_imap; [| exact Hrow].
  intros j x. apply updatedWeight_number.
Qed.

(** X21.  [updateWeights] on an engine with the four layers whose weights
    are numbers, when the database accepts the calls: after the update
    one snapshot is stored for each layer, in the order of the layers; it
    holds the weights of the layer as they are after the update, which
    are numbers again, and a bias vector as long as that of the layer;
    nothing is broadcast or logged. *)
Theorem updateWeights_saves_the_updated_layers (loss : Q)
    (modelOutput gptTarget : string) (w : World) (e : NeuralEngine)
    (W1 W2 W3 W4 : list (list num)) (B1 B2 B3 B4 : list num) :
  NoFail O ->
  neuralEngine (engine w) = Some e ->
  weights e
  = [ ("embedding", W1); ("attention", W2); ("feedforward", W3);
      ("output", W4) ] ->
  biases e
  = [ ("embedding", B1); ("attention", B2); ("feedforward", B3);
      ("output", B4) ] ->
  numbers (weights e) = true ->
  exists w' e' rows,
    updateWeights O loss modelOutput gptTarget w = (Ok tt, w')
    /\ neuralEngine (engine w') = Some e'
    /\ modelWeights (db w') = (modelWeights (db w) ++ rows)%list
    /\ map (fun r => (mw_layerName r, mw_weights r)) rows = weights e'
    /\ numbers (weights e') = true
    /\ map (fun r => (mw_layerName r, List.length <$> mw_biases r)) rows
       = map (fun '(layerName, bs) => (layerName, Some (List.length bs)))
           (biases e')
    /\ Forall (fun r => mw_sessionId r = sessionId e) rows
    /\ map fst (weights e')
       = ["embedding"; "attention"; "feedforward"; "output"]
    /\ sent w' = sent w /\ console w' = console w.
Proof.
  intros HF He Hw Hb Hnum.
  destruct (updateWeights_run HF loss modelOutput gptTarget w e
              W1 W2 W3 W4 B1 B2 B3 B4 He Hw Hb)
    as (G & w' & rows & E & He' & Hrows & H1 & H2 & H3 & Hsent & Hcon & _).
  exists w', (updatedEngine G e), rows.
  split; [exact E |]. split; [exact He' |]. split; [exact Hrows |].
  split; [exact H1 |]. split; [apply updatedEngine_numbers, Hnum |].
  split.
  { apply (f_equal (map (fun p : string * option (list num) =>
                           (fst p, List.length <$> snd p)))) in H2.
    rewrite !map_map in H2. cbn [fst snd] in H2. rewrite H2.
    apply map_ext. intros [layerName bs]. reflexivity. }
  split; [exact H3 |].
  split; [| split; assumption].
  unfold updatedEngine. cbn [weights]. rewrite Hw. reflexivity.
Qed.

Lemma sameTraining_engine (w w' : World) (e e' : NeuralEngine) :
  sameTraining w w' ->
  neuralEngine (engine w) = Some e -> neuralEngine (engine w') = Some e' ->
  sessionId e' = sessionId e /\ weights e' = weights e
  /\ biases e' = biases e /\ currentEpoch e' = currentEpoch e.
Proof.
  intros (_ & _ & _ & _ & _ & Hview) He He'. rewrite He, He' in Hview.
  cbn in Hview. unfold trainingView in Hview.
  injection Hview as -> -> -> _ ->. repeat split; reflexivity.
Qed.

(** X22.  A training step that succeeds.  When OpenAI answers, the
    database accepts the calls and the engine has its four layers,
    [trainStep] logs nothing; it stores one snapshot for each layer, one
    training batch with the input and the target, and one row of metrics
    for the epoch the engine was in, with the same loss as the batch and
    the size of the vocabulary after tokenizing; the epoch of the engine
    is then one more; and it broadcasts one performance update, whose
    average reflection time is 2.5 and whose response quality, learning
    progress and memory utilization lie between 0 and 100.  The loss lies
    between 0 and 1. *)
Theorem trainStep_stores_a_batch (inputText gptTarget : string) (w : World)
    (e : NeuralEngine) (W1 W2 W3 W4 : list (list num))
    (B1 B2 B3 B4 : list num) :
  NoFail O ->
  openaiReply O (tick w) = Some gptTarget ->
  neuralEngine (engine w) = Some e ->
  weights e
  = [ ("embedding", W1); ("attention", W2); ("feedforward", W3);
      ("output", W4) ] ->
  biases e
  = [ ("embedding", B1); ("attention", B2); ("feedforward", B3);
      ("output", B4) ] ->
  exists w' e' batch metrics rows quality progress memory,
    trainStep O inputText w = (Ok tt, w')
    /\ console w' = console w
    /\ neuralEngine (engine w') = Some e'
    /\ currentEpoch e' = S (currentEpoch e)
    /\ trainingBatches (db w') = (trainingBatches (db w) ++ [batch])%list
    /\ tb_inputText batch = inputText /\ tb_targetOutput batch = gptTarget
    /\ (0 <= tb_loss batch <= 1)%Q
    /\ learningMetrics (db w') = (learningMetrics (db w) ++ [metrics])%list
    /\ lm_epoch metrics = currentEpoch e
    /\ lm_totalLoss metrics = tb_loss batch
    /\ lm_vocabularySize metrics = size (vocabulary e')
    /\ modelWeights (db w') = (modelWeights (db w) ++ rows)%list
    /\ map mw_layerName rows
       = ["embedding"; "attention"; "feedforward"; "output"]
    /\ sent w'
       = (sent w ++ [MsgPerformanceUpdate quality progress (5 # 2) memory])%list
    /\ (0 <= quality <= 100)%Q
    /\ (0 <= progress <= 100)%Q
    /\ (0 <= memory <= 100)%Q.
Proof.
  intros HF Hreply He Hw Hb.
  (* the request and the tokens *)
  set (w0 := afterSuspend O w).
  assert (neuralEngine (engine w0) = Some e) as He0
    by (subst w0; now rewrite afterSuspend_neuralEngine).
  destruct (tokenizeWords_returns HF
              (JS.splitWhiteSpace false (JS.toLowerCase inputText)) w0 e []
              He0) as (tokens & w1 & e1 & E1 & He1 & _).
  cbn [app] in E1. fold (tokenizeText O inputText) in E1.
  pose proof (tokenizeText_sameTraining inputText w0) as S1.
  rewrite E1 in S1. cbn [snd] in S1.
  destruct (sameTraining_engine w0 w1 e e1 S1 He0 He1)
    as (Hsid1 & Hw1 & Hb1 & Hep1).
  destruct S1 as (Hsent1 & Hcon1 & Htb1 & Hlm1 & Hmw1 & _).
  (* the output and the update *)
  set (modelOutput := forwardOutput O (rng w1)).
  set (loss := calculateLoss modelOutput gptTarget).
  set (w1' := setRng (rng w1 + 1) w1).
  rewrite Hw in Hw1. rewrite Hb in Hb1.
  destruct (updateWeights_run HF loss modelOutput gptTarget w1' e1
              W1 W2 W3 W4 B1 B2 B3 B4 He1 Hw1 Hb1)
    as (G & w2 & rows & E2 & He2 & Hrows & Hnames & _ & _
        & Hsent2 & Hcon2 & Htb2 & Hlm2).
  set (e2 := updatedEngine G e1) in *.
  (* the run *)
  assert (exists w',
            trainStep O inputText w = (Ok tt, w')
            /\ w'
               = pushSent
                   (MsgPerformanceUpdate
                      (Qminmax.Qmax 0 (100 - loss * 100))
                      (Qminmax.Qmin 100 ((1 - loss) * 100)) (5 # 2)
                      (Qminmax.Qmin 100
                         (inject_Z (Z.of_nat (size (vocabulary e2)))
                          / 1000 * 100)))
                   (updDb
                      (addLearningMetrics
                         {| lm_id := S (List.length (learningMetrics (db w2)));
                            lm_sessionId := sessionId e2;
                            lm_epoch := currentEpoch e2;
                            lm_totalLoss := loss; lm_averageLoss := loss;
                            lm_perplexity := loss;
                            lm_bleuScore :=
                              calculateBleuScore modelOutput gptTarget;
                            lm_convergenceRate := calculateConvergenceRate loss;
                            lm_vocabularySize := size (vocabulary e2);
                            lm_timestamp := (tick w2 + 1)%N |})
                      (afterSuspend O
                         (updEngine
                            (setNeuralEngine
                               (Some (setCurrentEpoch (S (currentEpoch e2)) e2)))
                            (updDb
                               (addTrainingBatch
                                  {| tb_id :=
                                       S (List.length (trainingBatches (db w2)));
                                     tb_sessionId := sessionId e2;
                                     tb_inputText := inputText;
                                     tb_targetOutput := gptTarget;
                                     tb_modelOutput := modelOutput;
                                     tb_loss := loss; tb_tokens := tokens;
                                     tb_timestamp := tick w2 |})
                               (afterSuspend O w2))))))
    as (w' & E & ->).
  { eexists. split; [| reflexivity].
    unfold trainStep, tryCatch, openaiCreate.
    rewrite !run_bind, run_suspend. cbv beta iota. rewrite Hreply.
    rewrite run_ret. cbv beta iota. fold w0.
    rewrite run_bind, E1. cbv beta iota.
    rewrite run_bind. unfold forwardPass at 1. cbv beta iota.
    fold modelOutput w1' loss.
    rewrite run_bind, E2. cbv beta iota.
    rewrite run_bind, (run_this w2 e2 He2). cbv beta iota.
    unfold createTrainingBatch, createLearningMetrics. run HF.
    rewrite (run_this _ e2) by (fields; exact He2).
    cbv beta iota. rewrite run_bind, (run_updThis _ _ e2)
      by (fields; exact He2).
    run HF. fields. reflexivity. }
  pose proof (calculateLoss_range modelOutput gptTarget) as [Hl0 Hl1].
  fold loss in Hl0, Hl1.
  eexists _, _, _, _, rows, _, _, _. split; [exact E |]. fields.
  subst w1' w0.
  fields_in_one Hsent1. fields_in_one Hcon1. fields_in_one Htb1.
  fields_in_one Hlm1. fields_in_one Hmw1.
  fields_in_one Hsent2. fields_in_one Hcon2. fields_in_one Htb2.
  fields_in_one Hlm2. fields_in_one Hrows.
  rewrite Hcon2, Hcon1, Htb2, Htb1, Hlm2, Hlm1, Hrows, Hmw1, Hsent2, Hsent1.
  split; [reflexivity |]. split; [reflexivity |].
  split; [cbn; subst e2; cbn; now rewrite Hep1 |].
  split; [reflexivity |]. split; [reflexivity |]. split; [reflexivity |].
  split; [cbn [tb_loss]; split; assumption |]. split; [reflexivity |].
  split; [cbn; subst e2; cbn; exact Hep1 |].
  split; [reflexivity |]. split; [reflexivity |]. split; [reflexivity |].
  split.
  { change mw_layerName
      with (fun r => fst ((fun r => (mw_layerName r, mw_weights r)) r)).
    rewrite <- (map_map (fun r => (mw_layerName r, mw_weights r)) fst), Hnames.
    subst e2. unfold updatedEngine. cbn [weights]. rewrite Hw1. reflexivity. }
  split; [reflexivity |].
  assert (0 <= 1 - loss)%Q as Hpos by now apply -> Qle_minus_iff.
  assert (100 - loss * 100 == 100 * (1 - loss))%Q as Hq by ring.
  assert ((1 - loss) * 100 == 100 * (1 - loss))%Q as Hp by ring.
  assert (0 <= 100 * (1 - loss))%Q as H0
    by (apply Qmult_le_0_compat; [discriminate | exact Hpos]).
  assert (100 * (1 - loss) <= 100)%Q as H100.
  { rewrite <- (Qmult_1_r 100) at 2. apply Qmult_le_l; [reflexivity |].
    assert (1 - loss <= 1 + 0)%Q as H
      by (apply Qplus_le_r; apply Qopp_le_compat in Hl0; exact Hl0).
    now rewrite Qplus_0_r in H. }
  split; [| split].
  - rewrite Qminmax.Q.max_r by now rewrite Hq. rewrite Hq. split; assumption.
  - rewrite Qminmax.Q.min_r by now rewrite Hp. rewrite Hp. split; assumption.
  - split.
    + apply Qminmax.Q.min_glb; [discriminate |].
      apply Qmult_le_0_compat; [| discriminate].
      apply Qle_shift_div_l; [reflexivity |]. rewrite Qmult_0_l.
      change 0%Q with (inject_Z 0). rewrite <- Zle_Qle. lia.
    + apply Qminmax.Q.le_min_l.
Qed.

End Properties.

(** * The storage kept in memory *)

(** ** Maps in the order of insertion *)

Lemma Mem_get_set {K V : Type} `{EqDecision K} (key key' : K) (v : V)
    (m : list (K * V)) :
  Mem.get key' (Mem.set key v m)
  = if decide (key = key') then Some v else Mem.get key' m.
Proof.
  induction m as [|[k x] m IH]; cbn [Mem.get Mem.set].
  - destruct (decide (key = key')); reflexivity.
  - destruct (decide (k = key)) as [->|Hk]; cbn [Mem.get].
    + destruct (decide (key = key')); reflexivity.
    + destruct (decide (k = key')) as [->|Hk'].
      * destruct (decide (key = key')); [congruence | reflexivity].
      * exact IH.
Qed.

Lemma Mem_get_None {K V : Type} `{EqDecision K} (key : K)
    (m : list (K * V)) :
  Mem.get key m = None <-> ~ In key (map fst m).
Proof.
  induction m as [|[k x] m IH]; cbn [Mem.get map fst In].
  - tauto.
  - destruct (decide (k = key)) as [->|Hk].
    + split; [discriminate | intros Hn; exfalso; apply Hn; left; reflexivity].
    + rewrite IH. tauto.
Qed.

Lemma Mem_set_absent {K V : Type} `{EqDecision K} (key : K) (v : V)
    (m : list (K * V)) :
  Mem.get key m = None -> Mem.set key v m = (m ++ [(key, v)])%list.
Proof.
  induction m as [|[k x] m IH]; cbn [Mem.get Mem.set app]; [reflexivity |].
  destruct (decide (k = key)); [discriminate |].
  intros Hm. rewrite (IH Hm). reflexivity.
Qed.

Lemma Mem_set_present {K V : Type} `{EqDecision K} (key : K) (v x : V)
    (m : list (K * V)) :
  Mem.get key m = Some x -> map fst (Mem.set key v m) = map fst m.
Proof.
  induction m as [|[k y] m IH]; cbn [Mem.get Mem.set map fst]; [discriminate |].
  destruct (decide (k = key)); [reflexivity |].
  intros Hm. cbn [map fst]. rewrite (IH Hm). reflexivity.
Qed.

Lemma Mem_replace_absent {K V : Type} `{EqDecision K} (key : K) (v : V)
    (m : list (K * V)) :
  ~ In key (map fst m) ->
  map (fun entry => if decide (fst entry = key) then (fst entry, v)
                    else entry) m = m.
Proof.
  induction m as [|[k y] m IH]; cbn [map fst In]; [reflexivity |].
  intros Hn. destruct (decide (k = key)) as [->|_]; [tauto |].
  f_equal. apply IH. tauto.
Qed.

(** With keys that are all different, [set] on a key of the map changes
    the value of that key and nothing else. *)
Lemma Mem_set_NoDup {K V : Type} `{EqDecision K} (key : K) (v x : V)
    (m : list (K * V)) :
  List.NoDup (map fst m) ->
  Mem.get key m = Some x ->
  Mem.set key v m
  = map (fun entry => if decide (fst entry = key) then (fst entry, v)
                      else entry) m.
Proof.
  induction m as [|[k y] m IH]; cbn [Mem.get Mem.set map fst];
    [discriminate |].
  intros Hnd. apply List.NoDup_cons_iff in Hnd as [Hk Hnd].
  destruct (decide (k = key)) as [->|Hne].
  - intros _. f_equal. symmetry. apply Mem_replace_absent, Hk.
  - intros Hm. f_equal. apply IH; assumption.
Qed.

Lemma seq_S_app (start len : nat) :
  seq start (S len) = (seq start len ++ [start + len])%list.
Proof. apply seq_S. Qed.

Lemma Mem_keys_next {V : Type} (v : V) (n : nat) (m : list (nat * V)) :
  map fst m = seq 1 n ->
  Mem.set (S n) v m = (m ++ [(S n, v)])%list
  /\ map fst (Mem.set (S n) v m) = seq 1 (S n).
Proof.
  intros Hm.
  assert (Mem.get (S n) m = None) as Hg.
  { apply Mem_get_None. rewrite Hm, in_seq. lia. }
  rewrite (Mem_set_absent _ _ _ Hg). split; [reflexivity |].
  rewrite map_app, Hm, seq_S_app. reflexivity.
Qed.

Lemma Mem_keys_nextZ {V : Type} (v : V) (n : nat) (m : list (Z * V)) :
  map fst m = map Z.of_nat (seq 1 n) ->
  Mem.set (Z.of_nat (S n)) v m = (m ++ [(Z.of_nat (S n), v)])%list
  /\ map fst (Mem.set (Z.of_nat (S n)) v m) = map Z.of_nat (seq 1 (S n)).
Proof.
  intros Hm.
  assert (Mem.get (Z.of_nat (S n)) m = None) as Hg.
  { apply Mem_get_None. rewrite Hm, in_map_iff. intros (k & Hk & Hin).
    apply in_seq in Hin. lia. }
  rewrite (Mem_set_absent _ _ _ Hg). split; [reflexivity |].
  rewrite map_app, Hm, seq_S_app, map_app. reflexivity.
Qed.

Lemma callsOf_snoc (kind : Mem.Call -> bool) (calls : list Mem.Call)
    (call : Mem.Call) :
  callsOf kind (calls ++ [call])
  = (if kind call then S (callsOf kind calls) else callsOf kind calls).
Proof.
  unfold callsOf. rewrite List.filter_app, length_app. cbn [List.filter].
  destruct (kind call); cbn [List.length]; lia.
Qed.

Lemma afterAll_snoc (calls : list Mem.Call) (call : Mem.Call) :
  Mem.afterAll (calls ++ [call]) = Mem.after call (Mem.afterAll calls).
Proof. unfold Mem.afterAll. rewrite fold_left_app. reflexivity. Qed.

Lemma afterAll_sequentialKeys (calls : list Mem.Call) :
  sequentialKeys calls (Mem.afterAll calls).
Proof.
  induction calls as [|call calls IH] using rev_ind.
  - repeat split.
  - rewrite afterAll_snoc. set (st := Mem.afterAll calls) in *.
    destruct IH as ((HU & HUc) & (HS & HSc) & (HR & HRc) & (HM & HMc)
                    & (HG & HGc)).
    unfold sequentialKeys. rewrite !callsOf_snoc.
    destruct call; cbn [isCreateUser isCreateSession isCreateReflection
                        isCreateMemoryInsight isCreateGeneratedContent
                        Mem.after].
    + unfold Mem.createUser. cbn. rewrite HUc.
      destruct (Mem_keys_next
                  {| Mem.u_id := S (callsOf isCreateUser calls);
                     Mem.u_username := username;
                     Mem.u_password := password |} _ _ HU) as [_ ->].
      repeat split; assumption.
    + unfold Mem.createSession. cbn. rewrite HSc.
      match goal with
      | |- context [Mem.set _ ?s _] =>
          destruct (Mem_keys_nextZ s _ _ HS) as [_ ->]
      end.
      repeat split; try assumption. lia.
    + unfold Mem.updateSession.
      destruct (Mem.get id (Mem.m_sessions st)) as [session|] eqn:Hg.
      * cbn. rewrite (Mem_set_present _ _ _ _ Hg). repeat split; assumption.
      * repeat split; assumption.
    + unfold Mem.endSession.
      destruct (Mem.get id (Mem.m_sessions st)) as [session|] eqn:Hg.
      * cbn. rewrite (Mem_set_present _ _ _ _ Hg). repeat split; assumption.
      * repeat split; assumption.
    + unfold Mem.createReflection. cbn. rewrite HRc.
      destruct (Mem.get (ir_sessionId ins) (Mem.m_sessions st))
        as [session|] eqn:Hg; cbn.
      * rewrite (Mem_set_present _ _ _ _ Hg).
        match goal with
        | |- context [Mem.set _ ?r (Mem.m_reflections st)] =>
            destruct (Mem_keys_next r _ _ HR) as [_ ->]
        end.
        repeat split; assumption.
      * match goal with
        | |- context [Mem.set _ ?r (Mem.m_reflections st)] =>
            destruct (Mem_keys_next r _ _ HR) as [_ ->]
        end.
        repeat split; assumption.
    + unfold Mem.createMemoryInsight. cbn. rewrite HMc.
      match goal with
      | |- context [Mem.set _ ?r _] =>
          destruct (Mem_keys_next r _ _ HM) as [_ ->]
      end.
      repeat split; assumption.
    + unfold Mem.createGeneratedContent. cbn. rewrite HGc.
      match goal with
      | |- context [Mem.set _ ?r _] =>
          destruct (Mem_keys_next r _ _ HG) as [_ ->]
      end.
      repeat split; assumption.
    + unfold Mem.updateGeneratedContent.
      destruct (Mem.get id (Mem.m_generatedContent st)) as [row|] eqn:Hg.
      * cbn. rewrite (Mem_set_present _ _ _ _ Hg). repeat split; assumption.
      * repeat split; assumption.
Qed.

Lemma Mem_set_Forall {K V : Type} `{EqDecision K} (P : K * V -> Prop)
    (key : K) (v : V) (m : list (K * V)) :
  Forall P m -> P (key, v) -> Forall P (Mem.set key v m).
Proof.
  intros Hm Hv. induction Hm as [|[k y] m Hy Hm IH]; cbn [Mem.set].
  - constructor; [exact Hv | constructor].
  - destruct (decide (k = key)) as [->|_]; constructor; assumption.
Qed.

Lemma Mem_get_In {K V : Type} `{EqDecision K} (key : K) (v : V)
    (m : list (K * V)) :
  Mem.get key m = Some v -> In (key, v) m.
Proof.
  induction m as [|[k y] m IH]; cbn [Mem.get In]; [discriminate |].
  destruct (decide (k = key)) as [->|_].
  - intros [= ->]. left. reflexivity.
  - intros Hm. right. exact (IH Hm).
Qed.

(** Users, reflections and insights are never updated: each is stored
    under its own id. *)
Lemma afterAll_own_ids (calls : list Mem.Call) :
  Forall (fun entry => Mem.u_id (snd entry) = fst entry)
    (Mem.m_users (Mem.afterAll calls))
  /\ Forall (fun entry => r_id (snd entry) = fst entry)
       (Mem.m_reflections (Mem.afterAll calls))
  /\ Forall (fun entry => mi_id (snd entry) = fst entry)
       (Mem.m_memoryInsights (Mem.afterAll calls)).
Proof.
  induction calls as [|call calls IH] using rev_ind.
  - repeat split; constructor.
  - rewrite afterAll_snoc. set (st := Mem.afterAll calls) in *.
    destruct IH as (HU & HR & HM).
    destruct call; cbn [Mem.after].
    + unfold Mem.createUser. cbn. repeat split; try assumption.
      apply Mem_set_Forall; [exact HU | reflexivity].
    + unfold Mem.createSession. cbn. repeat split; assumption.
    + unfold Mem.updateSession.
      destruct (Mem.get id (Mem.m_sessions st)); cbn;
        repeat split; assumption.
    + unfold Mem.endSession.
      destruct (Mem.get id (Mem.m_sessions st)); cbn;
        repeat split; assumption.
    + unfold Mem.createReflection. cbn.
      destruct (Mem.get (ir_sessionId ins) (Mem.m_sessions st)); cbn;
        (repeat split; try assumption);
        (apply Mem_set_Forall; [exact HR | reflexivity]).
    + unfold Mem.createMemoryInsight. cbn. repeat split; try assumption.
      apply Mem_set_Forall; [exact HM | reflexivity].
    + unfold Mem.createGeneratedContent. cbn. repeat split; assumption.
    + unfold Mem.updateGeneratedContent.
      destruct (Mem.get id (Mem.m_generatedContent st)); cbn;
        repeat split; assumption.
Qed.

(** ** Ids *)

(** X23.  [MemStorage] hands out its ids in the order of creation.  After
    any sequence of calls on a new storage, the keys of each of its five
    maps are 1, 2, ..., n in this order, n being the number of [create]
    calls for the map: nothing is ever removed, an update never moves or
    adds a key, and a failed call changes nothing.  The next [create]
    returns the id n + 1.  Users and reflections, which no method updates,
    are stored under their own id. *)
Theorem MemStorage_ids_are_sequential (calls : list Mem.Call) :
  let st := Mem.afterAll calls in
  (map fst (Mem.m_users st) = seq 1 (callsOf isCreateUser calls)
   /\ map fst (Mem.m_sessions st)
      = map Z.of_nat (seq 1 (callsOf isCreateSession calls))
   /\ map fst (Mem.m_reflections st)
      = seq 1 (callsOf isCreateReflection calls)
   /\ map fst (Mem.m_memoryInsights st)
      = seq 1 (callsOf isCreateMemoryInsight calls)
   /\ map fst (Mem.m_generatedContent st)
      = seq 1 (callsOf isCreateGeneratedContent calls))
  /\ (forall username password,
        Mem.u_id (fst (Mem.createUser username password st))
        = S (callsOf isCreateUser calls))
  /\ (forall now name objective,
        s_id (fst (Mem.createSession now name objective st))
        = Z.of_nat (S (callsOf isCreateSession calls)))
  /\ (forall now ins,
        r_id (fst (Mem.createReflection now ins st))
        = S (callsOf isCreateReflection calls))
  /\ (forall id user, Mem.getUser id st = Some user -> Mem.u_id user = id)
  /\ (forall id reflection,
        Mem.getReflection id st = Some reflection -> r_id reflection = id).
Proof.
  intros st.
  destruct (afterAll_sequentialKeys calls)
    as ((HU & HUc) & (HS & HSc) & (HR & HRc) & (HM & HMc) & (HG & HGc)).
  destruct (afterAll_own_ids calls) as (OU & OR & _).
  fold st in HU, HUc, HS, HSc, HR, HRc, HM, HMc, HG, HGc, OU, OR.
  split; [repeat split; assumption |].
  split; [intros; exact HUc |].
  split; [intros; exact HSc |].
  split; [intros; exact HRc |].
  split.
  - intros id user Hg. apply Mem_get_In in Hg.
    exact (proj1 (List.Forall_forall _ _) OU _ Hg).
  - intros id reflection Hg. apply Mem_get_In in Hg.
    exact (proj1 (List.Forall_forall _ _) OR _ Hg).
Qed.

(** ** Sessions *)

Lemma afterAll_session_keys_NoDup (calls : list Mem.Call) :
  List.NoDup (map fst (Mem.m_sessions (Mem.afterAll calls))).
Proof.
  destruct (afterAll_sequentialKeys calls) as (_ & (HS & _) & _).
  rewrite HS. apply Finite.Injective_map_NoDup.
  - intros a b. apply Nat2Z.inj.
  - apply List.seq_NoDup.
Qed.

(** X24.  [createSession] after any sequence of calls: the new session is
    active, has no end time and no reflections, and starts now; its id was
    the key of no session, so it is added after the others and none is
    replaced; [getSession] returns it for its id and what it returned
    before for every other id; and it comes last among the active
    sessions. *)
Theorem MemStorage_createSession_adds_a_session (calls : list Mem.Call)
    (now : N) (name objective : string) :
  let st := Mem.afterAll calls in
  let session := fst (Mem.createSession now name objective st) in
  let st' := snd (Mem.createSession now name objective st) in
  session
  = {| s_id := Z.of_nat (S (callsOf isCreateSession calls)); s_name := name;
       s_objective := objective; s_isActive := true; s_startTime := now;
       s_endTime := None; s_totalReflections := 0; s_improvementRate := 0 |}
  /\ Mem.getSession (s_id session) st = None
  /\ Mem.m_sessions st'
     = (Mem.m_sessions st ++ [(s_id session, session)])%list
  /\ Mem.getSession (s_id session) st' = Some session
  /\ (forall id, id <> s_id session ->
      Mem.getSession id st' = Mem.getSession id st)
  /\ Mem.getActiveSessions st' = (Mem.getActiveSessions st ++ [session])%list
  /\ Mem.m_reflections st' = Mem.m_reflections st.
Proof.
  intros st session st'.
  destruct (afterAll_sequentialKeys calls) as (_ & (HS & HSc) & _).
  fold st in HS, HSc.
  assert (s_id session = Z.of_nat (S (callsOf isCreateSession calls)))
    as Hid by exact HSc.
  assert (Mem.m_sessions st'
          = Mem.set (s_id session) session (Mem.m_sessions st)) as Hst'
    by reflexivity.
  destruct (Mem_keys_nextZ session _ _ HS) as [Happ _].
  rewrite <- Hid in Happ.
  assert (Mem.getSession (s_id session) st = None) as Hnone.
  { unfold Mem.getSession. apply Mem_get_None. rewrite HS, Hid, in_map_iff.
    intros (k & Hk & Hin). apply in_seq in Hin. lia. }
  split.
  { unfold session, Mem.createSession. cbn [fst]. rewrite HSc. reflexivity. }
  split; [exact Hnone |].
  split; [rewrite Hst'; exact Happ |].
  split.
  { unfold Mem.getSession. rewrite Hst', Mem_get_set.
    destruct (decide (s_id session = s_id session)); [reflexivity | congruence]. }
  split.
  { intros id Hne. unfold Mem.getSession. rewrite Hst', Mem_get_set.
    destruct (decide (s_id session = id)); [congruence | reflexivity]. }
  split; [| reflexivity].
  unfold Mem.getActiveSessions, Mem.values. rewrite Hst', Happ, map_app.
  rewrite List.filter_app. reflexivity.
Qed.

Lemma filter_inactive_replaced (id : Z) (v : Session)
    (m : list (Z * Session)) :
  s_isActive v = false ->
  List.filter s_isActive
    (map snd
       (map (fun entry => if decide (fst entry = id) then (fst entry, v)
                          else entry) m))
  = map snd
      (List.filter
         (fun entry => s_isActive (snd entry) && negb (Z.eqb (fst entry) id))
         m).
Proof.
  intros Hv. induction m as [|[k s] m IH]; [reflexivity |].
  cbn [map List.filter fst snd].
  destruct (decide (k = id)) as [->|Hne]; cbn [snd].
  - rewrite Hv, Z.eqb_refl, andb_false_r. exact IH.
  - apply Z.eqb_neq in Hne. rewrite Hne, andb_true_r.
    destruct (s_isActive s); cbn [map snd]; rewrite IH; reflexivity.
Qed.

(** X25.  [endSession] and [updateSession] after any sequence of calls.
    For an id that is the key of no session both throw
    [Session <id> not found] and the storage is as it was.  Otherwise
    [endSession] stores the session with the flag [isActive] off and the
    end time now (also when it had ended before), under the same key and
    at the same place; every other session is as it was; and the active
    sessions are then those that were active, in their order, without
    this one.  [updateSession] stores the session with the given fields
    replaced. *)
Theorem MemStorage_endSession_ends_one_session (calls : list Mem.Call)
    (now : N) (id : Z) (updates : Mem.SessionUpdates) :
  let st := Mem.afterAll calls in
  match Mem.getSession id st with
  | None =>
      Mem.endSession now id st = inl (Mem.SessionMissing id)
      /\ Mem.updateSession id updates st = inl (Mem.SessionMissing id)
      /\ Mem.after (Mem.EndSession now id) st = st
      /\ Mem.after (Mem.UpdateSession id updates) st = st
  | Some session =>
      exists st' st'',
        Mem.endSession now id st = inr (Mem.ended now session, st')
        /\ Mem.getSession id st' = Some (Mem.ended now session)
        /\ (forall id', id' <> id ->
            Mem.getSession id' st' = Mem.getSession id' st)
        /\ map fst (Mem.m_sessions st') = map fst (Mem.m_sessions st)
        /\ Mem.getActiveSessions st'
           = Mem.values
               (List.filter
                  (fun entry =>
                     s_isActive (snd entry) && negb (Z.eqb (fst entry) id))
                  (Mem.m_sessions st))
        /\ Mem.updateSession id updates st
           = inr (Mem.merged updates session, st'')
        /\ Mem.getSession id st'' = Some (Mem.merged updates session)
        /\ (forall id', id' <> id ->
            Mem.getSession id' st'' = Mem.getSession id' st)
        /\ map fst (Mem.m_sessions st'') = map fst (Mem.m_sessions st)
  end.
Proof.
  intros st.
  pose proof (afterAll_session_keys_NoDup calls) as Hnd. fold st in Hnd.
  unfold Mem.getSession.
  destruct (Mem.get id (Mem.m_sessions st)) as [session|] eqn:Hg.
  - eexists _, _. split.
    { unfold Mem.endSession. rewrite Hg. reflexivity. }
    cbn [Mem.m_sessions Mem.withSessions].
    split.
    { rewrite Mem_get_set. destruct (decide (id = id)); congruence. }
    split.
    { intros id' Hne. rewrite Mem_get_set.
      destruct (decide (id = id')); congruence. }
    split; [exact (Mem_set_present _ _ _ _ Hg) |].
    split.
    { unfold Mem.getActiveSessions, Mem.values.
      cbn [Mem.m_sessions Mem.withSessions].
      rewrite (Mem_set_NoDup _ _ _ _ Hnd Hg).
      apply filter_inactive_replaced. reflexivity. }
    split.
    { unfold Mem.updateSession. rewrite Hg. reflexivity. }
    cbn [Mem.m_sessions Mem.withSessions].
    split.
    { rewrite Mem_get_set. destruct (decide (id = id)); congruence. }
    split.
    { intros id' Hne. rewrite Mem_get_set.
      destruct (decide (id = id')); congruence. }
    exact (Mem_set_present _ _ _ _ Hg).
  - unfold Mem.after, Mem.endSession, Mem.updateSession. rewrite Hg.
    repeat split.
Qed.

(** ** Reflections *)

Lemma orderBy_length {A : Type} (le : A -> A -> bool) (l : list A) :
  List.length (orderBy le l) = List.length l.
Proof. apply Permutation_length, orderBy_perm. Qed.

Lemma orderBy_snoc {A : Type} (le : A -> A -> bool) (l : list A) (x : A) :
  orderBy le (l ++ [x]) = insertSorted le x (orderBy le l).
Proof. unfold orderBy. rewrite fold_left_app. reflexivity. Qed.

(** X26.  [createReflection] after any sequence of calls.  The reflection
    is stored under its id whether its session exists or not, and nothing
    is thrown.  [getReflectionsBySession] then returns one more reflection
    for its session, the new one, and what it returned before for every
    other session.  If the session exists its counter [totalReflections]
    is one more and nothing else of it changes; if it does not, no session
    changes. *)
Theorem MemStorage_createReflection_counts (calls : list Mem.Call) (now : N)
    (ins : InsertReflection) :
  let st := Mem.afterAll calls in
  let sid := ir_sessionId ins in
  let reflection := fst (Mem.createReflection now ins st) in
  let st' := snd (Mem.createReflection now ins st) in
  Mem.getReflection (r_id reflection) st' = Some reflection
  /\ Mem.getReflection (r_id reflection) st = None
  /\ Permutation (Mem.getReflectionsBySession sid st')
       (reflection :: Mem.getReflectionsBySession sid st)
  /\ (forall sid', sid' <> sid ->
      Mem.getReflectionsBySession sid' st'
      = Mem.getReflectionsBySession sid' st)
  /\ match Mem.getSession sid st with
     | Some session =>
         Mem.getSession sid st'
         = Some (setTotalReflections (s_totalReflections session + 1) session)
     | None => Mem.m_sessions st' = Mem.m_sessions st
     end
  /\ (forall id, id <> sid -> Mem.getSession id st' = Mem.getSession id st).
Proof.
  intros st sid reflection st'.
  destruct (afterAll_sequentialKeys calls) as (_ & _ & (HR & HRc) & _).
  fold st in HR, HRc.
  assert (r_id reflection = Mem.currentReflectionId st) as Hid by reflexivity.
  assert (Mem.m_reflections st'
          = Mem.set (r_id reflection) reflection (Mem.m_reflections st))
    as Hst'.
  { unfold st', Mem.createReflection. cbn [snd].
    destruct (Mem.get _ _); reflexivity. }
  destruct (Mem_keys_next reflection _ _ HR) as [Happ _].
  rewrite <- HRc, <- Hid in Happ.
  assert (r_sessionId reflection = sid) as Hsid by reflexivity.
  split.
  { unfold Mem.getReflection. rewrite Hst', Mem_get_set.
    destruct (decide (r_id reflection = r_id reflection)); congruence. }
  split.
  { unfold Mem.getReflection. apply Mem_get_None. rewrite HR, Hid, HRc, in_seq.
    lia. }
  split.
  { unfold Mem.getReflectionsBySession, Mem.values.
    rewrite Hst', Happ, map_app, List.filter_app. cbn [map snd List.filter].
    rewrite Hsid, Z.eqb_refl, orderBy_snoc. apply insertSorted_perm. }
  split.
  { intros sid' Hne. unfold Mem.getReflectionsBySession, Mem.values.
    rewrite Hst', Happ, map_app, List.filter_app. cbn [map snd List.filter].
    rewrite Hsid. apply not_eq_sym, Z.eqb_neq in Hne. rewrite Hne.
    rewrite app_nil_r. reflexivity. }
  unfold Mem.getSession, st', Mem.createReflection. cbn [snd].
  cbn [Mem.m_sessions Mem.withReflections].
  fold sid. destruct (Mem.get sid (Mem.m_sessions st)) as [session|] eqn:Hg.
  - cbn [Mem.m_sessions Mem.withSessions Mem.withReflections]. split.
    + rewrite Mem_get_set. destruct (decide (sid = sid)); congruence.
    + intros id Hne. rewrite Mem_get_set.
      destruct (decide (sid = id)); congruence.
  - cbn [Mem.m_sessions Mem.withReflections]. split; reflexivity.
Qed.

Lemma reflections_after (call : Mem.Call) (st : Mem.Storage) :
  Mem.m_reflections (Mem.after call st)
  = match call with
    | Mem.CreateReflection now ins =>
        Mem.set (Mem.currentReflectionId st)
          (fst (Mem.createReflection now ins st)) (Mem.m_reflections st)
    | _ => Mem.m_reflections st
    end.
Proof.
  destruct call; cbn [Mem.after]; try reflexivity.
  - unfold Mem.updateSession. destruct (Mem.get _ _); reflexivity.
  - unfold Mem.endSession. destruct (Mem.get _ _); reflexivity.
  - unfold Mem.createReflection. cbn [snd fst].
    destruct (Mem.get _ _); reflexivity.
  - unfold Mem.updateGeneratedContent. destruct (Mem.get _ _); reflexivity.
Qed.

(** [getReflectionsBySession] returns as many reflections as were created
    for the session. *)
Lemma reflections_created (sessionId : Z) (calls : list Mem.Call) :
  List.length (Mem.getReflectionsBySession sessionId (Mem.afterAll calls))
  = callsOf (isReflectionOf sessionId) calls.
Proof.
  unfold Mem.getReflectionsBySession. rewrite orderBy_length.
  induction calls as [|call calls IH] using rev_ind; [reflexivity |].
  rewrite afterAll_snoc, callsOf_snoc, reflections_after.
  destruct (afterAll_sequentialKeys calls) as (_ & _ & (HR & HRc) & _).
  destruct call; cbn [isReflectionOf]; try exact IH.
  rewrite HRc.
  match goal with
  | |- context [Mem.set _ ?r _] => destruct (Mem_keys_next r _ _ HR) as [-> _]
  end.
  unfold Mem.values in *. rewrite map_app, List.filter_app, length_app, IH.
  cbn [map snd List.filter Mem.createReflection fst r_sessionId].
  destruct (Z.eqb (ir_sessionId ins) sessionId); cbn [List.length]; lia.
Qed.

(** The counter of a session, when [updateSession] is not called after its
    creation. *)
Lemma counter_after (before later : list Mem.Call) (now : N)
    (name objective : string) :
  forallb (fun call => negb (isUpdateSession call)) later = true ->
  let id := Z.of_nat (S (callsOf isCreateSession before)) in
  exists session,
    Mem.getSession id
      (Mem.afterAll (before ++ Mem.CreateSession now name objective :: later))
    = Some session
    /\ s_totalReflections session = callsOf (isReflectionOf id) later.
Proof.
  intros Hlater id. unfold Mem.getSession.
  induction later as [|call later IH] using rev_ind.
  - rewrite afterAll_snoc. cbn [Mem.after].
    destruct (afterAll_sequentialKeys before) as (_ & (HS & HSc) & _).
    unfold Mem.createSession. cbn [snd Mem.m_sessions Mem.withSessions].
    rewrite Mem_get_set, HSc. fold id.
    destruct (decide (id = id)); [| congruence].
    eexists. split; reflexivity.
  - rewrite forallb_app in Hlater. apply andb_prop in Hlater as [Hl Hc].
    cbn [forallb] in Hc. rewrite andb_true_r in Hc.
    destruct (IH Hl) as (session & Hg & Hn). clear IH.
    rewrite app_comm_cons, app_assoc, afterAll_snoc, callsOf_snoc.
    set (calls := (before ++ Mem.CreateSession now name objective :: later)%list)
      in *.
    set (st := Mem.afterAll calls) in *.
    destruct call; cbn [isReflectionOf Mem.after]; cbn [isUpdateSession negb] in Hc;
      try discriminate.
    + exists session. split; [exact Hg | exact Hn].
    + destruct (afterAll_sequentialKeys calls) as (_ & (HS & HSc) & _).
      fold st in HS, HSc.
      unfold Mem.createSession. cbn [snd Mem.m_sessions Mem.withSessions].
      rewrite Mem_get_set.
      destruct (decide (Mem.currentSessionId st = id)) as [He|_].
      * exfalso.
        assert (Mem.get id (Mem.m_sessions st) = None) as Hnone.
        { apply Mem_get_None. rewrite HS, <- He, HSc, in_map_iff.
          intros (k & Hk & Hin). apply in_seq in Hin. lia. }
        congruence.
      * exists session. split; [exact Hg | exact Hn].
    + unfold Mem.endSession.
      destruct (Mem.get id0 (Mem.m_sessions st)) as [session0|] eqn:Hg0.
      * cbn [Mem.m_sessions Mem.withSessions]. rewrite Mem_get_set.
        destruct (decide (id0 = id)) as [->|_].
        -- eexists. split; [reflexivity |].
           rewrite Hg in Hg0. injection Hg0 as <-. exact Hn.
        -- exists session. split; [exact Hg | exact Hn].
      * exists session. split; [exact Hg | exact Hn].
    + unfold Mem.createReflection.
      cbn [snd Mem.m_sessions Mem.withReflections].
      destruct (Mem.get (ir_sessionId ins) (Mem.m_sessions st))
        as [session0|] eqn:Hg0.
      * cbn [Mem.m_sessions Mem.withSessions Mem.withReflections].
        rewrite Mem_get_set.
        destruct (decide (ir_sessionId ins = id)) as [He|Hne].
        -- rewrite He, Z.eqb_refl. eexists. split; [reflexivity |].
           rewrite He, Hg in Hg0. injection Hg0 as <-.
           cbn [s_totalReflections setTotalReflections]. lia.
        -- apply Z.eqb_neq in Hne. rewrite Hne.
           exists session. split; [exact Hg | exact Hn].
      * cbn [Mem.m_sessions Mem.withReflections].
        destruct (Z.eqb (ir_sessionId ins) id) eqn:He.
        -- apply Z.eqb_eq in He. congruence.
        -- exists session. split; [exact Hg | exact Hn].
    + exists session. split; [exact Hg | exact Hn].
    + exists session. split; [exact Hg | exact Hn].
    + unfold Mem.updateGeneratedContent.
      destruct (Mem.get id0 (Mem.m_generatedContent st));
        exists session; (split; [exact Hg | exact Hn]).
Qed.

(** X27.  The counter [totalReflections] of [MemStorage] counts calls, not
    rows.  For the session that a [createSession] call makes, after any
    calls before it and any calls but [updateSession] after it: the counter
    is the number of [createReflection] calls made for its id since its
    creation, whereas [getReflectionsBySession] returns also the
    reflections that were created for this id before the session existed.
    So the counter never exceeds the number of reflections of the session,
    and is less exactly when such earlier reflections exist. *)
Theorem MemStorage_totalReflections_counts_the_calls
    (before later : list Mem.Call) (now : N) (name objective : string) :
  forallb (fun call => negb (isUpdateSession call)) later = true ->
  let id := Z.of_nat (S (callsOf isCreateSession before)) in
  let st :=
    Mem.afterAll (before ++ Mem.CreateSession now name objective :: later) in
  exists session,
    Mem.getSession id st = Some session
    /\ s_totalReflections session = callsOf (isReflectionOf id) later
    /\ List.length (Mem.getReflectionsBySession id st)
       = callsOf (isReflectionOf id) before
         + callsOf (isReflectionOf id) later
    /\ s_totalReflections session
       <= List.length (Mem.getReflectionsBySession id st).
Proof.
  intros Hlater id st.
  destruct (counter_after before later now name objective Hlater)
    as (session & Hg & Hn).
  assert (List.length (Mem.getReflectionsBySession id st)
          = callsOf (isReflectionOf id) before
            + callsOf (isReflectionOf id) later) as Hlen.
  { unfold st. rewrite reflections_created. unfold callsOf.
    rewrite List.filter_app, length_app. cbn [List.filter isReflectionOf].
    reflexivity. }
  exists session. split; [exact Hg |]. split; [exact Hn |].
  split; [exact Hlen |]. rewrite Hlen, Hn. apply Nat.le_add_l.
Qed.

(** ** Memory insights *)

Lemma StronglySorted_take {A : Type} (R : A -> A -> Prop) (l : list A)
    (n : nat) :
  StronglySorted R l -> StronglySorted R (take n l).
Proof.
  intros Hs. revert n. induction Hs as [|a l Hs IH Ha]; intros n.
  - rewrite take_nil. constructor.
  - destruct n as [|n]; [constructor |]. cbn [take].
    constructor; [apply IH |].
    apply List.Forall_forall. intros x Hx.
    rewrite List.Forall_forall in Ha. apply Ha.
    rewrite <- (take_drop n l). apply in_or_app. left. exact Hx.
Qed.

(** X28.  [getRecentMemoryInsights(limit)] of [MemStorage], on any
    storage.  With a limit that is not negative it returns [limit]
    insights, or all when there are fewer; with a negative limit it does
    not return nothing: [slice] then counts from the end, and all insights
    but the [-limit] oldest are returned.  In both cases they come newest
    first, and no insight that is left out is newer than one that is
    returned. *)
Theorem MemStorage_getRecentMemoryInsights_newest (limit : Z)
    (st : Mem.Storage) :
  let all := Mem.values (Mem.m_memoryInsights st) in
  let rs := Mem.getRecentMemoryInsights limit st in
  List.length rs
  = (if (limit <? 0)%Z then List.length all - Z.to_nat (- limit)
     else Nat.min (Z.to_nat limit) (List.length all))
  /\ StronglySorted (fun a b => (mi_timestamp b <= mi_timestamp a)%N) rs
  /\ exists rest,
       Permutation (rs ++ rest) all
       /\ (forall x y, In x rs -> In y rest ->
           (mi_timestamp y <= mi_timestamp x)%N).
Proof.
  intros all rs. unfold rs, Mem.getRecentMemoryInsights, Mem.slice0.
  fold all.
  set (le := fun a b : MemoryInsight =>
               N.leb (mi_timestamp b) (mi_timestamp a)).
  assert (StronglySorted (fun a b => (mi_timestamp b <= mi_timestamp a)%N)
            (orderBy le all)) as Hsorted.
  { eapply StronglySorted_weaken; [| apply (orderBy_sorted le)].
    - intros a b Hab. now apply N.leb_le.
    - intros a b. unfold le. rewrite !N.leb_le. lia.
    - intros a b c. unfold le. rewrite !N.leb_le. lia. }
  rewrite orderBy_length.
  set (n := if (limit <? 0)%Z
            then Z.to_nat (Z.of_nat (List.length all) + limit)
            else Z.to_nat limit).
  assert ((if (limit <? 0)%Z
           then take (Z.to_nat (Z.of_nat (List.length all) + limit))
                  (orderBy le all)
           else take (Z.to_nat limit) (orderBy le all))
          = take n (orderBy le all)) as ->.
  { unfold n. destruct (limit <? 0)%Z; reflexivity. }
  split.
  { rewrite length_take, orderBy_length. unfold n.
    destruct (limit <? 0)%Z eqn:Hneg; [| reflexivity].
    apply Z.ltb_lt in Hneg. lia. }
  split; [apply StronglySorted_take, Hsorted |].
  exists (drop n (orderBy le all)). split.
  - rewrite take_drop. apply orderBy_perm.
  - intros x y Hx Hy.
    exact (StronglySorted_take_drop _ _ n Hsorted x y Hx Hy).
Qed.

(** ** Users *)

Lemma find_snoc {A : Type} (p : A -> bool) (l : list A) (x : A) :
  List.find p (l ++ [x])
  = match List.find p l with
    | Some y => Some y
    | None => if p x then Some x else None
    end.
Proof.
  induction l as [|y l IH]; cbn [app List.find]; [reflexivity |].
  destruct (p y); [reflexivity | exact IH].
Qed.

(** X29.  [createUser] of [MemStorage] does not check that the name is
    free.  After any sequence of calls, the new user is stored and
    [getUser] returns it for its id; but [getUserByUsername] returns it
    only if no user had the name: otherwise it goes on returning the user
    who was created first with that name.  For every other name it returns
    what it returned before. *)
Theorem MemStorage_the_first_user_keeps_the_name (calls : list Mem.Call)
    (username password : string) :
  let st := Mem.afterAll calls in
  let user := fst (Mem.createUser username password st) in
  let st' := snd (Mem.createUser username password st) in
  Mem.getUser (Mem.u_id user) st = None
  /\ Mem.getUser (Mem.u_id user) st' = Some user
  /\ Mem.getUserByUsername username st'
     = match Mem.getUserByUsername username st with
       | Some first => Some first
       | None => Some user
       end
  /\ (forall other, other <> username ->
      Mem.getUserByUsername other st' = Mem.getUserByUsername other st)
  /\ (forall id, id <> Mem.u_id user ->
      Mem.getUser id st' = Mem.getUser id st).
Proof.
  intros st user st'.
  destruct (afterAll_sequentialKeys calls) as ((HU & HUc) & _).
  fold st in HU, HUc.
  assert (Mem.u_id user = Mem.currentUserId st) as Hid by reflexivity.
  assert (Mem.m_users st' = Mem.set (Mem.u_id user) user (Mem.m_users st))
    as Hst' by reflexivity.
  destruct (Mem_keys_next user _ _ HU) as [Happ _].
  rewrite <- HUc, <- Hid in Happ.
  split.
  { unfold Mem.getUser. apply Mem_get_None. rewrite HU, Hid, HUc, in_seq.
    lia. }
  split.
  { unfold Mem.getUser. rewrite Hst', Mem_get_set.
    destruct (decide (Mem.u_id user = Mem.u_id user)); congruence. }
  split.
  { unfold Mem.getUserByUsername, Mem.values.
    rewrite Hst', Happ, map_app. cbn [map snd]. rewrite find_snoc.
    destruct (List.find _ (map snd (Mem.m_users st))); [reflexivity |].
    cbn [Mem.u_username user Mem.createUser fst].
    rewrite String.eqb_refl. reflexivity. }
  split.
  { intros other Hne. unfold Mem.getUserByUsername, Mem.values.
    rewrite Hst', Happ, map_app. cbn [map snd]. rewrite find_snoc.
    destruct (List.find _ (map snd (Mem.m_users st))); [reflexivity |].
    cbn [Mem.u_username user Mem.createUser fst].
    apply not_eq_sym, String.eqb_neq in Hne. rewrite Hne. reflexivity. }
  intros id Hne. unfold Mem.getUser. rewrite Hst', Mem_get_set.
  destruct (decide (Mem.u_id user = id)); congruence.
Qed.

(** * The theorems at sample inputs *)

Lemma quietOracle_accepts : NoFail quietOracle.
Proof. intros t. reflexivity. Qed.


Lemma startReflectionLoop_reflections_witness :
  NoFail quietOracle
  /\ NoStop quietOracle
  /\ (0 <= 1)%Z
  /\ List.find (fun s => Z.eqb (s_id s) 1) (sessions (db idleWorld)) <> None
  /\ exists w',
       startReflectionLoop quietOracle 1 "hello world" 1 0 idleWorld
       = (Ok tt, w')
       /\ map reflKey (reflections (db w'))
          = (map reflKey (reflections (db idleWorld))
             ++ (1%Z, 0%Z, user_input)
                :: flat_map
                     (fun c =>
                        [ (1%Z, Z.of_nat c, analysis);
                          (1%Z, Z.of_nat c, memory_recall);
                          (1%Z, Z.of_nat c,
                           if Z.eqb (Z.of_nat c) 1 then strategy
                           else refinement) ]
                        ++ (if (0 <? 0)%Z
                            then [(1%Z, Z.of_nat c, noise_injection)]
                            else []))
                     (seq 1 (Z.to_nat 1)))%list.
Proof.
  assert (NoFail quietOracle) as HF by (intros t; reflexivity).
  assert (NoStop quietOracle) as HS by (intros t; reflexivity).
  assert ((0 <= 1)%Z) as HN by lia.
  assert (List.find (fun s => Z.eqb (s_id s) 1) (sessions (db idleWorld))
          <> None) as Hs by (vm_compute; discriminate).
  split; [exact HF |]. split; [exact HS |]. split; [exact HN |].
  split; [exact Hs |].
  exact (startReflectionLoop_reflections quietOracle HF 1 "hello world" 1 0
           idleWorld HS HN Hs).
Defined.

Lemma tokenizeText_twice_witness :
  let voc : gmap string nat := {[ "hello" := 0; "world" := 1 ]} in
  NoFail quietOracle
  /\ neuralEngine (engine (activeWorld 1 voc)) = Some (smallEngine voc)
  /\ Forall (fun s => is_Some (vocabulary (smallEngine voc) !! s))
       (textSubwords (vocabulary (smallEngine voc)) "Hello world")
  /\ exists ids w1 w2 e1 e2,
       tokenizeText quietOracle "Hello world" (activeWorld 1 voc)
       = (Ok ids, w1)
       /\ tokenizeText quietOracle "Hello world" w1 = (Ok ids, w2)
       /\ neuralEngine (engine w1) = Some e1
       /\ neuralEngine (engine w2) = Some e2
       /\ vocabulary e2 = vocabulary e1
       /\ size (vocabulary e2) = size (vocabulary e1)
       /\ tokenVocabulary (db w2) = tokenVocabulary (db w1).
Proof.
  intros voc.
  assert (NoFail quietOracle) as HF by (intros t; reflexivity).
  assert (Forall (fun s => is_Some (vocabulary (smallEngine voc) !! s))
            (textSubwords (vocabulary (smallEngine voc)) "Hello world"))
    as Hreg.
  { change (textSubwords (vocabulary (smallEngine voc)) "Hello world")
      with ["hello"; "world"].
    repeat constructor; eexists; vm_compute; reflexivity. }
  split; [exact HF |]. split; [reflexivity |]. split; [exact Hreg |].
  exact (tokenizeText_twice quietOracle (activeWorld 1 voc) (smallEngine voc)
           "Hello world" HF eq_refl Hreg).
Defined.

Lemma tokenizeText_id_zero_reassigned_witness :
  NoFail quietOracle
  /\ neuralEngine (engine (activeWorld 1 ∅)) = Some (smallEngine ∅)
  /\ vocabulary (smallEngine ∅) = ∅
  /\ (exists w' e',
        tokenizeText quietOracle "a a" (activeWorld 1 ∅) = (Ok [0; 1], w')
        /\ neuralEngine (engine w') = Some e'
        /\ vocabulary e' = {[ "a" := 1 ]})
  /\ (exists w1 w2 e2,
        tokenizeText quietOracle "a b" (activeWorld 1 ∅) = (Ok [0; 1], w1)
        /\ tokenizeText quietOracle "a c" w1 = (Ok [2; 2], w2)
        /\ neuralEngine (engine w2) = Some e2
        /\ vocabulary e2 = {[ "a" := 2; "b" := 1; "c" := 2 ]}).
Proof.
  assert (NoFail quietOracle) as HF by (intros t; reflexivity).
  split; [exact HF |]. split; [reflexivity |]. split; [reflexivity |].
  exact (tokenizeText_id_zero_reassigned quietOracle (activeWorld 1 ∅)
           (smallEngine ∅) HF eq_refl eq_refl).
Defined.

Lemma stoppingAt_accepts (t : N) : NoFail (stoppingAt t).
Proof. intros k. reflexivity. Qed.

(** A run of 5 cycles; the stop request is handled during the delay that
    ends cycle 2 (suspension 62). *)
Lemma stop_is_seen_at_the_next_test_witness :
  let O := stoppingAt 62 in
  let w := activeWorld 0 ∅ in
  let w1 :=
    snd (createReflection O
           {| ir_sessionId := 1; ir_cycle := 0; ir_type := user_input;
              ir_content := "hello world";
              ir_metadata := MetaInput 0 5 |} w) in
  NoFail O
  /\ (Z.of_nat 2 <= 5)%Z
  /\ (forall i, i < 2 ->
        isGenerating (engine (bodiesFrom O 1 "hello world" 0 i 1 w1)) = true)
  /\ isGenerating (engine (bodiesFrom O 1 "hello world" 0 2 1 w1)) = false
  /\ isGenerating (engine (stop w)) = false
  /\ exists w',
       runReflectionLoop O 1 "hello world" 5 0 w = (Ok tt, w')
       /\ map reflKey (reflections (db w'))
          = (map reflKey (reflections (db w))
             ++ (1%Z, 0%Z, user_input) :: cycleGroups 1 0 2)%list
       /\ map contentKey (generatedContent (db w'))
          = (map contentKey (generatedContent (db w)) ++ [(1%Z, true)])%list
       /\ (forall wb,
             beginReflectionLoop O 1 wb = (Ok tt, w) ->
             startReflectionLoop O 1 "hello world" 5 0 wb = (Ok tt, w')).
Proof.
  intros O w w1.
  assert (NoFail O) as HF by (intros k; reflexivity).
  assert ((Z.of_nat 2 <= 5)%Z) as HN by lia.
  assert (forall i, i < 2 ->
            isGenerating (engine (bodiesFrom O 1 "hello world" 0 i 1 w1))
            = true) as Hflags.
  { intros [|[|i]] Hi; [vm_compute; reflexivity | vm_compute; reflexivity |].
    lia. }
  assert (isGenerating (engine (bodiesFrom O 1 "hello world" 0 2 1 w1))
          = false) as Hstop by (vm_compute; reflexivity).
  split; [exact HF |]. split; [exact HN |]. split; [exact Hflags |].
  split; [exact Hstop |].
  exact (stop_is_seen_at_the_next_test O HF 1 "hello world" 5 0 2 w HN Hflags
           Hstop).
Defined.

(** The insert of the analysis reflection of cycle 1 (suspension 5) is
    rejected. *)
Lemma rejected_call_aborts_the_cycle_witness :
  let O := failingAt 5 in
  let w := activeWorld 0 ∅ in
  let ins :=
    {| ir_sessionId := 1; ir_cycle := 0; ir_type := user_input;
       ir_content := "hello world"; ir_metadata := MetaInput 0 1 |} in
  let w1 := snd (createReflection O ins w) in
  let wj := bodiesFrom O 1 "hello world" 0 0 1 w1 in
  (exists r, fst (createReflection O ins w) = Ok r)
  /\ (forall i, i < 0 ->
        isGenerating (engine (bodiesFrom O 1 "hello world" 0 i 1 w1)) = true
        /\ fst (cycleBody O 1 "hello world" (1 + Z.of_nat i) 0
                  (bodiesFrom O 1 "hello world" 0 i 1 w1)) = Ok tt)
  /\ isGenerating (engine wj) = true
  /\ (Z.of_nat 0 < 1)%Z
  /\ (tick wj <= 5 < tick wj + cycleCalls 0)%N
  /\ firstRejected O (tick wj) 5
  /\ (exists operation w',
        runReflectionLoop O 1 "hello world" 1 0 w
        = (Throw (PersistenceFailure operation 5), w')
        /\ tick w' = (5 + 1)%N
        /\ forall wb,
             beginReflectionLoop O 1 wb = (Ok tt, w) ->
             startReflectionLoop O 1 "hello world" 1 0 wb
             = (Throw (PersistenceFailure operation 5),
                pushConsole
                  (LogReflectionLoopError (PersistenceFailure operation 5))
                  w'))
  /\ (openaiReply O (tick w) <> None
      /\ (tick w < 5)%N
      /\ firstRejected O (tick w + 1) 5
      /\ (5 < tick (snd (trainStep O "hello world" w)))%N
      /\ exists operation w0',
           trainStep O "hello world" w = (Ok tt, w0')
           /\ console w0'
              = (console w
                 ++ [LogTrainingStepError
                       (PersistenceFailure operation 5)])%list
           /\ tick w0' = (5 + 1)%N).
Proof.
  intros O w ins w1 wj.
  assert (exists r, fst (createReflection O ins w) = Ok r) as H1
    by (eexists; vm_compute; reflexivity).
  assert (forall i, i < 0 ->
            isGenerating (engine (bodiesFrom O 1 "hello world" 0 i 1 w1))
            = true
            /\ fst (cycleBody O 1 "hello world" (1 + Z.of_nat i) 0
                      (bodiesFrom O 1 "hello world" 0 i 1 w1)) = Ok tt) as H2
    by (intros i Hi; lia).
  assert (isGenerating (engine wj) = true) as H3 by (vm_compute; reflexivity).
  assert ((Z.of_nat 0 < 1)%Z) as H4 by lia.
  assert (tick wj = 3%N) as Htick by (vm_compute; reflexivity).
  assert ((tick wj <= 5 < tick wj + cycleCalls 0)%N) as H5
    by (rewrite Htick; vm_compute; split; [discriminate | reflexivity]).
  assert (firstRejected O (tick wj) 5) as H6.
  { rewrite Htick. split; [reflexivity |].
    intros t' Ht'. apply N.eqb_neq. lia. }
  assert (openaiReply O (tick w) <> None) as H7 by discriminate.
  assert ((tick w < 5)%N) as H8 by reflexivity.
  assert (firstRejected O (tick w + 1) 5) as H9.
  { split; [reflexivity |]. intros t' Ht'. apply N.eqb_neq.
    cbn [tick w activeWorld] in Ht'. lia. }
  assert ((5 < tick (snd (trainStep O "hello world" w)))%N) as H10
    by (vm_compute; reflexivity).
  destruct (rejected_call_aborts_the_cycle O 1 "hello world" 1 0 0 w 5
              H1 H2 H3 H4 H5 H6) as (C1 & _ & C3 & _).
  split; [exact H1 |]. split; [exact H2 |]. split; [exact H3 |].
  split; [exact H4 |]. split; [exact H5 |]. split; [exact H6 |].
  split; [exact C1 |].
  split; [exact H7 |]. split; [exact H8 |]. split; [exact H9 |].
  split; [exact H10 |].
  exact (C3 "hello world" w 5%N H7 H8 H9 H10).
Defined.

(** C7 as stated fails.  The database rejects the second
    [createTokenVocabulary] of the training step of cycle 1 (suspension
    17): the error is caught and logged by [trainStep], and the run goes on
    to a completed content and returns. *)
Lemma rejected_call_in_trainStep_is_swallowed :
  let run :=
    runReflectionLoop (failingAt 17) 1 "hello world" 1 0 (activeWorld 0 ∅) in
  dbFails (failingAt 17) 17 = true
  /\ fst run = Ok tt
  /\ console (snd run)
     = [LogTrainingStepError (PersistenceFailure "createTokenVocabulary" 17)]
  /\ map reflKey (reflections (db (snd run)))
     = (1%Z, 0%Z, user_input) :: cycleGroups 1 0 1
  /\ map contentKey (generatedContent (db (snd run))) = [(1%Z, true)].
Proof.
  intros run. repeat split; vm_compute; reflexivity.
Qed.



(** The update run on the sample engine with a loss of 0: the first bias
    of every layer, which was 5, is NaN, and the second one is 6 - 0. *)
Lemma updateWeights_at_loss_zero :
  option_map biases
    (neuralEngine
       (engine (snd (updateWeights quietOracle 0 "a" "b" (activeWorld 1 ∅)))))
  = Some
      [ ("embedding", [NaN; Num (6 - (1 # 1000) * 0)]);
        ("attention", [NaN; Num (6 - (1 # 1000) * 0)]);
        ("feedforward", [NaN; Num (6 - (1 # 1000) * 0)]);
        ("output", [NaN; Num (6 - (1 # 1000) * 0)]) ].
Proof. reflexivity. Qed.

Lemma matrixVectorMultiply_reads_a_padded_vector_witness :
  Forall (fun row => List.length row <= 2) [[Num 1; Num 2]]
  /\ List.length (matrixVectorMultiply [[Num 1; Num 2]] [Num 3])
     = List.length [[Num 1; Num 2]]
  /\ matrixVectorMultiply [[Num 1; Num 2]] ([Num 3] ++ repeat (Num 0) 1)%list
     = matrixVectorMultiply [[Num 1; Num 2]] [Num 3]
  /\ matrixVectorMultiply [[Num 1; Num 2]] (take 2 [Num 3])
     = matrixVectorMultiply [[Num 1; Num 2]] [Num 3]
  /\ matrixVectorMultiply [[Num 1; Num 2]] (map nanToZero [Num 3])
     = matrixVectorMultiply [[Num 1; Num 2]] [Num 3].
Proof.
  assert (Forall (fun row => List.length row <= 2) [[Num 1; Num 2]]) as H
    by (repeat constructor).
  split; [exact H |].
  exact (matrixVectorMultiply_reads_a_padded_vector
           [[Num 1; Num 2]] [Num 3] 2 1 H).
Defined.

Lemma forwardLogits_shape_witness :
  mapGet "attention" (weights (smallEngine ∅)) = Some [[Num 1; Num 2]]
  /\ mapGet "feedforward" (weights (smallEngine ∅)) = Some [[Num 1; Num 2]]
  /\ mapGet "output" (weights (smallEngine ∅)) = Some [[Num 1; Num 2]]
  /\ (exists logits,
        forwardLogits (smallEngine ∅) [[Num 1]; [Num 2; Num 3]] = Some logits
        /\ List.length logits = List.length [[Num 1]; [Num 2; Num 3]]
        /\ Forall (fun l => List.length l = List.length [[Num 1; Num 2]])
             logits)
  /\ (forall e0, forwardLogits e0 [] = Some [])
  /\ (forall e0 v vs,
        mapGet "attention" (weights e0) = None ->
        forwardLogits e0 (v :: vs) = None).
Proof.
  split; [reflexivity |]. split; [reflexivity |]. split; [reflexivity |].
  exact (forwardLogits_shape (smallEngine ∅) [[Num 1; Num 2]]
           [[Num 1; Num 2]] [[Num 1; Num 2]] [[Num 1]; [Num 2; Num 3]]
           eq_refl eq_refl eq_refl).
Defined.

Lemma sampleFromLogits_index_witness :
  [2%R; 2%R; 2%R] <> []
  /\ (0 <= sampleFromLogits [2%R; 2%R; 2%R] 0
      < Z.of_nat (List.length [2%R; 2%R; 2%R]))%Z
  /\ ((0 <= 0 < 1)%R ->
      exists i,
        sampleFromLogits [2%R; 2%R; 2%R] 0 = Z.of_nat i
        /\ (sumR (take i (softmax [2%R; 2%R; 2%R])) <= 0
            < sumR (take (S i) (softmax [2%R; 2%R; 2%R])))%R)
  /\ sampleFromLogits [] 0 = (-1)%Z.
Proof.
  split; [discriminate |].
  apply (sampleFromLogits_index [2%R; 2%R; 2%R] 0). discriminate.
Defined.

Lemma detokenize_of_ids_witness :
  NoDup (map snd [("a", 0); ("b", 1)])
  /\ (forall p, p ∈ [("b", 1); ("a", 0)] -> p ∈ [("a", 0); ("b", 1)])
  /\ detokenize [("a", 0); ("b", 1)]
       (map (fun p => Z.of_nat (snd p)) [("b", 1); ("a", 0)])
     = JS.join " " (map fst [("b", 1); ("a", 0)]).
Proof.
  assert (NoDup (map snd [("a", 0); ("b", 1)])) as Hnd
    by (cbn; apply NoDup_cons_2;
        [intros H; apply list_elem_of_singleton in H; discriminate
        | apply NoDup_singleton]).
  assert (forall p, p ∈ [("b", 1); ("a", 0)] -> p ∈ [("a", 0); ("b", 1)])
    as Hin.
  { intros p Hp. apply elem_of_cons in Hp as [-> | Hp].
    - apply list_elem_of_further, list_elem_of_here.
    - apply list_elem_of_singleton in Hp as ->. apply list_elem_of_here. }
  split; [exact Hnd |]. split; [exact Hin |].
  exact (detokenize_of_ids [("a", 0); ("b", 1)] [("b", 1); ("a", 0)] Hnd Hin).
Defined.

Lemma tokenizeText_keeps_the_entries_short_witness :
  shortVocabulary (activeWorld 1 ∅)
  /\ shortVocabulary
       (snd (tokenizeText quietOracle "hello world" (activeWorld 1 ∅)))
  /\ (forall e' word,
        neuralEngine
          (engine (snd (tokenizeText quietOracle "hello world"
                          (activeWorld 1 ∅))))
        = Some e' ->
        Forall (fun s => String.length s <= 3)
          (getSubwords (vocabulary e') word))
  /\ (forall sid w0,
        shortVocabulary (snd (newNeuralEngine quietOracle sid w0))).
Proof.
  assert (shortVocabulary (activeWorld 1 ∅)) as H.
  { intros e He. cbn in He. injection He as <-. intros k [x Hk].
    cbn in Hk. rewrite lookup_empty in Hk. discriminate. }
  split; [exact H |].
  exact (tokenizeText_keeps_the_entries_short quietOracle "hello world"
           (activeWorld 1 ∅) H).
Defined.

Lemma tokenizeText_returns_an_id_for_each_word_witness :
  NoFail quietOracle
  /\ neuralEngine (engine (activeWorld 1 ∅)) = Some (smallEngine ∅)
  /\ (exists ids w',
        tokenizeText quietOracle "Hello world" (activeWorld 1 ∅)
        = (Ok ids, w')
        /\ 1 <= List.length
                  (JS.splitWhiteSpace false (JS.toLowerCase "Hello world"))
             <= List.length ids
        /\ (Forall (fun word => String.length word <= 3)
              (JS.splitWhiteSpace false (JS.toLowerCase "Hello world")) ->
            List.length ids
            = List.length
                (JS.splitWhiteSpace false (JS.toLowerCase "Hello world"))))
  /\ exists id w' e',
       tokenizeText quietOracle EmptyString (activeWorld 1 ∅) = (Ok [id], w')
       /\ neuralEngine (engine w') = Some e'
       /\ vocabulary e' !! EmptyString = Some id.
Proof.
  split; [exact quietOracle_accepts |]. split; [reflexivity |].
  exact (tokenizeText_returns_an_id_for_each_word quietOracle "Hello world"
           (activeWorld 1 ∅) (smallEngine ∅) quietOracle_accepts eq_refl).
Defined.

Lemma start_on_an_unknown_session_witness :
  let O := quietOracle in
  let w := idleWorld in
  let w1 := updEngine (setSession None) (afterSuspend O w) in
  dbFails O (tick w) = false
  /\ List.find (fun s => Z.eqb (s_id s) 7) (sessions (db w)) = None
  /\ startReflectionLoop O 7 "hello" 3 15 w = (Throw SessionNotFound, w1)
  /\ postStartReflection O 7 "hello" 3 15 w
     = (Ok {| status := 200; message := "Reflection started" |},
        pushConsole (LogReflectionLoopError SessionNotFound) w1)
  /\ db w1 = db w
  /\ neuralEngine (engine w1) = neuralEngine (engine w)
  /\ (forall sid' userInput' reflectionCycles' noiseLevel' w0,
        fst (postStartReflection O sid' userInput' reflectionCycles'
               noiseLevel' w0)
        = Ok {| status := 200; message := "Reflection started" |}).
Proof.
  intros O w w1. split; [reflexivity |]. split; [reflexivity |].
  exact (start_on_an_unknown_session quietOracle 7 "hello" 3 15 idleWorld
           eq_refl eq_refl).
Defined.

Lemma stop_before_the_loop_is_lost_witness :
  let O := stoppingAt 0 in
  let w := activeWorld 2 ∅ in
  NoFail O
  /\ List.find (fun s => Z.eqb (s_id s) 1) (sessions (db w))
     = Some sampleSession
  /\ (exists w0,
        beginReflectionLoop O 1 w = (Ok tt, w0)
        /\ isGenerating (engine w0) = true /\ currentCycle (engine w0) = 0%Z)
  /\ (exists w0,
        beginReflectionLoop O 1 (stop w) = (Ok tt, w0)
        /\ isGenerating (engine (stop w)) = false
        /\ isGenerating (engine w0) = true).
Proof.
  intros O w. split; [exact (stoppingAt_accepts 0) |].
  split; [reflexivity |].
  exact (stop_before_the_loop_is_lost (stoppingAt 0) 1 (activeWorld 2 ∅)
           sampleSession (stoppingAt_accepts 0) eq_refl).
Defined.

Lemma quietOracle_unit_random : UnitRandom quietOracle.
Proof. intros n. split; [discriminate | reflexivity]. Qed.

Lemma updatePerformanceMetrics_ranges_witness :
  UnitRandom quietOracle
  /\ exists (quality progress memory : Z) (time : Q) (w' : World),
       updatePerformanceMetrics quietOracle 1 (activeWorld 1 ∅) = (Ok tt, w')
       /\ sent w'
          = (sent (activeWorld 1 ∅)
             ++ [MsgPerformanceUpdate (inject_Z quality) (inject_Z progress)
                   time (inject_Z memory)])%list
       /\ db w' = db (activeWorld 1 ∅)
       /\ (85 <= quality <= 100)%Z /\ (8 <= progress <= 20)%Z
       /\ (60 <= memory <= 85)%Z /\ (3 # 2 <= time)%Q /\ (time <= 7 # 2)%Q.
Proof.
  split; [exact quietOracle_unit_random |].
  exact (updatePerformanceMetrics_ranges quietOracle 1 (activeWorld 1 ∅)
           quietOracle_unit_random).
Defined.

Lemma createReflection_counts_the_reflections_witness :
  let O := quietOracle in
  let w := activeWorld 1 ∅ in
  let ins :=
    {| ir_sessionId := 1; ir_cycle := 1; ir_type := analysis;
       ir_content := "thinking"; ir_metadata := MetaMemory 0 |} in
  NoFail O
  /\ exists row w',
       createReflection O ins w = (Ok row, w')
       /\ reflections (db w') = (reflections (db w) ++ [row])%list
       /\ r_id row = S (List.length (reflections (db w)))
       /\ reflKey row = (1%Z, ir_cycle ins, ir_type ins)
       /\ (forall s, In s (sessions (db w')) -> s_id s = 1%Z ->
           s_totalReflections s = List.length (reflectionsOf 1 (db w')))
       /\ List.length (reflectionsOf 1 (db w'))
          = S (List.length (reflectionsOf 1 (db w)))
       /\ map s_id (sessions (db w')) = map s_id (sessions (db w))
       /\ exists rs w'',
            getReflectionsBySession O 1 w' = (Ok rs, w'')
            /\ In row rs
            /\ List.length rs = List.length (reflectionsOf 1 (db w')).
Proof.
  intros O w ins. split; [exact quietOracle_accepts |].
  exact (createReflection_counts_the_reflections quietOracle ins w
           quietOracle_accepts).
Defined.

Lemma getReflectionsBySession_sorted_witness :
  let O := quietOracle in
  let w := activeWorld 1 ∅ in
  dbFails O (tick w) = false
  /\ exists rs,
       getReflectionsBySession O 1 w = (Ok rs, afterSuspend O w)
       /\ Permutation rs (reflectionsOf 1 (db w))
       /\ Forall (fun r => r_sessionId r = 1%Z) rs
       /\ StronglySorted (fun a b => (r_timestamp a <= r_timestamp b)%N) rs
       /\ db (afterSuspend O w) = db w.
Proof.
  intros O w. split; [reflexivity |].
  exact (getReflectionsBySession_sorted quietOracle 1 (activeWorld 1 ∅)
           eq_refl).
Defined.

Lemma getRecentMemoryInsights_newest_witness :
  let O := quietOracle in
  let w := activeWorld 1 ∅ in
  dbFails O (tick w) = false
  /\ exists rs rest,
       getRecentMemoryInsights O 10 w = (Ok rs, afterSuspend O w)
       /\ List.length rs
          = Nat.min 10 (List.length (memoryInsights (db w)))
       /\ Permutation (rs ++ rest) (memoryInsights (db w))
       /\ StronglySorted (fun a b => (mi_timestamp b <= mi_timestamp a)%N) rs
       /\ (forall x y, In x rs -> In y rest ->
           (mi_timestamp y <= mi_timestamp x)%N).
Proof.
  intros O w. split; [reflexivity |].
  exact (getRecentMemoryInsights_newest quietOracle 10 (activeWorld 1 ∅)
           eq_refl).
Defined.

Lemma loadWeights_restores_the_oldest_snapshot_witness :
  let O := quietOracle in
  NoFail O
  /\ neuralEngine (engine twoSnapshots) = Some (smallEngine ∅)
  /\ StronglySorted (fun a b => (mw_lastUpdated a < mw_lastUpdated b)%N)
       (modelWeights (db twoSnapshots))
  /\ exists w' e',
       loadWeights O twoSnapshots = (Ok tt, w')
       /\ neuralEngine (engine w') = Some e'
       /\ db w' = db twoSnapshots
       /\ sessionId e' = sessionId (smallEngine ∅)
       /\ forall layer,
            mapGet layer (weights e')
            = match List.find (snapshotOf (sessionId (smallEngine ∅)) layer)
                      (modelWeights (db twoSnapshots)) with
              | Some r => Some (mw_weights r)
              | None => mapGet layer (weights (smallEngine ∅))
              end.
Proof.
  intros O.
  assert (StronglySorted (fun a b => (mw_lastUpdated a < mw_lastUpdated b)%N)
            (modelWeights (db twoSnapshots))) as Hs
    by (repeat constructor).
  split; [exact quietOracle_accepts |]. split; [reflexivity |].
  split; [exact Hs |].
  exact (loadWeights_restores_the_oldest_snapshot quietOracle twoSnapshots
           (smallEngine ∅) quietOracle_accepts eq_refl Hs).
Defined.

(** With the two snapshots of the sample world, the reloaded layer has
    the weights and the biases of the first one. *)
Lemma loadWeights_after_two_snapshots :
  option_map
    (fun e => (mapGet "embedding" (weights e), mapGet "embedding" (biases e)))
    (neuralEngine (engine (snd (loadWeights quietOracle twoSnapshots))))
  = Some (Some [[Num 10]], Some [Num 11]).
Proof. vm_compute. reflexivity. Qed.

Lemma performReflectionCycle_broadcasts_its_rows_witness :
  let O := quietOracle in
  let w := activeWorld 1 ∅ in
  NoFail O
  /\ exists rows insight update w',
       performReflectionCycle O 1 "hello world" 1 15 w = (Ok tt, w')
       /\ reflections (db w') = (reflections (db w) ++ rows)%list
       /\ map reflKey rows = cycleGroup 1 1 15
       /\ map r_id rows
          = seq (S (List.length (reflections (db w)))) (List.length rows)
       /\ memoryInsights (db w') = (memoryInsights (db w) ++ [insight])%list
       /\ mi_sessionId insight = 1%Z
       /\ mi_related_reflections insight = [currentCycle (engine w)]
       /\ sent w'
          = (sent w ++ map MsgReflection rows
             ++ [MsgMemoryInsight insight; update])%list
       /\ exists quality progress time memory,
            update = MsgPerformanceUpdate quality progress time memory.
Proof.
  intros O w. split; [exact quietOracle_accepts |].
  exact (performReflectionCycle_broadcasts_its_rows quietOracle 1
           "hello world" 1 15 (activeWorld 1 ∅) quietOracle_accepts).
Defined.

Lemma generateFinalContent_streams_the_content_witness :
  let O := quietOracle in
  let w := activeWorld 1 ∅ in
  NoFail O
  /\ exists fullContent row msgs w',
       generateFinalContent O 1 "hello world" w = (Ok tt, w')
       /\ generatedContent (db w') = (generatedContent (db w) ++ [row])%list
       /\ gc_sessionId row = 1%Z /\ gc_content row = fullContent
       /\ gc_isComplete row = true
       /\ sent w' = (sent w ++ msgs)%list
       /\ (let words := JS.split " "%char fullContent in
           map generationKey msgs
           = (map (fun k => Some (JS.join " " (take k words), false, k))
                (seq 1 (List.length words))
              ++ [Some (fullContent, true, List.length words)])%list
           /\ JS.join " " (take (List.length words) words) = fullContent)
       /\ (neuralEngine (engine w) = None ->
           exists reflections,
             fullContent = generateTemplateContent "hello world" reflections).
Proof.
  intros O w. split; [exact quietOracle_accepts |].
  exact (generateFinalContent_streams_the_content quietOracle 1
           "hello world" (activeWorld 1 ∅) quietOracle_accepts).
Defined.

Lemma updateWeights_saves_the_updated_layers_witness :
  let O := quietOracle in
  let w := activeWorld 1 ∅ in
  let e := smallEngine ∅ in
  NoFail O
  /\ neuralEngine (engine w) = Some e
  /\ weights e
     = [ ("embedding", [[Num 1; Num 2]]); ("attention", [[Num 1; Num 2]]);
         ("feedforward", [[Num 1; Num 2]]); ("output", [[Num 1; Num 2]]) ]
  /\ biases e
     = [ ("embedding", [Num 5; Num 6]); ("attention", [Num 5; Num 6]);
         ("feedforward", [Num 5; Num 6]); ("output", [Num 5; Num 6]) ]
  /\ numbers (weights e) = true
  /\ exists w' e' rows,
       updateWeights O (1 # 2) "a" "b" w = (Ok tt, w')
       /\ neuralEngine (engine w') = Some e'
       /\ modelWeights (db w') = (modelWeights (db w) ++ rows)%list
       /\ map (fun r => (mw_layerName r, mw_weights r)) rows = weights e'
       /\ numbers (weights e') = true
       /\ map (fun r => (mw_layerName r, List.length <$> mw_biases r)) rows
          = map (fun '(layerName, bs) => (layerName, Some (List.length bs)))
              (biases e')
       /\ Forall (fun r => mw_sessionId r = sessionId e) rows
       /\ map fst (weights e')
          = ["embedding"; "attention"; "feedforward"; "output"]
       /\ sent w' = sent w /\ console w' = console w.
Proof.
  intros O w e. split; [exact quietOracle_accepts |].
  split; [reflexivity |]. split; [reflexivity |]. split; [reflexivity |].
  split; [reflexivity |].
  exact (updateWeights_saves_the_updated_layers quietOracle (1 # 2) "a" "b"
           (activeWorld 1 ∅) (smallEngine ∅) _ _ _ _ _ _ _ _
           quietOracle_accepts eq_refl eq_refl eq_refl eq_refl).
Defined.

Lemma trainStep_stores_a_batch_witness :
  let O := quietOracle in
  let w := activeWorld 1 ∅ in
  let e := smallEngine ∅ in
  NoFail O
  /\ openaiReply O (tick w) = Some "hello there"
  /\ neuralEngine (engine w) = Some e
  /\ weights e
     = [ ("embedding", [[Num 1; Num 2]]); ("attention", [[Num 1; Num 2]]);
         ("feedforward", [[Num 1; Num 2]]); ("output", [[Num 1; Num 2]]) ]
  /\ biases e
     = [ ("embedding", [Num 5; Num 6]); ("attention", [Num 5; Num 6]);
         ("feedforward", [Num 5; Num 6]); ("output", [Num 5; Num 6]) ]
  /\ exists w' e' batch metrics rows quality progress memory,
       trainStep O "hello world" w = (Ok tt, w')
       /\ console w' = console w
       /\ neuralEngine (engine w') = Some e'
       /\ currentEpoch e' = S (currentEpoch e)
       /\ trainingBatches (db w') = (trainingBatches (db w) ++ [batch])%list
       /\ tb_inputText batch = "hello world"
       /\ tb_targetOutput batch = "hello there"
       /\ (0 <= tb_loss batch <= 1)%Q
       /\ learningMetrics (db w') = (learningMetrics (db w) ++ [metrics])%list
       /\ lm_epoch metrics = currentEpoch e
       /\ lm_totalLoss metrics = tb_loss batch
       /\ lm_vocabularySize metrics = size (vocabulary e')
       /\ modelWeights (db w') = (modelWeights (db w) ++ rows)%list
       /\ map mw_layerName rows
          = ["embedding"; "attention"; "feedforward"; "output"]
       /\ sent w'
          = (sent w
             ++ [MsgPerformanceUpdate quality progress (5 # 2) memory])%list
       /\ (0 <= quality <= 100)%Q
       /\ (0 <= progress <= 100)%Q
       /\ (0 <= memory <= 100)%Q.
Proof.
  intros O w e. split; [exact quietOracle_accepts |].
  split; [reflexivity |]. split; [reflexivity |]. split; [reflexivity |].
  split; [reflexivity |].
  exact (trainStep_stores_a_batch quietOracle "hello world" "hello there"
           (activeWorld 1 ∅) (smallEngine ∅) _ _ _ _ _ _ _ _
           quietOracle_accepts eq_refl eq_refl eq_refl eq_refl).
Defined.

Lemma MemStorage_totalReflections_counts_the_calls_witness :
  let ins :=
    {| ir_sessionId := 1; ir_cycle := 0; ir_type := user_input;
       ir_content := "a story"; ir_metadata := MetaInput 15 3 |} in
  let before := [Mem.CreateReflection 1 ins] in
  let later := [Mem.CreateReflection 3 ins; Mem.EndSession 4 1] in
  forallb (fun call => negb (isUpdateSession call)) later = true
  /\ (let id := Z.of_nat (S (callsOf isCreateSession before)) in
      let st :=
        Mem.afterAll
          (before ++ Mem.CreateSession 2 "tale" "write" :: later) in
      exists session,
        Mem.getSession id st = Some session
        /\ s_totalReflections session = callsOf (isReflectionOf id) later
        /\ List.length (Mem.getReflectionsBySession id st)
           = callsOf (isReflectionOf id) before
             + callsOf (isReflectionOf id) later
        /\ s_totalReflections session
           <= List.length (Mem.getReflectionsBySession id st)).
Proof.
  intros ins before later. split; [reflexivity |].
  exact (MemStorage_totalReflections_counts_the_calls before later 2
           "tale" "write" eq_refl).
Defined.
